(* ===== verification/_CoqProject ===== *)
-Q . S2P
Prelude.v
GoStrings.v
GoUnicode.v
Url.v
Errors.v
GoTime.v
Manifest.v
Registry.v
Compat.v
CryptoPolicy.v
Explore.v
Sha256.v
GoAny.v
GoFloat.v
PayloadHash.v
Snapshot.v
PersistGate.v
WalletTarget.v
WalletAuth.v
OwnerStore.v
Routes.v
Http.v
Json.v
Metrics.v
Wire.v
ReadStore.v
Upstream.v
Auth.v
ExploreContext.v
ReadApi.v
ExploreRoute.v
Assessment.v
RemoteStore.v
RemoteContract.v
Handlers.v
RemoteRoutes.v
Texts.v
Concurrent.v
Observability.v
Config.v
Service.v
Startup.v
