(* ===== verification/Prelude.v ===== *)
(** * CAFE Crypto Policy Management: verification library

    The service catalogues crypto policies and provider manifests, explores
    which provider profiles suit a scanned wallet, and persists, for a wallet
    whose owner signs for it, the policy the owner chose.

    ** The program and the files that model it

    - Data of the catalogue.  [Manifest] models [internal/domain/provider/manifest.go]
      (provider manifests, their normalisation and validation), [Registry] models
      [registry.go] and [load_signals.go] (the registry as a state: a map of
      manifests and an index of profiles, with every operation on it), [CryptoPolicy]
      models [internal/domain/policy] ([crypto_policy.go], [chains.go],
      [solution_profile_ref.go] and the facts derived from a policy and a registry).
    - Decisions.  [Compat] models the compatibility gates of
      [internal/domain/provider] (couche A on the scan, couche B on the user's
      constraints, the combined hard gate, soft findings); [Explore] models the
      couche A exploration of a policy over the registry
      ([explore_couche_a.go], [policy_decision.go]).
    - Payloads.  [PayloadHash] models [internal/payloadhash] (the closed object
      and its SHA-256 digest, with [Sha256] a concrete SHA-256), [Snapshot]
      models the snapshot assist ([accepted_provider_snapshot.go]) and
      [PersistGate] the checks on a payload before it is stored
      ([persist_payload.go], [internal/app/persist_gate_errors.go]).
    - Wallets.  [WalletTarget] models the normal forms of addresses, subjects and
      scan ids; [WalletAuth] models [internal/walletauth]: the message a wallet
      signs, its parser and the verification of a signed message.
    - Storage.  [OwnerStore] models [internal/persistence]: the [PolicyStore]
      interface as a class of operations, and the in-memory store as its
      instance, a map of records with one transition per operation.
      [RemoteStore] models [internal/persistence/cphttp], the second instance: an
      HTTP client whose state is that of the persistence service, with its
      retries, the limit on answers and the wire forms; [RemoteContract] states
      what the service promises and proves what the client then promises, and
      [RemoteRoutes] runs the persist route on it.
    - Reading.  [ReadStore] models the loading of the catalogue
      ([catalogue_load.go] and the first half of [read_api.go]), [Wire] the JSON
      of answers, [ExploreContext] the wire forms of a scanned wallet
      ([explore_policy_context.go], [wallet_scan_detail.go]), [ReadApi] the
      catalogue, provider and snapshot routes, [ExploreRoute] the exploration
      route with what it counts and logs ([explore_observability.go]) and
      [Assessment] the assessment request ([assessment_request.go]).
    - HTTP.  [Routes] models the route inventory and its classes, [Http] requests,
      answers, request ids and the decoding of documents into structs, [Json] the
      text of JSON documents as [encoding/json] reads and writes it, [Upstream]
      the requests sent to Discovery, [Auth] the authentication middleware of
      [internal/app/auth.go] with the latest-scan rule of [w2_engagement.go], and
      [Handlers] the wallet challenge, the signed persist and the owner's routes,
      written over the store interface and composed from all of the above.
      [Texts] carries tokens, digests and request bodies through their texts;
      [Concurrent] interleaves the routes that share the store, at the grain of
      the reads and writes they make under its mutex.
      [Metrics] holds the counters, [Observability] the decisions and signals
      that end up in the log ([auth_observability.go], [persist_observability.go]).
    - The process.  [Config] models [internal/config], the version and the choice
      of the store; [Service] the mux and the middleware over one shared state
      (store, bus, counters, log), one step per request ([app.go]); [Startup]
      [Run] up to listening, with the connection to the bus.
    - Language and library.  [Prelude] (results, sorting), [GoStrings] and
      [GoUnicode] (strings as bytes, trimming, runes, case mapping and folding,
      decimal numbers, quoting), [Url] (percent escapes of queries and paths),
      [Errors] (sentinel errors and wrapping), [GoAny] (decoded JSON values and
      [json.Marshal]), [GoFloat] (decimal texts to the nearest float64),
      [GoTime] (instants in nanoseconds, the Gregorian calendar, RFC 3339 both
      ways).

    ** How definitions correspond to the code

    A definition has the name of the Go function or type it models; a method
    [T.m] is [T_m] or [m].  Errors are values of [res]; an early return is a
    [fail_if] guard, in the order of the code.  A map that is only looked up is
    a [gmap]; a [map[string]any] is a list of entries in the order a range
    statement visits them, and no result may depend on that order.  int64 is
    [Z] with the range checked where the code parses or adds.  Loops over slices
    are structural recursions.  Fuel: the compaction loop of
    [NormalizeAcceptedFindings] and UTF-8 decoding get the length of their input,
    which every theorem about them covers; the JSON parser gets twice the length
    of the text and one more ([text_fuel]), and never runs out of it (lemma
    [parse_ends]): any larger amount gives the same result.

    What the code takes from outside is an argument or a class: the clock and
    random ids, Unicode beyond ASCII ([Unicode], with the laws the code relies
    on), the order of equal elements in [sort.Slice] ([GoSort]), the text of
    floats and of encoding errors ([GoFloat], [GoJson]), RFC 8785
    canonicalisation ([JCS]), key recovery of go-ethereum ([EthCrypto],
    [EthText]), whether [net/url] accepts a URL and what the Discovery service
    answers to a request ([Discovery]), the order in which a range visits the
    members of a body ([GoRange]) and the texts of decoding errors
    ([JsonErrors]), the file system, the vocabulary and checks of the contract
    module ([WalletContract] with its laws, [AssessmentContract]), the
    persistence service ([RemoteService], any state machine that answers with a
    status and a text; [CafePersistence] states that it keeps an owner-scoped
    store, answers as its operations do and may lose messages) and the bus.  Each has a
    concrete instance with which definitions are evaluated.

    ** What the theorems show

    - Catalogue: normalisation is idempotent, validation accepts exactly the
      well-formed manifests; adding manifests keeps the registry's index in step
      with its manifests, lookups and listings return what was registered, and
      the loaded registry does not depend on the order of the documents.
    - Decisions: each gate accepts exactly the profiles its rules describe, the
      combined gate is the two couches with the target chains, suggestions are
      checked by couche B itself; exploration ranks exactly the acceptable
      profiles in order, and ranked and rejected candidates partition what the
      policy stands for.
    - Payloads: the digest is stable and does not depend on map order or on the
      order and repetition of findings; the gate accepts exactly the payloads
      that meet its conditions, names the first condition that fails, and a
      snapshot built by the assist passes it when its own facts allow it.
    - Authorisation: a message parses back to its fields; a signed message is
      accepted exactly when it is the canonical message of the request, is in
      force and is signed by the wallet, so one signature authorises one set of
      bindings.
    - Storage: every store the routes can reach has at most one policy per owner
      and wallet, no operation touches or shows another owner's records,
      listings are exact and deterministic, and the wallet lookup agrees with
      what creation refuses.
    - Remote storage: against a service that keeps an owner-scoped store, each
      operation of the client is performed at most once and returns its result
      or unavailable, and its result whenever the first answer is heard; only a
      deletion may be reported as not found after it took place.  An operation
      sends at most two requests, a creation one.  A persist request answered
      200 has stored a policy that passed every check, and one answered
      otherwise has not, unless it is 503; one policy per owner and wallet
      remains.
    - Reading: a catalogue directory loads to the first valid document of each
      kind and id, a store that loads is well formed; listing, routes by id and
      refusals agree on what is offered; an exploration answers the decision of
      couche A and is counted exactly when nothing is ranked; what it ranks can
      be turned into a snapshot; an assessment publishes exactly one message, or
      none.
    - HTTP: exactly three requests bypass authentication; the middleware passes a
      business request on only with an accepted session and readable scans; the
      latest-scan rule fails closed; the requests about a scan address that scan
      and no other unless its id is a dot segment, which escapes; a persist request changes the store only
      with a policy that is signed, gated and unique, and the protocol from
      challenge to stored policy completes when the wallet signs in time; the
      trail of decisions tells what was decided.
    - Texts: a persist request, a session token and a payload come out of their texts as they were put in; and a body with
      text after its document is where the middleware and the handlers part: no
      scan is authorised for it, but it is served.
    - Requests in flight: whatever the interleaving, every execution ends with all
      requests answered, and the answers and the store are those of serving the
      requests one after the other.
    - The service: the routes on the mux are those of the authentication
      inventory; without a session a request changes nothing and sees only the
      public answers; a stored policy changes only in its owner's sessions;
      every sequence of requests is a sequence of creations and deletions of the
      abstract store; with authentication off nothing is stored or published; a
      production start needs a persistence service, and authentication unless
      the environment turns it off.

    ** What is not modelled

    The JSON text of catalogue files and of the answers of Discovery (they are
    given as the documents they hold, or as unreadable; the answers of the
    persistence service are texts); the parsing of URLs
    by [net/url]; the lines that exploration and the catalogue facts log about
    single candidates; the text of the metrics page; listening and the transport
    (a timeout is part of a request, its expiry one of the ways a call fails).
    [internal/domain/walletobserved] only renames types of the contract module.
    Requests to the remote store are not interleaved: the persistence service
    orders them itself. *)

From stdpp Require Import base gmap sets list strings sorting.

(** ** Results of fallible operations *)

(** A Go call returning [(T, error)]: either the value or the error. *)
Inductive res (E A : Type) : Type :=
| Ok (a : A)
| Err (e : E).
Arguments Ok {E A} a.
Arguments Err {E A} e.

#[global] Instance res_ret {E} : MRet (res E) := fun A a => Ok a.
#[global] Instance res_bind {E} : MBind (res E) := fun A B f m =>
  match m with Ok a => f a | Err e => Err e end.
#[global] Instance res_fmap {E} : FMap (res E) := fun A B f m =>
  match m with Ok a => Ok (f a) | Err e => Err e end.

Declare Scope cpm_scope.
Delimit Scope cpm_scope with cpm.

(** [guard_err b e] is the early return [if b { return e }]. *)
Definition guard_err {E} (b : bool) (e : E) : res E unit :=
  if b then Err e else Ok tt.

Notation "'fail_if' b 'with' e ;; k" :=
  (match guard_err b e with Ok _ => k | Err e' => Err e' end)
  (at level 100, b at level 99, e at level 99, k at level 200,
   right associativity, only parsing) : cpm_scope.
Open Scope cpm_scope.

Definition is_ok {E A} (r : res E A) : bool :=
  match r with Ok _ => true | Err _ => false end.

Lemma is_ok_true {E A} (r : res E A) : is_ok r = true <-> exists a, r = Ok a.
Proof. destruct r; naive_solver. Qed.

Lemma guard_err_ok {E} b (e : E) : guard_err b e = Ok tt <-> b = false.
Proof. destruct b; naive_solver. Qed.

Lemma res_bind_ok {E A B} (m : res E A) (f : A -> res E B) b :
  (m ≫= f) = Ok b <-> exists a, m = Ok a /\ f a = Ok b.
Proof. destruct m; naive_solver. Qed.

(** The early return of a guard, on both sides. *)
Lemma fail_if_ok {E A} (b : bool) (e : E) (k : res E A) a :
  (fail_if b with e ;; k) = Ok a <-> b = false /\ k = Ok a.
Proof. unfold guard_err. destruct b; naive_solver. Qed.

Lemma fail_if_err {E A} (b : bool) (e e' : E) (k : res E A) :
  (fail_if b with e ;; k) = Err e' -> b = true /\ e = e' \/ b = false /\ k = Err e'.
Proof. unfold guard_err. destruct b; naive_solver. Qed.

(** Every way a chain of checks and cases in [H] can end in an error. *)
Ltac walk_refusal H :=
  repeat first [apply fail_if_err in H as [[_ <-]|[_ H]]; [done|]
               |case_match; simplify_eq; try done];
  try done.

Lemma length_zero_false {A} (l : list A) : Nat.eqb (length l) 0 = false <-> l <> [].
Proof. destruct l; naive_solver. Qed.

(** ** Boolean glue *)

Lemma negb_eq_iff (a b : bool) : (a = true <-> b = true) -> a = b.
Proof. destruct a, b; naive_solver. Qed.

Lemma orb_false_and (a b : bool) : (a || b) = false <-> a = false /\ b = false.
Proof. destruct a, b; naive_solver. Qed.

(** ** Development tactics *)

(** Split on every [if]/[match] scrutinee of the goal or a hypothesis, closing
    the contradictory branches. *)
Ltac split_match :=
  repeat (first
    [ progress simplify_eq/=
    | match goal with
      | H : context [match ?x with _ => _ end] |- _ => destruct x eqn:?
      | |- context [match ?x with _ => _ end] => destruct x eqn:?
      end ]).

Ltac bool_to_prop :=
  repeat match goal with
  | H : _ && _ = true |- _ => apply andb_true_iff in H as [? ?]
  | H : _ || _ = false |- _ => apply orb_false_and in H as [? ?]
  | H : negb _ = true |- _ => apply negb_true_iff in H
  | H : negb _ = false |- _ => apply negb_false_iff in H
  | H : bool_decide _ = true |- _ => apply bool_decide_eq_true in H
  | H : bool_decide _ = false |- _ => apply bool_decide_eq_false in H
  | H : String.eqb _ _ = true |- _ => apply String.eqb_eq in H
  | H : String.eqb _ _ = false |- _ => apply String.eqb_neq in H
  | H : Z.leb _ _ = true |- _ => apply Z.leb_le in H
  | H : Z.leb _ _ = false |- _ => apply Z.leb_gt in H
  | H : Z.ltb _ _ = true |- _ => apply Z.ltb_lt in H
  | H : Z.ltb _ _ = false |- _ => apply Z.ltb_ge in H
  | H : Z.eqb _ _ = true |- _ => apply Z.eqb_eq in H
  | H : Z.eqb _ _ = false |- _ => apply Z.eqb_neq in H
  end.

Create HintDb cpm discriminated.
Create Rewrite HintDb cpm.

(** ** Sorting *)

(** The contract of Go's [sort.Slice]: the result is a permutation of the
    input, ordered when the comparison is a strict weak order.  The order of
    elements that compare equal is unspecified (the sort is not stable), so the
    algorithm is an interface: every theorem below holds for each of them. *)
Definition ge_of {A} (less : A -> A -> bool) : relation A :=
  fun x y => less y x = false.

Class WeakOrder {A} (less : A -> A -> bool) : Prop := {
  weak_trans : Transitive (ge_of less);
  weak_total : forall x y, ge_of less x y \/ ge_of less y x
}.

Class GoSort := {
  sort_slice : forall {A}, (A -> A -> bool) -> list A -> list A;
  sort_slice_perm : forall {A} (less : A -> A -> bool) l,
    sort_slice less l ≡ₚ l;
  sort_slice_sorted : forall {A} (less : A -> A -> bool) l,
    WeakOrder less -> Sorted (ge_of less) (sort_slice less l)
}.

(** [sort.SliceStable]: equal elements keep their relative order, so the result
    is a function of the input; insertion from the right realises it. *)
Fixpoint insert_stable {A} (less : A -> A -> bool) (x : A) (l : list A) : list A :=
  match l with
  | [] => [x]
  | y :: l' => if less y x then y :: insert_stable less x l' else x :: y :: l'
  end.

Definition sort_stable {A} (less : A -> A -> bool) (l : list A) : list A :=
  foldr (insert_stable less) [] l.

Section SortStable.
Context {A : Type} (less : A -> A -> bool).

Lemma insert_stable_perm x l : insert_stable less x l ≡ₚ x :: l.
Proof.
  induction l as [|y l IH]; simpl; [done|].
  destruct (less y x); [|done]. rewrite IH. constructor.
Qed.

Lemma sort_stable_perm l : sort_stable less l ≡ₚ l.
Proof.
  induction l as [|x l IH]; simpl; [done|].
  by rewrite insert_stable_perm, IH.
Qed.

Lemma sort_stable_elem x l : x ∈ sort_stable less l <-> x ∈ l.
Proof. by rewrite sort_stable_perm. Qed.

Context `{!WeakOrder less}.

Lemma insert_stable_HdRel a x l :
  ge_of less a x -> HdRel (ge_of less) a l ->
  HdRel (ge_of less) a (insert_stable less x l).
Proof.
  intros Hax Hl. destruct l as [|y l]; simpl; [by constructor|].
  inversion Hl; subst. destruct (less y x); by constructor.
Qed.

Lemma insert_stable_sorted x l :
  Sorted (ge_of less) l -> Sorted (ge_of less) (insert_stable less x l).
Proof.
  induction 1 as [|y l Hs IH Hhd]; simpl; [by repeat constructor|].
  destruct (less y x) eqn:Hyx.
  - constructor; [done|]. apply insert_stable_HdRel; [|done].
    destruct (weak_total y x) as [|Hc]; [done|].
    unfold ge_of in Hc. congruence.
  - repeat constructor; done.
Qed.

Lemma sort_stable_sorted l : Sorted (ge_of less) (sort_stable less l).
Proof.
  induction l as [|x l IH]; simpl; [constructor|].
  by apply insert_stable_sorted.
Qed.

End SortStable.

(** Sorting looks at an element only through the comparison. *)
Lemma sort_stable_fmap {A B} (f : A -> B) (less : A -> A -> bool) (less' : B -> B -> bool) l :
  (forall x y, less' (f x) (f y) = less x y) ->
  sort_stable less' (f <$> l) = f <$> sort_stable less l.
Proof.
  intros Hf. induction l as [|x l IH]; [done|]. rewrite fmap_cons. cbn [sort_stable foldr].
  unfold sort_stable in IH. rewrite IH. generalize (foldr (insert_stable less) [] l). intros l'.
  induction l' as [|y l' IHl]; [done|]. rewrite fmap_cons. cbn [insert_stable]. rewrite Hf.
  destruct (less y x); [|done]. by rewrite IHl.
Qed.

Lemma sort_stable_id {A} (less : A -> A -> bool) l : Sorted (ge_of less) l -> sort_stable less l = l.
Proof.
  induction 1 as [|x l _ IH Hhd]; [done|]. cbn [sort_stable foldr]. unfold sort_stable in IH. rewrite IH.
  destruct Hhd as [|y l Hxy]; [done|]. cbn [insert_stable]. unfold ge_of in Hxy. by rewrite Hxy.
Qed.

(** An instance of the interface, so that every definition can be evaluated. *)
#[global] Instance insertion_GoSort : GoSort := {
  sort_slice := fun A less l => sort_stable less l;
  sort_slice_perm := fun A less l => sort_stable_perm less l;
  sort_slice_sorted := fun A less l H => sort_stable_sorted less l
}.

(** Two sorted arrangements of the same elements agree when the elements have
    pairwise distinct ranks: where no two elements compare equal, [sort.Slice]
    is deterministic. *)
Lemma sorted_perm_unique {A} (less : A -> A -> bool) (l1 l2 : list A) :
  WeakOrder less ->
  (forall x y, x ∈ l1 -> y ∈ l1 -> ge_of less x y -> ge_of less y x -> x = y) ->
  Sorted (ge_of less) l1 -> Sorted (ge_of less) l2 -> l1 ≡ₚ l2 -> l1 = l2.
Proof.
  intros W Hanti H1 H2 Hp.
  assert (Transitive (ge_of less)) by apply weak_trans.
  apply Sorted_StronglySorted in H1; [|done].
  apply Sorted_StronglySorted in H2; [|done].
  revert l2 H2 Hp Hanti. induction H1 as [|x l1 Hs IH Hall]; intros l2 H2 Hp Hanti.
  { by apply Permutation_nil in Hp. }
  destruct H2 as [|y l2 H2 Hall2]; [by apply Permutation_nil_r in Hp|].
  assert (x = y) as <-.
  { apply Hanti; [by left| rewrite Hp; by left| |].
    - assert (y ∈ x :: l1) as [->|Hy]%elem_of_cons by (rewrite Hp; by left).
      + destruct (weak_total x x); done.
      + rewrite Forall_forall in Hall. by apply Hall.
    - assert (x ∈ y :: l2) as [->|Hx]%elem_of_cons by (rewrite <- Hp; by left).
      + destruct (weak_total y y); done.
      + rewrite Forall_forall in Hall2. by apply Hall2. }
  f_equal. apply IH; [done| by eapply Permutation_cons_inv |].
  intros a b Ha Hb. apply Hanti; by right.
Qed.

(** Comparisons through a key. *)
#[global] Instance WeakOrder_Z {A} (key : A -> Z) :
  WeakOrder (fun x y => Z.ltb (key x) (key y)).
Proof.
  split; unfold ge_of.
  - intros x y z. rewrite !Z.ltb_ge. lia.
  - intros x y. rewrite !Z.ltb_ge. lia.
Qed.
