(* ===== verification/GoStrings.v ===== *)
(** * Go strings

    The parts of Go's [strings] and [strconv] packages that the service uses,
    on Go strings as they are: byte sequences ([string], whose characters are
    bytes), read as UTF-8 where the package reads them so.

    - bytes: prefixes, suffixes, [Index], [Split], [Join], the lexicographic
      order of [<] on strings;
    - [TrimSpace] with the Unicode white space Go trims, encoded in UTF-8;
    - decimal [FormatInt] and [ParseInt] on 64-bit integers. *)

From stdpp Require Import base gmap sets list strings sorting.
From Stdlib Require Import DecimalString DecimalFacts DecimalN DecimalPos.
From Stdlib Require Import Ascii.
From S2P Require Import Prelude.
Local Open Scope string_scope.
Local Open Scope list_scope.

(** ** Bytes *)

Definition bytes_of (s : string) : list N :=
  N_of_ascii <$> String.list_ascii_of_string s.

Definition string_of_bytes (l : list N) : string :=
  String.string_of_list_ascii (ascii_of_N <$> l).

(** [len(s)] counts bytes. *)
Definition len (s : string) : nat := String.length s.

Definition is_empty (s : string) : bool := String.eqb s EmptyString.

Definition HasPrefix (s p : string) : bool := String.prefix p s.

(** [s[n:]] for [n <= len(s)]. *)
Fixpoint drop_bytes (n : nat) (s : string) : string :=
  match n, s with
  | O, _ => s
  | S n', String _ s' => drop_bytes n' s'
  | S _, EmptyString => EmptyString
  end.

(** [s[:n]] for [n <= len(s)]. *)
Fixpoint take_bytes (n : nat) (s : string) : string :=
  match n, s with
  | O, _ => EmptyString
  | S n', String c s' => String c (take_bytes n' s')
  | S _, EmptyString => EmptyString
  end.

Definition TrimPrefix (s p : string) : string :=
  if HasPrefix s p then drop_bytes (len p) s else s.

Definition HasSuffix (s p : string) : bool :=
  Nat.leb (len p) (len s) && String.eqb (drop_bytes (len s - len p) s) p.

Definition TrimSuffix (s p : string) : string :=
  if HasSuffix s p then take_bytes (len s - len p) s else s.

(** [strings.Index]: the first position of [sub], if any. *)
Fixpoint Index (s sub : string) : option nat :=
  if HasPrefix s sub then Some O
  else match s with
       | EmptyString => None
       | String _ s' => S <$> Index s' sub
       end.

Definition Contains (s sub : string) : bool :=
  match Index s sub with Some _ => true | None => false end.

(** [strings.Split] by a one-byte separator. *)
Fixpoint Split (s : string) (sep : ascii) : list string :=
  match s with
  | EmptyString => [EmptyString]
  | String c s' =>
      let rest := Split s' sep in
      if Ascii.eqb c sep then EmptyString :: rest
      else match rest with
           | [] => [String c EmptyString]
           | w :: ws => String c w :: ws
           end
  end.

Fixpoint Join (l : list string) (sep : string) : string :=
  match l with
  | [] => EmptyString
  | [s] => s
  | s :: l' => s +:+ sep +:+ Join l' sep
  end.

(** [<] on strings: byte by byte. *)
Definition str_lt (a b : string) : bool := String.ltb a b.

(** Occurrence of a byte. *)
Fixpoint has_byte (c : ascii) (s : string) : bool :=
  match s with
  | EmptyString => false
  | String d s' => Ascii.eqb c d || has_byte c s'
  end.

(** ** White space

    [unicode.IsSpace]: the ASCII spaces, U+0085, U+00A0 and the other runes of
    the White_Space property, as the bytes that encode them. *)

Definition ws1 (a : ascii) : bool :=
  let n := N_of_ascii a in
  (((9 <=? n) && (n <=? 13)) || (n =? 32))%N.

Definition ws2 (a b : ascii) : bool :=
  let n := N_of_ascii b in
  ((N_of_ascii a =? 0xC2) && ((n =? 0x85) || (n =? 0xA0)))%N.

Definition ws3 (a b c : ascii) : bool :=
  let n0 := N_of_ascii a in
  let n1 := N_of_ascii b in
  let n2 := N_of_ascii c in
  (((n0 =? 0xE1) && (n1 =? 0x9A) && (n2 =? 0x80)) ||
  ((n0 =? 0xE2) && (n1 =? 0x80) &&
     (((0x80 <=? n2) && (n2 <=? 0x8A)) || (n2 =? 0xA8) || (n2 =? 0xA9) || (n2 =? 0xAF))) ||
  ((n0 =? 0xE2) && (n1 =? 0x81) && (n2 =? 0x9F)) ||
  ((n0 =? 0xE3) && (n1 =? 0x80) && (n2 =? 0x80)))%N.

(** Drop the leading runes of the list that encode white space; the tests are
    parameters so that the same walk serves the reversed string. *)
Fixpoint drop_ws (p2 : ascii -> ascii -> bool) (p3 : ascii -> ascii -> ascii -> bool)
    (l : list ascii) : list ascii :=
  match l with
  | [] => []
  | a :: l1 =>
      if ws1 a then drop_ws p2 p3 l1
      else match l1 with
           | [] => l
           | b :: l2 =>
               if p2 a b then drop_ws p2 p3 l2
               else match l2 with
                    | [] => l
                    | c :: l3 => if p3 a b c then drop_ws p2 p3 l3 else l
                    end
           end
  end.

Definition trim_left_bytes (l : list ascii) : list ascii := drop_ws ws2 ws3 l.

Definition trim_right_bytes (l : list ascii) : list ascii :=
  rev (drop_ws (fun a b => ws2 b a) (fun a b c => ws3 c b a) (rev l)).

Definition trim_bytes (l : list ascii) : list ascii :=
  trim_right_bytes (trim_left_bytes l).

Definition TrimSpace (s : string) : string :=
  String.string_of_list_ascii (trim_bytes (String.list_ascii_of_string s)).

(** [TrimSpace s == s]: the canonical form the normalisation steps produce. *)
Definition trimmed (s : string) : Prop := TrimSpace s = s.

#[global] Instance trimmed_dec s : Decision (trimmed s).
Proof. unfold trimmed. apply _. Defined.

(** ** Decimal integers *)

Definition int64_min : Z := (-(2 ^ 63))%Z.
Definition int64_max : Z := (2 ^ 63 - 1)%Z.
Definition in_int64 (z : Z) : bool := (int64_min <=? z)%Z && (z <=? int64_max)%Z.

(** [strconv.FormatInt(z, 10)]. *)
Definition FormatInt (z : Z) : string :=
  match z with
  | Z0 => "0"
  | Zpos p => NilZero.string_of_uint (N.to_uint (Npos p))
  | Zneg p => String "-" (NilZero.string_of_uint (N.to_uint (Npos p)))
  end.

(** The digits of [strconv.ParseUint(s, 10, _)], unbounded. *)
Definition parse_digits (s : string) : option Z :=
  match NilZero.uint_of_string s with
  | Some u => Some (Z.of_N (N.of_uint u))
  | None => None
  end.

(** [strconv.ParseInt(s, 10, 64)]: a sign, digits, and the int64 range. *)
Definition ParseInt (s : string) : option Z :=
  let r :=
    match s with
    | EmptyString => None
    | String c s' =>
        if Ascii.eqb c "-" then Z.opp <$> parse_digits s'
        else if Ascii.eqb c "+" then parse_digits s'
        else parse_digits s
    end in
  match r with
  | Some z => if in_int64 z then Some z else None
  | None => None
  end.

(** ** Facts about [TrimSpace] *)

Section DropWs.
Context (p2 : ascii -> ascii -> bool) (p3 : ascii -> ascii -> ascii -> bool).

Definition lead_ws (l : list ascii) : bool :=
  match l with
  | [] => false
  | a :: l1 => ws1 a ||
      match l1 with
      | [] => false
      | b :: l2 => p2 a b || match l2 with [] => false | c :: _ => p3 a b c end
      end
  end.

Lemma drop_ws_suffix n l : length l <= n ->
  (lead_ws l = false /\ drop_ws p2 p3 l = l) \/
  (lead_ws l = true /\ exists k, k <> [] /\ l = k ++ drop_ws p2 p3 l /\
     lead_ws (drop_ws p2 p3 l) = false).
Proof.
  assert (Hstep : forall k l', length k > 0 -> forall l0, l0 = k ++ l' ->
    ((lead_ws l' = false /\ drop_ws p2 p3 l' = l') \/
     (lead_ws l' = true /\ exists k', k' <> [] /\ l' = k' ++ drop_ws p2 p3 l' /\
        lead_ws (drop_ws p2 p3 l') = false)) ->
    exists k', k' <> [] /\ l0 = k' ++ drop_ws p2 p3 l' /\ lead_ws (drop_ws p2 p3 l') = false).
  { intros k l' Hk l0 -> [[H1 H2]|(H1 & k' & Hk' & H2 & H3)].
    - exists k. rewrite H2. split_and!; [by destruct k; simpl in *; [lia|]|done..].
    - exists (k ++ k'). split_and!; [by destruct k|by rewrite <- app_assoc, <- H2|done]. }
  revert l. induction n as [|n IH]; intros l Hl.
  { destruct l; [by left|simpl in Hl; lia]. }
  destruct l as [|a [|b [|c l]]]; simpl in *; [by left|..].
  - destruct (ws1 a); [|by left]. right; split; [done|]. exists [a]. done.
  - destruct (ws1 a) eqn:Ea; simpl.
    + right; split; [done|]. eapply (Hstep [a] [b]); [simpl; lia|done|].
      apply IH; simpl; lia.
    + destruct (p2 a b) eqn:Eb; simpl; [|by left].
      right; split; [done|]. by exists [a; b].
  - destruct (ws1 a) eqn:Ea; simpl.
    + right; split; [done|]. eapply (Hstep [a] (b :: c :: l)); [simpl; lia|done|].
      apply IH; simpl; lia.
    + destruct (p2 a b) eqn:Eb; simpl.
      * right; split; [done|]. eapply (Hstep [a; b] (c :: l)); [simpl; lia|done|].
        apply IH; simpl; lia.
      * destruct (p3 a b c) eqn:Ec; simpl.
        -- right; split; [done|]. eapply (Hstep [a; b; c] l); [simpl; lia|done|].
           apply IH; simpl; lia.
        -- by left.
Qed.

Lemma drop_ws_lead l : lead_ws (drop_ws p2 p3 l) = false.
Proof.
  destruct (drop_ws_suffix (length l) l ltac:(lia)) as [[H ->]|(_ & k & _ & _ & H)]; done.
Qed.

Lemma drop_ws_fix l : lead_ws l = false -> drop_ws p2 p3 l = l.
Proof.
  intros H. destruct (drop_ws_suffix (length l) l ltac:(lia)) as [[_ ?]|[? _]]; [done|congruence].
Qed.

Lemma drop_ws_split l : exists k, l = k ++ drop_ws p2 p3 l.
Proof.
  destruct (drop_ws_suffix (length l) l ltac:(lia)) as [[_ E]|(_ & k & _ & E & _)].
  - exists []. simpl. congruence.
  - by exists k.
Qed.

Lemma lead_ws_app l m : lead_ws l = true -> lead_ws (l ++ m) = true.
Proof.
  destruct l as [|a [|b [|c l]]]; simpl; [done|..]; intros H;
    repeat (rewrite orb_true_iff in H); rewrite ?orb_true_iff; naive_solver.
Qed.

End DropWs.

Lemma trim_left_bytes_lead l : lead_ws ws2 ws3 (trim_left_bytes l) = false.
Proof. apply drop_ws_lead. Qed.

Lemma trim_right_bytes_prefix l : exists k, l = trim_right_bytes l ++ k.
Proof.
  unfold trim_right_bytes.
  destruct (drop_ws_split (fun a b => ws2 b a) (fun a b c => ws3 c b a) (rev l)) as [k Hk].
  exists (rev k). rewrite <- rev_app_distr, <- Hk. by rewrite rev_involutive.
Qed.

Lemma trim_right_bytes_idem l : trim_right_bytes (trim_right_bytes l) = trim_right_bytes l.
Proof.
  unfold trim_right_bytes. rewrite rev_involutive. f_equal.
  apply drop_ws_fix, drop_ws_lead.
Qed.

Lemma trim_bytes_idem l : trim_bytes (trim_bytes l) = trim_bytes l.
Proof.
  unfold trim_bytes. set (L := trim_left_bytes l).
  assert (trim_left_bytes (trim_right_bytes L) = trim_right_bytes L) as ->.
  { apply drop_ws_fix. destruct (trim_right_bytes_prefix L) as [k Hk].
    apply not_true_iff_false. intros H.
    apply (lead_ws_app _ _ _ k) in H. rewrite <- Hk in H.
    pose proof (trim_left_bytes_lead l) as Hl. fold L in Hl. congruence. }
  apply trim_right_bytes_idem.
Qed.

Lemma TrimSpace_idem s : TrimSpace (TrimSpace s) = TrimSpace s.
Proof.
  unfold TrimSpace. by rewrite String.list_ascii_of_string_of_list_ascii, trim_bytes_idem.
Qed.

Lemma TrimSpace_trimmed s : trimmed (TrimSpace s).
Proof. apply TrimSpace_idem. Qed.

#[export] Hint Resolve TrimSpace_trimmed : cpm.
#[export] Hint Rewrite TrimSpace_idem : cpm.

(** A byte that is neither white space nor part of a multi-byte rune: a string
    that begins and ends with one is trimmed. *)
Definition solid (a : ascii) : bool := negb (ws1 a) && (N_of_ascii a <? 128)%N.

Lemma solid_not_ws2 a b : solid a = true -> ws2 a b = false /\ ws2 b a = false.
Proof.
  unfold solid, ws2. intros H. bool_to_prop. rewrite N.ltb_lt in *.
  split; apply not_true_iff_false; rewrite !andb_true_iff, ?orb_true_iff, !N.eqb_eq; lia.
Qed.

Lemma solid_not_ws3 a b c : solid a = true -> ws3 a b c = false /\ ws3 b c a = false.
Proof.
  unfold solid, ws3. intros H. bool_to_prop. rewrite N.ltb_lt in *.
  split; apply not_true_iff_false;
    rewrite !orb_true_iff, !andb_true_iff, ?orb_true_iff, !andb_true_iff, ?N.leb_le, !N.eqb_eq; lia.
Qed.

Lemma solid_not_ws1 a : solid a = true -> ws1 a = false.
Proof. unfold solid. intros H. by bool_to_prop. Qed.

Lemma trim_bytes_solid a l b :
  solid a = true -> solid b = true -> trim_bytes (a :: l ++ [b]) = a :: l ++ [b].
Proof.
  intros Ha Hb. unfold trim_bytes.
  assert (trim_left_bytes (a :: l ++ [b]) = a :: l ++ [b]) as ->.
  { apply drop_ws_fix. simpl. rewrite solid_not_ws1 by done. simpl.
    destruct (l ++ [b]) as [|c l']; [done|].
    rewrite (proj1 (solid_not_ws2 _ _ Ha)). simpl.
    destruct l'; [done|]. by rewrite (proj1 (solid_not_ws3 _ _ _ Ha)). }
  unfold trim_right_bytes. rewrite drop_ws_fix; [by rewrite rev_involutive|].
  rewrite app_comm_cons, rev_app_distr. simpl. rewrite solid_not_ws1 by done. simpl.
  destruct (rev l ++ [a]) as [|c l']; [done|].
  rewrite (proj2 (solid_not_ws2 _ _ Hb)). simpl.
  destruct l'; [done|]. by rewrite (proj2 (solid_not_ws3 _ _ _ Hb)).
Qed.

Lemma trim_bytes_all_solid l : Forall (fun a => solid a = true) l -> trim_bytes l = l.
Proof.
  intros H. destruct l as [|a l]; [done|].
  destruct l as [|b l _] using rev_ind.
  - inversion H; subst. unfold trim_bytes, trim_left_bytes, trim_right_bytes. simpl.
    rewrite solid_not_ws1 by done. simpl. by rewrite solid_not_ws1.
  - inversion H as [|?? Ha Hl]; subst. apply Forall_app in Hl as [_ Hb].
    inversion Hb; subst. by apply trim_bytes_solid.
Qed.

Definition all_solid (s : string) : Prop :=
  Forall (fun a => solid a = true) (String.list_ascii_of_string s).

Lemma all_solid_trimmed s : all_solid s -> trimmed s.
Proof.
  intros H. unfold trimmed, TrimSpace. rewrite trim_bytes_all_solid by done.
  apply String.string_of_list_ascii_of_string.
Qed.

(** Trimming only ever drops bytes at both ends. *)
Lemma TrimSpace_infix s : exists p q,
  String.list_ascii_of_string s = p ++ String.list_ascii_of_string (TrimSpace s) ++ q.
Proof.
  unfold TrimSpace. rewrite String.list_ascii_of_string_of_list_ascii. unfold trim_bytes.
  destruct (drop_ws_split ws2 ws3 (String.list_ascii_of_string s)) as [p Hp].
  fold (trim_left_bytes (String.list_ascii_of_string s)) in Hp.
  destruct (trim_right_bytes_prefix (trim_left_bytes (String.list_ascii_of_string s))) as [q Hq].
  exists p, q. by rewrite <- Hq.
Qed.

(** ** Order on strings *)

Lemma ascii_compare_N a b : Ascii.compare a b = (N_of_ascii a ?= N_of_ascii b)%N.
Proof. done. Qed.

Lemma N_of_ascii_inj a b : N_of_ascii a = N_of_ascii b -> a = b.
Proof.
  intros H. rewrite <- (ascii_N_embedding a), <- (ascii_N_embedding b). by rewrite H.
Qed.

Lemma str_lt_cons a s b t :
  str_lt (String a s) (String b t) =
  ((N_of_ascii a <? N_of_ascii b)%N || (Ascii.eqb a b && str_lt s t)).
Proof.
  unfold str_lt, String.ltb. simpl. rewrite ascii_compare_N.
  destruct (Ascii.eqb_spec a b) as [->|Hne].
  - rewrite N.compare_refl, N.ltb_irrefl. done.
  - destruct (N.compare_spec (N_of_ascii a) (N_of_ascii b)) as [E|E|E].
    + by apply N_of_ascii_inj in E.
    + apply N.ltb_lt in E. by rewrite E.
    + assert (N.ltb (N_of_ascii a) (N_of_ascii b) = false) as -> by (apply N.ltb_ge; lia).
      done.
Qed.

Lemma str_lt_irrefl s : str_lt s s = false.
Proof.
  induction s as [|a s IH]; [done|].
  by rewrite str_lt_cons, IH, N.ltb_irrefl, andb_false_r.
Qed.

Lemma str_lt_trans a b c : str_lt a b = true -> str_lt b c = true -> str_lt a c = true.
Proof.
  revert b c. induction a as [|x a IH]; intros [|y b] [|z c]; try done.
  rewrite !str_lt_cons, !orb_true_iff, !andb_true_iff, !N.ltb_lt, !Ascii.eqb_eq.
  intros [?|[-> ?]] [?|[-> ?]]; [left; lia|by left|by left|].
  right. split; [done|]. by eapply IH.
Qed.

Lemma str_lt_total a b : a = b \/ str_lt a b = true \/ str_lt b a = true.
Proof.
  revert b. induction a as [|x a IH]; intros [|y b]; [by left|by right; left|by right; right|].
  rewrite !str_lt_cons, !orb_true_iff, !andb_true_iff, !N.ltb_lt, !Ascii.eqb_eq.
  destruct (N.lt_total (N_of_ascii x) (N_of_ascii y)) as [H|[H|H]]; [tauto| |tauto].
  apply N_of_ascii_inj in H as ->.
  destruct (IH b) as [->|[H|H]]; tauto.
Qed.

Lemma str_lt_antisym a b : str_lt a b = false -> str_lt b a = false -> a = b.
Proof. intros H1 H2. destruct (str_lt_total a b) as [?|[?|?]]; congruence. Qed.

#[global] Instance WeakOrder_str {A} (key : A -> string) :
  WeakOrder (fun x y => str_lt (key x) (key y)).
Proof.
  split; unfold ge_of.
  - intros x y z Hyx Hzy. apply not_true_iff_false. intros H.
    destruct (str_lt_total (key x) (key y)) as [E|[E|E]]; [| |congruence].
    + rewrite E in H. congruence.
    + assert (str_lt (key z) (key y) = true) by (by eapply str_lt_trans).
      congruence.
  - intros x y. destruct (str_lt (key y) (key x)) eqn:E; [|by left].
    right. apply not_true_iff_false. intros E'.
    assert (H := str_lt_trans _ _ _ E E'). by rewrite str_lt_irrefl in H.
Qed.

(** A sort through an injective string key has one possible result. *)
Lemma ge_of_str_key {A} (key : A -> string) x y :
  ge_of (fun x y => str_lt (key x) (key y)) x y ->
  ge_of (fun x y => str_lt (key x) (key y)) y x -> key x = key y.
Proof. unfold ge_of. intros. by apply str_lt_antisym. Qed.

(** ** Decimal round trip *)

Lemma to_uint_nonnil n : N.to_uint n <> Decimal.Nil.
Proof.
  intros H. assert (E := DecimalN.Unsigned.of_to n). rewrite H in E.
  vm_compute in E. subst n. discriminate H.
Qed.

Lemma parse_digits_format n :
  parse_digits (NilZero.string_of_uint (N.to_uint n)) = Some (Z.of_N n).
Proof.
  unfold parse_digits. rewrite NilZero.usu by apply to_uint_nonnil.
  by rewrite DecimalN.Unsigned.of_to.
Qed.

Lemma string_of_uint_head u : exists c s,
  NilZero.string_of_uint u = String c s /\ Ascii.eqb c "-" = false /\
  Ascii.eqb c "+" = false /\ solid c = true.
Proof. destruct u; eexists _, _; split_and!; done. Qed.

Lemma ParseInt_FormatInt_eq z : ParseInt (FormatInt z) = if in_int64 z then Some z else None.
Proof.
  destruct z as [|p|p]; [done|..]; unfold ParseInt, FormatInt.
  - destruct (string_of_uint_head (N.to_uint (Npos p))) as (c & s & E & H1 & H2 & _).
    by rewrite E, H1, H2, <- E, parse_digits_format.
  - change (Ascii.eqb "-" "-") with true. cbv iota. by rewrite parse_digits_format.
Qed.

Lemma ParseInt_FormatInt z : in_int64 z = true -> ParseInt (FormatInt z) = Some z.
Proof. rewrite ParseInt_FormatInt_eq. by intros ->. Qed.

Lemma ParseInt_FormatInt_inv z c : ParseInt (FormatInt z) = Some c -> c = z.
Proof. rewrite ParseInt_FormatInt_eq. destruct (in_int64 z); congruence. Qed.

Lemma ParseInt_range s z : ParseInt s = Some z -> (int64_min <= z <= int64_max)%Z.
Proof.
  unfold ParseInt. intros H. case_match; [|done]. case_match eqn:E; [|done].
  simplify_eq. unfold in_int64 in E. bool_to_prop. lia.
Qed.

Lemma all_solid_uint u : all_solid (NilEmpty.string_of_uint u).
Proof. unfold all_solid. induction u; simpl; constructor; done. Qed.

Lemma FormatInt_all_solid z : all_solid (FormatInt z).
Proof.
  assert (H : forall u, all_solid (NilZero.string_of_uint u)).
  { intros []; try apply (all_solid_uint (_ _)). by repeat constructor. }
  destruct z as [|p|p]; [by repeat constructor|apply H|].
  constructor; [done|apply H].
Qed.

(** ** [Split] and [Join] *)

Lemma has_byte_app c s t : has_byte c (s +:+ t) = has_byte c s || has_byte c t.
Proof. induction s as [|d s IH]; simpl; [done|]. by rewrite IH, orb_assoc. Qed.

Lemma Split_no_sep s sep : has_byte sep s = false -> Split s sep = [s].
Proof.
  induction s as [|c s IH]; simpl; [done|]. intros H. bool_to_prop.
  rewrite (Ascii.eqb_sym c sep), H. by rewrite IH.
Qed.

Lemma Split_app s t sep : has_byte sep s = false ->
  Split (s +:+ String sep t) sep = s :: Split t sep.
Proof.
  induction s as [|c s IH]; simpl.
  - by rewrite Ascii.eqb_refl.
  - intros H. bool_to_prop. rewrite (Ascii.eqb_sym c sep), H.
    change (String.app s (String sep t)) with (s +:+ String sep t). by rewrite IH.
Qed.

(** Splitting a join of separator-free parts gives the parts back. *)
Lemma Split_Join l sep : l <> [] -> Forall (fun s => has_byte sep s = false) l ->
  Split (Join l (String sep EmptyString)) sep = l.
Proof.
  intros Hl H. induction H as [|s l Hs Hf IH]; [done|].
  destruct l as [|t l]; [by apply Split_no_sep|].
  change (Join (s :: t :: l) (String sep EmptyString)) with
    (s +:+ String sep (Join (t :: l) (String sep EmptyString))).
  rewrite Split_app by done. f_equal. by apply IH.
Qed.

(** ** Prefixes *)

Lemma HasPrefix_app p s : HasPrefix (p +:+ s) p = true.
Proof.
  unfold HasPrefix. induction p as [|c p IH]; simpl; [by destruct s|].
  destruct (ascii_dec c c); [apply IH|congruence].
Qed.

Lemma TrimPrefix_app p s : TrimPrefix (p +:+ s) p = s.
Proof.
  unfold TrimPrefix. rewrite HasPrefix_app. unfold len.
  induction p as [|c p IH]; simpl; [by destruct s|done].
Qed.

Lemma HasPrefix_inv s p : HasPrefix s p = true -> s = p +:+ drop_bytes (len p) s.
Proof.
  unfold HasPrefix, len. revert s. induction p as [|c p IH]; intros [|d s]; simpl; try done.
  destruct (ascii_dec c d) as [->|]; [|done]. intros H.
  change (String d s = String d (p +:+ drop_bytes (String.length p) s)). by rewrite <- IH.
Qed.

Lemma string_app_assoc (a b c : string) : (a +:+ b) +:+ c = a +:+ (b +:+ c).
Proof.
  induction a as [|x a IH]; [done|].
  change (String x ((a +:+ b) +:+ c) = String x (a +:+ (b +:+ c))). by rewrite IH.
Qed.

Lemma string_app_nil_r (a : string) : a +:+ EmptyString = a.
Proof. induction a as [|c a IH]; simpl; [done|]. exact (f_equal (String c) IH). Qed.

Lemma len_app a b : len (a +:+ b) = len a + len b.
Proof. unfold len. induction a as [|c a IH]; simpl; [done|]. by rewrite IH. Qed.

Lemma is_empty_spec s : is_empty s = true <-> s = EmptyString.
Proof. apply String.eqb_eq. Qed.

Lemma is_empty_false s : is_empty s = false <-> s <> EmptyString.
Proof. apply String.eqb_neq. Qed.

Lemma has_byte_list c s : has_byte c s = true <-> c ∈ String.list_ascii_of_string s.
Proof.
  induction s as [|d s IH]; simpl; [set_solver|].
  by rewrite orb_true_iff, IH, Ascii.eqb_eq, elem_of_cons.
Qed.

Lemma TrimSpace_no_byte c s : has_byte c s = false -> has_byte c (TrimSpace s) = false.
Proof.
  rewrite <- !not_true_iff_false, !has_byte_list.
  destruct (TrimSpace_infix s) as (p & q & ->). set_solver.
Qed.

(** A separator that occurs in neither head splits uniquely. *)
Lemma sep_app_inj c s1 t1 s2 t2 :
  has_byte c s1 = false -> has_byte c s2 = false ->
  s1 +:+ String c t1 = s2 +:+ String c t2 -> s1 = s2 /\ t1 = t2.
Proof.
  revert s2. induction s1 as [|a s1 IH]; intros [|b s2]; simpl; intros H1 H2 E;
    injection E as; subst; bool_to_prop.
  - done.
  - by rewrite Ascii.eqb_refl in *.
  - by rewrite Ascii.eqb_refl in *.
  - destruct (IH s2) as [-> ->]; done.
Qed.

(** ** Positions *)

Lemma HasPrefix_byte c d s : HasPrefix (String d s) (String c EmptyString) = Ascii.eqb c d.
Proof.
  unfold HasPrefix. simpl. destruct (ascii_dec c d) as [->|Hne].
  - rewrite Ascii.eqb_refl. by destruct s.
  - by apply Ascii.eqb_neq in Hne as ->.
Qed.

Lemma Index_byte_app c s t : has_byte c s = false ->
  Index (s +:+ String c t) (String c EmptyString) = Some (len s).
Proof.
  induction s as [|d s IH]; simpl has_byte; intros H; cbn [Index String.app].
  - change (String.app EmptyString (String c t)) with (String c t).
    unfold Index. rewrite HasPrefix_byte, Ascii.eqb_refl. done.
  - apply orb_false_and in H as [Hd H].
    change (String d s +:+ String c t) with (String d (s +:+ String c t)). cbn [Index].
    rewrite HasPrefix_byte, Hd, (IH H). done.
Qed.

Lemma drop_bytes_app s t : drop_bytes (len s) (s +:+ t) = t.
Proof. by induction s. Qed.

Lemma take_bytes_app s t : take_bytes (len s) (s +:+ t) = s.
Proof.
  induction s as [|c s IH]; [by destruct t|].
  change (String c (take_bytes (len s) (s +:+ t)) = String c s). by rewrite IH.
Qed.

Lemma list_ascii_of_string_app s t :
  String.list_ascii_of_string (s +:+ t)
  = (String.list_ascii_of_string s ++ String.list_ascii_of_string t)%list.
Proof.
  induction s as [|c s IH]; [done|].
  change (c :: String.list_ascii_of_string (s +:+ t)
          = c :: (String.list_ascii_of_string s ++ String.list_ascii_of_string t)). by rewrite IH.
Qed.

(** Bytes that are white space do not occur in a text of solid bytes. *)
Lemma all_solid_no_byte c s : solid c = false -> all_solid s -> has_byte c s = false.
Proof.
  intros Hc Hs. apply not_true_iff_false. rewrite has_byte_list. intros Hin.
  unfold all_solid in Hs. rewrite Forall_forall in Hs. specialize (Hs _ Hin). simpl in Hs. congruence.
Qed.

(** Trimming keeps a solid first byte. *)
Lemma drop_ws_keeps_last p2 p3 b : ws1 b = false -> (forall x, p2 x b = false) ->
  (forall x y, p3 x y b = false) ->
  forall n l, length l <= n -> exists k, drop_ws p2 p3 (l ++ [b]) = k ++ [b].
Proof.
  intros H1 H2 H3. induction n as [|n IH]; intros l Hl.
  { destruct l; [|simpl in Hl; lia]. exists []. simpl. by rewrite H1. }
  destruct l as [|x l]; [exists []; simpl; by rewrite H1|]. simpl in Hl.
  simpl. destruct (ws1 x); [apply IH; lia|].
  destruct l as [|y l]; simpl in *; [exists [x]; by rewrite H2|].
  destruct (p2 x y); [apply IH; lia|].
  destruct l as [|z l]; simpl in *; [exists [x; y]; by rewrite H3|].
  destruct (p3 x y z); [apply IH; lia|]. by exists (x :: y :: z :: l).
Qed.

Lemma TrimSpace_solid_head c s : solid c = true -> exists t, TrimSpace (String c s) = String c t.
Proof.
  intros Hc. unfold TrimSpace, trim_bytes, trim_left_bytes. cbn [String.list_ascii_of_string].
  rewrite drop_ws_fix.
  2:{ simpl. rewrite solid_not_ws1 by done. simpl. destruct (String.list_ascii_of_string s) as [|b l]; [done|].
      rewrite (proj1 (solid_not_ws2 _ _ Hc)). simpl. destruct l; [done|].
      by rewrite (proj1 (solid_not_ws3 _ _ _ Hc)). }
  unfold trim_right_bytes. simpl rev.
  edestruct (drop_ws_keeps_last (fun a b => ws2 b a) (fun a b d => ws3 d b a) c) as [k ->].
  - by apply solid_not_ws1.
  - intros x. apply (solid_not_ws2 _ _ Hc).
  - intros x y. apply (solid_not_ws3 _ _ _ Hc).
  - reflexivity.
  - rewrite rev_app_distr. simpl. eauto.
Qed.
