(* ===== verification/GoUnicode.v ===== *)
(** * Runes: UTF-8, case mapping and quoting

    Go reads a string as UTF-8 in [strings.ToLower], [strings.ToUpper],
    [strings.EqualFold] and [strconv.Quote] (the [%q] verb).  The decoding and
    encoding are defined here byte by byte; the Unicode character data behind
    [unicode.ToLower] and the rest (which changes with the Unicode version of
    the Go toolchain) is the class [Unicode], with the facts about it that hold
    in every version. *)

From stdpp Require Import base gmap sets list strings sorting.
From Stdlib Require Import Ascii.
From S2P Require Import Prelude GoStrings.
Local Open Scope string_scope.
Local Open Scope list_scope.
Local Open Scope N_scope.

(** ** UTF-8 *)

Definition RuneError : N := 0xFFFD.

Definition valid_rune (r : N) : bool :=
  (r <? 0xD800) || ((0xDFFF <? r) && (r <=? 0x10FFFF)).

(** One step of [utf8.DecodeRune]: a rune, or a byte that starts none. *)
Inductive rchunk :=
| RValid (r : N)
| RInvalid (b : N).

Definition cont (b : N) : bool := (0x80 <=? b) && (b <=? 0xBF).

Definition lead2 (b0 b1 : N) : bool := (0xC2 <=? b0) && (b0 <=? 0xDF) && cont b1.

Definition lead3 (b0 b1 b2 : N) : bool :=
  ((0xE0 <=? b0) && (b0 <=? 0xEF)) &&
  ((if b0 =? 0xE0 then 0xA0 else 0x80) <=? b1) &&
  (b1 <=? (if b0 =? 0xED then 0x9F else 0xBF)) && cont b2.

Definition lead4 (b0 b1 b2 b3 : N) : bool :=
  ((0xF0 <=? b0) && (b0 <=? 0xF4)) &&
  ((if b0 =? 0xF0 then 0x90 else 0x80) <=? b1) &&
  (b1 <=? (if b0 =? 0xF4 then 0x8F else 0xBF)) && cont b2 && cont b3.

Definition rune2 (b0 b1 : N) : N := (b0 - 0xC0) * 64 + (b1 - 0x80).
Definition rune3 (b0 b1 b2 : N) : N :=
  (b0 - 0xE0) * 4096 + (b1 - 0x80) * 64 + (b2 - 0x80).
Definition rune4 (b0 b1 b2 b3 : N) : N :=
  (b0 - 0xF0) * 262144 + (b1 - 0x80) * 4096 + (b2 - 0x80) * 64 + (b3 - 0x80).

Fixpoint utf8_decode (l : list N) : list rchunk :=
  match l with
  | [] => []
  | b0 :: t0 =>
      if b0 <? 0x80 then RValid b0 :: utf8_decode t0
      else match t0 with
      | [] => RInvalid b0 :: utf8_decode t0
      | b1 :: t1 =>
          if lead2 b0 b1 then RValid (rune2 b0 b1) :: utf8_decode t1
          else match t1 with
          | [] => RInvalid b0 :: utf8_decode t0
          | b2 :: t2 =>
              if lead3 b0 b1 b2 then RValid (rune3 b0 b1 b2) :: utf8_decode t2
              else match t2 with
              | [] => RInvalid b0 :: utf8_decode t0
              | b3 :: t3 =>
                  if lead4 b0 b1 b2 b3 then RValid (rune4 b0 b1 b2 b3) :: utf8_decode t3
                  else RInvalid b0 :: utf8_decode t0
              end
          end
      end
  end.

Definition rune_of (c : rchunk) : N :=
  match c with RValid r => r | RInvalid _ => RuneError end.

(** [for _, r := range s]: an undecodable byte reads as U+FFFD. *)
Definition runes (s : string) : list N := rune_of <$> utf8_decode (bytes_of s).

(** [utf8.AppendRune]. *)
Definition utf8_encode (r0 : N) : list N :=
  let r := if valid_rune r0 then r0 else RuneError in
  if r <? 0x80 then [r]
  else if r <? 0x800 then [0xC0 + r / 64; 0x80 + r mod 64]
  else if r <? 0x10000 then [0xE0 + r / 4096; 0x80 + (r / 64) mod 64; 0x80 + r mod 64]
  else [0xF0 + r / 262144; 0x80 + (r / 4096) mod 64; 0x80 + (r / 64) mod 64; 0x80 + r mod 64].

Definition string_of_runes (l : list N) : string :=
  string_of_bytes (l ≫= utf8_encode).

(** ** Character data *)

Definition ascii_lower (r : N) : N := if (65 <=? r) && (r <=? 90) then r + 32 else r.
Definition ascii_upper (r : N) : N := if (97 <=? r) && (r <=? 122) then r - 32 else r.

Class Unicode := {
  unicode_ToLower : N -> N;
  unicode_ToUpper : N -> N;
  unicode_fold : N -> N;   (** least rune of the [unicode.SimpleFold] orbit *)
  unicode_IsPrint : N -> bool;
  ToLower_ascii : forall r, r < 128 -> unicode_ToLower r = ascii_lower r;
  ToUpper_ascii : forall r, r < 128 -> unicode_ToUpper r = ascii_upper r;
  fold_ascii : forall r, r < 128 -> unicode_fold r = ascii_upper r;
  (** the only runes beyond ASCII with an ASCII counterpart: dotted capital I,
      the Kelvin sign, dotless i and long s *)
  ToLower_into_ascii : forall r, 128 <= r -> unicode_ToLower r < 128 ->
    (r = 0x130 /\ unicode_ToLower r = 105) \/ (r = 0x212A /\ unicode_ToLower r = 107);
  ToUpper_into_ascii : forall r, 128 <= r -> unicode_ToUpper r < 128 ->
    (r = 0x131 /\ unicode_ToUpper r = 73) \/ (r = 0x17F /\ unicode_ToUpper r = 83);
  fold_into_ascii : forall r, 128 <= r -> unicode_fold r < 128 ->
    (r = 0x212A /\ unicode_fold r = 75) \/ (r = 0x17F /\ unicode_fold r = 83);
  ToLower_valid : forall r, valid_rune r = true -> valid_rune (unicode_ToLower r) = true;
  ToLower_idem : forall r, unicode_ToLower (unicode_ToLower r) = unicode_ToLower r
}.

(** The character data of Latin-1 and of the four runes above, as an instance. *)
Definition latin1_lower (r : N) : N :=
  if r <? 128 then ascii_lower r
  else if (0xC0 <=? r) && (r <=? 0xDE) && negb (r =? 0xD7) then r + 32
  else if r =? 0x130 then 105 else if r =? 0x212A then 107 else r.

Definition latin1_upper (r : N) : N :=
  if r <? 128 then ascii_upper r
  else if (0xE0 <=? r) && (r <=? 0xFE) && negb (r =? 0xF7) then r - 32
  else if r =? 0x131 then 73 else if r =? 0x17F then 83 else r.

Definition latin1_fold (r : N) : N :=
  if r <? 128 then ascii_upper r
  else if (0xE0 <=? r) && (r <=? 0xFE) && negb (r =? 0xF7) then r - 32
  else if r =? 0x212A then 75 else if r =? 0x17F then 83 else r.

Definition latin1_print (r : N) : bool :=
  ((32 <=? r) && (r <=? 126)) || ((0xA1 <=? r) && negb (r =? 0xAD)).

Lemma valid_rune_spec r :
  valid_rune r = true <-> r < 0xD800 \/ (0xDFFF < r /\ r <= 0x10FFFF).
Proof. unfold valid_rune. rewrite orb_true_iff, andb_true_iff, !N.ltb_lt, N.leb_le. done. Qed.

(** Case analysis on the comparisons of a rune, discharged by [lia]. *)
Ltac rune_cases :=
  rewrite ?valid_rune_spec in *;
  repeat match goal with
  | H : context [N.leb ?a ?b] |- _ => destruct (N.leb_spec a b)
  | H : context [N.ltb ?a ?b] |- _ => destruct (N.ltb_spec a b)
  | H : context [N.eqb ?a ?b] |- _ => destruct (N.eqb_spec a b)
  | |- context [N.leb ?a ?b] => destruct (N.leb_spec a b)
  | |- context [N.ltb ?a ?b] => destruct (N.ltb_spec a b)
  | |- context [N.eqb ?a ?b] => destruct (N.eqb_spec a b)
  end; simpl in *; lia.

Lemma latin1_lower_valid r : valid_rune r = true -> valid_rune (latin1_lower r) = true.
Proof. rewrite !valid_rune_spec. unfold latin1_lower, ascii_lower. rune_cases. Qed.

Lemma latin1_lower_idem r : latin1_lower (latin1_lower r) = latin1_lower r.
Proof.
  assert (H : forall x, (x < 65 \/ 90 < x /\ x < 0xC0 \/ x = 0xD7 \/ 0xDE < x /\ x <> 0x130 /\ x <> 0x212A) ->
    latin1_lower x = x).
  { intros x Hx. unfold latin1_lower, ascii_lower. rune_cases. }
  apply H. unfold latin1_lower, ascii_lower. rune_cases.
Qed.

#[global] Instance latin1_Unicode : Unicode.
Proof.
  refine {| unicode_ToLower := latin1_lower; unicode_ToUpper := latin1_upper;
            unicode_fold := latin1_fold; unicode_IsPrint := latin1_print;
            ToLower_valid := latin1_lower_valid; ToLower_idem := latin1_lower_idem |};
    abstract (intros r; unfold latin1_lower, latin1_upper, latin1_fold, ascii_lower, ascii_upper;
              rune_cases).
Defined.

(** ** The [strings] functions *)

Definition hex_digit (n : N) : ascii :=
  ascii_of_N (if n <? 10 then 48 + n else 87 + n).

(** [width] hexadecimal digits of [n], lower case. *)
Fixpoint hex_digits (width : nat) (n : N) : string :=
  match width with
  | O => EmptyString
  | S w => hex_digits w (n / 16) +:+ String (hex_digit (n mod 16)) EmptyString
  end.

Section CaseMapping.
Context `{U : Unicode}.

(** [strings.ToLower] and [strings.ToUpper]: [strings.Map] over the runes. *)
Definition ToLower (s : string) : string := string_of_runes (unicode_ToLower <$> runes s).
Definition ToUpper (s : string) : string := string_of_runes (unicode_ToUpper <$> runes s).

Fixpoint fold_eq (l1 l2 : list N) : bool :=
  match l1, l2 with
  | [], [] => true
  | r1 :: l1', r2 :: l2' => (unicode_fold r1 =? unicode_fold r2) && fold_eq l1' l2'
  | _, _ => false
  end.

(** [strings.EqualFold]: equality of the runes up to simple case folding. *)
Definition EqualFold (s t : string) : bool := fold_eq (runes s) (runes t).

Definition quote_rune (c : rchunk) : string :=
  match c with
  | RInvalid b => "\x" +:+ hex_digits 2 b
  | RValid r =>
      if (r =? 34) || (r =? 92) then String "\" (String (ascii_of_N r) EmptyString)
      else if unicode_IsPrint r then string_of_bytes (utf8_encode r)
      else if r =? 7 then "\a" else if r =? 8 then "\b" else if r =? 12 then "\f"
      else if r =? 10 then "\n" else if r =? 13 then "\r" else if r =? 9 then "\t"
      else if r =? 11 then "\v"
      else if (r <? 32) || (r =? 127) then "\x" +:+ hex_digits 2 r
      else if r <? 0x10000 then "\u" +:+ hex_digits 4 r
      else "\U" +:+ hex_digits 8 r
  end.

(** [strconv.Quote], the [%q] verb on strings. *)
Definition Quote (s : string) : string :=
  let q := String (ascii_of_N 34) EmptyString in
  q +:+ foldr (fun c acc => quote_rune c +:+ acc) q (utf8_decode (bytes_of s)).

End CaseMapping.

(** ** UTF-8 round trip *)

Lemma div64 r : r = 64 * (r / 64) + r mod 64 /\ r mod 64 < 64.
Proof. split; [apply N.div_mod'; lia|apply N.mod_lt; lia]. Qed.

Ltac solve_bytes :=
  repeat match goal with
  | |- context [N.eqb ?a ?b] => destruct (N.eqb_spec a b)
  end;
  repeat match goal with
  | |- context [N.leb ?a ?b] => destruct (N.leb_spec a b)
  | |- context [N.ltb ?a ?b] => destruct (N.ltb_spec a b)
  end; first [reflexivity | exfalso; lia].

Lemma decode_1 r l : r < 0x80 -> utf8_decode (r :: l) = RValid r :: utf8_decode l.
Proof. intros H. simpl. by apply N.ltb_lt in H as ->. Qed.

Lemma decode_2 b0 b1 l : lead2 b0 b1 = true ->
  utf8_decode (b0 :: b1 :: l) = RValid (rune2 b0 b1) :: utf8_decode l.
Proof.
  intros H. simpl. rewrite H. replace (b0 <? 0x80) with false; [done|].
  symmetry. apply N.ltb_ge. unfold lead2 in H. rewrite !andb_true_iff, N.leb_le in H. lia.
Qed.

Lemma decode_3 b0 b1 b2 l : lead3 b0 b1 b2 = true ->
  utf8_decode (b0 :: b1 :: b2 :: l) = RValid (rune3 b0 b1 b2) :: utf8_decode l.
Proof.
  intros H. simpl. rewrite H. unfold lead3 in H. rewrite !andb_true_iff, !N.leb_le in H.
  replace (b0 <? 0x80) with false by (symmetry; apply N.ltb_ge; lia).
  replace (lead2 b0 b1) with false; [done|].
  symmetry. apply not_true_iff_false. unfold lead2. rewrite !andb_true_iff, !N.leb_le. lia.
Qed.

Lemma decode_4 b0 b1 b2 b3 l : lead4 b0 b1 b2 b3 = true ->
  utf8_decode (b0 :: b1 :: b2 :: b3 :: l) = RValid (rune4 b0 b1 b2 b3) :: utf8_decode l.
Proof.
  intros H. simpl. rewrite H. unfold lead4 in H. rewrite !andb_true_iff, !N.leb_le in H.
  replace (b0 <? 0x80) with false by (symmetry; apply N.ltb_ge; lia).
  replace (lead2 b0 b1) with false.
  2:{ symmetry. apply not_true_iff_false. unfold lead2. rewrite !andb_true_iff, !N.leb_le. lia. }
  replace (lead3 b0 b1 b2) with false; [done|].
  symmetry. apply not_true_iff_false. unfold lead3. rewrite !andb_true_iff, !N.leb_le. lia.
Qed.

(** The base-64 digits of a rune. *)
Lemma rune_digits r : exists a b c d : N,
  r mod 64 = a /\ (r / 64) mod 64 = b /\ (r / 4096) mod 64 = c /\ r / 262144 = d /\
  r / 4096 = c + 64 * d /\ r / 64 = b + 64 * c + 4096 * d /\
  r = a + 64 * b + 4096 * c + 262144 * d /\ a < 64 /\ b < 64 /\ c < 64.
Proof.
  assert (E1 : r / 4096 = r / 64 / 64) by (rewrite N.Div0.div_div; done).
  assert (E2 : r / 262144 = r / 4096 / 64) by (rewrite N.Div0.div_div; done).
  destruct (div64 r) as [A1 A2], (div64 (r / 64)) as [B1 B2], (div64 (r / 4096)) as [C1 C2].
  rewrite <- E1, <- E2 in *.
  generalize dependent (r mod 64). generalize dependent ((r / 64) mod 64).
  generalize dependent ((r / 4096) mod 64). generalize dependent (r / 262144).
  generalize dependent (r / 4096). generalize dependent (r / 64).
  intros. eexists _, _, _, _. split_and!; done || lia.
Qed.

Lemma decode_encode r l :
  valid_rune r = true -> utf8_decode (utf8_encode r ++ l) = RValid r :: utf8_decode l.
Proof.
  intros Hv. unfold utf8_encode. rewrite Hv. apply valid_rune_spec in Hv.
  destruct (rune_digits r) as (a & b & c & d & -> & -> & -> & -> & -> & -> & E & ? & ? & ?).
  destruct (N.ltb_spec r 0x80); [by apply decode_1|].
  destruct (N.ltb_spec r 0x800).
  { simpl app. rewrite decode_2; [unfold rune2; f_equal; f_equal; lia|].
    unfold lead2, cont. solve_bytes. }
  destruct (N.ltb_spec r 0x10000).
  { simpl app. rewrite decode_3; [unfold rune3; f_equal; f_equal; lia|].
    unfold lead3, cont. solve_bytes. }
  simpl app. rewrite decode_4; [unfold rune4; f_equal; f_equal; lia|].
  unfold lead4, cont. solve_bytes.
Qed.

Lemma encode_bytes r : Forall (fun b => b < 256) (utf8_encode r).
Proof.
  unfold utf8_encode. set (r' := if valid_rune r then r else RuneError).
  assert (Hv : valid_rune r' = true) by (unfold r'; destruct (valid_rune r) eqn:?; done).
  apply valid_rune_spec in Hv.
  destruct (rune_digits r') as (a & b & c & d & -> & -> & -> & -> & -> & -> & E & ? & ? & ?).
  repeat case_match; rewrite ?N.ltb_lt, ?N.ltb_ge in *; repeat constructor; lia.
Qed.

Lemma string_of_bytes_of s : string_of_bytes (bytes_of s) = s.
Proof.
  unfold bytes_of, string_of_bytes. rewrite <- list_fmap_compose.
  rewrite (list_fmap_ext _ id) by (intros; apply ascii_N_embedding).
  rewrite list_fmap_id. apply String.string_of_list_ascii_of_string.
Qed.

Lemma bytes_of_string_of_bytes l :
  Forall (fun b => b < 256) l -> bytes_of (string_of_bytes l) = l.
Proof.
  intros H. unfold bytes_of, string_of_bytes.
  rewrite String.list_ascii_of_string_of_list_ascii, <- list_fmap_compose.
  induction H as [|b l Hb _ IH]; [done|]. simpl. f_equal; [|done].
  by rewrite N_ascii_embedding.
Qed.

Lemma runes_string_of_runes l :
  Forall (fun r => valid_rune r = true) l -> runes (string_of_runes l) = l.
Proof.
  intros H. unfold runes, string_of_runes. rewrite bytes_of_string_of_bytes.
  - induction H as [|r l Hr _ IH]; [done|]. simpl. rewrite decode_encode by done.
    simpl. f_equal. exact IH.
  - clear. induction l as [|r l IH]; [constructor|]. simpl.
    apply Forall_app; split; [apply encode_bytes|done].
Qed.

(** ** Decoding, one rune at a time *)

(** What one decoding step consumes: a valid rune and its bytes (one byte below
    128, or bytes that are all at least 128), or one byte that starts no rune. *)
Definition chunk_bytes (c : rchunk) (k : list N) : Prop :=
  match c with
  | RInvalid b => k = [b] /\ 128 <= b
  | RValid r => valid_rune r = true /\
      ((r < 128 /\ k = [r]) \/ (128 <= r /\ Forall (fun b => 128 <= b) k))
  end.

Lemma lead2_rune b0 b1 : lead2 b0 b1 = true ->
  128 <= rune2 b0 b1 < 0x800 /\ 128 <= b0 /\ 128 <= b1.
Proof. unfold lead2, cont, rune2. rewrite !andb_true_iff, !N.leb_le. lia. Qed.

Lemma lead3_rune b0 b1 b2 : lead3 b0 b1 b2 = true ->
  128 <= rune3 b0 b1 b2 /\ valid_rune (rune3 b0 b1 b2) = true /\
  128 <= b0 /\ 128 <= b1 /\ 128 <= b2.
Proof.
  rewrite valid_rune_spec. unfold lead3, cont, rune3. rewrite !andb_true_iff, !N.leb_le.
  destruct (N.eqb_spec b0 0xE0), (N.eqb_spec b0 0xED); lia.
Qed.

Lemma lead4_rune b0 b1 b2 b3 : lead4 b0 b1 b2 b3 = true ->
  128 <= rune4 b0 b1 b2 b3 /\ valid_rune (rune4 b0 b1 b2 b3) = true /\
  128 <= b0 /\ 128 <= b1 /\ 128 <= b2 /\ 128 <= b3.
Proof.
  rewrite valid_rune_spec. unfold lead4, cont, rune4. rewrite !andb_true_iff, !N.leb_le.
  destruct (N.eqb_spec b0 0xF0), (N.eqb_spec b0 0xF4); lia.
Qed.

Lemma utf8_step b0 t0 : exists c k rest,
  b0 :: t0 = k ++ rest /\ k <> [] /\
  utf8_decode (b0 :: t0) = c :: utf8_decode rest /\ chunk_bytes c k.
Proof.
  assert (Hinv : 128 <= b0 -> utf8_decode (b0 :: t0) = RInvalid b0 :: utf8_decode t0 ->
    exists c k rest, b0 :: t0 = k ++ rest /\ k <> [] /\
      utf8_decode (b0 :: t0) = c :: utf8_decode rest /\ chunk_bytes c k).
  { intros Hb E. by exists (RInvalid b0), [b0], t0. }
  destruct (N.ltb_spec b0 0x80) as [H|H].
  { exists (RValid b0), [b0], t0. split_and!; [done..|by rewrite decode_1|].
    split; [apply valid_rune_spec; lia|]. by left. }
  assert (Hlt : (b0 <? 0x80) = false) by (by apply N.ltb_ge).
  destruct t0 as [|b1 t1]; [apply Hinv; [done|]; simpl; by rewrite Hlt|].
  destruct (lead2 b0 b1) eqn:E2.
  { exists (RValid (rune2 b0 b1)), [b0; b1], t1. destruct (lead2_rune _ _ E2) as (? & ? & ?).
    split_and!; [done..|by rewrite decode_2|]. split; [apply valid_rune_spec; lia|].
    right. split; [lia|]. repeat constructor; lia. }
  destruct t1 as [|b2 t2]; [apply Hinv; [done|]; simpl; by rewrite Hlt, E2|].
  destruct (lead3 b0 b1 b2) eqn:E3.
  { exists (RValid (rune3 b0 b1 b2)), [b0; b1; b2], t2.
    destruct (lead3_rune _ _ _ E3) as (? & ? & ? & ? & ?).
    split_and!; [done..|by rewrite decode_3|]. split; [done|].
    right. split; [lia|]. repeat constructor; lia. }
  destruct t2 as [|b3 t3]; [apply Hinv; [done|]; simpl; by rewrite Hlt, E2, E3|].
  destruct (lead4 b0 b1 b2 b3) eqn:E4.
  { exists (RValid (rune4 b0 b1 b2 b3)), [b0; b1; b2; b3], t3.
    destruct (lead4_rune _ _ _ _ E4) as (? & ? & ? & ? & ? & ?).
    split_and!; [done..|by rewrite decode_4|]. split; [done|].
    right. split; [lia|]. repeat constructor; lia. }
  apply Hinv; [done|]. cbn [utf8_decode]. by rewrite Hlt, E2, E3, E4.
Qed.

(** Induction along the decoding. *)
Lemma utf8_ind (P : list N -> Prop) :
  P [] ->
  (forall c k rest, chunk_bytes c k -> utf8_decode (k ++ rest) = c :: utf8_decode rest ->
     P rest -> P (k ++ rest)) ->
  forall l, P l.
Proof.
  intros H0 HS l.
  assert (forall n l', (length l' <= n)%nat -> P l') as Hn; [|by apply (Hn (length l))].
  induction n as [|n IH]; intros [|b0 t0] Hl; [done|simpl in Hl; lia|done|].
  destruct (utf8_step b0 t0) as (c & k & rest & E & Hk & Hd & Hc).
  rewrite E in *. apply (HS c); [done..|]. apply IH.
  rewrite length_app in Hl. destruct k; [done|simpl in Hl; lia].
Qed.

Lemma runes_valid s : Forall (fun r => valid_rune r = true) (runes s).
Proof.
  unfold runes. induction (bytes_of s) as [|c k rest Hc E IH] using utf8_ind; [constructor|].
  rewrite E. simpl. constructor; [|done]. destruct c; [by destruct Hc|done].
Qed.

(** ** ASCII strings *)

Definition is_ascii (s : string) : Prop :=
  Forall (fun a => N_of_ascii a < 128) (String.list_ascii_of_string s).

Definition map_string (f : N -> N) (s : string) : string :=
  string_of_bytes (f <$> bytes_of s).

Lemma runes_ascii s : is_ascii s -> runes s = bytes_of s.
Proof.
  unfold runes, bytes_of, is_ascii.
  induction 1 as [|a l Ha Hl IH]; [done|].
  rewrite fmap_cons, decode_1 by done. by rewrite fmap_cons, IH.
Qed.

(** A string all of whose runes are ASCII has no other bytes. *)
Lemma runes_ascii_bytes s : Forall (fun r => r < 128) (runes s) -> runes s = bytes_of s.
Proof.
  unfold runes. induction (bytes_of s) as [|c k rest Hc E IH] using utf8_ind; [done|].
  rewrite E, fmap_cons, Forall_cons. intros [Hr Hrest]. specialize (IH Hrest). rewrite IH.
  destruct c as [r|b]; simpl in Hr; [|unfold RuneError in Hr; lia].
  destruct Hc as [_ [[_ ->]|[H _]]]; [done|lia].
Qed.

Lemma string_of_runes_ascii l :
  Forall (fun r => r < 128) l -> string_of_runes l = string_of_bytes l.
Proof.
  intros H. unfold string_of_runes. f_equal.
  induction H as [|r l Hr _ IH]; [done|]. rewrite bind_cons, IH.
  unfold utf8_encode. replace (valid_rune r) with true; [|symmetry; apply valid_rune_spec; lia].
  by apply N.ltb_lt in Hr as ->.
Qed.

Lemma bytes_of_ascii s : is_ascii s -> Forall (fun r => r < 128) (bytes_of s).
Proof. unfold is_ascii, bytes_of. by rewrite Forall_fmap. Qed.

Lemma ascii_lower_bound r : r < 128 -> ascii_lower r < 128.
Proof. unfold ascii_lower. rune_cases. Qed.

Lemma ascii_upper_bound r : r < 128 -> ascii_upper r < 128.
Proof. unfold ascii_upper. rune_cases. Qed.

Section CaseFacts.
Context `{U : Unicode}.

Lemma ToLower_is_ascii s : is_ascii s -> ToLower s = map_string ascii_lower s.
Proof.
  intros H. unfold ToLower, map_string. rewrite runes_ascii by done.
  assert (unicode_ToLower <$> bytes_of s = ascii_lower <$> bytes_of s) as ->.
  { apply list_fmap_ext. intros i r Hr. apply ToLower_ascii.
    by eapply (Forall_lookup_1 _ _ i r (bytes_of_ascii s H)). }
  apply string_of_runes_ascii. rewrite Forall_fmap.
  eapply Forall_impl; [by apply bytes_of_ascii|]. apply ascii_lower_bound.
Qed.

Lemma ToUpper_is_ascii s : is_ascii s -> ToUpper s = map_string ascii_upper s.
Proof.
  intros H. unfold ToUpper, map_string. rewrite runes_ascii by done.
  assert (unicode_ToUpper <$> bytes_of s = ascii_upper <$> bytes_of s) as ->.
  { apply list_fmap_ext. intros i r Hr. apply ToUpper_ascii.
    by eapply (Forall_lookup_1 _ _ i r (bytes_of_ascii s H)). }
  apply string_of_runes_ascii. rewrite Forall_fmap.
  eapply Forall_impl; [by apply bytes_of_ascii|]. apply ascii_upper_bound.
Qed.

Lemma ToLower_runes s : runes (ToLower s) = unicode_ToLower <$> runes s.
Proof.
  apply runes_string_of_runes. rewrite Forall_fmap.
  eapply Forall_impl; [apply runes_valid|]. apply ToLower_valid.
Qed.

Lemma ToLower_empty s : ToLower s = EmptyString -> s = EmptyString.
Proof.
  intros H. assert (runes s = []) as Hr.
  { apply (f_equal runes) in H. rewrite ToLower_runes in H. by apply fmap_nil_inv in H. }
  destruct s as [|a s]; [done|]. exfalso. revert Hr. unfold runes, bytes_of.
  cbn [String.list_ascii_of_string fmap list_fmap]. cbn [utf8_decode].
  repeat case_match; done.
Qed.

Lemma ToLower_ToLower s : ToLower (ToLower s) = ToLower s.
Proof.
  unfold ToLower at 1. rewrite ToLower_runes. unfold ToLower. f_equal.
  rewrite <- list_fmap_compose. apply list_fmap_ext. intros. apply ToLower_idem.
Qed.

Lemma fold_eq_refl l : fold_eq l l = true.
Proof. induction l; simpl; [done|]. by rewrite N.eqb_refl. Qed.

Lemma fold_eq_sym l1 l2 : fold_eq l1 l2 = fold_eq l2 l1.
Proof. revert l2. induction l1; intros []; simpl; [done..|]. by rewrite N.eqb_sym, IHl1. Qed.

Definition ascii_EqualFold (s t : string) : bool :=
  bool_decide (map_string ascii_upper s = map_string ascii_upper t).

Lemma EqualFold_ascii s t : is_ascii s -> is_ascii t -> EqualFold s t = ascii_EqualFold s t.
Proof.
  intros Hs Ht. unfold EqualFold. rewrite !runes_ascii by done.
  apply bytes_of_ascii in Hs as Bs. apply bytes_of_ascii in Ht as Bt.
  assert (fold_eq (bytes_of s) (bytes_of t) = bool_decide (ascii_upper <$> bytes_of s = ascii_upper <$> bytes_of t)) as ->.
  { generalize dependent (bytes_of t). induction Bs as [|r l Hr _ IH]; intros [|r' l'] Hl; try done.
    inversion_clear Hl as [|? ? Hr' Hl']. simpl. rewrite !fold_ascii, IH by done.
    apply eq_true_iff_eq. rewrite andb_true_iff, N.eqb_eq, !bool_decide_eq_true. split; [intros [E1 E2]; f_equal; [exact E1|exact E2]|by intros [= E1 E2]]. }
  unfold ascii_EqualFold. apply bool_decide_ext. unfold map_string. split; [by intros ->|].
  intros H%(f_equal bytes_of). rewrite !bytes_of_string_of_bytes in H; [done| |];
    (rewrite Forall_fmap; eapply Forall_impl; [eassumption|]; intros r Hr; simpl; pose proof (ascii_upper_bound r Hr); lia).
Qed.

Lemma EqualFold_refl s : EqualFold s s = true.
Proof. apply fold_eq_refl. Qed.

(** ToLower introduces no NUL byte. *)
Lemma ToLower_zero r : unicode_ToLower r = 0 -> r = 0.
Proof.
  intros H. destruct (N.lt_ge_cases r 128) as [Hr|Hr].
  - rewrite ToLower_ascii in H by done. unfold ascii_lower in H. rune_cases.
  - destruct (ToLower_into_ascii r Hr) as [[_ E]|[_ E]]; lia.
Qed.

(** ** NUL bytes *)

Lemma zero_encode r : 0 ∈ utf8_encode r -> r = 0.
Proof.
  unfold utf8_encode. destruct (valid_rune r) eqn:Hv.
  - repeat case_match; rewrite ?N.ltb_lt, ?N.ltb_ge in *;
      rewrite ?elem_of_cons, elem_of_nil; intros; destruct_or?; try done;
      match goal with H : 0 = _ + _ |- _ => symmetry in H; apply N.eq_add_0 in H as [? _] end; done.
  - intros H. by apply (bool_decide_pack _) in H.
Qed.

Lemma bytes_of_string_of_runes l : bytes_of (string_of_runes l) = l ≫= utf8_encode.
Proof.
  apply bytes_of_string_of_bytes. induction l as [|r l IH]; [constructor|]. simpl.
  apply Forall_app; split; [apply encode_bytes|done].
Qed.

Lemma zero_runes s : 0 ∈ runes s -> 0 ∈ bytes_of s.
Proof.
  unfold runes. induction (bytes_of s) as [|c k rest Hc E IH] using utf8_ind; [done|].
  rewrite E, fmap_cons, elem_of_cons, elem_of_app. intros [H0|H0]; [left|by right; apply IH].
  destruct c as [r|b]; simpl in H0; [subst r|done].
  destruct Hc as [_ [[_ ->]|[H _]]]; [by left|lia].
Qed.

Lemma has_byte_bytes c s : has_byte c s = true <-> N_of_ascii c ∈ bytes_of s.
Proof.
  unfold bytes_of. induction s as [|d s IH]; simpl; [set_solver|].
  rewrite orb_true_iff, IH, Ascii.eqb_eq, elem_of_cons.
  split; intros [H|H]; auto; left; [by subst|by apply N_of_ascii_inj].
Qed.

Lemma ToLower_no_nul s : has_byte Ascii.zero s = false -> has_byte Ascii.zero (ToLower s) = false.
Proof.
  rewrite <- !not_true_iff_false, !has_byte_bytes. intros Hs Hl. apply Hs, zero_runes.
  unfold ToLower in Hl. rewrite bytes_of_string_of_runes in Hl.
  apply list_elem_of_bind in Hl as (r & Hr%zero_encode & Hin). subst r.
  apply list_elem_of_fmap in Hin as (r & Hr & Hin).
  symmetry in Hr. apply ToLower_zero in Hr. by subst r.
Qed.

End CaseFacts.
