(* ===== verification/Url.v ===== *)
(** * Escaping in URLs

    [url.QueryEscape], [url.PathEscape] and [url.PathUnescape], byte by byte. *)

From stdpp Require Import base gmap sets list strings.
From Stdlib Require Import Ascii ZArith Lia.
From S2P Require Import Prelude GoStrings.
Local Open Scope string_scope.
Local Open Scope list_scope.

(** ** Escaping *)

(** Letters, digits and the marks that are never escaped. *)
Definition unreserved (a : ascii) : bool :=
  let n := N_of_ascii a in
  ((65 <=? n)%N && (n <=? 90)%N) || ((97 <=? n)%N && (n <=? 122)%N) || ((48 <=? n)%N && (n <=? 57)%N)
  || Ascii.eqb a "-" || Ascii.eqb a "_" || Ascii.eqb a "." || Ascii.eqb a "~".

Definition upper_hex_digit (n : N) : ascii := ascii_of_N (if (n <? 10)%N then 48 + n else 55 + n)%N.

(** [%XX]. *)
Definition percent (a : ascii) : string :=
  String "%" (String (upper_hex_digit (N_of_ascii a / 16)) (String (upper_hex_digit (N_of_ascii a mod 16)) EmptyString)).

Definition escape_char (a : ascii) : string :=
  if unreserved a then String a EmptyString
  else if Ascii.eqb a " " then "+"
  else percent a.

(** [url.QueryEscape]. *)
Fixpoint QueryEscape (s : string) : string :=
  match s with
  | EmptyString => EmptyString
  | String a s' => escape_char a +:+ QueryEscape s'
  end.

(** A path segment keeps a few more marks. *)
Definition path_char (a : ascii) : bool :=
  unreserved a || Ascii.eqb a "$" || Ascii.eqb a "&" || Ascii.eqb a "+" || Ascii.eqb a ":" || Ascii.eqb a "="
  || Ascii.eqb a "@".

Definition path_escape_char (a : ascii) : string := if path_char a then String a EmptyString else percent a.

(** [url.PathEscape]. *)
Fixpoint PathEscape (s : string) : string :=
  match s with
  | EmptyString => EmptyString
  | String a s' => path_escape_char a +:+ PathEscape s'
  end.

(** ** Unescaping *)

Definition unhex (a : ascii) : option N :=
  let n := N_of_ascii a in
  if ((48 <=? n) && (n <=? 57))%N then Some (n - 48)%N
  else if ((65 <=? n) && (n <=? 70))%N then Some (n - 55)%N
  else if ((97 <=? n) && (n <=? 102))%N then Some (n - 87)%N
  else None.

(** [url.PathUnescape]; a server only passes on paths whose escapes are valid. *)
Fixpoint unescape_bytes (l : list ascii) : list ascii :=
  match l with
  | [] => []
  | a :: l' =>
      match l' with
      | b :: c :: rest =>
          if Ascii.eqb a "%" then
            match unhex b, unhex c with
            | Some x, Some y => ascii_of_N (16 * x + y) :: unescape_bytes rest
            | _, _ => a :: unescape_bytes l'
            end
          else a :: unescape_bytes l'
      | _ => a :: unescape_bytes l'
      end
  end.

Definition PathUnescape (s : string) : string :=
  String.string_of_list_ascii (unescape_bytes (String.list_ascii_of_string s)).

(** ** Round trip *)

(** What an escaped character is: itself, or a percent sign and two digits that
    give it back. *)
Lemma path_escape_cases a :
  (path_escape_char a = String a EmptyString /\ a <> "%"%char /\ a <> "/"%char /\ a <> "?"%char /\ a <> "#"%char)
  \/ (exists h l, path_escape_char a = String "%" (String h (String l EmptyString))
       /\ h <> "/"%char /\ l <> "/"%char /\ h <> "?"%char /\ l <> "?"%char /\ h <> "#"%char /\ l <> "#"%char
       /\ exists x y, unhex h = Some x /\ unhex l = Some y /\ ascii_of_N (16 * x + y) = a).
Proof.
  destruct a as [[] [] [] [] [] [] [] []];
    first [left; split_and!; [reflexivity|discriminate..]
          |right; eexists _, _; split; [vm_compute; reflexivity|]; split_and!; try discriminate;
           eexists _, _; split_and!; vm_compute; reflexivity].
Qed.

Lemma unescape_path_escape s : unescape_bytes (String.list_ascii_of_string (PathEscape s)) = String.list_ascii_of_string s.
Proof.
  induction s as [|a s IH]; [done|]. cbn [PathEscape String.list_ascii_of_string].
  destruct (path_escape_cases a) as [(-> & Hp & _)|(h & l & -> & _ & _ & _ & _ & _ & _ & x & y & Hx & Hy & <-)].
  - change (String a EmptyString +:+ PathEscape s) with (String a (PathEscape s)). cbn [String.list_ascii_of_string].
    rewrite <- IH. generalize (String.list_ascii_of_string (PathEscape s)). intros [|b [|c t]]; try done.
    apply Ascii.eqb_neq in Hp. cbn [unescape_bytes]. by rewrite Hp.
  - change (String "%" (String h (String l EmptyString)) +:+ PathEscape s) with (String "%" (String h (String l (PathEscape s)))).
    cbn [String.list_ascii_of_string unescape_bytes]. change (Ascii.eqb "%" "%") with true. cbv iota.
    by rewrite Hx, Hy, IH.
Qed.

(** Unescaping gives back what was escaped. *)
Lemma PathUnescape_PathEscape s : PathUnescape (PathEscape s) = s.
Proof. unfold PathUnescape. rewrite unescape_path_escape. apply String.string_of_list_ascii_of_string. Qed.

(** An escaped segment has no character that ends a segment or a path. *)
Definition segment_text (s : string) : Prop :=
  Forall (fun a => a <> "/"%char /\ a <> "?"%char /\ a <> "#"%char) (String.list_ascii_of_string s).

Lemma PathEscape_segment s : segment_text (PathEscape s).
Proof.
  unfold segment_text. induction s as [|a s IH]; [constructor|]. cbn [PathEscape].
  destruct (path_escape_cases a) as [(-> & _ & H)|(h & l & -> & H1 & H2 & H3 & H4 & H5 & H6 & _)].
  - change (String a EmptyString +:+ PathEscape s) with (String a (PathEscape s)). cbn [String.list_ascii_of_string].
    by constructor.
  - change (String "%" (String h (String l EmptyString)) +:+ PathEscape s) with (String "%" (String h (String l (PathEscape s)))).
    cbn [String.list_ascii_of_string]. by repeat (constructor; [done|]).
Qed.
