(* ===== verification/Errors.v ===== *)
(** * Error values

    Go errors as the service uses them: a text, and the sentinel errors that
    [errors.Is] finds by unwrapping ([fmt.Errorf] with [%w]). *)

From stdpp Require Import base gmap sets list strings sorting.
From S2P Require Import Prelude GoStrings.
Local Open Scope string_scope.

(** The package-level sentinel errors of the service. *)
Inductive sentinel :=
(* internal/domain/provider *)
| ErrInvalidManifest | ErrClaimStatusInvalid | ErrSuggestedConstraintsContradict
(* internal/domain/policy *)
| ErrCryptoPolicyIDRequired | ErrCryptoPolicyNameRequired | ErrCryptoPolicyVersionRequired
| ErrCryptoPolicyRequiredPostureRequired | ErrCryptoPolicyRequiredPostureInvalid
| ErrCryptoPolicyAllowedProvidersRequired | ErrCryptoPolicyAllowedProviderEmpty
| ErrSolutionProfileRefRequired | ErrSolutionProfileRefProviderIDRequired
| ErrSolutionProfileRefSolutionIDRequired | ErrSolutionProfileRefManifestVersionRequired
| ErrCryptoPolicyPayloadInvalid | ErrProviderRefsUnpinned | ErrProviderSoftFindingsRequired
| ErrProviderChainPlanned | ErrProviderScanCompatFailed
| ErrProviderUserConstraintsIncompatible | ErrAcceptedFindingsDivergent
| ErrSnapshotAssistProfileNotFound | ErrSnapshotAssistProviderNotAllowed
| ErrSnapshotAssistChainNotSupported | ErrSnapshotAssistCryptoPolicyRequired
| ErrSnapshotAssistFindingsUnknown
(* internal/persistence *)
| ErrPrincipalRequired | ErrPolicyNotFound | ErrPolicyAlreadyExists | ErrForbidden
| ErrPersistenceUnavailable | ErrUnsupportedStoreOperation
(* internal/app, internal/api *)
| ErrDiscoveryScanNotFound | ErrDiscoveryScanNotWallet | ErrInvalidDiscoveryScanUUID
| ErrWalletScanDetailTLS | ErrWalletScanDetailNoResult.

#[global] Instance sentinel_eq_dec : EqDecision sentinel.
Proof. solve_decision. Defined.

Definition sentinel_text (s : sentinel) : string :=
  match s with
  | ErrInvalidManifest => "provider manifest is invalid"
  | ErrClaimStatusInvalid => "solution_profile claim_status is invalid"
  | ErrSuggestedConstraintsContradict => "suggested_user_constraints contradict profile constraints"
  | ErrCryptoPolicyIDRequired => "crypto policy id is required"
  | ErrCryptoPolicyNameRequired => "crypto policy name is required"
  | ErrCryptoPolicyVersionRequired => "crypto policy version is required"
  | ErrCryptoPolicyRequiredPostureRequired => "crypto policy required_posture is required"
  | ErrCryptoPolicyRequiredPostureInvalid => "crypto policy required_posture is invalid"
  | ErrCryptoPolicyAllowedProvidersRequired => "crypto policy allowed_providers is required"
  | ErrCryptoPolicyAllowedProviderEmpty => "crypto policy allowed_providers must not contain empty values"
  | ErrSolutionProfileRefRequired => "instance solution_profile_ref is required"
  | ErrSolutionProfileRefProviderIDRequired => "solution_profile_ref provider_id is required"
  | ErrSolutionProfileRefSolutionIDRequired => "solution_profile_ref solution_profile_id is required"
  | ErrSolutionProfileRefManifestVersionRequired => "solution_profile_ref manifest_version is required"
  | ErrCryptoPolicyPayloadInvalid => "crypto policy persist payload is invalid"
  | ErrProviderRefsUnpinned => "provider references are unpinned or absent"
  | ErrProviderSoftFindingsRequired => "provider soft findings must be listed in accepted_findings"
  | ErrProviderChainPlanned => "provider chain_support_used status planned is not persistable"
  | ErrProviderScanCompatFailed => "provider scan compatibility failed at persist"
  | ErrProviderUserConstraintsIncompatible => "provider user_constraints incompatible at persist"
  | ErrAcceptedFindingsDivergent =>
      "accepted_provider_snapshot.accepted_findings diverges from top-level accepted_findings"
  | ErrSnapshotAssistProfileNotFound => "solution profile not found in provider registry"
  | ErrSnapshotAssistProviderNotAllowed => "provider is not allowed by crypto policy"
  | ErrSnapshotAssistChainNotSupported => "chain is not persistable for this solution profile"
  | ErrSnapshotAssistCryptoPolicyRequired => "crypto policy is required"
  | ErrSnapshotAssistFindingsUnknown => "accepted_findings contains an unknown code"
  | ErrPrincipalRequired => "principal is required"
  | ErrPolicyNotFound => "policy not found"
  | ErrPolicyAlreadyExists => "active policy already exists for wallet"
  | ErrForbidden => "forbidden"
  | ErrPersistenceUnavailable => "persistence unavailable"
  | ErrUnsupportedStoreOperation => "operation not supported by persistence store"
  | ErrDiscoveryScanNotFound => "discovery scan not found"
  | ErrDiscoveryScanNotWallet => "discovery scan is not wallet"
  | ErrInvalidDiscoveryScanUUID => "scan_id must be a valid UUID"
  | ErrWalletScanDetailTLS => "wallet scan detail is not a wallet scan"
  | ErrWalletScanDetailNoResult => "wallet scan detail has no result yet"
  end.

Record goerror := mkError {
  e_wraps : list sentinel;
  e_text : string      (** [err.Error()] *)
}.

(** [errors.New(text)]. *)
Definition errors_New (text : string) : goerror := mkError [] text.

(** A sentinel returned as it is. *)
Definition err_of (s : sentinel) : goerror := mkError [s] (sentinel_text s).

(** [fmt.Errorf("%w: ...", s, ...)]. *)
Definition errorf (s : sentinel) (rest : string) : goerror :=
  mkError [s] (sentinel_text s +:+ ": " +:+ rest).

(** [fmt.Errorf("prefix: %w", err)]. *)
Definition wrap_prefix (prefix : string) (e : goerror) : goerror :=
  mkError (e_wraps e) (prefix +:+ ": " +:+ e_text e).

(** [errors.Is(err, s)]. *)
Definition errors_Is (e : goerror) (s : sentinel) : bool := bool_decide (s ∈ e_wraps e).

Lemma errors_Is_errorf s t rest : errors_Is (errorf s rest) t = bool_decide (t = s).
Proof.
  unfold errors_Is. apply bool_decide_ext. simpl. rewrite list_elem_of_singleton. done.
Qed.

Lemma errors_Is_err_of s t : errors_Is (err_of s) t = bool_decide (t = s).
Proof.
  unfold errors_Is. apply bool_decide_ext. simpl. rewrite list_elem_of_singleton. done.
Qed.

#[export] Hint Rewrite errors_Is_errorf errors_Is_err_of : cpm.

Abbreviation gores := (res goerror).
