(* ===== verification/GoTime.v ===== *)
(** * Time

    Go's [time.Time] as the service uses it: an instant in UTC, in nanoseconds
    since the Unix epoch, with [Format]/[Parse] for the RFC 3339 layout and the
    proleptic Gregorian calendar. *)

From stdpp Require Import base list strings.
From Stdlib Require Import ZArith Lia Ascii.
From S2P Require Import Prelude GoStrings.
Local Open Scope string_scope.
Local Open Scope list_scope.
Local Open Scope Z_scope.

Definition time := Z.
Definition second_ns : Z := 1000000000.
Definition minute_ns : Z := 60 * second_ns.

(** The zero [time.Time]: 1 January of year 1. *)
Definition zero_time : time := -62135596800 * second_ns.
Definition IsZero (t : time) : bool := t =? zero_time.

(** [a.Sub(b)] saturates at the bounds of [time.Duration]. *)
Definition Sub (a b : time) : Z := Z.max int64_min (Z.min int64_max (a - b)).
Definition After (a b : time) : bool := b <? a.

(** ** Calendar *)

Definition leap (y : Z) : bool :=
  (y mod 4 =? 0) && (negb (y mod 100 =? 0) || (y mod 400 =? 0)).

Definition days_in_month (y m : Z) : Z :=
  if m =? 2 then (if leap y then 29 else 28)
  else if (m =? 4) || (m =? 6) || (m =? 9) || (m =? 11) then 30 else 31.

(** Days since the Unix epoch; years are counted from 1 March in eras of 400. *)
Definition days_of_date (y m d : Z) : Z :=
  let y' := if m <=? 2 then y - 1 else y in
  let era := y' / 400 in
  let yoe := y' mod 400 in
  let mp := (m + 9) mod 12 in
  let doy := (153 * mp + 2) / 5 + d - 1 in
  let doe := yoe * 365 + yoe / 4 - yoe / 100 + doy in
  era * 146097 + doe - 719468.

(** Year of era, month and day of a day of era. *)
Definition date_of_doe (doe : Z) : Z * Z * Z :=
  let yoe := (doe - doe / 1460 + doe / 36524 - doe / 146096) / 365 in
  let doy := doe - (365 * yoe + yoe / 4 - yoe / 100) in
  let mp := (5 * doy + 2) / 153 in
  (yoe, (if mp <? 10 then mp + 3 else mp - 9), doy - (153 * mp + 2) / 5 + 1).

Definition date_of_days (z : Z) : Z * Z * Z :=
  let z' := z + 719468 in
  let '(yoe, m, d) := date_of_doe (z' mod 146097) in
  ((z' / 146097) * 400 + yoe + (if m <=? 2 then 1 else 0), m, d).

(** The day of era on which a year of era begins, and the years checked: the
    year of a day is right on the first and last day of each year, and the year
    has 366 days when it ends in a leap February. *)
Definition year_start (yoe : Z) : Z :=
  if yoe =? 400 then 146097 else 365 * yoe + yoe / 4 - yoe / 100.

Definition yoe_of (doe : Z) : Z := (doe - doe / 1460 + doe / 36524 - doe / 146096) / 365.

Definition year_ok (y : Z) : bool :=
  (yoe_of (year_start y) =? y) && (yoe_of (year_start (y + 1) - 1) =? y)
  && (year_start (y + 1) - year_start y =? (if leap (y + 1) then 366 else 365)).

(** Month and day of a day of year, and the days of a year checked. *)
Definition date_of_doy (doy : Z) : Z * Z :=
  let mp := (5 * doy + 2) / 153 in
  ((if mp <? 10 then mp + 3 else mp - 9), doy - (153 * mp + 2) / 5 + 1).

Definition doy_ok (doy : Z) : bool :=
  let '(m, d) := date_of_doy doy in
  (1 <=? m) && (m <=? 12) && (1 <=? d)
  && (d <=? days_in_month (if doy =? 365 then 4 else 1) m)
  && ((153 * ((m + 9) mod 12) + 2) / 5 + d - 1 =? doy).

Fixpoint all_below (n : nat) (z : Z) (f : Z -> bool) : bool :=
  match n with
  | O => true
  | S n' => f z && all_below n' (z + 1) f
  end.

Lemma all_below_spec n z f : all_below n z f = true ->
  forall x, z <= x < z + Z.of_nat n -> f x = true.
Proof.
  revert z. induction n as [|n IH]; intros z H x Hx; [lia|].
  cbn [all_below] in H. apply andb_true_iff in H as [H1 H2].
  destruct (Z.eq_dec x z) as [->|]; [done|]. apply (IH (z + 1)); [done|lia].
Qed.

Lemma years_ok y : 0 <= y < 400 -> year_ok y = true.
Proof. apply (all_below_spec 400 0 year_ok). vm_compute. reflexivity. Qed.

Lemma doys_ok d : 0 <= d < 366 -> doy_ok d = true.
Proof. apply (all_below_spec 366 0 doy_ok). vm_compute. reflexivity. Qed.

Lemma yoe_of_step doe : 0 <= doe < 146096 -> yoe_of doe <= yoe_of (doe + 1).
Proof.
  intros H. unfold yoe_of. apply Z.div_le_mono; [lia|].
  Z.to_euclidean_division_equations. lia.
Qed.

Lemma yoe_of_mono a b : 0 <= a <= b -> b < 146097 -> yoe_of a <= yoe_of b.
Proof.
  intros [Ha Hab] Hb. replace b with (a + Z.of_nat (Z.to_nat (b - a))) in Hb |- * by lia.
  revert Hb. generalize (Z.to_nat (b - a)) as n. clear b Hab. induction n as [|n IH]; intros Hb.
  - replace (a + Z.of_nat 0) with a by lia. lia.
  - pose proof (yoe_of_step (a + Z.of_nat n) ltac:(lia)) as H.
    replace (a + Z.of_nat n + 1) with (a + Z.of_nat (S n)) in H by lia. specialize (IH ltac:(lia)). lia.
Qed.

Lemma year_of_doe doe : 0 <= doe < 146097 ->
  exists y, 0 <= y < 400 /\ year_start y <= doe < year_start (y + 1).
Proof.
  intros H. assert (forall n : nat, Z.of_nat n <= 400 -> doe < year_start (Z.of_nat n) ->
    exists y, 0 <= y < 400 /\ year_start y <= doe < year_start (y + 1)) as Hn.
  { induction n as [|n IH]; intros Hn Hd; [change (year_start (Z.of_nat 0)) with 0 in Hd; lia|].
    destruct (Z.lt_ge_cases doe (year_start (Z.of_nat n))) as [|Hge]; [apply IH; [lia|done]|].
    exists (Z.of_nat n). replace (Z.of_nat n + 1) with (Z.of_nat (S n)) by lia. lia. }
  apply (Hn 400%nat); [lia|]. change (year_start (Z.of_nat 400)) with 146097. lia.
Qed.

Lemma year_start_bounds y : 0 <= y < 400 -> 0 <= year_start y /\ year_start (y + 1) <= 146097
  /\ year_start y = 365 * y + y / 4 - y / 100.
Proof.
  intros H. unfold year_start. rewrite (proj2 (Z.eqb_neq y 400)) by lia.
  destruct (Z.eqb_spec (y + 1) 400); Z.to_euclidean_division_equations; lia.
Qed.

Lemma days_in_month_leap a b m : leap a = leap b -> days_in_month a m = days_in_month b m.
Proof. unfold days_in_month. by intros ->. Qed.

(** Every day of an era has a year of era, a month and a day. *)
Lemma doe_spec doe : 0 <= doe < 146097 ->
  let '(yoe, m, d) := date_of_doe doe in
  0 <= yoe < 400 /\ 1 <= m <= 12 /\ 1 <= d
  /\ d <= days_in_month (if m <=? 2 then yoe + 1 else yoe) m
  /\ yoe * 365 + yoe / 4 - yoe / 100 + ((153 * ((m + 9) mod 12) + 2) / 5 + d - 1) = doe.
Proof.
  intros H. destruct (year_of_doe doe H) as (y & Hy & Hd).
  pose proof (years_ok y Hy) as Hyo. unfold year_ok in Hyo.
  apply andb_true_iff in Hyo as [Hyo Hlen]. apply andb_true_iff in Hyo as [Hf Hl]. bool_to_prop.
  destruct (year_start_bounds y Hy) as (Hs0 & Hs1 & Hs).
  assert (yoe_of doe = y) as Ey.
  { pose proof (yoe_of_mono (year_start y) doe ltac:(lia) ltac:(lia)).
    pose proof (yoe_of_mono doe (year_start (y + 1) - 1) ltac:(lia) ltac:(lia)). lia. }
  unfold date_of_doe. fold (yoe_of doe). rewrite Ey.
  set (doy := doe - (365 * y + y / 4 - y / 100)).
  assert (doy = doe - year_start y) as Edoy by (unfold doy; lia).
  assert (0 <= doy < if leap (y + 1) then 366 else 365) as Hdoy by (rewrite <- Hlen; lia).
  assert (0 <= doy < 366) as Hdoy' by (destruct (leap (y + 1)); lia).
  pose proof (doys_ok doy Hdoy') as Hok. unfold doy_ok, date_of_doy in Hok.
  set (m := if (5 * doy + 2) / 153 <? 10 then (5 * doy + 2) / 153 + 3 else (5 * doy + 2) / 153 - 9) in *.
  set (d := doy - (153 * ((5 * doy + 2) / 153) + 2) / 5 + 1) in *.
  repeat (apply andb_true_iff in Hok as [Hok ?]). bool_to_prop.
  split; [lia|]. split; [lia|]. split; [lia|]. split; [|lia].
  destruct (m =? 2) eqn:Em.
  - apply Z.eqb_eq in Em. rewrite Em in *. cbn [Z.leb Z.compare Pos.compare Pos.compare_cont].
    destruct (Z.eqb_spec doy 365) as [E|E].
    + assert (leap (y + 1) = true) as Hle by (destruct (leap (y + 1)); [done|lia]).
      rewrite (days_in_month_leap (y + 1) 4); [done|]. by rewrite Hle.
    + unfold days_in_month in *. simpl in *. destruct (leap (y + 1)); lia.
  - unfold days_in_month in *. rewrite Em in *. done.
Qed.

Lemma leap_era y k : leap (y + k * 400) = leap y.
Proof.
  unfold leap.
  replace ((y + k * 400) mod 4) with (y mod 4)
    by (replace (y + k * 400) with (y + (k * 100) * 4) by lia; by rewrite Z_mod_plus_full).
  replace ((y + k * 400) mod 100) with (y mod 100)
    by (replace (y + k * 400) with (y + (k * 4) * 100) by lia; by rewrite Z_mod_plus_full).
  by rewrite Z_mod_plus_full.
Qed.

Lemma date_of_days_ok z : let '(y, m, d) := date_of_days z in
  1 <= m <= 12 /\ 1 <= d <= days_in_month y m /\ days_of_date y m d = z.
Proof.
  unfold date_of_days. set (z' := z + 719468).
  pose proof (Z.mod_pos_bound z' 146097 ltac:(lia)) as Hb.
  pose proof (doe_spec (z' mod 146097) Hb) as Hok.
  destruct (date_of_doe (z' mod 146097)) as [[yoe m] d].
  destruct Hok as (Hyoe & Hm & Hd1 & Hd2 & Hdoe). split; [lia|].
  assert (days_in_month (z' / 146097 * 400 + yoe + (if m <=? 2 then 1 else 0)) m
          = days_in_month (if m <=? 2 then yoe + 1 else yoe) m) as ->.
  { unfold days_in_month. destruct (m =? 2); [|done].
    replace (z' / 146097 * 400 + yoe + (if m <=? 2 then 1 else 0))
      with ((if m <=? 2 then yoe + 1 else yoe) + z' / 146097 * 400) by (destruct (m <=? 2); lia).
    by rewrite leap_era. }
  split; [done|]. unfold days_of_date.
  replace (if m <=? 2 then z' / 146097 * 400 + yoe + (if m <=? 2 then 1 else 0) - 1
           else z' / 146097 * 400 + yoe + (if m <=? 2 then 1 else 0))
    with (yoe + z' / 146097 * 400) by (destruct (m <=? 2); lia).
  rewrite Z_mod_plus_full, (Z.mod_small yoe) by lia.
  rewrite Z.div_add, (Z.div_small yoe) by lia.
  pose proof (Z.div_mod z' 146097 ltac:(lia)). unfold z' in *. lia.
Qed.

(** ** RFC 3339 *)

Definition digit (n : Z) : ascii := ascii_of_nat (48 + Z.to_nat n).

(** Zero-padded to the width, as [appendInt]. *)
Fixpoint digits (width : nat) (n : Z) : string :=
  match width with
  | O => EmptyString
  | S w => digits w (n / 10) +:+ String (digit (n mod 10)) EmptyString
  end.

(** Years outside 0..9999 are written with their sign and all their digits. *)
Definition year_text (y : Z) : string :=
  if (0 <=? y) && (y <=? 9999) then digits 4 y
  else if 0 <=? y then FormatInt y
  else "-" +:+ (if - y <=? 9999 then digits 4 (- y) else FormatInt (- y)).

(** The text of an instant up to its second. *)
Definition seconds_text (t : time) : string :=
  let s := t / second_ns in
  let '(y, m, d) := date_of_days (s / 86400) in
  let r := s mod 86400 in
  year_text y +:+ "-" +:+ digits 2 m +:+ "-" +:+ digits 2 d +:+ "T"
  +:+ digits 2 (r / 3600) +:+ ":" +:+ digits 2 ((r / 60) mod 60) +:+ ":" +:+ digits 2 (r mod 60).

(** [t.UTC().Format(time.RFC3339)]. *)
Definition FormatRFC3339 (t : time) : string := seconds_text t +:+ "Z".

(** [time.RFC3339Nano]: as RFC 3339 with the fraction of the second, without
    trailing zeros. *)
Fixpoint drop_zeros (l : list ascii) : list ascii :=
  match l with
  | a :: l' => if Ascii.eqb a "0" then drop_zeros l' else l
  | [] => []
  end.

Definition fraction_text (t : time) : string :=
  let ns := t mod second_ns in
  if ns =? 0 then EmptyString
  else "." +:+ String.string_of_list_ascii (rev (drop_zeros (rev (String.list_ascii_of_string (digits 9 ns))))).

Definition FormatRFC3339Nano (t : time) : string := seconds_text t +:+ fraction_text t +:+ "Z".

Definition digit_val (a : ascii) : option Z :=
  let n := Z.of_nat (nat_of_ascii a) in
  if (48 <=? n) && (n <=? 57) then Some (n - 48) else None.

(** Exactly [n] digits at the front. *)
Fixpoint take_digits (n : nat) (acc : Z) (s : string) : option (Z * string) :=
  match n with
  | O => Some (acc, s)
  | S n' =>
      match s with
      | EmptyString => None
      | String a s' => match digit_val a with
                       | Some v => take_digits n' (acc * 10 + v) s'
                       | None => None
                       end
      end
  end.

(** [getnum] without [fixed]: one digit is enough. *)
Definition take_hour (s : string) : option (Z * string) :=
  match take_digits 2 0 s with
  | Some r => Some r
  | None => take_digits 1 0 s
  end.

Definition skip (c : ascii) (s : string) : option string :=
  match s with
  | String a s' => if Ascii.eqb a c then Some s' else None
  | EmptyString => None
  end.

Fixpoint span_digits (s : string) : string * string :=
  match s with
  | String a s' => match digit_val a with
                   | Some _ => let '(l, r) := span_digits s' in (String a l, r)
                   | None => (EmptyString, s)
                   end
  | EmptyString => (EmptyString, EmptyString)
  end.

(** The nanoseconds of a fraction: its first nine digits. *)
Fixpoint frac_ns (n : nat) (acc : Z) (s : string) : Z :=
  match n with
  | O => acc
  | S n' => match s with
            | String a s' => frac_ns n' (acc * 10 + default 0 (digit_val a)) s'
            | EmptyString => frac_ns n' (acc * 10) EmptyString
            end
  end.

(** An optional fraction after the seconds, with a point or a comma. *)
Definition take_frac (s : string) : Z * string :=
  match s with
  | String a s' =>
      if (Ascii.eqb a "."%char || Ascii.eqb a ","%char)
      then let '(ds, r) := span_digits s' in
           if is_empty ds then (0, s) else (frac_ns 9 0 ds, r)
      else (0, s)
  | EmptyString => (0, s)
  end.

(** "Z", or a signed offset in hours and minutes. *)
Definition take_zone (s : string) : option Z :=
  match s with
  | String a s' =>
      if Ascii.eqb a "Z"%char then (if is_empty s' then Some 0 else None)
      else if Ascii.eqb a "+"%char || Ascii.eqb a "-"%char then
        '(h, s1) ← take_digits 2 0 s';
        s2 ← skip ":"%char s1;
        '(mi, s3) ← take_digits 2 0 s2;
        if (24 <? h) || (60 <? mi) || negb (is_empty s3) then None
        else Some ((if Ascii.eqb a "+"%char then 1 else -1) * (h * 3600 + mi * 60))
      else None
  | EmptyString => None
  end.

(** [time.Parse(time.RFC3339, s)], in UTC. *)
Definition ParseRFC3339 (s : string) : option time :=
  '(y, s) ← take_digits 4 0 s;
  s ← skip "-"%char s;
  '(m, s) ← take_digits 2 0 s;
  s ← skip "-"%char s;
  '(d, s) ← take_digits 2 0 s;
  s ← skip "T"%char s;
  '(h, s) ← take_hour s;
  s ← skip ":"%char s;
  '(mi, s) ← take_digits 2 0 s;
  s ← skip ":"%char s;
  '(sec, s) ← take_digits 2 0 s;
  let '(ns, s) := take_frac s in
  off ← take_zone s;
  if (1 <=? m) && (m <=? 12) && (1 <=? d) && (d <=? days_in_month y m)
     && (h <? 24) && (mi <? 60) && (sec <? 60)
  then Some ((days_of_date y m d * 86400 + h * 3600 + mi * 60 + sec - off) * second_ns + ns)
  else None.

(** ** Round trip *)

Lemma Z_below_ind (k : Z) (P : Z -> Prop) : Forall P (seqZ 0 k) -> forall n, 0 <= n < k -> P n.
Proof. intros H n Hn. rewrite Forall_forall in H. apply H, elem_of_seqZ. lia. Qed.

Lemma digit_val_digit n : 0 <= n < 10 -> digit_val (digit n) = Some n.
Proof. revert n. apply (Z_below_ind 10). by repeat constructor. Qed.

Lemma take_digits_plus a b acc s :
  take_digits (a + b) acc s = '(v, r) ← take_digits a acc s; take_digits b v r.
Proof.
  revert acc s. induction a as [|a IH]; intros acc s; simpl; [done|].
  destruct s as [|c s]; simpl; [done|]. destruct (digit_val c); simpl; [apply IH|done].
Qed.

Lemma take_digits_digits w n acc s : 0 <= n < 10 ^ Z.of_nat w ->
  take_digits w acc (digits w n +:+ s) = Some (acc * 10 ^ Z.of_nat w + n, s).
Proof.
  revert n acc s. induction w as [|w IH]; intros n acc s Hn.
  - simpl in *. f_equal. f_equal. lia.
  - replace (S w) with (w + 1)%nat by lia. cbn [digits]. replace (w + 1)%nat with (S w) by lia. cbn [digits].
    replace (S w) with (w + 1)%nat by lia. rewrite take_digits_plus, string_app_assoc.
    assert (10 ^ Z.of_nat (w + 1) = 10 * 10 ^ Z.of_nat w) as Hpow
      by (rewrite Nat2Z.inj_add, Z.pow_add_r by lia; lia).
    assert (10 ^ Z.of_nat (S w) = 10 * 10 ^ Z.of_nat w) as Hpow'
      by (replace (S w) with (w + 1)%nat by lia; done).
    pose proof (Z.div_mod n 10 ltac:(lia)). pose proof (Z.mod_pos_bound n 10 ltac:(lia)).
    rewrite IH by (split; [apply Z.div_pos; lia|apply Z.div_lt_upper_bound; lia]).
    cbn [mbind option_bind]. change (String (digit (n mod 10)) EmptyString +:+ s) with (String (digit (n mod 10)) s).
    cbn [take_digits]. rewrite digit_val_digit by lia. f_equal. f_equal. rewrite Hpow. lia.
Qed.

(** The year of an instant. *)
Definition year_of (t : time) : Z := fst (fst (date_of_days (t / second_ns / 86400))).

Lemma skip_char c s : skip c (String c EmptyString +:+ s) = Some s.
Proof. simpl. by rewrite Ascii.eqb_refl. Qed.

(** Reading the text of the seconds leaves the fraction and the zone to read. *)
Lemma ParseRFC3339_seconds t rest : 0 <= year_of t <= 9999 ->
  ParseRFC3339 (seconds_text t +:+ rest)
  = let '(ns, s) := take_frac rest in
    off ← take_zone s; Some ((t / second_ns - off) * second_ns + ns).
Proof.
  unfold year_of, seconds_text. set (s := t / second_ns). intros Hy.
  pose proof (date_of_days_ok (s / 86400)) as Hd.
  destruct (date_of_days (s / 86400)) as [[y m] d]. simpl in Hy. destruct Hd as (Hm & Hd & Hdays).
  assert (days_in_month y m <= 31) as Hdim
    by (unfold days_in_month; repeat case_match; lia).
  pose proof (Z.mod_pos_bound s 86400 ltac:(lia)) as Hr. set (r := s mod 86400) in *.
  assert (0 <= r / 3600 < 24) as Hh by (split; [apply Z.div_pos; lia|apply Z.div_lt_upper_bound; lia]).
  pose proof (Z.mod_pos_bound (r / 60) 60 ltac:(lia)) as Hmi.
  pose proof (Z.mod_pos_bound r 60 ltac:(lia)) as Hsec.
  unfold year_text. rewrite (proj2 (Z.leb_le 0 y)), (proj2 (Z.leb_le y 9999)) by lia. cbn [andb].
  rewrite !string_app_assoc. unfold ParseRFC3339, take_hour.
  rewrite take_digits_digits by lia. cbn [mbind option_bind].
  do 4 (rewrite skip_char; cbn [mbind option_bind]; rewrite take_digits_digits by lia; cbn [mbind option_bind]).
  rewrite skip_char. cbn [mbind option_bind]. rewrite take_digits_digits by lia. cbn [mbind option_bind].
  destruct (take_frac rest) as [ns s']. destruct (take_zone s') as [off|]; cbn [mbind option_bind]; [|done].
  rewrite !Z.mul_0_l, !Z.add_0_l.
  rewrite (proj2 (Z.leb_le 1 m)), (proj2 (Z.leb_le m 12)), (proj2 (Z.leb_le 1 d)),
    (proj2 (Z.leb_le d (days_in_month y m))), (proj2 (Z.ltb_lt (r / 3600) 24)),
    (proj2 (Z.ltb_lt ((r / 60) mod 60) 60)), (proj2 (Z.ltb_lt (r mod 60) 60)) by lia. cbn [andb].
  rewrite Hdays. do 3 f_equal.
  assert (r = r / 3600 * 3600 + (r / 60) mod 60 * 60 + r mod 60) as Er
    by (Z.to_euclidean_division_equations; lia).
  pose proof (Z.div_mod s 86400 ltac:(lia)). fold r in H. lia.
Qed.

(** Reading back what [Format] wrote gives the instant to the second. *)
Lemma ParseRFC3339_FormatRFC3339 t : 0 <= year_of t <= 9999 ->
  ParseRFC3339 (FormatRFC3339 t) = Some (t / second_ns * second_ns).
Proof.
  intros Hy. unfold FormatRFC3339. rewrite ParseRFC3339_seconds by done.
  change (take_frac "Z") with (0, "Z"). cbv beta iota. change (take_zone "Z") with (Some 0).
  simpl. f_equal. lia.
Qed.

(** *** Nanoseconds *)

Lemma drop_zeros_split l : exists k, l = replicate k "0"%char ++ drop_zeros l.
Proof.
  induction l as [|a l [k IH]]; [by exists 0%nat|]. cbn [drop_zeros].
  destruct (Ascii.eqb_spec a "0"%char) as [->|]; [|by exists 0%nat].
  exists (S k). simpl. by f_equal.
Qed.

Lemma frac_ns_zeros n acc k : frac_ns n acc (String.string_of_list_ascii (replicate k "0"%char))
  = frac_ns n acc EmptyString.
Proof.
  revert acc k. induction n as [|n IH]; intros acc [|k]; simpl; try done.
  by rewrite IH, Z.add_0_r.
Qed.

Lemma frac_ns_pad n acc l k :
  frac_ns n acc (String.string_of_list_ascii (l ++ replicate k "0"%char))
  = frac_ns n acc (String.string_of_list_ascii l).
Proof.
  revert n acc. induction l as [|a l IH]; intros n acc; simpl; [apply frac_ns_zeros|].
  destruct n as [|n]; simpl; [done|]. apply IH.
Qed.

Lemma frac_ns_take n acc s v r : take_digits n acc s = Some (v, r) -> frac_ns n acc s = v.
Proof.
  revert acc s. induction n as [|n IH]; intros acc [|a s]; simpl; try naive_solver.
  destruct (digit_val a); simpl; [apply IH|done].
Qed.

Definition is_digit (a : ascii) : Prop := is_Some (digit_val a).

Lemma digits_digits w n : 0 <= n -> Forall is_digit (String.list_ascii_of_string (digits w n)).
Proof.
  revert n. induction w as [|w IH]; intros n Hn; [constructor|]. cbn [digits].
  rewrite list_ascii_of_string_app. apply Forall_app. split; [apply IH, Z.div_pos; lia|].
  constructor; [|constructor]. eexists. apply digit_val_digit, Z.mod_pos_bound. lia.
Qed.

Lemma span_digits_app l s : Forall is_digit l -> span_digits s = (EmptyString, s) ->
  span_digits (String.string_of_list_ascii l +:+ s) = (String.string_of_list_ascii l, s).
Proof.
  intros Hl Hs. induction Hl as [|a l [v Hv] _ IH]; [done|]. simpl. by rewrite Hv, IH.
Qed.

(** The fraction of an instant reads back as its nanoseconds. *)
Lemma take_frac_fraction t : take_frac (fraction_text t +:+ "Z") = (t mod second_ns, "Z").
Proof.
  unfold fraction_text. pose proof (Z.mod_pos_bound t second_ns ltac:(done)) as Hb.
  set (ns := t mod second_ns) in *. destruct (Z.eqb_spec ns 0) as [->|Hne]; [done|].
  destruct (drop_zeros_split (rev (String.list_ascii_of_string (digits 9 ns)))) as [k E].
  set (ds := drop_zeros _) in *. apply (f_equal (@rev ascii)) in E. rewrite rev_involutive, rev_app_distr in E.
  pose proof (digits_digits 9 ns ltac:(lia)) as Hd. rewrite E, Forall_app in Hd. destruct Hd as [Hd _].
  assert (Hv : frac_ns 9 0 (String.string_of_list_ascii (rev ds)) = ns).
  { rewrite <- (frac_ns_pad 9 0 (rev ds) k). replace (replicate k "0"%char) with (rev (replicate k "0"%char)).
    - rewrite <- E, String.string_of_list_ascii_of_string.
      apply (frac_ns_take _ _ _ ns EmptyString). rewrite <- (string_app_nil_r (digits 9 ns)).
      rewrite take_digits_digits; [done|]. unfold second_ns in Hb. change (10 ^ Z.of_nat 9) with 1000000000. lia.
    - rewrite rev_alt. apply reverse_replicate. }
  rewrite string_app_assoc. set (u := String.string_of_list_ascii (rev ds) +:+ "Z").
  change (take_frac ("." +:+ u)) with
    (let '(d, r) := span_digits u in if is_empty d then (0, String "." u) else (frac_ns 9 0 d, r)). unfold u.
  rewrite (span_digits_app (rev ds) "Z") by done.
  destruct (is_empty _) eqn:He; [|by rewrite Hv].
  apply is_empty_spec in He. rewrite He in Hv. exfalso. apply Hne. by rewrite <- Hv.
Qed.

(** Reading back what [Format] wrote to the nanosecond gives the instant. *)
Lemma ParseRFC3339_FormatRFC3339Nano t : 0 <= year_of t <= 9999 ->
  ParseRFC3339 (FormatRFC3339Nano t) = Some t.
Proof.
  intros Hy. unfold FormatRFC3339Nano. rewrite ParseRFC3339_seconds, take_frac_fraction by done.
  change (take_zone "Z") with (Some 0). simpl. f_equal.
  pose proof (Z.div_mod t second_ns ltac:(done)). lia.
Qed.

Lemma digits_all_solid w n : 0 <= n -> all_solid (digits w n).
Proof.
  revert n. induction w as [|w IH]; intros n Hn; [constructor|]. cbn [digits].
  unfold all_solid in *. rewrite list_ascii_of_string_app. apply Forall_app. split; [apply IH, Z.div_pos; lia|].
  constructor; [|constructor]. pose proof (Z.mod_pos_bound n 10 ltac:(lia)) as Hd. revert Hd.
  generalize (n mod 10). apply (Z_below_ind 10). by repeat constructor.
Qed.

Lemma all_solid_app s t : all_solid s -> all_solid t -> all_solid (s +:+ t).
Proof. unfold all_solid. rewrite list_ascii_of_string_app, Forall_app. done. Qed.

Lemma year_text_all_solid y : all_solid (year_text y).
Proof.
  unfold year_text. destruct ((0 <=? y) && (y <=? 9999)) eqn:E.
  - apply andb_true_iff in E as [E _]. apply digits_all_solid. by apply Z.leb_le.
  - destruct (0 <=? y) eqn:E0; [apply FormatInt_all_solid|].
    apply Z.leb_gt in E0. apply all_solid_app; [by repeat constructor|].
    destruct (- y <=? 9999); [apply digits_all_solid; lia|apply FormatInt_all_solid].
Qed.

Lemma seconds_text_all_solid t : all_solid (seconds_text t).
Proof.
  unfold seconds_text. set (s := t / second_ns). pose proof (date_of_days_ok (s / 86400)) as Hd.
  destruct (date_of_days (s / 86400)) as [[y m] d]. destruct Hd as (Hm & Hd & _).
  pose proof (Z.mod_pos_bound s 86400 ltac:(lia)) as Hr. set (r := s mod 86400) in *.
  assert (0 <= r / 3600) as Hh by (apply Z.div_pos; lia).
  pose proof (Z.mod_pos_bound (r / 60) 60 ltac:(lia)). pose proof (Z.mod_pos_bound r 60 ltac:(lia)).
  repeat first [ apply year_text_all_solid | apply digits_all_solid; lia
               | by repeat constructor | apply all_solid_app ].
Qed.

Lemma FormatRFC3339_all_solid t : all_solid (FormatRFC3339 t).
Proof. apply all_solid_app; [apply seconds_text_all_solid|by repeat constructor]. Qed.

Lemma drop_zeros_Forall (P : ascii -> Prop) l : Forall P l -> Forall P (drop_zeros l).
Proof.
  induction l as [|x l IH]; intros H; [done|]. cbn [drop_zeros].
  destruct (Ascii.eqb x "0"); [|done]. apply Forall_cons in H as [_ H]. by apply IH.
Qed.

Lemma FormatRFC3339Nano_all_solid t : all_solid (FormatRFC3339Nano t).
Proof.
  apply all_solid_app; [apply seconds_text_all_solid|]. apply all_solid_app; [|by repeat constructor].
  unfold fraction_text. pose proof (Z.mod_pos_bound t second_ns ltac:(done)) as Hb.
  destruct (t mod second_ns =? 0); [constructor|]. apply all_solid_app; [by repeat constructor|].
  unfold all_solid. rewrite String.list_ascii_of_string_of_list_ascii.
  apply Forall_rev, drop_zeros_Forall, Forall_rev, digits_all_solid. lia.
Qed.

Lemma FormatRFC3339Nano_nonempty t : FormatRFC3339Nano t <> EmptyString.
Proof.
  unfold FormatRFC3339Nano. intros H%(f_equal String.list_ascii_of_string). rewrite !list_ascii_of_string_app in H.
  by apply app_eq_nil in H as [_ [_ ?]%app_eq_nil].
Qed.

