(* ===== verification/Manifest.v ===== *)
(** * Provider manifests

    [internal/domain/provider/manifest.go]: the ProviderManifest document, its
    normalisation, its validation, reference pinning, and the contradiction
    check between suggested and declared constraints. *)

From stdpp Require Import base gmap sets list strings sorting.
From S2P Require Import Prelude GoStrings GoUnicode Errors.
Local Open Scope string_scope.
Local Open Scope list_scope.

(** ** Data *)

Definition SchemaVersionV01 : string := "cafe.provider_manifest.v0.1".
Definition UnpinnedPendingFixture : string := "unpinned_pending_fixture".

Definition KeyRotationNone : string := "none".
Definition KeyRotationPerUserOp : string := "per_userop".

Definition ChainStatusTestnetSupported : string := "testnet_supported".
Definition ChainStatusPlanned : string := "planned".
Definition ChainStatusProduction : string := "production_supported".

Record SuggestedUserConstraints := mkSuggested {
  su_AllowNewWallet : bool;
  su_AddressContinuityRequired : bool;
  su_KeyRotationModel : string
}.

Record InputRequirements := mkInputRequirements {
  ir_WalletTypes : list string;
  ir_RequiresWalletControlProof : bool
}.

Record SignatureProfile := mkSignature {
  sig_Scheme : string;
  sig_Family : string;
  sig_KeyRotationModel : string
}.

Record AccountModel := mkAccountModel {
  am_Standard : string;
  am_ExecutionModel : string;
  am_RequiresBundler : bool;
  am_RequiresEntrypoint : bool;
  am_EntrypointVersions : list string
}.

Record ProfileConstraints := mkConstraints {
  pc_RequiresNewAccount : bool;
  pc_AddressContinuitySupported : bool;
  pc_RequiresLocalSignerState : bool
}.

Record ChainSupport := mkChainSupport {
  cs_ChainID : Z;
  cs_Network : string;
  cs_Status : string;
  cs_Capabilities : list string
}.

Record Reference := mkReference {
  rf_Kind : string;
  rf_URL : string;
  rf_Commit : string;
  rf_Version : string
}.

Record SolutionProfile := mkProfile {
  sp_SolutionProfileID : string;
  sp_DisplayName : string;
  sp_Maturity : string;
  sp_ClaimStatus : string;
  sp_ResultingPosture : string;
  sp_InputRequirements : InputRequirements;
  sp_Signature : SignatureProfile;
  sp_AccountModel : AccountModel;
  sp_Constraints : ProfileConstraints;
  sp_SuggestedUserConstraints : option SuggestedUserConstraints;
  sp_ChainSupport : list ChainSupport;
  sp_References : list Reference;
  sp_RiskNotes : list string
}.

Record ProviderManifest := mkManifest {
  pm_SchemaVersion : string;
  pm_ProviderID : string;
  pm_ProviderName : string;
  pm_ProviderVersion : string;
  pm_ProviderMaturity : string;
  pm_Website : string;
  pm_SolutionProfiles : list SolutionProfile
}.

(** ** Operations *)

Definition oneOf (v : string) (allowed : list string) : bool :=
  existsb (String.eqb v) allowed.

(** [dedupeStrings]: trim, drop the empty ones, keep first occurrences. *)
Fixpoint dedupe_loop (seen : gset string) (l : list string) : list string :=
  match l with
  | [] => []
  | s0 :: l' =>
      let s := TrimSpace s0 in
      if is_empty s then dedupe_loop seen l'
      else if bool_decide (s ∈ seen) then dedupe_loop seen l'
      else s :: dedupe_loop ({[s]} ∪ seen) l'
  end.

Definition dedupeStrings (l : list string) : list string := dedupe_loop ∅ l.

Definition normalizeChainSupport (c : ChainSupport) : ChainSupport := {|
  cs_ChainID := cs_ChainID c;
  cs_Network := TrimSpace (cs_Network c);
  cs_Status := TrimSpace (cs_Status c);
  cs_Capabilities := dedupeStrings (cs_Capabilities c)
|}.

Definition normalizeReference (r : Reference) : Reference := {|
  rf_Kind := TrimSpace (rf_Kind r);
  rf_URL := TrimSpace (rf_URL r);
  rf_Commit := TrimSpace (rf_Commit r);
  rf_Version := TrimSpace (rf_Version r)
|}.

Definition normalizeSolutionProfile (p : SolutionProfile) : SolutionProfile := {|
  sp_SolutionProfileID := TrimSpace (sp_SolutionProfileID p);
  sp_DisplayName := TrimSpace (sp_DisplayName p);
  sp_Maturity := TrimSpace (sp_Maturity p);
  sp_ClaimStatus := TrimSpace (sp_ClaimStatus p);
  sp_ResultingPosture := TrimSpace (sp_ResultingPosture p);
  sp_InputRequirements := {|
    ir_WalletTypes := dedupeStrings (ir_WalletTypes (sp_InputRequirements p));
    ir_RequiresWalletControlProof := ir_RequiresWalletControlProof (sp_InputRequirements p) |};
  sp_Signature := {|
    sig_Scheme := TrimSpace (sig_Scheme (sp_Signature p));
    sig_Family := TrimSpace (sig_Family (sp_Signature p));
    sig_KeyRotationModel := TrimSpace (sig_KeyRotationModel (sp_Signature p)) |};
  sp_AccountModel := {|
    am_Standard := TrimSpace (am_Standard (sp_AccountModel p));
    am_ExecutionModel := TrimSpace (am_ExecutionModel (sp_AccountModel p));
    am_RequiresBundler := am_RequiresBundler (sp_AccountModel p);
    am_RequiresEntrypoint := am_RequiresEntrypoint (sp_AccountModel p);
    am_EntrypointVersions := dedupeStrings (am_EntrypointVersions (sp_AccountModel p)) |};
  sp_Constraints := sp_Constraints p;
  sp_SuggestedUserConstraints :=
    match sp_SuggestedUserConstraints p with
    | None => None
    | Some s => Some {|
        su_AllowNewWallet := su_AllowNewWallet s;
        su_AddressContinuityRequired := su_AddressContinuityRequired s;
        su_KeyRotationModel := TrimSpace (su_KeyRotationModel s) |}
    end;
  sp_ChainSupport := normalizeChainSupport <$> sp_ChainSupport p;
  sp_References := normalizeReference <$> sp_References p;
  sp_RiskNotes := dedupeStrings (sp_RiskNotes p)
|}.

Definition ProviderManifest_Normalize (m : ProviderManifest) : ProviderManifest := {|
  pm_SchemaVersion := TrimSpace (pm_SchemaVersion m);
  pm_ProviderID := TrimSpace (pm_ProviderID m);
  pm_ProviderName := TrimSpace (pm_ProviderName m);
  pm_ProviderVersion := TrimSpace (pm_ProviderVersion m);
  pm_ProviderMaturity := TrimSpace (pm_ProviderMaturity m);
  pm_Website := TrimSpace (pm_Website m);
  pm_SolutionProfiles := normalizeSolutionProfile <$> pm_SolutionProfiles m
|}.

Definition Reference_IsUnpinned (r : Reference) : bool :=
  if String.eqb (rf_Commit r) UnpinnedPendingFixture
     || String.eqb (rf_Version r) UnpinnedPendingFixture
  then true
  else is_empty (rf_Commit r) && is_empty (rf_Version r).

Definition HasUnpinnedReferences (m : option ProviderManifest) : bool :=
  match m with
  | None => false
  | Some m => existsb (fun p => existsb Reference_IsUnpinned (sp_References p))
                      (pm_SolutionProfiles m)
  end.

Definition maturities : list string := ["research"; "testnet"; "production"].
Definition claim_statuses : list string :=
  ["declared"; "cafe_reviewed"; "externally_audited"; "executed_observed"].
Definition postures : list string := ["classical_only"; "hybrid"; "full_pq"].
Definition rotation_models : list string := ["none"; "per_userop"].
Definition chain_statuses : list string := ["testnet_supported"; "planned"; "production_supported"].
Definition reference_kinds : list string := ["source_repo"; "protocol_spec"].

Section Validation.
Context `{U : Unicode}.

Definition nat_text (i : nat) : string := FormatInt (Z.of_nat i).

Fixpoint validate_chain_support (i : nat) (l : list ChainSupport) : gores unit :=
  match l with
  | [] => Ok tt
  | c :: l' =>
      fail_if (cs_ChainID c <=? 0)%Z || is_empty (cs_Network c)
              || negb (oneOf (cs_Status c) chain_statuses)
        with errorf ErrInvalidManifest ("chain_support[" +:+ nat_text i +:+ "]") ;;
      validate_chain_support (S i) l'
  end.

Fixpoint validate_references (i : nat) (l : list Reference) : gores unit :=
  match l with
  | [] => Ok tt
  | r :: l' =>
      fail_if negb (oneOf (rf_Kind r) reference_kinds) || is_empty (rf_URL r)
        with errorf ErrInvalidManifest ("references[" +:+ nat_text i +:+ "]") ;;
      validate_references (S i) l'
  end.

Definition validateSolutionProfile (p : SolutionProfile) : gores unit :=
  let sig := sp_Signature p in
  fail_if is_empty (sp_SolutionProfileID p) || is_empty (sp_DisplayName p)
    with errorf ErrInvalidManifest "solution_profile_id and display_name required" ;;
  fail_if negb (oneOf (sp_Maturity p) maturities)
    with errorf ErrInvalidManifest ("maturity " +:+ Quote (sp_Maturity p)) ;;
  fail_if is_empty (sp_ClaimStatus p)
    with errorf ErrInvalidManifest "claim_status required" ;;
  fail_if negb (oneOf (sp_ClaimStatus p) claim_statuses)
    with errorf ErrClaimStatusInvalid (Quote (sp_ClaimStatus p)) ;;
  fail_if negb (oneOf (sp_ResultingPosture p) postures)
    with errorf ErrInvalidManifest ("resulting_posture " +:+ Quote (sp_ResultingPosture p)) ;;
  fail_if Nat.eqb (length (ir_WalletTypes (sp_InputRequirements p))) 0
    with errorf ErrInvalidManifest "wallet_types required" ;;
  fail_if is_empty (sig_Scheme sig) || is_empty (sig_Family sig)
    with errorf ErrInvalidManifest "signature scheme and family required" ;;
  fail_if negb (oneOf (sig_KeyRotationModel sig) rotation_models)
    with errorf ErrInvalidManifest ("key_rotation_model " +:+ Quote (sig_KeyRotationModel sig)) ;;
  fail_if is_empty (am_Standard (sp_AccountModel p)) || is_empty (am_ExecutionModel (sp_AccountModel p))
    with errorf ErrInvalidManifest "account_model fields required" ;;
  fail_if Nat.eqb (length (sp_ChainSupport p)) 0
    with errorf ErrInvalidManifest "chain_support required" ;;
  _ ← validate_chain_support 0 (sp_ChainSupport p);
  _ ← validate_references 0 (sp_References p);
  match sp_SuggestedUserConstraints p with
  | None => Ok tt
  | Some s =>
      fail_if negb (oneOf (su_KeyRotationModel s) rotation_models)
        with errorf ErrInvalidManifest
          ("suggested_user_constraints.key_rotation_model " +:+ Quote (su_KeyRotationModel s)) ;;
      Ok tt
  end.

(** The loop of [Validate] over [SolutionProfiles], with its [seen] set. *)
Fixpoint validate_profiles (i : nat) (seen : gset string) (l : list SolutionProfile) : gores unit :=
  match l with
  | [] => Ok tt
  | p :: l' =>
      match validateSolutionProfile p with
      | Err e => Err (wrap_prefix ("solution_profiles[" +:+ nat_text i +:+ "]") e)
      | Ok _ =>
          let id := sp_SolutionProfileID p in
          fail_if bool_decide (id ∈ seen)
            with errorf ErrInvalidManifest ("duplicate solution_profile_id " +:+ Quote id) ;;
          validate_profiles (S i) ({[id]} ∪ seen) l'
      end
  end.

Definition ProviderManifest_Validate (m : option ProviderManifest) : gores unit :=
  match m with
  | None => Err (errorf ErrInvalidManifest "nil")
  | Some m =>
      fail_if negb (String.eqb (pm_SchemaVersion m) SchemaVersionV01)
        with errorf ErrInvalidManifest ("schema_version " +:+ Quote (pm_SchemaVersion m)) ;;
      fail_if is_empty (pm_ProviderID m) || is_empty (pm_ProviderName m)
              || is_empty (pm_ProviderVersion m)
        with errorf ErrInvalidManifest "provider identity fields required" ;;
      fail_if negb (oneOf (pm_ProviderMaturity m) maturities)
        with errorf ErrInvalidManifest ("provider_maturity " +:+ Quote (pm_ProviderMaturity m)) ;;
      fail_if Nat.eqb (length (pm_SolutionProfiles m)) 0
        with errorf ErrInvalidManifest "solution_profiles required" ;;
      validate_profiles 0 ∅ (pm_SolutionProfiles m)
  end.

(** The manifest after [NormalizeAndValidate] returns nil. *)
Definition ProviderManifest_NormalizeAndValidate (m : ProviderManifest) : gores ProviderManifest :=
  let m' := ProviderManifest_Normalize m in
  _ ← ProviderManifest_Validate (Some m');
  Ok m'.

Definition ValidateSuggestedUserConstraints (p : option SolutionProfile) : gores unit :=
  match p with
  | None => Ok tt
  | Some p =>
      match sp_SuggestedUserConstraints p with
      | None => Ok tt
      | Some s =>
          fail_if negb (su_AllowNewWallet s) && pc_RequiresNewAccount (sp_Constraints p)
            with errorf ErrSuggestedConstraintsContradict
              "allow_new_wallet=false but constraints.requires_new_account=true" ;;
          fail_if su_AddressContinuityRequired s
                  && negb (pc_AddressContinuitySupported (sp_Constraints p))
            with errorf ErrSuggestedConstraintsContradict
              "address_continuity_required=true but constraints.address_continuity_supported=false" ;;
          fail_if negb (is_empty (su_KeyRotationModel s))
                  && negb (String.eqb (su_KeyRotationModel s) (sig_KeyRotationModel (sp_Signature p)))
            with errorf ErrSuggestedConstraintsContradict
              ("key_rotation_model " +:+ Quote (su_KeyRotationModel s)
               +:+ " does not match signature.key_rotation_model "
               +:+ Quote (sig_KeyRotationModel (sp_Signature p))) ;;
          Ok tt
      end
  end.

End Validation.

(** ** Normalisation *)

Lemma dedupe_loop_spec seen l s :
  s ∈ dedupe_loop seen l <->
  s <> EmptyString /\ s ∉ seen /\ exists s0, s0 ∈ l /\ s = TrimSpace s0.
Proof.
  revert seen. induction l as [|s0 l IH]; intros seen; cbn [dedupe_loop].
  { set_solver. }
  destruct (is_empty (TrimSpace s0)) eqn:E1; unfold is_empty in E1; bool_to_prop.
  { rewrite IH. set_solver. }
  case_bool_decide; [rewrite IH; set_solver|].
  rewrite elem_of_cons, IH. destruct (decide (s = TrimSpace s0)); set_solver.
Qed.

Lemma dedupe_loop_nodup seen l : NoDup (dedupe_loop seen l).
Proof.
  revert seen. induction l as [|s0 l IH]; intros seen; cbn [dedupe_loop]; [constructor|].
  repeat case_match; auto. constructor; [|auto].
  rewrite dedupe_loop_spec. set_solver.
Qed.

(** A list of distinct, trimmed, non-empty strings is left as it is. *)
Lemma dedupe_loop_fix seen l :
  NoDup l -> Forall (fun s => trimmed s /\ s <> EmptyString /\ s ∉ seen) l ->
  dedupe_loop seen l = l.
Proof.
  revert seen. induction l as [|s l IH]; intros seen Hnd Hall; [done|].
  apply NoDup_cons in Hnd as [Hs Hnd].
  apply Forall_cons in Hall as [(Ht & Hne & Hns) Hall]. cbn [dedupe_loop].
  rewrite Ht, bool_decide_false by done.
  unfold is_empty. apply String.eqb_neq in Hne as ->. f_equal.
  apply IH; [done|]. rewrite Forall_forall in Hall |- *. intros x Hx.
  destruct (Hall x Hx) as (?&?&?). set_solver.
Qed.

Lemma dedupeStrings_spec l s :
  s ∈ dedupeStrings l <-> s <> EmptyString /\ exists s0, s0 ∈ l /\ s = TrimSpace s0.
Proof. unfold dedupeStrings. rewrite dedupe_loop_spec. set_solver. Qed.

Lemma dedupeStrings_idem l : dedupeStrings (dedupeStrings l) = dedupeStrings l.
Proof.
  apply dedupe_loop_fix; [apply dedupe_loop_nodup|].
  apply Forall_forall. intros s [Hne [s0 [_ ->]]]%dedupeStrings_spec.
  split; [apply TrimSpace_trimmed|set_solver].
Qed.

#[export] Hint Rewrite TrimSpace_idem dedupeStrings_idem : cpm.

Lemma normalizeSolutionProfile_idem p :
  normalizeSolutionProfile (normalizeSolutionProfile p) = normalizeSolutionProfile p.
Proof.
  destruct p as [???????? ? sug cs rs ?]. unfold normalizeSolutionProfile; simpl.
  autorewrite with cpm. f_equal.
  - destruct sug; simpl; by autorewrite with cpm.
  - rewrite <- list_fmap_compose. apply list_fmap_ext. intros _ c _.
    unfold normalizeChainSupport, compose; simpl. by autorewrite with cpm.
  - rewrite <- list_fmap_compose. apply list_fmap_ext. intros _ c _.
    unfold normalizeReference, compose; simpl. by autorewrite with cpm.
Qed.

Lemma Normalize_fixpoint m :
  ProviderManifest_Normalize (ProviderManifest_Normalize m) = ProviderManifest_Normalize m.
Proof.
  unfold ProviderManifest_Normalize; simpl. autorewrite with cpm. f_equal.
  rewrite <- list_fmap_compose. apply list_fmap_ext. intros _ p _.
  apply normalizeSolutionProfile_idem.
Qed.

(** [Normalize] is idempotent: normalising a manifest that was already
    normalised changes none of its fields, nested lists included. *)
Theorem Normalize_idempotent m :
  ProviderManifest_Normalize (ProviderManifest_Normalize m) = ProviderManifest_Normalize m.
Proof. apply Normalize_fixpoint. Qed.

(** ** Validation *)

Lemma oneOf_spec v l : oneOf v l = true <-> v ∈ l.
Proof.
  unfold oneOf. rewrite existsb_exists. setoid_rewrite String.eqb_eq.
  setoid_rewrite <- list_elem_of_In. naive_solver.
Qed.

Lemma oneOf_false v l : oneOf v l = false <-> v ∉ l.
Proof. rewrite <- oneOf_spec. destruct (oneOf v l); naive_solver. Qed.

(** What a chain entry, a reference, a profile and a manifest must satisfy. *)
Definition chain_support_ok (c : ChainSupport) : Prop :=
  (0 < cs_ChainID c)%Z /\ cs_Network c <> EmptyString /\ cs_Status c ∈ chain_statuses.

Definition reference_ok (r : Reference) : Prop :=
  rf_Kind r ∈ reference_kinds /\ rf_URL r <> EmptyString.

Record profile_ok (p : SolutionProfile) : Prop := {
  ok_id : sp_SolutionProfileID p <> EmptyString;
  ok_name : sp_DisplayName p <> EmptyString;
  ok_maturity : sp_Maturity p ∈ maturities;
  ok_claim : sp_ClaimStatus p ∈ claim_statuses;
  ok_posture : sp_ResultingPosture p ∈ postures;
  ok_wallets : ir_WalletTypes (sp_InputRequirements p) <> [];
  ok_scheme : sig_Scheme (sp_Signature p) <> EmptyString;
  ok_family : sig_Family (sp_Signature p) <> EmptyString;
  ok_rotation : sig_KeyRotationModel (sp_Signature p) ∈ rotation_models;
  ok_standard : am_Standard (sp_AccountModel p) <> EmptyString;
  ok_execution : am_ExecutionModel (sp_AccountModel p) <> EmptyString;
  ok_chains : sp_ChainSupport p <> [];
  ok_chain : Forall chain_support_ok (sp_ChainSupport p);
  ok_refs : Forall reference_ok (sp_References p);
  ok_suggested : forall s, sp_SuggestedUserConstraints p = Some s ->
    su_KeyRotationModel s ∈ rotation_models
}.

Record manifest_ok (m : ProviderManifest) : Prop := {
  ok_schema : pm_SchemaVersion m = SchemaVersionV01;
  ok_pid : pm_ProviderID m <> EmptyString;
  ok_pname : pm_ProviderName m <> EmptyString;
  ok_pversion : pm_ProviderVersion m <> EmptyString;
  ok_pmaturity : pm_ProviderMaturity m ∈ maturities;
  ok_profiles : pm_SolutionProfiles m <> [];
  ok_profile : Forall profile_ok (pm_SolutionProfiles m);
  ok_distinct : NoDup (sp_SolutionProfileID <$> pm_SolutionProfiles m)
}.

Section ValidationSpec.
Context `{U : Unicode}.

Lemma validate_chain_support_ok i l :
  validate_chain_support i l = Ok tt <-> Forall chain_support_ok l.
Proof.
  revert i. induction l as [|c l IH]; intros i; cbn [validate_chain_support]; [naive_solver|].
  rewrite fail_if_ok, IH, Forall_cons. unfold chain_support_ok.
  rewrite !orb_false_and, Z.leb_gt, is_empty_false, negb_false_iff, oneOf_spec. tauto.
Qed.

Lemma validate_references_ok i l :
  validate_references i l = Ok tt <-> Forall reference_ok l.
Proof.
  revert i. induction l as [|c l IH]; intros i; cbn [validate_references]; [naive_solver|].
  rewrite fail_if_ok, IH, Forall_cons. unfold reference_ok.
  rewrite !orb_false_and, is_empty_false, negb_false_iff, oneOf_spec. tauto.
Qed.

Lemma suggested_rotation_ok p :
  match sp_SuggestedUserConstraints p with
  | None => Ok tt
  | Some s =>
      fail_if negb (oneOf (su_KeyRotationModel s) rotation_models)
        with errorf ErrInvalidManifest
          ("suggested_user_constraints.key_rotation_model " +:+ Quote (su_KeyRotationModel s)) ;;
      Ok tt
  end = Ok tt <->
  forall s, sp_SuggestedUserConstraints p = Some s -> su_KeyRotationModel s ∈ rotation_models.
Proof.
  destruct (sp_SuggestedUserConstraints p) as [s|]; [|naive_solver].
  rewrite fail_if_ok, negb_false_iff, oneOf_spec. naive_solver.
Qed.

Lemma claim_status_nonempty p : sp_ClaimStatus p ∈ claim_statuses -> sp_ClaimStatus p <> EmptyString.
Proof. intros H E. rewrite E in H. unfold claim_statuses in H. set_solver. Qed.

Lemma validateSolutionProfile_ok p : validateSolutionProfile p = Ok tt <-> profile_ok p.
Proof.
  unfold validateSolutionProfile.
  rewrite !fail_if_ok, res_bind_ok. setoid_rewrite res_bind_ok.
  rewrite !orb_false_and, !is_empty_false, !negb_false_iff, !oneOf_spec, !length_zero_false.
  split.
  - intros (?&?&?&?&?&?&?&?&?&?&[]&Hc&[]&Hr&Hs).
    rewrite validate_chain_support_ok in Hc. rewrite validate_references_ok in Hr.
    rewrite suggested_rotation_ok in Hs. constructor; tauto.
  - intros []. repeat split; try done; [by apply claim_status_nonempty|].
    exists tt. rewrite validate_chain_support_ok. split; [done|].
    exists tt. by rewrite validate_references_ok, suggested_rotation_ok.
Qed.

Lemma validate_profiles_ok i seen l :
  validate_profiles i seen l = Ok tt <->
  Forall profile_ok l /\ NoDup (sp_SolutionProfileID <$> l)
  /\ Forall (fun p => sp_SolutionProfileID p ∉ seen) l.
Proof.
  revert i seen. induction l as [|p l IH]; intros i seen; cbn [validate_profiles].
  { split; [intros _; split_and!; constructor|done]. }
  rewrite !Forall_cons, fmap_cons, NoDup_cons, <- (validateSolutionProfile_ok p).
  destruct (validateSolutionProfile p) as [[]|e]; [|naive_solver].
  rewrite fail_if_ok, bool_decide_eq_false, IH, !Forall_forall, list_elem_of_fmap.
  setoid_rewrite not_elem_of_union. setoid_rewrite not_elem_of_singleton.
  naive_solver.
Qed.

Lemma Validate_ok m :
  ProviderManifest_Validate (Some m) = Ok tt <-> manifest_ok m.
Proof.
  unfold ProviderManifest_Validate.
  rewrite !fail_if_ok, !orb_false_and, !is_empty_false, !negb_false_iff, oneOf_spec,
    String.eqb_eq, length_zero_false, validate_profiles_ok.
  split.
  - intros (?&?&?&?&?&?&?). constructor; tauto.
  - intros []. repeat split; try done. apply Forall_forall. set_solver.
Qed.

(** [Validate] accepts exactly the manifests of the declared shape: the
    v0.1 schema, the identity fields present, the enumerations respected, at
    least one profile, wallet type and chain, and profile ids without
    duplicates. *)
Theorem Validate_correct m :
  ProviderManifest_Validate (Some m) = Ok tt <-> manifest_ok m.
Proof. apply Validate_ok. Qed.

(** Every error of the two list checks is a manifest error. *)
Lemma validate_chain_support_err i l e :
  validate_chain_support i l = Err e -> e_wraps e = [ErrInvalidManifest].
Proof.
  revert i. induction l as [|c l IH]; intros i; cbn [validate_chain_support]; [done|].
  intros [[_ <-]|[_ H]]%fail_if_err; [done|by eapply IH].
Qed.

Lemma validate_references_err i l e :
  validate_references i l = Err e -> e_wraps e = [ErrInvalidManifest].
Proof.
  revert i. induction l as [|c l IH]; intros i; cbn [validate_references]; [done|].
  intros [[_ <-]|[_ H]]%fail_if_err; [done|by eapply IH].
Qed.

(** A profile has the claim-status error exactly when its claim status is
    present and unknown, and the earlier checks pass; every other failure is
    an invalid manifest. *)
Definition claim_status_unknown (p : SolutionProfile) : Prop :=
  sp_SolutionProfileID p <> EmptyString /\ sp_DisplayName p <> EmptyString
  /\ sp_Maturity p ∈ maturities
  /\ sp_ClaimStatus p <> EmptyString /\ sp_ClaimStatus p ∉ claim_statuses.

(** The checks after the claim status. *)
Lemma validate_tail_err p (l : list (bool * goerror)) e :
  Forall (fun x => e_wraps (snd x) = [ErrInvalidManifest]) l ->
  foldr (fun x k => fail_if fst x with snd x ;; k)
    (_ ← validate_chain_support 0 (sp_ChainSupport p);
     _ ← validate_references 0 (sp_References p);
     match sp_SuggestedUserConstraints p with
     | None => Ok tt
     | Some s =>
         fail_if negb (oneOf (su_KeyRotationModel s) rotation_models)
           with errorf ErrInvalidManifest
             ("suggested_user_constraints.key_rotation_model " +:+ Quote (su_KeyRotationModel s)) ;;
         Ok tt
     end) l = Err e ->
  e_wraps e = [ErrInvalidManifest].
Proof.
  induction 1 as [|[b x] l Hx _ IH]; cbn [foldr fst snd].
  - unfold mbind, res_bind.
    destruct (validate_chain_support _ _) as [[]|?] eqn:Hcs;
      [|intros [= <-]; by eapply validate_chain_support_err].
    destruct (validate_references _ _) as [[]|?] eqn:Hrs;
      [|intros [= <-]; by eapply validate_references_err].
    destruct (sp_SuggestedUserConstraints p); [|done].
    by intros [[_ <-]|[_ ?]]%fail_if_err.
  - intros [[_ <-]|[_ H]]%fail_if_err; [done|auto].
Qed.

Lemma validateSolutionProfile_err p e :
  validateSolutionProfile p = Err e ->
  (claim_status_unknown p -> e_wraps e = [ErrClaimStatusInvalid])
  /\ (~ claim_status_unknown p -> e_wraps e = [ErrInvalidManifest]).
Proof.
  unfold claim_status_unknown. rewrite <- oneOf_spec, <- oneOf_false, <- !is_empty_false.
  unfold validateSolutionProfile. cbn zeta.
  intros [[H1 <-]|[H1 H]]%fail_if_err.
  { apply orb_true_iff in H1 as [H1|H1]; split; naive_solver congruence. }
  apply orb_false_and in H1.
  apply fail_if_err in H as [[H2 <-]|[H2 H]]; bool_to_prop.
  { split; naive_solver congruence. }
  apply fail_if_err in H as [[H3 <-]|[H3 H]].
  { split; naive_solver congruence. }
  apply fail_if_err in H as [[H4 <-]|[H4 H]]; bool_to_prop.
  { split; naive_solver congruence. }
  assert (e_wraps e = [ErrInvalidManifest]) as He; [|split; naive_solver congruence].
  refine (validate_tail_err p [(_, _); (_, _); (_, _); (_, _); (_, _); (_, _)] e _ H).
  by repeat constructor.
Qed.

(** The first profile that is not valid has an unknown claim status. *)
Definition first_bad_claim (seen : gset string) (l : list SolutionProfile) : Prop :=
  exists pre p post, l = pre ++ p :: post /\ claim_status_unknown p
    /\ Forall profile_ok pre /\ NoDup (sp_SolutionProfileID <$> pre)
    /\ Forall (fun q => sp_SolutionProfileID q ∉ seen) pre.

Lemma claim_status_unknown_not_ok p : claim_status_unknown p -> ~ profile_ok p.
Proof. intros (?&?&?&?&Hc) []. done. Qed.

Lemma first_bad_claim_cons seen p l :
  first_bad_claim seen (p :: l) <->
  claim_status_unknown p
  \/ profile_ok p /\ sp_SolutionProfileID p ∉ seen
     /\ first_bad_claim ({[sp_SolutionProfileID p]} ∪ seen) l.
Proof.
  split.
  - intros ([|q pre]&x&post&[= -> ->]&Hx&Hok&Hnd&Hs); [by left|right].
    apply Forall_cons in Hok as [? Hok]. apply Forall_cons in Hs as [? Hs].
    rewrite fmap_cons, NoDup_cons in Hnd. destruct Hnd as [Hq Hnd].
    split_and!; [done..|]. exists pre, x, post. split_and!; [done..|].
    rewrite Forall_forall in Hs |- *. rewrite list_elem_of_fmap in Hq. set_solver.
  - intros [Hx|(Hok&Hs&pre&x&post&->&Hx&Hpre&Hnd&Hall)].
    { exists [], p, l. split_and!; [done|done|constructor..]. }
    exists (p :: pre), x, post. rewrite fmap_cons, NoDup_cons, !Forall_cons, list_elem_of_fmap.
    rewrite Forall_forall in Hall.
    split_and!; try done; rewrite ?Forall_forall; set_solver.
Qed.

Lemma validate_profiles_err i seen l e :
  validate_profiles i seen l = Err e ->
  (first_bad_claim seen l -> e_wraps e = [ErrClaimStatusInvalid])
  /\ (~ first_bad_claim seen l -> e_wraps e = [ErrInvalidManifest]).
Proof.
  revert i seen. induction l as [|p l IH]; intros i seen; cbn [validate_profiles]; [done|].
  rewrite first_bad_claim_cons.
  destruct (validateSolutionProfile p) as [[]|e'] eqn:Hp.
  - apply validateSolutionProfile_ok in Hp.
    assert (~ claim_status_unknown p) by (intros ?%claim_status_unknown_not_ok; done).
    intros [[Hb <-]|[Hb Hrest]]%fail_if_err; bool_to_prop; [naive_solver|].
    apply IH in Hrest. naive_solver.
  - intros [= <-]. assert (~ profile_ok p) by (rewrite <- validateSolutionProfile_ok; congruence).
    apply validateSolutionProfile_err in Hp. simpl. naive_solver.
Qed.

(** The checks of [Validate] before the profiles. *)
Definition header_ok (m : ProviderManifest) : Prop :=
  pm_SchemaVersion m = SchemaVersionV01 /\ pm_ProviderID m <> EmptyString
  /\ pm_ProviderName m <> EmptyString /\ pm_ProviderVersion m <> EmptyString
  /\ pm_ProviderMaturity m ∈ maturities.

(** A rejected manifest is classified by the first check that fails: the
    error is [ErrClaimStatusInvalid] exactly when the header is valid and the
    first profile that is not valid has a present but unknown claim status,
    and is [ErrInvalidManifest] in every other case. *)
Theorem Validate_error_class m e :
  ProviderManifest_Validate (Some m) = Err e ->
  (header_ok m /\ first_bad_claim ∅ (pm_SolutionProfiles m) ->
     e_wraps e = [ErrClaimStatusInvalid])
  /\ (~ (header_ok m /\ first_bad_claim ∅ (pm_SolutionProfiles m)) ->
     e_wraps e = [ErrInvalidManifest]).
Proof.
  unfold ProviderManifest_Validate, header_ok. rewrite <- !is_empty_false, <- oneOf_spec.
  intros [[H1 <-]|[H1 H]]%fail_if_err; bool_to_prop; [split; naive_solver|].
  apply fail_if_err in H as [[H2 <-]|[H2 H]].
  { rewrite !orb_true_iff in H2. split; naive_solver congruence. }
  apply fail_if_err in H as [[H3 <-]|[H3 H]]; bool_to_prop; [split; naive_solver congruence|].
  apply fail_if_err in H as [[Hl <-]|[Hl H]].
  { apply Nat.eqb_eq, length_zero_iff_nil in Hl. rewrite Hl. split; [|done].
    intros [_ ([]&?&?&?&_)]; done. }
  apply validate_profiles_err in H. tauto.
Qed.

End ValidationSpec.

(** ** The NiceTry manifest of the test data *)

Definition nicetry_caps : list string := ["deploy"; "sign_userop"; "rotate_signer"].

Definition nicetry_profile : SolutionProfile := {|
  sp_SolutionProfileID := "nicetry.fors_c.erc4337.v0_1";
  sp_DisplayName := "NiceTry FORS+C ERC-4337 Smart Account";
  sp_Maturity := "research";
  sp_ClaimStatus := "declared";
  sp_ResultingPosture := "hybrid";
  sp_InputRequirements := mkInputRequirements ["EOA"] true;
  sp_Signature := mkSignature "FORS+C" "hash_based" "per_userop";
  sp_AccountModel := mkAccountModel "ERC-4337" "erc4337_bundler" true true ["0.7"];
  sp_Constraints := mkConstraints true false true;
  sp_SuggestedUserConstraints := Some (mkSuggested true false "per_userop");
  sp_ChainSupport :=
    [mkChainSupport 11155111 "sepolia" "testnet_supported" nicetry_caps;
     mkChainSupport 84532 "base-sepolia" "testnet_supported" nicetry_caps;
     mkChainSupport 1 "ethereum-mainnet" "production_supported" nicetry_caps];
  sp_References :=
    [mkReference "source_repo" "https://github.com/RivaLabs-Core/NiceTry"
       "40a1286d18dee2a92631da82a52e484fa9a3628c" EmptyString;
     mkReference "protocol_spec" "https://github.com/RivaLabs-Core/Ephemeral-Keys-Protocol"
       EmptyString "ac140c71d400449adec18884c4fd3373592292f3"];
  sp_RiskNotes :=
    ["FORS+C parameters are still presented as tunable by upstream documentation."]
|}.

Definition manifest_with (id : string) (ps : list SolutionProfile) : ProviderManifest := {|
  pm_SchemaVersion := SchemaVersionV01;
  pm_ProviderID := id;
  pm_ProviderName := "NiceTry";
  pm_ProviderVersion := "2026-08";
  pm_ProviderMaturity := "research";
  pm_Website := "https://nicetry.xyz";
  pm_SolutionProfiles := ps
|}.

Definition nicetry_manifest : ProviderManifest := manifest_with "nicetry" [nicetry_profile].

Definition with_claim_status (s : string) (p : SolutionProfile) : SolutionProfile :=
  mkProfile (sp_SolutionProfileID p) (sp_DisplayName p) (sp_Maturity p) s
    (sp_ResultingPosture p) (sp_InputRequirements p) (sp_Signature p) (sp_AccountModel p)
    (sp_Constraints p) (sp_SuggestedUserConstraints p) (sp_ChainSupport p) (sp_References p)
    (sp_RiskNotes p).

Lemma Validate_error_class_witness : exists e,
  ProviderManifest_Validate
    (Some (manifest_with "nicetry" [with_claim_status "audited" nicetry_profile])) = Err e
  /\ e_wraps e = [ErrClaimStatusInvalid].
Proof.
  eexists. split; [reflexivity|].
  refine (proj1 (Validate_error_class
    (manifest_with "nicetry" [with_claim_status "audited" nicetry_profile]) _ eq_refl) _).
  split.
  - unfold header_ok. split_and!; by apply (bool_decide_unpack _).
  - exists [], (with_claim_status "audited" nicetry_profile), [].
    split_and!; [done| |constructor..].
    unfold claim_status_unknown. split_and!; by apply (bool_decide_unpack _).
Defined.
