(* ===== verification/Registry.v ===== *)
(** * The provider registry

    [internal/domain/provider/registry.go] and [load_signals.go]: the index of
    loaded manifests by provider id and of their solution profiles by
    (provider id, profile id). *)

From stdpp Require Import base gmap sets list strings sorting.
From Stdlib Require Import Ascii.
From S2P Require Import Prelude GoStrings GoUnicode Errors Manifest.
Local Open Scope string_scope.
Local Open Scope list_scope.

(** ** Data *)

Record ProfileRef := mkProfileRef {
  ref_ProviderID : string;
  ref_SolutionProfileID : string;
  ref_ManifestVersion : string
}.

Record ResolvedProfile := mkResolved {
  rp_ProviderID : string;
  rp_ProviderVersion : string;
  rp_Profile : SolutionProfile;
  rp_Erroneous : bool
}.

Record Registry := mkRegistry {
  byKey : gmap string ResolvedProfile;
  manifests : gmap string ProviderManifest
}.

Definition NewRegistry : Registry := mkRegistry ∅ ∅.

Section Registry.
Context `{U : Unicode, S : GoSort}.

Definition nul : ascii := Ascii.zero.

(** The key of [r.manifests]. *)
Definition providerKey (providerID : string) : string := ToLower (TrimSpace providerID).

Definition profileKey (providerID solutionProfileID : string) : string :=
  ToLower (TrimSpace providerID) +:+ String nul (TrimSpace solutionProfileID).

(** ** Operations *)

Definition resolve (m : ProviderManifest) (p : SolutionProfile) : ResolvedProfile :=
  mkResolved (pm_ProviderID m) (pm_ProviderVersion m) p false.

(** The loop of [addManifest] over the profiles: on a duplicate key it returns
    with the index as it then stands. *)
Fixpoint index_profiles (m : ProviderManifest) (l : list SolutionProfile)
    (idx : gmap string ResolvedProfile) : gmap string ResolvedProfile * gores unit :=
  match l with
  | [] => (idx, Ok tt)
  | p :: l' =>
      let key := profileKey (pm_ProviderID m) (sp_SolutionProfileID p) in
      match idx !! key with
      | Some _ =>
          (idx, Err (errorf ErrInvalidManifest
                      ("duplicate solution profile " +:+ pm_ProviderID m +:+ "/"
                       +:+ sp_SolutionProfileID p)))
      | None => index_profiles m l' (<[key := resolve m p]> idx)
      end
  end.

Definition addManifest (r : Registry) (m : option ProviderManifest) : Registry * gores unit :=
  match m with
  | None => (r, Err (errorf ErrInvalidManifest "nil registry or manifest"))
  | Some m =>
      let providerID := providerKey (pm_ProviderID m) in
      match manifests r !! providerID with
      | Some _ =>
          (r, Err (errorf ErrInvalidManifest ("duplicate provider_id " +:+ pm_ProviderID m)))
      | None =>
          let ms := <[providerID := m]> (manifests r) in
          let '(idx, e) := index_profiles m (pm_SolutionProfiles m) (byKey r) in
          (mkRegistry idx ms, e)
      end
  end.

Definition AddManifest (r : Registry) (m : option ProviderManifest) : Registry * gores unit :=
  addManifest r m.

Definition Lookup (r : option Registry) (ref : ProfileRef) : option ResolvedProfile :=
  match r with
  | None => None
  | Some r =>
      match byKey r !! profileKey (ref_ProviderID ref) (ref_SolutionProfileID ref) with
      | None => None
      | Some got =>
          let wantVer := TrimSpace (ref_ManifestVersion ref) in
          if negb (is_empty wantVer) && negb (String.eqb wantVer (rp_ProviderVersion got))
          then None else Some got
      end
  end.

(** The map is walked in some order and the result sorted by lower-cased id. *)
Definition Registry_List (r : option Registry) : list ProviderManifest :=
  match r with
  | None => []
  | Some r =>
      sort_slice (fun a b => str_lt (ToLower (pm_ProviderID a)) (ToLower (pm_ProviderID b)))
                 (snd <$> map_to_list (manifests r))
  end.

Definition Registry_Get (r : option Registry) (providerID : string) : option ProviderManifest :=
  match r with
  | None => None
  | Some r => manifests r !! providerKey providerID
  end.

Definition ProfilesForProvider (r : option Registry) (providerID : string) : list ResolvedProfile :=
  match r, Registry_Get r providerID with
  | Some r, Some m =>
      sort_slice
        (fun a b => str_lt (sp_SolutionProfileID (rp_Profile a)) (sp_SolutionProfileID (rp_Profile b)))
        (omap (fun p => byKey r !! profileKey (pm_ProviderID m) (sp_SolutionProfileID p))
              (pm_SolutionProfiles m))
  | _, _ => []
  end.

(** [LoadRegistryFromFiles] on the documents the files decode to: blank paths
    are skipped, the first failure stops the load. *)
Fixpoint load_manifests (r : Registry) (docs : list ProviderManifest) : gores Registry :=
  match docs with
  | [] => Ok r
  | d :: docs' =>
      match ProviderManifest_NormalizeAndValidate d with
      | Err e => Err e
      | Ok m =>
          let '(r', e) := AddManifest r (Some m) in
          match e with
          | Err e => Err e
          | Ok _ => load_manifests r' docs'
          end
      end
  end.

(** ** Load signals *)

Definition suggested_contradicts (p : SolutionProfile) : bool :=
  negb (is_ok (ValidateSuggestedUserConstraints (Some p))).

Definition mark_erroneous (rp : ResolvedProfile) : ResolvedProfile :=
  if suggested_contradicts (rp_Profile rp)
  then mkResolved (rp_ProviderID rp) (rp_ProviderVersion rp) (rp_Profile rp) true
  else rp.

(** [ApplyManifestLoadSignals]: the registry with the flags set, and the count. *)
Definition ApplyManifestLoadSignals (r : option Registry) : option Registry * nat :=
  match r with
  | None => (None, 0)
  | Some r =>
      (Some (mkRegistry (mark_erroneous <$> byKey r) (manifests r)),
       length (filter (fun rp => suggested_contradicts (rp_Profile rp) = true)
                      (snd <$> map_to_list (byKey r))))
  end.

End Registry.

(** ** The registry invariant *)

(** A manifest that can be registered: normalised, valid, and with no NUL byte
    in its id (the separator of [profileKey]). *)
Definition manifest_wf (m : ProviderManifest) : Prop :=
  ProviderManifest_Normalize m = m /\ manifest_ok m
  /\ has_byte Ascii.zero (pm_ProviderID m) = false.

Section RegistrySpec.
Context `{U : Unicode, S : GoSort}.

Definition registered (r : Registry) (m : ProviderManifest) : Prop :=
  manifests r !! providerKey (pm_ProviderID m) = Some m.

Definition resolved (flag : SolutionProfile -> bool) (m : ProviderManifest) (p : SolutionProfile)
    : ResolvedProfile :=
  mkResolved (pm_ProviderID m) (pm_ProviderVersion m) p (flag p).

(** Manifests are filed under their own key, and the profile index holds
    exactly their profiles, with the erroneous flag given by [flag]. *)
Record reg_inv (flag : SolutionProfile -> bool) (r : Registry) : Prop := {
  inv_manifests : forall k m, manifests r !! k = Some m ->
    k = providerKey (pm_ProviderID m) /\ manifest_wf m;
  inv_index : forall k rp, byKey r !! k = Some rp <->
    exists m p, registered r m /\ p ∈ pm_SolutionProfiles m
      /\ k = profileKey (pm_ProviderID m) (sp_SolutionProfileID p) /\ rp = resolved flag m p
}.

Definition no_flag (_ : SolutionProfile) : bool := false.

Lemma NewRegistry_inv : reg_inv no_flag NewRegistry.
Proof.
  split; simpl.
  - intros k m H. by rewrite lookup_empty in H.
  - intros k rp. rewrite lookup_empty. split; [done|].
    intros (m & p & H & _). unfold registered in H. simpl in H. by rewrite lookup_empty in H.
Qed.

Lemma providerKey_no_nul id :
  has_byte Ascii.zero id = false -> has_byte Ascii.zero (providerKey id) = false.
Proof. intros. by apply ToLower_no_nul, TrimSpace_no_byte. Qed.

Lemma profileKey_inj a b c d :
  has_byte Ascii.zero a = false -> has_byte Ascii.zero c = false ->
  profileKey a b = profileKey c d -> providerKey a = providerKey c /\ TrimSpace b = TrimSpace d.
Proof. intros Ha Hc. apply sep_app_inj; by apply providerKey_no_nul. Qed.

Lemma wf_profile_trimmed m p : manifest_wf m -> p ∈ pm_SolutionProfiles m ->
  trimmed (sp_SolutionProfileID p).
Proof.
  intros [Hn _] Hp. rewrite <- Hn in Hp. simpl in Hp.
  apply list_elem_of_fmap in Hp as (q & -> & _). apply TrimSpace_trimmed.
Qed.

(** Within one manifest the keys tell the profiles apart. *)
Lemma wf_profile_key_inj m p q : manifest_wf m ->
  p ∈ pm_SolutionProfiles m -> q ∈ pm_SolutionProfiles m ->
  profileKey (pm_ProviderID m) (sp_SolutionProfileID p)
  = profileKey (pm_ProviderID m) (sp_SolutionProfileID q) -> p = q.
Proof.
  intros Hwf Hp Hq [_ E]%profileKey_inj; [|apply Hwf..].
  rewrite !(wf_profile_trimmed m) in E by done.
  destruct Hwf as (_ & [] & _).
  apply list_elem_of_lookup in Hp as [i Hi]. apply list_elem_of_lookup in Hq as [j Hj].
  assert (i = j) as ->; [|congruence].
  eapply (NoDup_lookup _ i j (sp_SolutionProfileID p)); [exact ok_distinct| |];
    rewrite list_lookup_fmap; [by rewrite Hi|by rewrite Hj, E].
Qed.

(** The loop of [addManifest] on fresh, pairwise distinct keys. *)
Lemma index_profiles_ok m l idx :
  (forall p, p ∈ l -> idx !! profileKey (pm_ProviderID m) (sp_SolutionProfileID p) = None) ->
  NoDup ((fun p => profileKey (pm_ProviderID m) (sp_SolutionProfileID p)) <$> l) ->
  exists idx', index_profiles m l idx = (idx', Ok tt)
    /\ forall k rp, idx' !! k = Some rp <->
         idx !! k = Some rp \/ exists p, p ∈ l
           /\ k = profileKey (pm_ProviderID m) (sp_SolutionProfileID p) /\ rp = resolve m p.
Proof.
  revert idx. induction l as [|p l IH]; intros idx Hf Hnd; cbn [index_profiles].
  { exists idx. set_solver. }
  rewrite fmap_cons, NoDup_cons, list_elem_of_fmap in Hnd. destruct Hnd as [Hp Hnd].
  rewrite (Hf p) by set_solver.
  edestruct (IH (<[profileKey (pm_ProviderID m) (sp_SolutionProfileID p) := resolve m p]> idx))
    as (idx' & E & Hidx); [|done|].
  { intros q Hq. rewrite lookup_insert_ne by set_solver. apply Hf. set_solver. }
  exists idx'. split; [done|]. intros k rp. rewrite Hidx, lookup_insert_Some.
  split.
  - intros [[[<- <-]|[Hne H]]|(q & Hq & -> & ->)]; [right; exists p|by left|right; exists q];
      split_and!; by constructor.
  - intros [H|(q & [->|Hq]%elem_of_cons & -> & ->)]; [left; right|by left; left|right; by exists q].
    split; [|done]. intros <-. by rewrite (Hf p) in H by left.
Qed.

Lemma wf_keys_nodup m : manifest_wf m ->
  NoDup ((fun p => profileKey (pm_ProviderID m) (sp_SolutionProfileID p)) <$> pm_SolutionProfiles m).
Proof.
  intros Hwf. apply NoDup_fmap_2_strong.
  - intros p q Hp Hq. by apply wf_profile_key_inj.
  - destruct Hwf as (_ & [] & _). by eapply NoDup_fmap_1.
Qed.

(** The effect of [addManifest] on a registrable manifest. *)
Lemma addManifest_wf r m : reg_inv no_flag r -> manifest_wf m ->
  match manifests r !! providerKey (pm_ProviderID m) with
  | Some _ => addManifest r (Some m)
      = (r, Err (errorf ErrInvalidManifest ("duplicate provider_id " +:+ pm_ProviderID m)))
  | None => exists r', addManifest r (Some m) = (r', Ok tt)
      /\ manifests r' = <[providerKey (pm_ProviderID m) := m]> (manifests r)
      /\ reg_inv no_flag r'
  end.
Proof.
  intros [Hm Hi] Hwf. unfold addManifest.
  destruct (manifests r !! _) as [m0|] eqn:Hnew; [done|].
  destruct (index_profiles_ok m (pm_SolutionProfiles m) (byKey r)) as (idx & -> & Hidx).
  { intros p Hp. apply eq_None_ne_Some. intros rp (m' & q & Hr & Hq & Hk & _)%Hi.
    apply profileKey_inj in Hk as [Hk _]; [|apply Hwf|by eapply Hm].
    unfold registered in Hr. congruence. }
  { by apply wf_keys_nodup. }
  eexists. split; [done|]. split; [done|]. split; simpl.
  - intros k m'. rewrite lookup_insert_Some. intros [[<- <-]|[_ H]]; [done|by apply Hm].
  - intros k rp. rewrite Hidx, Hi. unfold registered; simpl. setoid_rewrite lookup_insert_Some.
    split.
    + intros [(m' & p & Hr & Hp & -> & ->)|(p & Hp & -> & ->)]; [exists m', p|exists m, p];
        split_and!; try done; [|by left].
      right. split; [|done]. intros E. unfold registered in Hr. congruence.
    + intros (m' & p & [[_ <-]|[_ Hr]] & Hp & -> & ->); [right; by exists p|left; by exists m', p].
Qed.

(** C40: registering a normalised, valid manifest fails exactly when its
    provider id (compared without case or surrounding space) is taken, in which
    case the registry is unchanged; otherwise it is filed, the index holds its
    profiles and nothing else changes.  The invariant is preserved. *)
Theorem AddManifest_correct r m :
  reg_inv no_flag r -> manifest_wf m ->
  let '(r', e) := AddManifest r (Some m) in
  reg_inv no_flag r'
  /\ (is_ok e = true <-> Registry_Get (Some r) (pm_ProviderID m) = None)
  /\ (is_ok e = false -> r' = r /\ e = Err (errorf ErrInvalidManifest
                                      ("duplicate provider_id " +:+ pm_ProviderID m)))
  /\ (is_ok e = true -> manifests r' = <[providerKey (pm_ProviderID m) := m]> (manifests r)).
Proof.
  intros Hinv Hwf. pose proof (addManifest_wf r m Hinv Hwf) as H.
  unfold AddManifest, Registry_Get. case_match; [|destruct H as (r' & H & Hm & Hinv')];
    rewrite H; simpl; naive_solver.
Qed.

(** A lookup finds exactly the registered profiles: the provider id is
    compared without case, both ids without surrounding space, and a version,
    when given, must be the manifest's. *)
Theorem Lookup_correct flag r ref rp :
  reg_inv flag r -> has_byte Ascii.zero (ref_ProviderID ref) = false ->
  Lookup (Some r) ref = Some rp <->
  exists m p, Registry_Get (Some r) (ref_ProviderID ref) = Some m
    /\ p ∈ pm_SolutionProfiles m
    /\ sp_SolutionProfileID p = TrimSpace (ref_SolutionProfileID ref)
    /\ (TrimSpace (ref_ManifestVersion ref) = EmptyString
        \/ TrimSpace (ref_ManifestVersion ref) = pm_ProviderVersion m)
    /\ rp = mkResolved (pm_ProviderID m) (pm_ProviderVersion m) p (flag p).
Proof.
  intros [Hm Hi] Hnul. unfold Lookup, Registry_Get. split.
  - destruct (byKey r !! _) as [got|] eqn:Hk; [|done].
    apply Hi in Hk as (m & p & Hr & Hp & Hk & ->). unfold registered in Hr.
    destruct (Hm _ _ Hr) as [_ Hwf].
    apply profileKey_inj in Hk as [Hk1 Hk2]; [|done|apply Hwf].
    rewrite (wf_profile_trimmed m p) in Hk2 by done.
    case_match eqn:Hv; [done|]. intros [= <-]. exists m, p. rewrite Hk1. split_and!; try done.
    apply andb_false_iff in Hv as [Hv|Hv]; bool_to_prop; [left; by apply is_empty_spec|by right].
  - intros (m & p & Hg & Hp & Hid & Hv & ->).
    destruct (Hm _ _ Hg) as [Hk Hwf].
    assert (byKey r !! profileKey (ref_ProviderID ref) (ref_SolutionProfileID ref)
            = Some (resolved flag m p)) as ->.
    { apply Hi. exists m, p. split_and!; try done; [by unfold registered; rewrite <- Hk|].
      unfold profileKey. unfold providerKey in Hk.
      by rewrite Hk, (wf_profile_trimmed m p), Hid by done. }
    simpl. destruct Hv as [->| ->]; simpl; [done|]. by rewrite String.eqb_refl, andb_false_r.
Qed.

Lemma get_registered flag r id m : reg_inv flag r ->
  Registry_Get (Some r) id = Some m -> registered r m /\ manifest_wf m.
Proof. intros [Hm _] Hg. destruct (Hm _ _ Hg) as [Hk ?]. unfold registered. by rewrite <- Hk. Qed.

Lemma indexed_profiles flag r m (l : list SolutionProfile) : reg_inv flag r -> registered r m ->
  (forall p, p ∈ l -> p ∈ pm_SolutionProfiles m) ->
  omap (fun p => byKey r !! profileKey (pm_ProviderID m) (sp_SolutionProfileID p)) l
  = resolved flag m <$> l.
Proof.
  intros Hinv Hr. induction l as [|p l IH]; intros Hl; [done|]. simpl.
  assert (byKey r !! profileKey (pm_ProviderID m) (sp_SolutionProfileID p)
          = Some (resolved flag m p)) as ->.
  { apply (inv_index _ _ Hinv). exists m, p. split_and!; try done. apply Hl. by left. }
  f_equal. apply IH. intros q Hq. apply Hl. by right.
Qed.

(** Sorting by a key that is injective on the list gives a strictly sorted list. *)
Lemma sort_slice_strict {A} (key : A -> string) (l : list A) :
  NoDup (key <$> l) ->
  StronglySorted (fun a b => str_lt (key a) (key b) = true)
    (sort_slice (fun a b => str_lt (key a) (key b)) l).
Proof.
  intros Hnd. set (l' := sort_slice _ l).
  assert (NoDup (key <$> l')) as Hnd' by (unfold l'; by rewrite sort_slice_perm).
  assert (Sorted (ge_of (fun a b => str_lt (key a) (key b))) l') as Hs
    by (apply sort_slice_sorted, _).
  apply Sorted_StronglySorted in Hs; [|apply weak_trans]. clearbody l'. clear Hnd l.
  induction Hs as [|x l Hs IH Hall]; [constructor|].
  rewrite fmap_cons, NoDup_cons, list_elem_of_fmap in Hnd'. destruct Hnd' as [Hx Hnd'].
  constructor; [by apply IH|]. rewrite Forall_forall in Hall |- *. intros y Hy.
  specialize (Hall y Hy). unfold ge_of in Hall.
  destruct (str_lt_total (key x) (key y)) as [E|[?|?]]; [|done|congruence].
  exfalso. apply Hx. by exists y.
Qed.

(** The profiles of a provider are exactly those of its manifest, each
    resolved with the provider's id and version, in strictly increasing order
    of profile id (so the result does not depend on the sorting algorithm). *)
Theorem ProfilesForProvider_correct flag r id m :
  reg_inv flag r -> Registry_Get (Some r) id = Some m ->
  let l := ProfilesForProvider (Some r) id in
  l ≡ₚ (fun p => mkResolved (pm_ProviderID m) (pm_ProviderVersion m) p (flag p))
         <$> pm_SolutionProfiles m
  /\ StronglySorted (fun a b => str_lt (sp_SolutionProfileID (rp_Profile a))
                                       (sp_SolutionProfileID (rp_Profile b)) = true) l.
Proof.
  intros Hinv Hg. destruct (get_registered _ _ _ _ Hinv Hg) as [Hr Hwf].
  unfold ProfilesForProvider. rewrite Hg, (indexed_profiles flag) by done.
  split; [by rewrite sort_slice_perm|].
  apply (sort_slice_strict (fun a => sp_SolutionProfileID (rp_Profile a))).
  rewrite <- list_fmap_compose. apply Hwf.
Qed.

Lemma profiles_elem flag r id rp : reg_inv flag r ->
  rp ∈ ProfilesForProvider (Some r) id <->
  exists m p, Registry_Get (Some r) id = Some m /\ registered r m /\ manifest_wf m
    /\ p ∈ pm_SolutionProfiles m /\ rp = resolved flag m p.
Proof.
  intros Hinv. unfold ProfilesForProvider.
  destruct (Registry_Get (Some r) id) as [m|] eqn:Hg; [|set_solver].
  destruct (get_registered _ _ _ _ Hinv Hg) as [Hr Hwf].
  rewrite (indexed_profiles flag), sort_slice_perm, list_elem_of_fmap by done. split.
  - intros (p & -> & Hp). by exists m, p.
  - intros (m' & p & [= <-] & _ & _ & Hp & ->). by exists p.
Qed.

(** A listed profile is found again under its own reference. *)
Lemma lookup_self flag r id rp : reg_inv flag r -> rp ∈ ProfilesForProvider (Some r) id ->
  Lookup (Some r) (mkProfileRef (rp_ProviderID rp) (sp_SolutionProfileID (rp_Profile rp))
                     (rp_ProviderVersion rp)) = Some rp.
Proof.
  intros Hinv Hrp. apply (profiles_elem flag) in Hrp as (m & p & _ & Hr & Hwf & Hp & ->); [|done].
  unfold Lookup. simpl.
  assert (byKey r !! profileKey (pm_ProviderID m) (sp_SolutionProfileID p)
          = Some (resolved flag m p)) as ->.
  { apply (inv_index _ _ Hinv). by exists m, p. }
  assert (TrimSpace (pm_ProviderVersion m) = pm_ProviderVersion m) as Ht.
  { destruct Hwf as [<- _]. apply TrimSpace_idem. }
  simpl. by rewrite Ht, String.eqb_refl, andb_false_r.
Qed.

(** The manifests determine the registry. *)
Lemma reg_inv_unique flag r1 r2 :
  reg_inv flag r1 -> reg_inv flag r2 -> manifests r1 = manifests r2 -> r1 = r2.
Proof.
  intros [_ H1] [_ H2] E. destruct r1 as [i1 m1], r2 as [i2 m2]. simpl in *. subst m2. f_equal.
  apply map_eq. intros k. apply option_eq. intros rp. by rewrite H1, H2.
Qed.

Definition doc_key (d : ProviderManifest) : string :=
  providerKey (pm_ProviderID (ProviderManifest_Normalize d)).

Lemma NormalizeAndValidate_ok d m :
  ProviderManifest_NormalizeAndValidate d = Ok m <->
  m = ProviderManifest_Normalize d /\ ProviderManifest_Validate (Some m) = Ok tt.
Proof.
  unfold ProviderManifest_NormalizeAndValidate. rewrite res_bind_ok.
  split; [intros ([] & ? & [= <-])|intros [-> ?]; exists tt]; done.
Qed.

(** Loading is registering each normalised document under a fresh key. *)
Lemma load_manifests_ok r docs r' :
  reg_inv no_flag r ->
  Forall (fun d => has_byte Ascii.zero (pm_ProviderID d) = false) docs ->
  load_manifests r docs = Ok r' <->
  Forall (fun d => manifest_ok (ProviderManifest_Normalize d)) docs
  /\ NoDup (doc_key <$> docs) /\ Forall (fun d => manifests r !! doc_key d = None) docs
  /\ reg_inv no_flag r'
  /\ manifests r' = list_to_map ((fun d => (doc_key d, ProviderManifest_Normalize d)) <$> docs)
                    ∪ manifests r.
Proof.
  intros Hinv Hnul. revert r Hinv. induction Hnul as [|d docs Hd _ IH]; intros r Hinv.
  { simpl. rewrite (left_id_L ∅ (∪)). split.
    - intros [= <-]. split_and!; try done; constructor.
    - intros (_ & _ & _ & Hinv' & E). f_equal. by eapply reg_inv_unique. }
  cbn [load_manifests]. rewrite !Forall_cons, !fmap_cons, NoDup_cons, list_elem_of_fmap.
  destruct (ProviderManifest_NormalizeAndValidate d) as [m|e] eqn:Hn; cycle 1.
  { split; [done|]. intros [[Hok _] _]. apply Validate_ok in Hok.
    assert (ProviderManifest_NormalizeAndValidate d = Ok (ProviderManifest_Normalize d))
      by (by apply NormalizeAndValidate_ok). congruence. }
  apply NormalizeAndValidate_ok in Hn as [-> Hok]. apply Validate_ok in Hok.
  assert (manifest_wf (ProviderManifest_Normalize d)) as Hwf.
  { split_and!; [apply Normalize_fixpoint|done|by apply TrimSpace_no_byte]. }
  pose proof (addManifest_wf r _ Hinv Hwf) as Hadd. unfold AddManifest.
  change (providerKey (pm_ProviderID (ProviderManifest_Normalize d))) with (doc_key d) in Hadd.
  destruct (manifests r !! doc_key d) as [m0|] eqn:Hfresh.
  { rewrite Hadd. split; [done|]. by intros (_ & _ & [? _] & _). }
  destruct Hadd as (r1 & -> & Hm1 & Hinv1). rewrite IH by done. rewrite Hm1, list_to_map_cons.
  set (L := list_to_map _). rewrite <- (insert_union_l L).
  assert (Forall (fun d' => <[doc_key d := ProviderManifest_Normalize d]> (manifests r)
                            !! doc_key d' = None) docs
    <-> ~ (exists y, doc_key d = doc_key y /\ y ∈ docs)
        /\ Forall (fun d' => manifests r !! doc_key d' = None) docs) as ->.
  { rewrite !Forall_forall. setoid_rewrite lookup_insert_None. split.
    - intros H. split; [intros (y & E & Hy); by destruct (H y Hy)|intros y Hy; by apply H].
    - intros [Hno H] y Hy. split; [by apply H|]. intros E. apply Hno. by exists y. }
  assert (~ (exists y, doc_key d = doc_key y /\ y ∈ docs) -> L !! doc_key d = None) as HL.
  { intros Hno. apply not_elem_of_list_to_map_1. rewrite <- list_fmap_compose.
    rewrite list_elem_of_fmap. done. }
  split; intros; destruct_and?; split_and!; try done;
    [rewrite insert_union_r|rewrite <- insert_union_r]; auto.
Qed.

(** The registry does not depend on the order in which the manifest files
    are given: every permutation of a list that loads also loads, with the
    same registry. *)
Theorem LoadRegistry_order_independent docs docs' r :
  Forall (fun d => has_byte Ascii.zero (pm_ProviderID d) = false) docs ->
  docs ≡ₚ docs' ->
  load_manifests NewRegistry docs = Ok r -> load_manifests NewRegistry docs' = Ok r.
Proof.
  intros Hnul Hp. pose proof NewRegistry_inv.
  assert (Forall (fun d => has_byte Ascii.zero (pm_ProviderID d) = false) docs')
    by (by rewrite <- Hp).
  rewrite !load_manifests_ok by done.
  intros (? & Hnd & ? & ? & E). split_and!; try done.
  - by rewrite <- Hp.
  - by eapply NoDup_Permutation_proper, Hnd; apply fmap_Permutation.
  - by rewrite <- Hp.
  - rewrite E. f_equal. apply list_to_map_proper; [|by apply fmap_Permutation].
    rewrite <- list_fmap_compose. done.
Qed.

(** ** Load signals *)

Lemma mark_resolved flag m p :
  mark_erroneous (resolved flag m p) = resolved (fun q => suggested_contradicts q || flag q) m p.
Proof. unfold mark_erroneous, resolved; simpl. by destruct (suggested_contradicts p). Qed.

Lemma signals_inv flag r : reg_inv flag r ->
  reg_inv (fun q => suggested_contradicts q || flag q)
    (mkRegistry (mark_erroneous <$> byKey r) (manifests r)).
Proof.
  intros [Hm Hi]. split; simpl; [done|]. intros k rp. rewrite lookup_fmap, fmap_Some. split.
  - intros (x & (m & p & ? & ? & ? & ->)%Hi & ->). exists m, p. by rewrite mark_resolved.
  - intros (m & p & ? & ? & ? & ->). exists (resolved flag m p). split; [|by rewrite mark_resolved].
    apply Hi. by exists m, p.
Qed.

Lemma reg_inv_ext f g r : (forall p, f p = g p) -> reg_inv f r -> reg_inv g r.
Proof.
  intros E [Hm Hi]. split; [done|]. intros k rp. rewrite Hi. unfold resolved.
  by setoid_rewrite E.
Qed.

Lemma mark_idem x : mark_erroneous (mark_erroneous x) = mark_erroneous x.
Proof. destruct x. unfold mark_erroneous; simpl. repeat (case_match; simpl in * ); congruence. Qed.

Lemma mark_profile x : rp_Profile (mark_erroneous x) = rp_Profile x.
Proof. unfold mark_erroneous. by case_match. Qed.

Lemma values_fmap (f : ResolvedProfile -> ResolvedProfile) (m : gmap string ResolvedProfile) :
  snd <$> map_to_list (f <$> m) = f <$> (snd <$> map_to_list m).
Proof.
  rewrite map_to_list_fmap, <- !list_fmap_compose. by apply list_fmap_ext.
Qed.

(** Marking flags as many entries as contradict, and changes no count of them. *)
Lemma count_marked (l : list ResolvedProfile) :
  Forall (fun x => rp_Erroneous x = false) l ->
  length (filter (fun x => suggested_contradicts (rp_Profile x) = true) l)
  = length (filter (fun x => rp_Erroneous x = true) (mark_erroneous <$> l)).
Proof.
  induction 1 as [|x l Hx _ IH]; [done|]. rewrite fmap_cons, !filter_cons.
  repeat case_decide; simpl; try (by rewrite IH); exfalso;
    unfold mark_erroneous in *; repeat case_match; simpl in *; congruence.
Qed.

Lemma count_contradicting (l : list ResolvedProfile) :
  length (filter (fun x => suggested_contradicts (rp_Profile x) = true) (mark_erroneous <$> l))
  = length (filter (fun x => suggested_contradicts (rp_Profile x) = true) l).
Proof.
  induction l as [|x l IH]; [done|]. rewrite fmap_cons, !filter_cons, mark_profile.
  by case_decide; simpl; rewrite IH.
Qed.

Lemma fresh_unflagged r : reg_inv no_flag r ->
  Forall (fun x => rp_Erroneous x = false) (snd <$> map_to_list (byKey r)).
Proof.
  intros [_ Hi]. apply Forall_forall. intros x [[k y] [-> Hin]]%list_elem_of_fmap.
  apply elem_of_map_to_list in Hin. apply Hi in Hin as (m & p & _ & _ & _ & ->). done.
Qed.

(** Applying the load signals to a freshly loaded registry flags exactly
    the profiles whose suggested constraints contradict their declared ones,
    leaves the manifests alone, counts the flagged profiles, and is idempotent. *)
Theorem ApplyManifestLoadSignals_correct r :
  reg_inv no_flag r ->
  exists r' n, ApplyManifestLoadSignals (Some r) = (Some r', n)
    /\ reg_inv suggested_contradicts r' /\ manifests r' = manifests r
    /\ n = length (filter (fun rp => rp_Erroneous rp = true) (snd <$> map_to_list (byKey r')))
    /\ ApplyManifestLoadSignals (Some r') = (Some r', n).
Proof.
  intros Hinv. pose proof (signals_inv _ _ Hinv) as Hinv'.
  apply (reg_inv_ext _ suggested_contradicts) in Hinv'; [|intros; apply orb_false_r].
  unfold ApplyManifestLoadSignals. do 2 eexists. split; [reflexivity|]. cbn [byKey manifests].
  split_and!; [done|done| |].
  - rewrite values_fmap. by apply count_marked, fresh_unflagged.
  - rewrite values_fmap, count_contradicting. do 3 f_equal.
    rewrite <- map_fmap_compose. apply map_fmap_ext. intros k x _. apply mark_idem.
Qed.

End RegistrySpec.

(** ** The registry of the test data *)

Definition loaded (docs : list ProviderManifest) : Registry :=
  match load_manifests NewRegistry docs with Ok r => r | Err _ => NewRegistry end.

Definition nicetry2_manifest : ProviderManifest := manifest_with "nicetry2" [nicetry_profile].
Definition sample_docs : list ProviderManifest := [nicetry_manifest; nicetry2_manifest].

Lemma sample_load : load_manifests NewRegistry sample_docs = Ok (loaded sample_docs).
Proof. vm_compute. reflexivity. Qed.

Lemma sample_no_nul : Forall (fun d => has_byte Ascii.zero (pm_ProviderID d) = false) sample_docs.
Proof. repeat constructor. Qed.

Lemma sample_inv : reg_inv no_flag (loaded sample_docs).
Proof.
  pose proof sample_load as H. apply load_manifests_ok in H; [|apply NewRegistry_inv|apply sample_no_nul].
  by destruct H as (_ & _ & _ & H & _).
Qed.

Lemma nicetry_wf id : TrimSpace id = id -> is_empty id = false -> has_byte Ascii.zero id = false ->
  manifest_wf (manifest_with id [nicetry_profile]).
Proof.
  intros Ht He Hn. split_and!; [|apply Validate_ok; vm_compute; vm_compute in He; by rewrite He|done].
  unfold ProviderManifest_Normalize, manifest_with. cbn [pm_ProviderID]. rewrite Ht. reflexivity.
Qed.

Lemma AddManifest_correct_witness :
  (let '(r', e) := AddManifest (loaded sample_docs) (Some (manifest_with " NiceTry" [])) in is_ok e)
  = false
  /\ let '(r', e) := AddManifest (loaded sample_docs)
                       (Some (manifest_with "acme" [nicetry_profile])) in
     reg_inv no_flag r'.
Proof.
  split; [vm_compute; reflexivity|].
  pose proof (AddManifest_correct (loaded sample_docs) (manifest_with "acme" [nicetry_profile])
    sample_inv (nicetry_wf "acme" eq_refl eq_refl eq_refl)) as H.
  destruct (AddManifest _ _) as [r' e]. apply H.
Defined.

Lemma Lookup_correct_witness : exists rp,
  Lookup (Some (loaded sample_docs))
    (mkProfileRef " NICETRY " "nicetry.fors_c.erc4337.v0_1" "2026-08") = Some rp
  /\ rp_ProviderID rp = "nicetry".
Proof.
  exists (mkResolved "nicetry" "2026-08" nicetry_profile false). split; [|reflexivity].
  refine (proj2 (Lookup_correct no_flag (loaded sample_docs)
    (mkProfileRef " NICETRY " "nicetry.fors_c.erc4337.v0_1" "2026-08") _ sample_inv eq_refl) _).
  exists nicetry_manifest, nicetry_profile. split; [vm_compute; reflexivity|].
  split; [by left|]. split; [vm_compute; reflexivity|]. split; [right; vm_compute; reflexivity|done].
Defined.

Lemma ProfilesForProvider_correct_witness :
  Registry_Get (Some (loaded sample_docs)) "NiceTry2 " = Some nicetry2_manifest
  /\ ProfilesForProvider (Some (loaded sample_docs)) "NiceTry2 "
     ≡ₚ [mkResolved "nicetry2" "2026-08" nicetry_profile false].
Proof.
  split; [vm_compute; reflexivity|].
  exact (proj1 (ProfilesForProvider_correct no_flag (loaded sample_docs) "NiceTry2 "
    nicetry2_manifest sample_inv ltac:(vm_compute; reflexivity))).
Defined.

Lemma LoadRegistry_order_independent_witness :
  load_manifests NewRegistry [nicetry2_manifest; nicetry_manifest] = Ok (loaded sample_docs).
Proof.
  apply (LoadRegistry_order_independent sample_docs);
    [apply sample_no_nul|apply perm_swap|apply sample_load].
Defined.

Lemma ApplyManifestLoadSignals_correct_witness : exists r' n,
  ApplyManifestLoadSignals (Some (loaded sample_docs)) = (Some r', n)
  /\ reg_inv suggested_contradicts r'.
Proof.
  destruct (ApplyManifestLoadSignals_correct (loaded sample_docs) sample_inv)
    as (r' & n & H1 & H2 & _).
  exists r', n. exact (conj H1 H2).
Defined.
