(* ===== verification/Compat.v ===== *)
(** * Provider compatibility

    [internal/domain/provider]: [scan_compat.go] (couche A), [user_compat.go]
    (couche B), [hard_compat.go] (the combined hard gate) and [soft_compat.go]
    (findings that do not block). *)

From stdpp Require Import base gmap sets list strings sorting.
From S2P Require Import Prelude GoStrings GoUnicode Errors Manifest.
Local Open Scope string_scope.
Local Open Scope list_scope.

(** ** Data *)

Definition CapabilityDeploy : string := "deploy".
Definition CapabilitySignUserOp : string := "sign_userop".
Definition CapabilityRotateSigner : string := "rotate_signer".

Definition FindingCodeWalletType : string := "incompatible.provider.wallet_type".
Definition FindingCodeNewWallet : string := "incompatible.provider.new_wallet".
Definition FindingCodeContinuity : string := "incompatible.provider.continuity".
Definition FindingCodeChain : string := "incompatible.provider.chain".
Definition FindingCodeRotation : string := "incompatible.provider.rotation".
Definition FindingCodePosture : string := "incompatible.provider.posture".
Definition FindingCodeUnresolved : string := "incompatible.provider.unresolved".
Definition FindingCodeCapability : string := "incompatible.provider.capability".
Definition FindingCodeErroneousSuggested : string := "erroneous.suggested_user_constraints".
Definition FindingCodeRequiresBundler : string := "requires_bundler".
Definition FindingCodeRequiresLocalSignerState : string := "requires_local_signer_state".

(** [HardFinding] and [SoftFinding] have the same three fields. *)
Record HardFinding := mkFinding {
  hf_Code : string;
  hf_Message : string;
  hf_Field : string
}.

Record HardSelectionRequest := mkSelection {
  rq_RequiredPosture : string;
  rq_TargetChainIDs : list Z;
  rq_AllowNewWallet : bool;
  rq_AddressContinuityRequired : bool;
  rq_KeyRotationModel : string
}.

Record HardObservation := mkObservation {
  ob_AccountKind : string;
  ob_ChainIDs : list Z
}.

Record UserConstraints := mkUserConstraints {
  uc_AllowNewWallet : bool;
  uc_AddressContinuityRequired : bool;
  uc_KeyRotationModel : string
}.

(** ** Shared helpers *)

Fixpoint findChainSupport (l : list ChainSupport) (chainID : Z) : option ChainSupport :=
  match l with
  | [] => None
  | c :: l' => if (cs_ChainID c =? chainID)%Z then Some c else findChainSupport l' chainID
  end.

(** [fmt] of a [[]string] under [%v]. *)
Definition strings_text (l : list string) : string := "[" +:+ Join l " " +:+ "]".

Definition when {A} (b : bool) (x : A) : list A := if b then [x] else [].

Section Compat.
Context `{U : Unicode}.

Definition normalizeWalletTypeToken (raw : string) : string :=
  let s := ToLower (TrimSpace raw) in
  if String.eqb s "eoa" then "eoa" else s.

Definition walletTypeAccepted (accountKind : string) (accepted : list string) : bool :=
  let normalized := normalizeWalletTypeToken accountKind in
  if is_empty normalized then false
  else existsb (fun a => String.eqb (normalizeWalletTypeToken a) normalized) accepted.

Definition unresolved_finding : HardFinding :=
  mkFinding FindingCodeUnresolved "solution profile is nil" EmptyString.

Definition posture_finding (want got : string) : HardFinding :=
  mkFinding FindingCodePosture
    ("required_posture " +:+ Quote want
     +:+ " not satisfied by solution_profile.resulting_posture " +:+ Quote got)
    "required_posture".

Definition wallet_type_finding (kind : string) : HardFinding :=
  mkFinding FindingCodeWalletType
    ("wallet account_kind " +:+ Quote kind +:+ " not accepted by solution profile wallet_types")
    "policy_context.wallet_type".

(** ** Couche A *)

Fixpoint hasPositiveChainID (ids : list Z) : bool :=
  match ids with
  | [] => false
  | id :: ids' => if (0 <? id)%Z then true else hasPositiveChainID ids'
  end.

Definition minimumScanCapabilities (rotation : string) : list string :=
  let caps := [CapabilityDeploy; CapabilitySignUserOp] in
  if String.eqb rotation KeyRotationPerUserOp then caps ++ [CapabilityRotateSigner] else caps.

Definition chainHasCapabilities (have required : list string) : bool :=
  let set : gset string := list_to_set ((fun c => ToLower (TrimSpace c)) <$> have) in
  forallb (fun need => bool_decide (ToLower (TrimSpace need) ∈ set)) required.

(** The loop of [scanChainDeployability]; its accumulator is [anyNonPlanned]. *)
Fixpoint scan_chains_loop (anyNonPlanned : bool) (scanChains : list Z)
    (support : list ChainSupport) (requiredCaps : list string) : bool * bool :=
  match scanChains with
  | [] => (anyNonPlanned, false)
  | chainID :: rest =>
      if (chainID <=? 0)%Z then scan_chains_loop anyNonPlanned rest support requiredCaps
      else match findChainSupport support chainID with
           | None => scan_chains_loop anyNonPlanned rest support requiredCaps
           | Some cs =>
               if String.eqb (cs_Status cs) ChainStatusPlanned
               then scan_chains_loop anyNonPlanned rest support requiredCaps
               else if chainHasCapabilities (cs_Capabilities cs) requiredCaps
                    then (true, true)
                    else scan_chains_loop true rest support requiredCaps
           end
  end.

Definition scanChainDeployability (scanChains : list Z) (support : list ChainSupport)
    (requiredCaps : list string) : bool * bool :=
  scan_chains_loop false scanChains support requiredCaps.

Definition EvaluateScanCompatibility (obs : HardObservation) (requiredPosture : string)
    (profile : option SolutionProfile) : list HardFinding :=
  match profile with
  | None => [unresolved_finding]
  | Some profile =>
      let wantPosture := TrimSpace requiredPosture in
      let gotPosture := TrimSpace (sp_ResultingPosture profile) in
      let findings :=
        when (negb (is_empty wantPosture) && negb (String.eqb gotPosture wantPosture))
             (posture_finding wantPosture gotPosture)
        ++ when (negb (walletTypeAccepted (ob_AccountKind obs)
                         (ir_WalletTypes (sp_InputRequirements profile))))
                (wallet_type_finding (ob_AccountKind obs)) in
      if negb (hasPositiveChainID (ob_ChainIDs obs)) then findings
      else
        let requiredCaps := minimumScanCapabilities (sig_KeyRotationModel (sp_Signature profile)) in
        let '(anyNonPlanned, anyCapable) :=
          scanChainDeployability (ob_ChainIDs obs) (sp_ChainSupport profile) requiredCaps in
        findings ++
        when (negb anyCapable)
          (if anyNonPlanned
           then mkFinding FindingCodeCapability
                  ("no scan chain advertises required capabilities " +:+ strings_text requiredCaps)
                  "chain_support.capabilities"
           else mkFinding FindingCodeChain
                  ("no scan chain is deployable (listed with status != planned) for capabilities "
                   +:+ strings_text requiredCaps)
                  "policy_context.chain_ids")
  end.

(** ** Couche B *)

Definition EvaluateUserConstraints (uc : UserConstraints) (profile : option SolutionProfile)
    : list HardFinding :=
  match profile with
  | None => [unresolved_finding]
  | Some profile =>
      when (pc_RequiresNewAccount (sp_Constraints profile) && negb (uc_AllowNewWallet uc))
        (mkFinding FindingCodeNewWallet
           "solution requires a new account but user_constraints.allow_new_wallet is false"
           "user_constraints.allow_new_wallet")
      ++ when (uc_AddressContinuityRequired uc
               && negb (pc_AddressContinuitySupported (sp_Constraints profile)))
        (mkFinding FindingCodeContinuity
           "user_constraints.address_continuity_required is true but solution does not support EOA address continuity"
           "user_constraints.address_continuity_required")
      ++ (let wantRotation := TrimSpace (uc_KeyRotationModel uc) in
          when (negb (String.eqb wantRotation (sig_KeyRotationModel (sp_Signature profile))))
            (mkFinding FindingCodeRotation
               ("user_constraints.key_rotation_model " +:+ Quote wantRotation
                +:+ " incompatible with solution signature.key_rotation_model "
                +:+ Quote (sig_KeyRotationModel (sp_Signature profile)))
               "user_constraints.key_rotation_model"))
  end.

(** ** The combined hard gate *)

Definition hard_chain_finding (text : string) : HardFinding :=
  mkFinding FindingCodeChain text "selection_request.target_chain_ids".

Fixpoint hard_chain_findings (support : list ChainSupport) (targets : list Z) : list HardFinding :=
  match targets with
  | [] => []
  | chainID :: rest =>
      let id := FormatInt chainID in
      (if (chainID <=? 0)%Z then []
       else match findChainSupport support chainID with
            | None => [hard_chain_finding
                ("target chain_id " +:+ id +:+ " not listed in solution chain_support")]
            | Some cs =>
                if String.eqb (cs_Status cs) ChainStatusPlanned
                then [hard_chain_finding
                  ("target chain_id " +:+ id +:+ " has chain_support status "
                   +:+ Quote (cs_Status cs) +:+ " (not deployable in v0.1)")]
                else when (Nat.eqb (length (cs_Capabilities cs)) 0)
                  (hard_chain_finding
                    ("target chain_id " +:+ id +:+ " has no capabilities in chain_support"))
            end)
      ++ hard_chain_findings support rest
  end.

Definition EvaluateHardCompatibility (obs : HardObservation) (req : HardSelectionRequest)
    (profile : option SolutionProfile) : list HardFinding :=
  match profile with
  | None => [unresolved_finding]
  | Some profile =>
      let wantPosture := TrimSpace (rq_RequiredPosture req) in
      let gotPosture := TrimSpace (sp_ResultingPosture profile) in
      when (negb (is_empty wantPosture) && negb (String.eqb gotPosture wantPosture))
           (posture_finding wantPosture gotPosture)
      ++ when (negb (walletTypeAccepted (ob_AccountKind obs)
                       (ir_WalletTypes (sp_InputRequirements profile))))
              (wallet_type_finding (ob_AccountKind obs))
      ++ when (pc_RequiresNewAccount (sp_Constraints profile) && negb (rq_AllowNewWallet req))
        (mkFinding FindingCodeNewWallet
           "solution requires a new account but selection_request.allow_new_wallet is false"
           "selection_request.allow_new_wallet")
      ++ when (rq_AddressContinuityRequired req
               && negb (pc_AddressContinuitySupported (sp_Constraints profile)))
        (mkFinding FindingCodeContinuity
           "selection_request.address_continuity_required is true but solution does not support EOA address continuity"
           "selection_request.address_continuity_required")
      ++ (let wantRotation := TrimSpace (rq_KeyRotationModel req) in
          when (negb (String.eqb wantRotation (sig_KeyRotationModel (sp_Signature profile))))
            (mkFinding FindingCodeRotation
               ("selection_request.key_rotation_model " +:+ Quote wantRotation
                +:+ " incompatible with solution signature.key_rotation_model "
                +:+ Quote (sig_KeyRotationModel (sp_Signature profile)))
               "selection_request.key_rotation_model"))
      ++ hard_chain_findings (sp_ChainSupport profile)
           (if Nat.eqb (length (rq_TargetChainIDs req)) 0
            then ob_ChainIDs obs else rq_TargetChainIDs req)
  end.

(** ** Soft findings *)

Definition EvaluateSoftFindings (profile : option SolutionProfile) : list HardFinding :=
  match profile with
  | None => []
  | Some profile =>
      when (am_RequiresBundler (sp_AccountModel profile))
        (mkFinding FindingCodeRequiresBundler
           "solution account_model requires an ERC-4337 bundler"
           "account_model.requires_bundler")
      ++ when (pc_RequiresLocalSignerState (sp_Constraints profile))
        (mkFinding FindingCodeRequiresLocalSignerState
           "solution constraints require local signer state to exercise key rotation"
           "constraints.requires_local_signer_state")
  end.

End Compat.

(** ** What the gates accept *)

Lemma when_nil {A} b (x : A) : when b x = [] <-> b = false.
Proof. destruct b; naive_solver. Qed.

Lemma findChainSupport_some l id c :
  findChainSupport l id = Some c -> c ∈ l /\ cs_ChainID c = id.
Proof.
  induction l as [|x l IH]; simpl; [done|]. destruct (Z.eqb_spec (cs_ChainID x) id).
  - intros [= <-]. split; [by left|done].
  - intros [? ?]%IH. split; [by right|done].
Qed.

Lemma findChainSupport_none l id :
  findChainSupport l id = None <-> Forall (fun c => cs_ChainID c <> id) l.
Proof.
  induction l as [|x l IH]; simpl; [naive_solver|]. rewrite Forall_cons, <- IH.
  destruct (Z.eqb_spec (cs_ChainID x) id); naive_solver.
Qed.

Lemma hasPositiveChainID_spec ids :
  hasPositiveChainID ids = true <-> exists id, id ∈ ids /\ (0 < id)%Z.
Proof.
  induction ids as [|id ids IH]; simpl; [set_solver|].
  destruct (Z.ltb_spec 0 id); [|rewrite IH].
  - split; [|done]. intros _. exists id. split; [by left|done].
  - setoid_rewrite elem_of_cons. split; [naive_solver|].
    intros (x & [->|Hx] & ?); [lia|by exists x].
Qed.

Section CompatSpec.
Context `{U : Unicode}.

Definition norm_token (s : string) : string := ToLower (TrimSpace s).

Lemma normalizeWalletTypeToken_eq s : normalizeWalletTypeToken s = norm_token s.
Proof. unfold normalizeWalletTypeToken, norm_token. case_match; bool_to_prop; done. Qed.

(** The account kind is accepted when it is not blank and one of the accepted
    types differs from it at most in case and surrounding space. *)
Definition wallet_ok (kind : string) (accepted : list string) : Prop :=
  norm_token kind <> EmptyString /\ exists a, a ∈ accepted /\ norm_token a = norm_token kind.

Lemma walletTypeAccepted_spec kind accepted :
  walletTypeAccepted kind accepted = true <-> wallet_ok kind accepted.
Proof.
  unfold walletTypeAccepted, wallet_ok. rewrite normalizeWalletTypeToken_eq.
  destruct (is_empty (norm_token kind)) eqn:E.
  { apply is_empty_spec in E. naive_solver. }
  apply is_empty_false in E. rewrite existsb_exists. setoid_rewrite String.eqb_eq.
  setoid_rewrite <- list_elem_of_In. setoid_rewrite normalizeWalletTypeToken_eq. naive_solver.
Qed.

Definition posture_ok (required : string) (p : SolutionProfile) : Prop :=
  TrimSpace required = EmptyString \/ TrimSpace (sp_ResultingPosture p) = TrimSpace required.

Lemma posture_guard required p :
  negb (is_empty (TrimSpace required))
    && negb (String.eqb (TrimSpace (sp_ResultingPosture p)) (TrimSpace required)) = false
  <-> posture_ok required p.
Proof.
  unfold posture_ok. rewrite andb_false_iff, !negb_false_iff, is_empty_spec, String.eqb_eq. done.
Qed.

(** The chain is listed, not merely planned, and advertises the capabilities
    (compared without case or surrounding space). *)
Definition chain_capable (support : list ChainSupport) (caps : list string) (id : Z) : Prop :=
  exists cs, findChainSupport support id = Some cs /\ cs_Status cs <> ChainStatusPlanned
    /\ forall c, c ∈ caps -> exists h, h ∈ cs_Capabilities cs /\ norm_token h = norm_token c.

Lemma chainHasCapabilities_spec have caps :
  chainHasCapabilities have caps = true <->
  forall c, c ∈ caps -> exists h, h ∈ have /\ norm_token h = norm_token c.
Proof.
  unfold chainHasCapabilities. rewrite forallb_forall. setoid_rewrite <- list_elem_of_In.
  setoid_rewrite bool_decide_eq_true. setoid_rewrite elem_of_list_to_set.
  setoid_rewrite list_elem_of_fmap. unfold norm_token. naive_solver.
Qed.

Lemma scan_chains_loop_capable any ids support caps :
  snd (scan_chains_loop any ids support caps) = true <->
  exists id, id ∈ ids /\ (0 < id)%Z /\ chain_capable support caps id.
Proof.
  revert any. induction ids as [|id ids IH]; intros any; cbn [scan_chains_loop]; [set_solver|].
  setoid_rewrite elem_of_cons.
  assert (Hskip : forall b, ~ ((0 < id)%Z /\ chain_capable support caps id) ->
    snd (scan_chains_loop b ids support caps) = true <->
    exists x, (x = id \/ x ∈ ids) /\ (0 < x)%Z /\ chain_capable support caps x).
  { intros b Hno. rewrite IH. naive_solver. }
  destruct (Z.leb_spec id 0); [apply Hskip; lia|]. unfold chain_capable in Hskip.
  destruct (findChainSupport support id) as [cs|] eqn:Ef; [|apply Hskip; naive_solver].
  destruct (String.eqb_spec (cs_Status cs) ChainStatusPlanned); [apply Hskip; naive_solver|].
  destruct (chainHasCapabilities _ _) eqn:Ec; cycle 1.
  { apply Hskip. intros (_ & cs' & [= <-] & _ & Hc).
    apply chainHasCapabilities_spec in Hc. congruence. }
  split; [|done]. intros _. exists id. split; [by left|]. split; [done|].
  exists cs. split_and!; try done. by apply chainHasCapabilities_spec.
Qed.

Definition scan_caps (p : SolutionProfile) : list string :=
  minimumScanCapabilities (sig_KeyRotationModel (sp_Signature p)).

(** Couche A: posture, wallet type, and, when the scan saw a chain at all, one
    scanned chain on which the profile can be deployed. *)
Definition scan_accepts (obs : HardObservation) (posture : string) (p : SolutionProfile) : Prop :=
  posture_ok posture p
  /\ wallet_ok (ob_AccountKind obs) (ir_WalletTypes (sp_InputRequirements p))
  /\ ((exists id, id ∈ ob_ChainIDs obs /\ (0 < id)%Z) ->
      exists id, id ∈ ob_ChainIDs obs /\ (0 < id)%Z
        /\ chain_capable (sp_ChainSupport p) (scan_caps p) id).

Lemma scan_pass obs posture p :
  EvaluateScanCompatibility obs posture (Some p) = [] <-> scan_accepts obs posture p.
Proof.
  unfold EvaluateScanCompatibility, scan_accepts.
  rewrite <- hasPositiveChainID_spec, <- (scan_chains_loop_capable false).
  fold (scan_caps p). unfold scanChainDeployability.
  destruct (scan_chains_loop _ _ _ _) as [any cap]. cbn [snd].
  destruct (hasPositiveChainID (ob_ChainIDs obs)); simpl;
    rewrite !app_nil, !when_nil, ?negb_false_iff, posture_guard, walletTypeAccepted_spec; naive_solver.
Qed.

(** Couche A accepts a profile exactly when its posture and wallet types
    fit and, unless no chain was scanned, at least one scanned chain is listed,
    not planned, and advertises the minimum capabilities. *)
Theorem EvaluateScanCompatibility_correct obs posture p :
  EvaluateScanCompatibility obs posture (Some p) = [] <->
  (TrimSpace posture = EmptyString \/ TrimSpace (sp_ResultingPosture p) = TrimSpace posture)
  /\ wallet_ok (ob_AccountKind obs) (ir_WalletTypes (sp_InputRequirements p))
  /\ ((exists id, id ∈ ob_ChainIDs obs /\ (0 < id)%Z) ->
      exists id, id ∈ ob_ChainIDs obs /\ (0 < id)%Z
        /\ chain_capable (sp_ChainSupport p)
             (minimumScanCapabilities (sig_KeyRotationModel (sp_Signature p))) id).
Proof. apply scan_pass. Qed.

(** ** Couche B and the combined gate *)

Definition user_accepts (uc : UserConstraints) (p : SolutionProfile) : Prop :=
  (pc_RequiresNewAccount (sp_Constraints p) = true -> uc_AllowNewWallet uc = true)
  /\ (uc_AddressContinuityRequired uc = true -> pc_AddressContinuitySupported (sp_Constraints p) = true)
  /\ TrimSpace (uc_KeyRotationModel uc) = sig_KeyRotationModel (sp_Signature p).

Lemma user_pass uc p : EvaluateUserConstraints uc (Some p) = [] <-> user_accepts uc p.
Proof.
  unfold EvaluateUserConstraints, user_accepts.
  rewrite !app_nil, !when_nil, negb_false_iff, String.eqb_eq.
  destruct (pc_RequiresNewAccount _), (uc_AllowNewWallet uc), (uc_AddressContinuityRequired uc),
    (pc_AddressContinuitySupported _); naive_solver.
Qed.

(** The suggested constraints as a user would submit them. *)
Definition suggested_as_user (s : SuggestedUserConstraints) : UserConstraints :=
  mkUserConstraints (su_AllowNewWallet s) (su_AddressContinuityRequired s) (su_KeyRotationModel s).

(** On a normalised, valid profile the load-time contradiction check is
    couche B run on the suggested constraints: a profile is flagged exactly
    when a user who submits its suggestion verbatim would be refused. *)
Theorem ValidateSuggested_is_coucheB p s :
  normalizeSolutionProfile p = p -> profile_ok p ->
  sp_SuggestedUserConstraints p = Some s ->
  ValidateSuggestedUserConstraints (Some p) = Ok tt <->
  EvaluateUserConstraints (suggested_as_user s) (Some p) = [].
Proof.
  intros Hn [] Hs. rewrite user_pass. unfold ValidateSuggestedUserConstraints, user_accepts.
  specialize (ok_suggested s Hs). rewrite Hs, !fail_if_ok, !andb_false_iff, !negb_false_iff.
  assert (TrimSpace (su_KeyRotationModel s) = su_KeyRotationModel s) as Ht.
  { rewrite <- Hn in Hs. simpl in Hs. destruct (sp_SuggestedUserConstraints p); simplify_eq/=.
    apply TrimSpace_idem. }
  assert (is_empty (su_KeyRotationModel s) = false) as ->.
  { apply is_empty_false. intros E. rewrite E in ok_suggested. unfold rotation_models in *. set_solver. }
  simpl. rewrite Ht, String.eqb_eq.
  destruct (su_AllowNewWallet s), (pc_RequiresNewAccount _), (su_AddressContinuityRequired s),
    (pc_AddressContinuitySupported _); naive_solver.
Qed.

(** Each positive target must be listed, not planned, and have a capability. *)
Definition targets_ok (support : list ChainSupport) (ids : list Z) : Prop :=
  forall id, id ∈ ids -> (0 < id)%Z ->
    exists cs, findChainSupport support id = Some cs /\ cs_Status cs <> ChainStatusPlanned
      /\ cs_Capabilities cs <> [].

Lemma hard_chain_findings_nil support ids :
  hard_chain_findings support ids = [] <-> targets_ok support ids.
Proof.
  unfold targets_ok. induction ids as [|id ids IH]; cbn [hard_chain_findings]; [set_solver|].
  rewrite app_nil, IH. setoid_rewrite elem_of_cons.
  assert ((if (id <=? 0)%Z then []
           else match findChainSupport support id with
            | None => [hard_chain_finding
                ("target chain_id " +:+ FormatInt id +:+ " not listed in solution chain_support")]
            | Some cs =>
                if String.eqb (cs_Status cs) ChainStatusPlanned
                then [hard_chain_finding
                  ("target chain_id " +:+ FormatInt id +:+ " has chain_support status "
                   +:+ Quote (cs_Status cs) +:+ " (not deployable in v0.1)")]
                else when (Nat.eqb (length (cs_Capabilities cs)) 0)
                  (hard_chain_finding
                    ("target chain_id " +:+ FormatInt id +:+ " has no capabilities in chain_support"))
            end) = []
    <-> ((0 < id)%Z -> exists cs, findChainSupport support id = Some cs
          /\ cs_Status cs <> ChainStatusPlanned /\ cs_Capabilities cs <> [])) as ->.
  { destruct (Z.leb_spec id 0); [split; [lia|done]|].
    destruct (findChainSupport support id) as [cs|]; [|naive_solver].
    destruct (String.eqb_spec (cs_Status cs) ChainStatusPlanned); [naive_solver|].
    rewrite when_nil, length_zero_false. naive_solver. }
  naive_solver.
Qed.

Definition request_user (req : HardSelectionRequest) : UserConstraints :=
  mkUserConstraints (rq_AllowNewWallet req) (rq_AddressContinuityRequired req)
    (rq_KeyRotationModel req).

Definition request_targets (obs : HardObservation) (req : HardSelectionRequest) : list Z :=
  match rq_TargetChainIDs req with [] => ob_ChainIDs obs | l => l end.

Lemma hard_pass obs req p :
  EvaluateHardCompatibility obs req (Some p) = [] <->
  posture_ok (rq_RequiredPosture req) p
  /\ wallet_ok (ob_AccountKind obs) (ir_WalletTypes (sp_InputRequirements p))
  /\ user_accepts (request_user req) p
  /\ targets_ok (sp_ChainSupport p) (request_targets obs req).
Proof.
  unfold EvaluateHardCompatibility, request_targets. rewrite <- user_pass.
  unfold EvaluateUserConstraints. rewrite !app_nil, !when_nil, negb_false_iff, posture_guard,
    walletTypeAccepted_spec, hard_chain_findings_nil.
  destruct (rq_TargetChainIDs req); simpl; tauto.
Qed.

(** The combined hard gate accepts exactly when the posture and wallet
    type fit, couche B accepts the request's constraints, and EVERY positive
    target chain (the scanned chains when the request names none) is listed,
    not planned and has some capability. *)
Theorem EvaluateHardCompatibility_correct obs req p :
  EvaluateHardCompatibility obs req (Some p) = [] <->
  posture_ok (rq_RequiredPosture req) p
  /\ wallet_ok (ob_AccountKind obs) (ir_WalletTypes (sp_InputRequirements p))
  /\ EvaluateUserConstraints (request_user req) (Some p) = []
  /\ forall id, id ∈ request_targets obs req -> (0 < id)%Z ->
       exists cs, findChainSupport (sp_ChainSupport p) id = Some cs
         /\ cs_Status cs <> ChainStatusPlanned /\ cs_Capabilities cs <> [].
Proof. rewrite hard_pass, user_pass. done. Qed.

(** Where no chain is observed or targeted the combined gate is couche A
    followed by couche B. *)
Theorem Hard_greenfield obs req p :
  hasPositiveChainID (ob_ChainIDs obs) = false -> rq_TargetChainIDs req = [] ->
  EvaluateHardCompatibility obs req (Some p) = [] <->
  EvaluateScanCompatibility obs (rq_RequiredPosture req) (Some p) = []
  /\ EvaluateUserConstraints (request_user req) (Some p) = [].
Proof.
  intros Hpos Ht. rewrite hard_pass, scan_pass, user_pass.
  assert (Hno : ~ exists id, id ∈ ob_ChainIDs obs /\ (0 < id)%Z)
    by (rewrite <- hasPositiveChainID_spec; congruence).
  unfold scan_accepts, targets_ok, request_targets. rewrite Ht. naive_solver.
Qed.

End CompatSpec.

Lemma ValidateSuggested_is_coucheB_witness :
  EvaluateUserConstraints (mkUserConstraints true false "per_userop") (Some nicetry_profile) = [].
Proof.
  apply (ValidateSuggested_is_coucheB nicetry_profile (mkSuggested true false "per_userop"));
    [vm_compute; reflexivity|apply validateSolutionProfile_ok; vm_compute; reflexivity|done|].
  vm_compute. reflexivity.
Defined.

Lemma Hard_greenfield_witness :
  EvaluateHardCompatibility (mkObservation "eoa" []) (mkSelection "hybrid" [] true false "per_userop")
    (Some nicetry_profile) = [].
Proof.
  apply (Hard_greenfield (mkObservation "eoa" []) (mkSelection "hybrid" [] true false "per_userop")
    nicetry_profile); [reflexivity|reflexivity|].
  split; vm_compute; reflexivity.
Defined.
