(* ===== verification/CryptoPolicy.v ===== *)
(** * Crypto policies and catalogue facts

    [internal/domain/policy]: [crypto_policy.go], [chains.go],
    [solution_profile_ref.go], [catalogue_signals.go], [compatible_networks.go],
    [allowed_provider_summaries.go], [composition_view.go] and
    [internal/domain/vocabulary/pq_posture.go]: the catalogued intention
    (required posture, allowed providers) and what is derived from it and the
    provider registry. *)

From stdpp Require Import base gmap sets list strings sorting.
From S2P Require Import Prelude GoStrings GoUnicode Errors Manifest Registry Compat.
Local Open Scope string_scope.
Local Open Scope list_scope.

(** ** Vocabulary *)

Definition PQPostureClassicalOnly : string := "classical_only".
Definition PQPostureHybrid : string := "hybrid".
Definition PQPostureFullPQ : string := "full_pq".
Definition PQPostureUnknown : string := "unknown".

Definition CurrentPQPosture_IsValid (p : string) : bool :=
  String.eqb p PQPostureClassicalOnly || String.eqb p PQPostureHybrid
  || String.eqb p PQPostureFullPQ || String.eqb p PQPostureUnknown.

(** ** Data *)

Record CryptoPolicy := mkCryptoPolicy {
  cp_ID : string;
  cp_Name : string;
  cp_Version : string;
  cp_Description : string;
  cp_RequiredPosture : string;
  cp_AllowedProviders : list string
}.

Record SolutionProfileRef := mkSolutionRef {
  spr_ProviderID : string;
  spr_SolutionProfileID : string;
  spr_ManifestVersion : string;
  spr_VerificationDate : string
}.

Record CompatibleNetwork := mkNetwork {
  cn_ChainID : Z;
  cn_Network : string;
  cn_Status : string;
  cn_Capabilities : list string
}.

Record ProviderSignatureSummary := mkSignatureSummary {
  pss_Scheme : string;
  pss_Family : string
}.

Record AllowedProviderSummary := mkProviderSummary {
  aps_ProviderID : string;
  aps_Signature : ProviderSignatureSummary;
  aps_Networks : list CompatibleNetwork
}.

Record CryptoPolicyCatalogItem := mkCatalogItem {
  ci_ID : string;
  ci_Name : string;
  ci_Version : string;
  ci_Description : string;
  ci_RequiredPosture : string;
  ci_AllowedProviders : list string;
  ci_CompatibleNetworks : list CompatibleNetwork;
  ci_AllowedProviderSummaries : list AllowedProviderSummary
}.

Record CompositionAccountModel := mkCompositionAccount {
  cam_Standard : string;
  cam_ExecutionModel : string;
  cam_RequiresBundler : bool;
  cam_RequiresEntrypoint : bool;
  cam_EntrypointVersions : list string
}.

Record CompositionSignature := mkCompositionSignature {
  csg_Scheme : string;
  csg_Family : string;
  csg_KeyRotationModel : string
}.

Record CompositionConstraints := mkCompositionConstraints {
  ccn_RequiresNewAccount : bool;
  ccn_AddressContinuitySupported : bool;
  ccn_RequiresLocalSignerState : bool
}.

Record CompositionView := mkComposition {
  cv_AccountModel : CompositionAccountModel;
  cv_Signature : CompositionSignature;
  cv_Constraints : CompositionConstraints
}.

(** ** Lists *)

(** First occurrences, in order: the [seen] loop of [chains.go]. *)
Fixpoint firsts `{Countable A} (seen : gset A) (l : list A) : list A :=
  match l with
  | [] => []
  | x :: l' =>
      if bool_decide (x ∈ seen) then firsts seen l' else x :: firsts ({[x]} ∪ seen) l'
  end.

(** [slices.Sort] on an ordered type has one result, which insertion computes. *)
Definition normalizeChainIDs (l : list Z) : list Z := sort_stable Z.ltb (firsts ∅ l).

Fixpoint preserve_loop (seen : gset string) (l : list string) : list string :=
  match l with
  | [] => []
  | s :: l' =>
      if is_empty s then preserve_loop seen l'
      else if bool_decide (s ∈ seen) then preserve_loop seen l'
      else s :: preserve_loop ({[s]} ∪ seen) l'
  end.

Definition normalizeStringsPreserveOrder (l : list string) : list string := preserve_loop ∅ l.

(** ** Crypto policies *)

Definition CryptoPolicy_Normalize (c : CryptoPolicy) : CryptoPolicy := {|
  cp_ID := TrimSpace (cp_ID c);
  cp_Name := TrimSpace (cp_Name c);
  cp_Version := TrimSpace (cp_Version c);
  cp_Description := TrimSpace (cp_Description c);
  cp_RequiredPosture := cp_RequiredPosture c;
  cp_AllowedProviders := normalizeStringsPreserveOrder (cp_AllowedProviders c)
|}.

Section CryptoPolicy.
Context `{U : Unicode, S : GoSort}.

Definition CryptoPolicy_Validate (c : option CryptoPolicy) : gores unit :=
  match c with
  | None => Err (errors_New "crypto policy is nil")
  | Some c =>
      fail_if is_empty (cp_ID c) with err_of ErrCryptoPolicyIDRequired ;;
      fail_if is_empty (cp_Name c) with err_of ErrCryptoPolicyNameRequired ;;
      fail_if is_empty (cp_Version c) with err_of ErrCryptoPolicyVersionRequired ;;
      fail_if is_empty (cp_RequiredPosture c) with err_of ErrCryptoPolicyRequiredPostureRequired ;;
      fail_if negb (CurrentPQPosture_IsValid (cp_RequiredPosture c))
              || String.eqb (cp_RequiredPosture c) PQPostureUnknown
        with errorf ErrCryptoPolicyRequiredPostureInvalid (Quote (cp_RequiredPosture c)) ;;
      fail_if Nat.eqb (length (cp_AllowedProviders c)) 0
        with err_of ErrCryptoPolicyAllowedProvidersRequired ;;
      fail_if existsb (fun id => is_empty (TrimSpace id)) (cp_AllowedProviders c)
        with err_of ErrCryptoPolicyAllowedProviderEmpty ;;
      Ok tt
  end.

Definition CryptoPolicy_NormalizeAndValidate (c : CryptoPolicy) : gores CryptoPolicy :=
  let c' := CryptoPolicy_Normalize c in
  _ ← CryptoPolicy_Validate (Some c');
  Ok c'.

Definition SolutionProfileRef_Validate (r : SolutionProfileRef) : gores unit :=
  fail_if is_empty (spr_ProviderID r) && is_empty (spr_SolutionProfileID r)
          && is_empty (spr_ManifestVersion r) && is_empty (spr_VerificationDate r)
    with err_of ErrSolutionProfileRefRequired ;;
  fail_if is_empty (spr_ProviderID r) with err_of ErrSolutionProfileRefProviderIDRequired ;;
  fail_if is_empty (spr_SolutionProfileID r) with err_of ErrSolutionProfileRefSolutionIDRequired ;;
  fail_if is_empty (spr_ManifestVersion r) with err_of ErrSolutionProfileRefManifestVersionRequired ;;
  Ok tt.

(** ** Catalogue signals *)

Definition HasPostureCompatibleProvider (cp : option CryptoPolicy) (reg : option Registry) : bool :=
  match cp with
  | None => false
  | Some cp =>
      if Nat.eqb (length (cp_AllowedProviders cp)) 0 then false
      else
        let required := TrimSpace (cp_RequiredPosture cp) in
        match reg with
        | None => false
        | Some _ =>
            if is_empty required then false
            else existsb
              (fun id0 =>
                 let id := TrimSpace id0 in
                 if is_empty id then false
                 else existsb
                   (fun resolved => String.eqb (TrimSpace (sp_ResultingPosture (rp_Profile resolved)))
                                               required)
                   (ProfilesForProvider reg id))
              (cp_AllowedProviders cp)
        end
  end.

(** The number of orphan policies. *)
Fixpoint CheckPostureOrphanage (cps : list (option CryptoPolicy)) (reg : option Registry) : nat :=
  match cps with
  | [] => 0
  | None :: cps' => CheckPostureOrphanage cps' reg
  | Some cp :: cps' =>
      if HasPostureCompatibleProvider (Some cp) reg then CheckPostureOrphanage cps' reg
      else Datatypes.S (CheckPostureOrphanage cps' reg)
  end.

(** ** Compatible networks *)

Definition network_of (cs : ChainSupport) : CompatibleNetwork :=
  mkNetwork (cs_ChainID cs) (cs_Network cs) (cs_Status cs) (cs_Capabilities cs).

(** The innermost loop, with the [seen] set it shares with the outer ones. *)
Fixpoint network_loop (seen : gset Z) (l : list ChainSupport) : list CompatibleNetwork :=
  match l with
  | [] => []
  | cs :: l' =>
      if String.eqb (cs_Status cs) ChainStatusPlanned || (cs_ChainID cs <=? 0)%Z
      then network_loop seen l'
      else if bool_decide (cs_ChainID cs ∈ seen) then network_loop seen l'
      else network_of cs :: network_loop ({[cs_ChainID cs]} ∪ seen) l'
  end.

Definition sort_networks (l : list CompatibleNetwork) : list CompatibleNetwork :=
  sort_slice (fun a b => (cn_ChainID a <? cn_ChainID b)%Z) l.

(** The chain entries in the order the loops visit them. *)
Definition provider_chains (reg : option Registry) (providers : list string) : list ChainSupport :=
  providers ≫= fun id =>
    ProfilesForProvider reg id ≫= fun resolved => sp_ChainSupport (rp_Profile resolved).

Definition DeriveCompatibleNetworks (cp : option CryptoPolicy) (reg : option Registry)
    : list CompatibleNetwork :=
  match cp, reg with
  | Some cp, Some _ => sort_networks (network_loop ∅ (provider_chains reg (cp_AllowedProviders cp)))
  | _, _ => []
  end.

(** ** Provider summaries *)

Fixpoint pick_loop (first : option ResolvedProfile) (l : list ResolvedProfile) (required : string)
    : option ResolvedProfile :=
  match l with
  | [] => first
  | resolved :: l' =>
      let first' := match first with None => Some resolved | Some _ => first end in
      if negb (is_empty required)
         && String.eqb (TrimSpace (sp_ResultingPosture (rp_Profile resolved))) required
      then Some resolved
      else pick_loop first' l' required
  end.

Definition pickCatalogProfile (profiles : list ResolvedProfile) (required : string)
    : option ResolvedProfile := pick_loop None profiles required.

Definition deployableNetworksFromProfile (p : option SolutionProfile) : list CompatibleNetwork :=
  match p with
  | None => []
  | Some p => sort_networks (network_loop ∅ (sp_ChainSupport p))
  end.

Definition DeriveAllowedProviderSummaries (cp : option CryptoPolicy) (reg : option Registry)
    : list AllowedProviderSummary :=
  match cp, reg with
  | Some cp, Some _ =>
      let required := TrimSpace (cp_RequiredPosture cp) in
      omap (fun id0 =>
        let id := TrimSpace id0 in
        if is_empty id then None
        else
          match pickCatalogProfile (ProfilesForProvider reg id) required with
          | None => None
          | Some chosen =>
              Some (mkProviderSummary id
                (mkSignatureSummary (sig_Scheme (sp_Signature (rp_Profile chosen)))
                                    (sig_Family (sp_Signature (rp_Profile chosen))))
                (deployableNetworksFromProfile (Some (rp_Profile chosen))))
          end)
        (cp_AllowedProviders cp)
  | _, _ => []
  end.

Definition CatalogItemFromCryptoPolicy (cp : option CryptoPolicy) (reg : option Registry)
    : CryptoPolicyCatalogItem :=
  match cp with
  | None => mkCatalogItem EmptyString EmptyString EmptyString EmptyString EmptyString [] [] []
  | Some c =>
      mkCatalogItem (cp_ID c) (cp_Name c) (cp_Version c) (cp_Description c) (cp_RequiredPosture c)
        (cp_AllowedProviders c) (DeriveCompatibleNetworks cp reg)
        (DeriveAllowedProviderSummaries cp reg)
  end.

End CryptoPolicy.

(** ** Composition view *)

Definition DeriveCompositionView (p : option SolutionProfile) : CompositionView :=
  match p with
  | None => mkComposition (mkCompositionAccount EmptyString EmptyString false false [])
              (mkCompositionSignature EmptyString EmptyString EmptyString)
              (mkCompositionConstraints false false false)
  | Some p => mkComposition
      (mkCompositionAccount (am_Standard (sp_AccountModel p)) (am_ExecutionModel (sp_AccountModel p))
         (am_RequiresBundler (sp_AccountModel p)) (am_RequiresEntrypoint (sp_AccountModel p))
         (am_EntrypointVersions (sp_AccountModel p)))
      (mkCompositionSignature (sig_Scheme (sp_Signature p)) (sig_Family (sp_Signature p))
         (sig_KeyRotationModel (sp_Signature p)))
      (mkCompositionConstraints (pc_RequiresNewAccount (sp_Constraints p))
         (pc_AddressContinuitySupported (sp_Constraints p))
         (pc_RequiresLocalSignerState (sp_Constraints p)))
  end.

(** ** Lists: what the loops compute *)

Lemma firsts_elem `{Countable A} (seen : gset A) l x :
  x ∈ firsts seen l <-> x ∉ seen /\ x ∈ l.
Proof.
  revert seen. induction l as [|y l IH]; intros seen; cbn [firsts]; [set_solver|].
  case_bool_decide; rewrite ?elem_of_cons, IH; [set_solver|].
  destruct (decide (x = y)); set_solver.
Qed.

Lemma firsts_nodup `{Countable A} (seen : gset A) l : NoDup (firsts seen l).
Proof.
  revert seen. induction l as [|y l IH]; intros seen; cbn [firsts]; [constructor|].
  case_bool_decide; [done|]. constructor; [|done]. rewrite firsts_elem. set_solver.
Qed.

(** Sorting by an injective integer key gives a strictly increasing list. *)
Lemma sorted_strict_Z {A} (key : A -> Z) (l : list A) :
  NoDup (key <$> l) -> Sorted (ge_of (fun a b => (key a <? key b)%Z)) l ->
  StronglySorted (fun a b => (key a < key b)%Z) l.
Proof.
  intros Hnd Hs. apply Sorted_StronglySorted in Hs; [|apply weak_trans].
  induction Hs as [|x l Hs IH Hall]; [constructor|].
  rewrite fmap_cons, NoDup_cons, list_elem_of_fmap in Hnd. destruct Hnd as [Hx Hnd].
  constructor; [by apply IH|]. rewrite Forall_forall in Hall |- *. intros y Hy.
  specialize (Hall y Hy). unfold ge_of in Hall. apply Z.ltb_ge in Hall.
  assert (key x <> key y); [|lia]. intros E. apply Hx. by exists y.
Qed.

Lemma normalizeChainIDs_elem l id : id ∈ normalizeChainIDs l <-> id ∈ l.
Proof. unfold normalizeChainIDs. rewrite sort_stable_elem, firsts_elem. set_solver. Qed.

Lemma normalizeChainIDs_sorted l : StronglySorted Z.lt (normalizeChainIDs l).
Proof.
  apply (sorted_strict_Z (fun x => x)).
  - rewrite list_fmap_id. unfold normalizeChainIDs. rewrite sort_stable_perm. apply firsts_nodup.
  - apply (sort_stable_sorted (fun a b => Z.ltb a b)).
Qed.

Lemma preserve_loop_spec seen l s :
  s ∈ preserve_loop seen l <-> s <> EmptyString /\ s ∉ seen /\ s ∈ l.
Proof.
  revert seen. induction l as [|x l IH]; intros seen; cbn [preserve_loop]; [set_solver|].
  destruct (is_empty x) eqn:E; unfold is_empty in E; bool_to_prop; [rewrite IH; set_solver|].
  case_bool_decide; rewrite ?elem_of_cons, IH; [set_solver|].
  destruct (decide (s = x)); set_solver.
Qed.

Lemma preserve_loop_nodup seen l : NoDup (preserve_loop seen l).
Proof.
  revert seen. induction l as [|x l IH]; intros seen; cbn [preserve_loop]; [constructor|].
  repeat case_match; auto. constructor; [|done]. rewrite preserve_loop_spec. set_solver.
Qed.

(** ** Networks *)

Definition deployable (cs : ChainSupport) : Prop :=
  cs_Status cs <> ChainStatusPlanned /\ (0 < cs_ChainID cs)%Z.

Lemma network_loop_in seen l n : n ∈ network_loop seen l ->
  exists cs, cs ∈ l /\ deployable cs /\ cs_ChainID cs ∉ seen /\ n = network_of cs.
Proof.
  revert seen. induction l as [|cs l IH]; intros seen; cbn [network_loop]; [set_solver|].
  destruct (_ || _) eqn:Hd.
  { intros (x & ? & ? & ? & ?)%IH. exists x. split_and!; try done. by right. }
  bool_to_prop. case_bool_decide.
  { intros (x & ? & ? & ? & ?)%IH. exists x. split_and!; try done. by right. }
  rewrite elem_of_cons. intros [->|(x & ? & ? & ? & ?)%IH].
  - exists cs. split_and!; [by left|split; [done|lia]|done|done].
  - exists x. split_and!; try done; [by right|set_solver].
Qed.

Lemma network_loop_covers seen l cs :
  cs ∈ l -> deployable cs -> cs_ChainID cs ∉ seen ->
  cs_ChainID cs ∈ (cn_ChainID <$> network_loop seen l).
Proof.
  revert seen. induction l as [|c l IH]; intros seen; cbn [network_loop]; [set_solver|].
  rewrite elem_of_cons. intros Hin [Hs Hp] Hn. destruct (_ || _) eqn:Hd.
  { destruct Hin as [->|Hin]; [|by apply IH].
    apply orb_true_iff in Hd as [Hd|Hd]; bool_to_prop; [done|lia]. }
  case_bool_decide as Hc; [destruct Hin as [->|Hin]; [done|by apply IH]|].
  rewrite fmap_cons, elem_of_cons.
  destruct (decide (cs_ChainID cs = cs_ChainID c)) as [|Hne]; [by left|right].
  destruct Hin as [->|Hin]; [done|].
  apply IH; [done|done|]. rewrite not_elem_of_union, not_elem_of_singleton. done.
Qed.

Lemma network_loop_nodup seen l : NoDup (cn_ChainID <$> network_loop seen l).
Proof.
  revert seen. induction l as [|c l IH]; intros seen; cbn [network_loop]; [constructor|].
  repeat case_match; auto. rewrite fmap_cons. constructor; [|auto].
  rewrite list_elem_of_fmap. intros (n & E & (cs & _ & _ & Hns & ->)%network_loop_in).
  simpl in E. set_solver.
Qed.

Section CatalogueSpec.
Context `{U : Unicode, S : GoSort}.

Lemma sort_networks_strict l : NoDup (cn_ChainID <$> l) ->
  StronglySorted (fun a b => (cn_ChainID a < cn_ChainID b)%Z) (sort_networks l).
Proof.
  intros Hnd. unfold sort_networks. apply sorted_strict_Z; [by rewrite sort_slice_perm|].
  apply sort_slice_sorted, _.
Qed.

(** The compatible networks of a crypto policy are in strictly increasing
    order of chain id; each one is a chain entry, positive and not planned, of
    a profile of an allowed provider; and every such chain appears. *)
Theorem DeriveCompatibleNetworks_correct cp reg :
  let l := DeriveCompatibleNetworks (Some cp) (Some reg) in
  let listed cs := exists id rp, id ∈ cp_AllowedProviders cp
    /\ rp ∈ ProfilesForProvider (Some reg) id /\ cs ∈ sp_ChainSupport (rp_Profile rp)
    /\ cs_Status cs <> ChainStatusPlanned /\ (0 < cs_ChainID cs)%Z in
  StronglySorted (fun a b => (cn_ChainID a < cn_ChainID b)%Z) l
  /\ (forall n, n ∈ l -> exists cs, listed cs
        /\ n = mkNetwork (cs_ChainID cs) (cs_Network cs) (cs_Status cs) (cs_Capabilities cs))
  /\ (forall cs, listed cs -> exists n, n ∈ l /\ cn_ChainID n = cs_ChainID cs).
Proof.
  intros l listed. unfold l, DeriveCompatibleNetworks.
  split; [apply sort_networks_strict, network_loop_nodup|].
  unfold sort_networks. split.
  - intros n. rewrite sort_slice_perm.
    intros (cs & Hin & [Hs Hp] & _ & ->)%network_loop_in. exists cs. split; [|done].
    unfold provider_chains in Hin. apply list_elem_of_bind in Hin as (id & Hin & Hid).
    apply list_elem_of_bind in Hin as (rp & Hin & Hrp). by exists id, rp.
  - intros cs (id & rp & Hid & Hrp & Hcs & Hs & Hp).
    assert (cs_ChainID cs ∈ (cn_ChainID <$> network_loop ∅
              (provider_chains (Some reg) (cp_AllowedProviders cp)))) as Hin.
    { apply network_loop_covers; [|done|set_solver]. unfold provider_chains.
      apply list_elem_of_bind. exists id. split; [|done].
      apply list_elem_of_bind. by exists rp. }
    apply list_elem_of_fmap in Hin as (n & E & Hn). exists n. by rewrite sort_slice_perm.
Qed.

(** The profile shown for a provider is the first, in profile-id order,
    whose resulting posture is the required one, and the first profile when
    there is none (or no posture is required). *)
Theorem pickCatalogProfile_correct profiles required :
  pickCatalogProfile profiles required
  = match filter (fun rp => required <> EmptyString
                    /\ TrimSpace (sp_ResultingPosture (rp_Profile rp)) = required) profiles with
    | rp :: _ => Some rp
    | [] => head profiles
    end.
Proof.
  unfold pickCatalogProfile.
  assert (forall first, pick_loop first profiles required
    = match filter (fun rp => required <> EmptyString
                    /\ TrimSpace (sp_ResultingPosture (rp_Profile rp)) = required) profiles with
      | rp :: _ => Some rp
      | [] => match first with Some _ => first | None => head profiles end
      end) as ->; [|by repeat case_match].
  induction profiles as [|rp l IH]; intros first; cbn [pick_loop]; [by destruct first|].
  rewrite filter_cons. destruct (is_empty required) eqn:E; simpl.
  - apply is_empty_spec in E. rewrite decide_False by naive_solver. rewrite IH.
    repeat case_match; done.
  - apply is_empty_false in E.
    destruct (String.eqb_spec (TrimSpace (sp_ResultingPosture (rp_Profile rp))) required) as [Hp|Hp].
    + by rewrite decide_True.
    + rewrite decide_False by naive_solver. rewrite IH. repeat case_match; done.
Qed.

(** ** Postures *)

Lemma posture_valid_spec s :
  CurrentPQPosture_IsValid s = true <-> s ∈ postures \/ s = PQPostureUnknown.
Proof.
  unfold CurrentPQPosture_IsValid. rewrite !orb_true_iff, !String.eqb_eq.
  unfold postures, PQPostureClassicalOnly, PQPostureHybrid, PQPostureFullPQ.
  rewrite !elem_of_cons, elem_of_nil. tauto.
Qed.

Record policy_ok (c : CryptoPolicy) : Prop := {
  cok_id : cp_ID c <> EmptyString;
  cok_name : cp_Name c <> EmptyString;
  cok_version : cp_Version c <> EmptyString;
  cok_posture : cp_RequiredPosture c ∈ postures;
  cok_providers : cp_AllowedProviders c <> [];
  cok_provider : Forall (fun id => TrimSpace id <> EmptyString) (cp_AllowedProviders c)
}.

Lemma existsb_false_Forall {A} (f : A -> bool) l :
  existsb f l = false <-> Forall (fun x => f x = false) l.
Proof. induction l; simpl; rewrite ?orb_false_and, ?Forall_cons; naive_solver. Qed.

Lemma posture_nonempty s : s ∈ postures -> s <> EmptyString /\ s <> PQPostureUnknown.
Proof. unfold postures. rewrite !elem_of_cons, elem_of_nil. naive_solver. Qed.

Lemma CryptoPolicy_Validate_ok c : CryptoPolicy_Validate (Some c) = Ok tt <-> policy_ok c.
Proof.
  unfold CryptoPolicy_Validate.
  rewrite !fail_if_ok, !is_empty_false, orb_false_and, negb_false_iff, posture_valid_spec,
    String.eqb_neq, length_zero_false, existsb_false_Forall.
  setoid_rewrite is_empty_false. split.
  - intros. destruct_and?. constructor; naive_solver.
  - intros []. pose proof (posture_nonempty _ cok_posture0). naive_solver.
Qed.

(** After [NormalizeAndValidate] a crypto policy has trimmed, non-empty
    identity fields, one of the three postures a provider can reach, and a
    non-empty list of distinct, non-blank providers in which exactly the
    non-empty entries of the input occur. *)
Theorem CryptoPolicy_NormalizeAndValidate_correct c c' :
  CryptoPolicy_NormalizeAndValidate c = Ok c' <->
  c' = CryptoPolicy_Normalize c /\ policy_ok c'
  /\ NoDup (cp_AllowedProviders c')
  /\ (forall id, id ∈ cp_AllowedProviders c' <-> id <> EmptyString /\ id ∈ cp_AllowedProviders c).
Proof.
  unfold CryptoPolicy_NormalizeAndValidate. rewrite res_bind_ok.
  setoid_rewrite <- CryptoPolicy_Validate_ok. split.
  - intros ([] & ? & [= <-]). split_and!; try done; [apply preserve_loop_nodup|].
    intros id. simpl. unfold normalizeStringsPreserveOrder. rewrite preserve_loop_spec. set_solver.
  - intros (-> & ? & _). by exists tt.
Qed.

Lemma HasPosture_spec cp reg :
  HasPostureCompatibleProvider (Some cp) (Some reg) = true <->
  TrimSpace (cp_RequiredPosture cp) <> EmptyString
  /\ exists id rp, id ∈ cp_AllowedProviders cp /\ TrimSpace id <> EmptyString
     /\ rp ∈ ProfilesForProvider (Some reg) (TrimSpace id)
     /\ TrimSpace (sp_ResultingPosture (rp_Profile rp)) = TrimSpace (cp_RequiredPosture cp).
Proof.
  unfold HasPostureCompatibleProvider.
  destruct (Nat.eqb_spec (length (cp_AllowedProviders cp)) 0) as [E|E].
  { apply length_zero_iff_nil in E. rewrite E. set_solver. }
  destruct (is_empty (TrimSpace (cp_RequiredPosture cp))) eqn:Er.
  { apply is_empty_spec in Er. naive_solver. }
  apply is_empty_false in Er. rewrite existsb_exists. setoid_rewrite <- list_elem_of_In. split.
  - intros (id & Hid & H). destruct (is_empty (TrimSpace id)) eqn:Ei; [done|].
    apply is_empty_false in Ei. apply existsb_exists in H as (rp & Hrp & H).
    rewrite <- list_elem_of_In in Hrp. bool_to_prop. split; [done|]. by exists id, rp.
  - intros (_ & id & rp & Hid & Hne & Hrp & E'). exists id. split; [done|].
    apply is_empty_false in Hne as ->. apply existsb_exists. exists rp.
    rewrite <- list_elem_of_In. by rewrite E', String.eqb_refl.
Qed.

End CatalogueSpec.

Definition pq_policy : CryptoPolicy := mkCryptoPolicy "cpm_pq_account_validation_v1"
  "PQ account validation" "v0.1"
  "CAFE intention: reach post-quantum account validation for an EVM wallet."
  "hybrid" ["nicetry"; "nicetry2"].
