(* ===== verification/Explore.v ===== *)
(** * Catalogue exploration (couche A)

    [internal/domain/policy]: [assessment_result.go], [findings.go],
    [policy_decision.go] and [explore_couche_a.go]: which solution profiles of
    the allowed providers fit an observed wallet. *)

From stdpp Require Import base gmap sets list strings sorting.
From Stdlib Require Import Ascii.
From S2P Require Import Prelude GoStrings GoUnicode Errors GoTime Manifest Registry Compat CryptoPolicy.
Local Open Scope string_scope.
Local Open Scope list_scope.

(** ** Data *)

Definition AssessmentStatusPending : string := "pending".
Definition AssessmentStatusCompatibleAndDeployable : string := "compatible_and_deployable".
Definition AssessmentStatusCompatibleButNotDeployable : string := "compatible_but_not_deployable".
Definition AssessmentStatusIncompatible : string := "incompatible".
Definition AssessmentStatusError : string := "error".
Definition AssessmentStatusErroneous : string := "erroneous".

Definition AssessmentFindingSeverityInfo : string := "info".
Definition AssessmentFindingSeverityWarning : string := "warning".
Definition AssessmentFindingSeverityBlocking : string := "blocking".

(** No operation of the service fills [Details]. *)
Record AssessmentFinding := mkAssessment {
  af_Code : string;
  af_Message : string;
  af_Severity : string;
  af_Field : string
}.

(** The observed wallet payload ([walletobserved.Payload], an alias of the
    contract module's type), with the fields the service fills. *)
Record Payload := mkPayload {
  pl_ChainIDs : list Z;
  pl_AccountKind : string;
  pl_CurrentAlgorithm : string;
  pl_PublicKeyExposed : bool;
  pl_IsMultichain : bool;
  pl_ObservedAt : time;
  pl_CurrentPQPosture : string
}.

Record RankedPolicy := mkRanked {
  rk_CandidateID : string;
  rk_PolicyID : string;
  rk_CryptoPolicyInstanceID : string;
  rk_TemplateID : string;
  rk_RequiredPosture : string;
  rk_ResultingPosture : string;
  rk_SolutionProfileRef : SolutionProfileRef;
  rk_Maturity : string;
  rk_ClaimStatus : string;
  rk_CompatibilityStatus : string;
  rk_CompatibilityFindings : list AssessmentFinding;
  rk_SuggestedUserConstraints : option SuggestedUserConstraints;
  rk_Composition : option CompositionView
}.

Record RejectedPolicy := mkRejected {
  rj_CandidateID : string;
  rj_PolicyID : string;
  rj_CryptoPolicyInstanceID : string;
  rj_TemplateID : string;
  rj_RequiredPosture : string;
  rj_ResultingPosture : string;
  rj_SolutionProfileRef : SolutionProfileRef;
  rj_Maturity : string;
  rj_ClaimStatus : string;
  rj_CompatibilityStatus : string;
  rj_CompatibilityFindings : list AssessmentFinding;
  rj_RejectionReasons : list AssessmentFinding
}.

Record RequestSummary := mkRequestSummary {
  rs_CryptoPolicyID : string;
  rs_TargetPosture : string;
  rs_TargetChainIDs : list Z;
  rs_RequireMultichain : bool;
  rs_AllowNewWallet : bool;
  rs_AddressContinuityRequired : bool;
  rs_MinimumMaturity : Z
}.

Record PolicyDecision := mkDecision {
  pd_ObservedChainIDs : list Z;    (** [ObservedWalletSummary.ChainIDs] *)
  pd_RequestSummary : RequestSummary;
  pd_SelectedPolicyID : string;
  pd_SelectedPolicyInstanceID : string;
  pd_RankedCandidates : list RankedPolicy;
  pd_RejectedCandidates : list RejectedPolicy;
  pd_Warnings : list string
}.

(** ** Operations *)

Definition blockingFinding (code message : string) : AssessmentFinding :=
  mkAssessment code message AssessmentFindingSeverityBlocking EmptyString.

Definition fieldFinding (code message field : string) : AssessmentFinding :=
  let f := blockingFinding code message in
  mkAssessment (af_Code f) (af_Message f) (af_Severity f) field.

Definition softFindingsForProfile (p : option SolutionProfile) : list AssessmentFinding :=
  (fun f => mkAssessment (hf_Code f) (hf_Message f) AssessmentFindingSeverityWarning (hf_Field f))
    <$> EvaluateSoftFindings p.

(** [compareRanked a b < 0]. *)
Definition ranked_less (a b : RankedPolicy) : bool :=
  str_lt (rk_CandidateID a) (rk_CandidateID b).

Definition rejected_less (a b : RejectedPolicy) : bool :=
  str_lt (rj_CandidateID a) (rj_CandidateID b).

Fixpoint ascii_only (s : string) : string :=
  match s with
  | EmptyString => EmptyString
  | String c s' => if (127 <? N_of_ascii c)%N then ascii_only s' else String c (ascii_only s')
  end.

Section Explore.
Context `{U : Unicode, S : GoSort}.

Definition normalizeASCIIUpper (value : string) : string := ascii_only (ToUpper (TrimSpace value)).

Definition solution_ref (resolved : ResolvedProfile) : SolutionProfileRef :=
  mkSolutionRef (rp_ProviderID resolved) (sp_SolutionProfileID (rp_Profile resolved))
    (rp_ProviderVersion resolved) EmptyString.

Definition candidate_id (resolved : ResolvedProfile) : string :=
  rp_ProviderID resolved +:+ "/" +:+ sp_SolutionProfileID (rp_Profile resolved).

(** [buildExploreCandidate], with the status and findings still to be set. *)
Definition buildExploreCandidate (cp : CryptoPolicy) (resolved : ResolvedProfile)
    (status : string) (findings : list AssessmentFinding) : RejectedPolicy :=
  mkRejected (candidate_id resolved) (normalizeASCIIUpper (cp_ID cp)) EmptyString EmptyString
    (cp_RequiredPosture cp) (sp_ResultingPosture (rp_Profile resolved)) (solution_ref resolved)
    (sp_Maturity (rp_Profile resolved)) (sp_ClaimStatus (rp_Profile resolved))
    status findings findings.

(** A provider of the policy that the registry does not know. *)
Definition unknown_provider (cp : CryptoPolicy) (providerID : string) : RejectedPolicy :=
  let f := fieldFinding FindingCodeUnresolved
             ("provider " +:+ Quote providerID +:+ " not found in registry") "allowed_providers" in
  mkRejected providerID (normalizeASCIIUpper (cp_ID cp)) EmptyString EmptyString
    (cp_RequiredPosture cp) EmptyString
    (mkSolutionRef providerID EmptyString EmptyString EmptyString) EmptyString EmptyString
    AssessmentStatusIncompatible [f] [f].

Definition lookup_failed (cp : CryptoPolicy) (resolved : ResolvedProfile) : RejectedPolicy :=
  let f := fieldFinding FindingCodeUnresolved
             "solution profile lookup failed after registry list" "solution_profile_ref" in
  mkRejected (candidate_id resolved) (normalizeASCIIUpper (cp_ID cp)) EmptyString EmptyString
    (cp_RequiredPosture cp) EmptyString (solution_ref resolved) EmptyString EmptyString
    AssessmentStatusIncompatible [f] [f].

Definition ranked_candidate (cp : CryptoPolicy) (resolved : ResolvedProfile) : RankedPolicy :=
  mkRanked (candidate_id resolved) (normalizeASCIIUpper (cp_ID cp)) EmptyString EmptyString
    (cp_RequiredPosture cp) (sp_ResultingPosture (rp_Profile resolved)) (solution_ref resolved)
    (sp_Maturity (rp_Profile resolved)) (sp_ClaimStatus (rp_Profile resolved))
    AssessmentStatusCompatibleAndDeployable
    (softFindingsForProfile (Some (rp_Profile resolved)))
    (sp_SuggestedUserConstraints (rp_Profile resolved))
    (Some (DeriveCompositionView (Some (rp_Profile resolved)))).

(** One round of the inner loop: the entry it appends, ranked or rejected. *)
Definition explore_profile (reg : option Registry) (obs : HardObservation) (cp : CryptoPolicy)
    (resolved : ResolvedProfile) : RankedPolicy + RejectedPolicy :=
  match Lookup reg (mkProfileRef (rp_ProviderID resolved)
                      (sp_SolutionProfileID (rp_Profile resolved)) (rp_ProviderVersion resolved)) with
  | None => inr (lookup_failed cp resolved)
  | Some _ =>
      match ValidateSuggestedUserConstraints (Some (rp_Profile resolved)) with
      | Err e => inr (buildExploreCandidate cp resolved AssessmentStatusErroneous
                   [mkAssessment FindingCodeErroneousSuggested (e_text e)
                      AssessmentFindingSeverityBlocking "suggested_user_constraints"])
      | Ok _ =>
          match EvaluateScanCompatibility obs (cp_RequiredPosture cp) (Some (rp_Profile resolved)) with
          | [] => inl (ranked_candidate cp resolved)
          | hard => inr (buildExploreCandidate cp resolved AssessmentStatusIncompatible
                      ((fun f => fieldFinding (hf_Code f) (hf_Message f) (hf_Field f)) <$> hard))
          end
      end
  end.

(** One round of the outer loop: what it appends, in order. *)
Definition explore_provider (reg : option Registry) (obs : HardObservation) (cp : CryptoPolicy)
    (id0 : string) : list (RankedPolicy + RejectedPolicy) :=
  let id := TrimSpace id0 in
  if is_empty id then []
  else
    match ProfilesForProvider reg id with
    | [] => [inr (unknown_provider cp id)]
    | profiles => explore_profile reg obs cp <$> profiles
    end.

Definition lefts {A B} (l : list (A + B)) : list A :=
  omap (fun x => match x with inl a => Some a | inr _ => None end) l.
Definition rights {A B} (l : list (A + B)) : list B :=
  omap (fun x => match x with inl _ => None | inr b => Some b end) l.

Definition observation_of (p : Payload) : HardObservation :=
  mkObservation (pl_AccountKind p) (normalizeChainIDs (pl_ChainIDs p)).

Definition EvaluateExploreCoucheA (reg : option Registry) (observation : Payload)
    (cp : option CryptoPolicy) : gores PolicyDecision :=
  match cp with
  | None => Err (errors_New "crypto policy is nil")
  | Some cp =>
      let appended := cp_AllowedProviders cp ≫= explore_provider reg (observation_of observation) cp in
      let ranked := sort_stable ranked_less (lefts appended) in
      let rejected := sort_stable rejected_less (rights appended) in
      Ok {|
        pd_ObservedChainIDs := normalizeChainIDs (pl_ChainIDs observation);
        pd_RequestSummary := mkRequestSummary (cp_ID cp) EmptyString [] false false false 0;
        pd_SelectedPolicyID := match ranked with r :: _ => rk_PolicyID r | [] => EmptyString end;
        pd_SelectedPolicyInstanceID := EmptyString;
        pd_RankedCandidates := ranked;
        pd_RejectedCandidates := rejected;
        pd_Warnings := []
      |}
  end.

End Explore.

(** ** What exploration returns *)

Section ExploreSpec.
Context `{U : Unicode, S : GoSort}.

Lemma lefts_elem {A B} (l : list (A + B)) a : a ∈ lefts l <-> inl a ∈ l.
Proof.
  unfold lefts. rewrite list_elem_of_omap. split.
  - intros ([] & ? & ?); naive_solver.
  - intros. by exists (inl a).
Qed.

Lemma rights_elem {A B} (l : list (A + B)) b : b ∈ rights l <-> inr b ∈ l.
Proof.
  unfold rights. rewrite list_elem_of_omap. split.
  - intros ([] & ? & ?); naive_solver.
  - intros. by exists (inr b).
Qed.

#[local] Instance ranked_less_order : WeakOrder ranked_less := WeakOrder_str rk_CandidateID.
#[local] Instance rejected_less_order : WeakOrder rejected_less := WeakOrder_str rj_CandidateID.

(** A profile is acceptable when its suggestion does not contradict it and
    couche A accepts it for the observed wallet. *)
Definition acceptable (obs : Payload) (cp : CryptoPolicy) (p : SolutionProfile) : Prop :=
  ValidateSuggestedUserConstraints (Some p) = Ok tt
  /\ scan_accepts (observation_of obs) (cp_RequiredPosture cp) p.

(** The profiles that exploration considers. *)
Definition considered (r : Registry) (cp : CryptoPolicy) (rp : ResolvedProfile) : Prop :=
  exists id, id ∈ cp_AllowedProviders cp /\ TrimSpace id <> EmptyString
    /\ rp ∈ ProfilesForProvider (Some r) (TrimSpace id).

Lemma explore_profile_inl reg obs cp rp c :
  explore_profile reg (observation_of obs) cp rp = inl c ->
  acceptable obs cp (rp_Profile rp) /\ c = ranked_candidate cp rp.
Proof.
  unfold explore_profile, acceptable. rewrite <- scan_pass.
  destruct (Lookup _ _); [|done]. destruct (ValidateSuggestedUserConstraints _) as [[]|]; [|done].
  destruct (EvaluateScanCompatibility _ _ _); naive_solver.
Qed.

Lemma explore_profile_accept flag r obs cp id rp :
  reg_inv flag r -> rp ∈ ProfilesForProvider (Some r) id -> acceptable obs cp (rp_Profile rp) ->
  explore_profile (Some r) (observation_of obs) cp rp = inl (ranked_candidate cp rp).
Proof.
  intros Hinv Hrp [Hs Ha]. apply scan_pass in Ha. unfold explore_profile.
  by rewrite (lookup_self flag r id rp), Hs, Ha by done.
Qed.

Lemma explore_provider_elem r obs cp id0 x :
  x ∈ explore_provider (Some r) (observation_of obs) cp id0 ->
  TrimSpace id0 <> EmptyString
  /\ (x = inr (unknown_provider cp (TrimSpace id0))
      \/ exists rp, rp ∈ ProfilesForProvider (Some r) (TrimSpace id0)
         /\ x = explore_profile (Some r) (observation_of obs) cp rp).
Proof.
  unfold explore_provider. destruct (is_empty (TrimSpace id0)) eqn:E; [set_solver|].
  apply is_empty_false in E. destruct (ProfilesForProvider _ _) as [|rp l]; [set_solver|].
  rewrite list_elem_of_fmap. naive_solver.
Qed.

Lemma explore_provider_in r obs cp id0 rp :
  TrimSpace id0 <> EmptyString -> rp ∈ ProfilesForProvider (Some r) (TrimSpace id0) ->
  explore_profile (Some r) (observation_of obs) cp rp
    ∈ explore_provider (Some r) (observation_of obs) cp id0.
Proof.
  intros Hne Hrp. unfold explore_provider. apply is_empty_false in Hne as ->.
  destruct (ProfilesForProvider _ _) as [|rp' l]; [set_solver|].
  rewrite list_elem_of_fmap. by exists rp.
Qed.

Lemma ranked_elem flag r obs cp c :
  reg_inv flag r ->
  c ∈ sort_stable ranked_less (lefts (cp_AllowedProviders cp ≫= explore_provider (Some r) (observation_of obs) cp))
  <-> exists rp, considered r cp rp /\ acceptable obs cp (rp_Profile rp) /\ c = ranked_candidate cp rp.
Proof.
  intros Hinv. rewrite sort_stable_elem, lefts_elem, list_elem_of_bind. split.
  - intros (id & Hx & Hid). apply explore_provider_elem in Hx as [Hne [?|(rp & Hrp & E)]]; [done|].
    symmetry in E. apply explore_profile_inl in E as [Ha ->]. exists rp. split; [|done]. by exists id.
  - intros (rp & (id & Hid & Hne & Hrp) & Ha & ->). exists id. split; [|done].
    rewrite <- (explore_profile_accept flag r obs cp (TrimSpace id) rp) by done.
    by apply explore_provider_in.
Qed.

(** The codes a rejection can carry. *)
Definition couche_a_codes : list string :=
  [FindingCodePosture; FindingCodeWalletType; FindingCodeChain; FindingCodeCapability; FindingCodeUnresolved;
   FindingCodeErroneousSuggested].

Definition couche_a_reason (f : AssessmentFinding) : Prop :=
  af_Code f ∈ couche_a_codes /\ af_Severity f = AssessmentFindingSeverityBlocking.

Lemma scan_codes obs posture p :
  Forall (fun f => hf_Code f ∈ couche_a_codes) (EvaluateScanCompatibility obs posture (Some p)).
Proof.
  unfold EvaluateScanCompatibility, when, couche_a_codes.
  repeat case_match; rewrite ?Forall_app, ?Forall_singleton; split_and?; try constructor; by apply (bool_decide_unpack _).
Qed.

Lemma rejected_reasons reg obs cp id0 b :
  inr b ∈ explore_provider reg obs cp id0 ->
  Forall couche_a_reason (rj_RejectionReasons b) /\ rj_RejectionReasons b <> [].
Proof.
  unfold explore_provider. destruct (is_empty (TrimSpace id0)); [set_solver|].
  assert (couche_a_reason (fieldFinding FindingCodeUnresolved
    ("provider " +:+ Quote (TrimSpace id0) +:+ " not found in registry") "allowed_providers")) as Hu.
  { split; [|done]. by apply (bool_decide_unpack _). }
  destruct (ProfilesForProvider _ _) as [|rp0 l].
  { rewrite list_elem_of_singleton. intros [= ->]. split; [by apply Forall_singleton|done]. }
  rewrite list_elem_of_fmap. intros (rp & E & _). symmetry in E. unfold explore_profile in E.
  destruct (Lookup _ _); [|injection E as <-; split; [|done]; apply Forall_singleton; split; [by apply (bool_decide_unpack _)|done]].
  destruct (ValidateSuggestedUserConstraints _);
    [|injection E as <-; split; [|done]; apply Forall_singleton; split; [by apply (bool_decide_unpack _)|done]].
  pose proof (scan_codes obs (cp_RequiredPosture cp) (rp_Profile rp)) as Hc.
  destruct (EvaluateScanCompatibility _ _ _) as [|f fs]; [done|]. injection E as <-. split; [|done].
  cbn [rj_RejectionReasons buildExploreCandidate]. apply (Forall_fmap (fun f => fieldFinding (hf_Code f) (hf_Message f) (hf_Field f)) couche_a_reason (f :: fs)).
  eapply Forall_impl; [exact Hc|]. by intros.
Qed.

(** C10: exploration ranks exactly the considered profiles that are acceptable
    (suggestion consistent, couche A satisfied), in order of candidate id, and
    selects the policy when there is one; the lookup that re-resolves a listed
    profile never fails on a loaded registry. *)
Theorem EvaluateExploreCoucheA_correct flag r obs cp :
  reg_inv flag r ->
  exists d, EvaluateExploreCoucheA (Some r) obs (Some cp) = Ok d
    /\ (forall c, c ∈ pd_RankedCandidates d <-> exists rp, considered r cp rp
          /\ acceptable obs cp (rp_Profile rp) /\ c = ranked_candidate cp rp)
    /\ Sorted (fun a b => str_lt (rk_CandidateID b) (rk_CandidateID a) = false)
         (pd_RankedCandidates d)
    /\ (forall rp, considered r cp rp ->
          Lookup (Some r) (mkProfileRef (rp_ProviderID rp) (sp_SolutionProfileID (rp_Profile rp))
                             (rp_ProviderVersion rp)) = Some rp)
    /\ pd_SelectedPolicyID d = (if decide (pd_RankedCandidates d = []) then EmptyString
                                else normalizeASCIIUpper (cp_ID cp)).
Proof.
  intros Hinv. eexists. split; [reflexivity|]. cbn [pd_RankedCandidates pd_RejectedCandidates pd_SelectedPolicyID].
  set (app := cp_AllowedProviders cp ≫= _).
  assert (forall c, c ∈ sort_stable ranked_less (lefts app) <-> exists rp, considered r cp rp
          /\ acceptable obs cp (rp_Profile rp) /\ c = ranked_candidate cp rp) as Hranked
    by (intros c; by eapply ranked_elem).
  split_and!.
  - done.
  - apply (sort_stable_sorted ranked_less).
  - intros rp (id & _ & _ & Hrp). by eapply lookup_self.
  - case_decide as E; [by rewrite E|].
    destruct (sort_stable ranked_less (lefts app)) as [|c l] eqn:El; [done|].
    destruct (proj1 (Hranked c)) as (rp & _ & _ & ->); [by left|done].
Qed.

(** The candidate ids that a provider of the policy stands for. *)
Definition provider_candidates (reg : option Registry) (id0 : string) : list string :=
  let id := TrimSpace id0 in
  if is_empty id then []
  else match ProfilesForProvider reg id with
       | [] => [id]
       | profiles => candidate_id <$> profiles
       end.

Lemma split_perm {A B C} (f : A -> C) (g : B -> C) (l : list (A + B)) :
  (f <$> lefts l) ++ (g <$> rights l) ≡ₚ (fun x => match x with inl a => f a | inr b => g b end) <$> l.
Proof.
  induction l as [|[a|b] l IH]; simpl; [done|by f_equiv|].
  rewrite <- Permutation_middle. by f_equiv.
Qed.

Lemma explore_provider_ids reg obs cp id0 :
  (fun x => match x with inl a => rk_CandidateID a | inr b => rj_CandidateID b end)
    <$> explore_provider reg (observation_of obs) cp id0 = provider_candidates reg id0.
Proof.
  unfold explore_provider, provider_candidates. case_match; [done|].
  destruct (ProfilesForProvider reg (TrimSpace id0)) as [|rp l]; [done|].
  rewrite <- list_fmap_compose. apply list_fmap_ext. intros _ x _. unfold compose, explore_profile.
  destruct (Lookup _ _); [|done]. destruct (ValidateSuggestedUserConstraints _); [|done].
  destruct (EvaluateScanCompatibility _ _ _); done.
Qed.

(** Exploration loses nothing and invents nothing: the ranked and rejected
    candidates together are, counted with multiplicity, one per profile of
    every allowed provider and one per provider without profiles; both lists
    are in order of candidate id. *)
Theorem EvaluateExploreCoucheA_partition reg obs cp :
  exists d, EvaluateExploreCoucheA reg obs (Some cp) = Ok d
    /\ (rk_CandidateID <$> pd_RankedCandidates d) ++ (rj_CandidateID <$> pd_RejectedCandidates d)
       ≡ₚ (cp_AllowedProviders cp ≫= provider_candidates reg)
    /\ Sorted (fun a b => str_lt (rj_CandidateID b) (rj_CandidateID a) = false)
         (pd_RejectedCandidates d).
Proof.
  eexists. split; [reflexivity|]. cbn [pd_RankedCandidates pd_RejectedCandidates]. split.
  - rewrite !sort_stable_perm, split_perm.
    induction (cp_AllowedProviders cp) as [|id l IH]; [done|].
    simpl. rewrite fmap_app, explore_provider_ids. by f_equiv.
  - apply (sort_stable_sorted rejected_less).
Qed.

(** A posture-orphan policy, the condition reported at catalogue load,
    never yields a ranked candidate, whatever wallet is observed. *)
Theorem orphan_policy_ranks_nothing r obs cp :
  TrimSpace (cp_RequiredPosture cp) <> EmptyString ->
  HasPostureCompatibleProvider (Some cp) (Some r) = false ->
  exists d, EvaluateExploreCoucheA (Some r) obs (Some cp) = Ok d /\ pd_RankedCandidates d = [].
Proof.
  intros Hp Ho. eexists. split; [reflexivity|]. cbn [pd_RankedCandidates].
  apply elem_of_nil_inv. intros c. rewrite sort_stable_elem, lefts_elem, list_elem_of_bind.
  intros (id & Hx & Hid). apply explore_provider_elem in Hx as [Hne [?|(rp & Hrp & E)]]; [done|].
  symmetry in E. apply explore_profile_inl in E as [[_ [Hpost _]] ->].
  assert (HasPostureCompatibleProvider (Some cp) (Some r) = true); [|congruence].
  apply HasPosture_spec. split; [done|]. exists id, rp. split_and!; try done.
  destruct Hpost as [?|Hpost]; done.
Qed.

End ExploreSpec.

Definition mainnet_eoa : Payload :=
  mkPayload [1%Z] "eoa" "secp256k1_ecrecover" false false zero_time "unknown".

Lemma EvaluateExploreCoucheA_correct_witness : exists d,
  EvaluateExploreCoucheA (Some (loaded sample_docs)) mainnet_eoa (Some pq_policy) = Ok d
  /\ length (pd_RankedCandidates d) = 2.
Proof.
  destruct (EvaluateExploreCoucheA_correct no_flag (loaded sample_docs) mainnet_eoa
    pq_policy sample_inv) as (d & H & _).
  exists d. split; [exact H|]. vm_compute in H. injection H as <-. reflexivity.
Defined.

Lemma orphan_policy_ranks_nothing_witness : exists d,
  EvaluateExploreCoucheA (Some (loaded sample_docs)) mainnet_eoa
    (Some (mkCryptoPolicy "p" "p" "1" EmptyString "full_pq" ["nicetry"])) = Ok d
  /\ pd_RankedCandidates d = [].
Proof.
  apply orphan_policy_ranks_nothing; [vm_compute; congruence|vm_compute; reflexivity].
Defined.
