(* ===== verification/Sha256.v ===== *)
(** * SHA-256 and hexadecimal

    [crypto/sha256] and [encoding/hex] as [internal/payloadhash] uses them:
    FIPS 180-4 on bytes, with 32-bit words as [N] reduced modulo 2^32. *)

From stdpp Require Import base list strings.
From Stdlib Require Import NArith Ascii.
From S2P Require Import Prelude GoStrings GoUnicode.
Local Open Scope N_scope.
Local Open Scope list_scope.

Definition w32 (x : N) : N := N.land x 0xFFFFFFFF.
Definition add32 (x y : N) : N := w32 (x + y).
Definition rotr (n x : N) : N := N.lor (N.shiftr x n) (w32 (N.shiftl x (32 - n))).
Definition not32 (x : N) : N := N.lxor x 0xFFFFFFFF.

(** The constants, by their definition: the first 32 bits of the fractional
    parts of the cube roots of the first 64 primes, and of the square roots of
    the first eight. *)
Definition has_divisor (n : nat) : bool :=
  existsb (fun d => Nat.eqb (Nat.modulo n d) 0) (seq 2 (n - 2)).

Definition primes64 : list N :=
  Eval vm_compute in (N.of_nat <$> filter (fun n => has_divisor n = false) (seq 2 310)).

(** The integer cube root, bit by bit from the top. *)
Fixpoint cube_root (bits : nat) (acc n : N) : N :=
  match bits with
  | O => acc
  | S b => let t := N.lor acc (N.shiftl 1 (N.of_nat b)) in
           cube_root b (if t * t * t <=? n then t else acc) n
  end.

Definition sha_k : list N :=
  Eval vm_compute in ((fun p => cube_root 36 0 (N.shiftl p 96) mod 2 ^ 32) <$> primes64).

Definition sha_h0 : list N :=
  Eval vm_compute in ((fun p => N.sqrt (N.shiftl p 64) mod 2 ^ 32) <$> take 8 primes64).

Definition big_endian32 (b0 b1 b2 b3 : N) : N :=
  N.lor (N.shiftl b0 24) (N.lor (N.shiftl b1 16) (N.lor (N.shiftl b2 8) b3)).

Fixpoint words (l : list N) : list N :=
  match l with
  | b0 :: b1 :: b2 :: b3 :: l' => big_endian32 b0 b1 b2 b3 :: words l'
  | _ => []
  end.

(** The message, 0x80, zeros up to 56 bytes modulo 64, and the bit length on
    eight bytes. *)
Definition sha_pad (l : list N) : list N :=
  let n := N.of_nat (length l) in
  let zeros := N.to_nat ((119 - (n mod 64)) mod 64) in
  let bits := 8 * n in
  l ++ [0x80] ++ replicate zeros 0
  ++ ((fun i => N.land (N.shiftr bits (8 * i)) 0xFF) <$> [7; 6; 5; 4; 3; 2; 1; 0]).

(** The message schedule, newest word first: [w] holds the last words. *)
Fixpoint schedule (fuel : nat) (w : list N) : list N :=
  match fuel with
  | O => rev w
  | S fuel' =>
      let g i := nth i w 0 in
      let w15 := g 14%nat in
      let w2 := g 1%nat in
      let s0 := N.lxor (rotr 7 w15) (N.lxor (rotr 18 w15) (N.shiftr w15 3)) in
      let s1 := N.lxor (rotr 17 w2) (N.lxor (rotr 19 w2) (N.shiftr w2 10)) in
      schedule fuel' (add32 (add32 (g 15%nat) s0) (add32 (g 6%nat) s1) :: w)
  end.

Fixpoint rounds (kw : list (N * N)) (a b c d e f g h : N) : list N :=
  match kw with
  | [] => [a; b; c; d; e; f; g; h]
  | (k, w) :: kw' =>
      let S1 := N.lxor (rotr 6 e) (N.lxor (rotr 11 e) (rotr 25 e)) in
      let ch := N.lxor (N.land e f) (N.land (not32 e) g) in
      let t1 := add32 (add32 h S1) (add32 (add32 ch k) w) in
      let S0 := N.lxor (rotr 2 a) (N.lxor (rotr 13 a) (rotr 22 a)) in
      let maj := N.lxor (N.land a b) (N.lxor (N.land a c) (N.land b c)) in
      let t2 := add32 S0 maj in
      rounds kw' (add32 t1 t2) a b c (add32 d t1) e f g
  end.

Definition sha_block (h : list N) (block : list N) : list N :=
  match h with
  | [a; b; c; d; e; f; g; i] =>
      zip_with add32 h
        (rounds (zip sha_k (schedule 48 (rev (words block)))) a b c d e f g i)
  | _ => h
  end.

Fixpoint sha_blocks (fuel : nat) (h : list N) (l : list N) : list N :=
  match fuel, l with
  | S fuel', _ :: _ => sha_blocks fuel' (sha_block h (take 64 l)) (drop 64 l)
  | _, _ => h
  end.

(** [sha256.Sum256] on the bytes of a string; the fuel is the number of bytes,
    more than the number of blocks. *)
Definition Sum256 (s : string) : list N :=
  let l := sha_pad (bytes_of s) in
  sha_blocks (length l) sha_h0 l
  ≫= fun w => [N.land (N.shiftr w 24) 0xFF; N.land (N.shiftr w 16) 0xFF;
               N.land (N.shiftr w 8) 0xFF; N.land w 0xFF].

(** [hex.EncodeToString]. *)
Definition EncodeToString (l : list N) : string :=
  String.string_of_list_ascii (l ≫= fun b => [hex_digit (b / 16); hex_digit (b mod 16)]).

Definition sha256_hex (s : string) : string := EncodeToString (Sum256 s).

Example sha256_abc :
  sha256_hex "abc" = "ba7816bf8f01cfea414140de5dae2223b00361a396177a9cb410ff61f20015ad"%string.
Proof. vm_compute. reflexivity. Qed.

(** A digest is 64 lower-case hexadecimal digits. *)
Definition is_hex64 (s : string) : Prop :=
  len s = 64%nat /\ Forall (fun a => exists n, n < 16 /\ a = hex_digit n) (String.list_ascii_of_string s).

Lemma rounds_length kw : forall a b c d e f g h, length (rounds kw a b c d e f g h) = 8%nat.
Proof. induction kw as [|[k w] kw IH]; intros; simpl; [done|apply IH]. Qed.

Lemma sha_block_length h block : length h = 8%nat -> length (sha_block h block) = 8%nat.
Proof.
  intros H. do 9 (destruct h as [|? h]; simpl in H; try lia).
  cbn [sha_block]. rewrite length_zip_with, rounds_length. done.
Qed.

Lemma sha_blocks_length fuel : forall h l, length h = 8%nat -> length (sha_blocks fuel h l) = 8%nat.
Proof.
  induction fuel as [|fuel IH]; intros h [|b l] H; cbn [sha_blocks]; try done.
  apply IH. by apply sha_block_length.
Qed.

Lemma len_list_ascii s : len s = length (String.list_ascii_of_string s).
Proof. induction s as [|a s IH]; simpl; [done|]. by rewrite <- IH. Qed.

Lemma EncodeToString_hex l : Forall (fun b => b < 256) l ->
  len (EncodeToString l) = (2 * length l)%nat
  /\ Forall (fun a => exists n, n < 16 /\ a = hex_digit n)
       (String.list_ascii_of_string (EncodeToString l)).
Proof.
  unfold EncodeToString. rewrite len_list_ascii, String.list_ascii_of_string_of_list_ascii.
  induction 1 as [|b l Hb _ [IH1 IH2]]; [done|]. rewrite bind_cons. split.
  { rewrite length_app, IH1. simpl. lia. }
  apply Forall_app. split; [|done]. repeat constructor.
  - exists (b / 16). split; [|done]. by apply N.Div0.div_lt_upper_bound.
  - exists (b mod 16). split; [|done]. by apply N.mod_lt.
Qed.

Lemma hex_digit_inj n m : n < 16 -> m < 16 -> hex_digit n = hex_digit m -> n = m.
Proof.
  intros Hn Hm H. assert (forall k, k < 16 -> k ∈ (N.of_nat <$> seq 0 16)) as Hin.
  { intros k Hk. apply list_elem_of_fmap. exists (N.to_nat k). split; [by rewrite N2Nat.id|]. apply elem_of_seq. lia. }
  assert (Forall (fun n => Forall (fun m => hex_digit n = hex_digit m -> n = m) (N.of_nat <$> seq 0 16)) (N.of_nat <$> seq 0 16)) as HF.
  { cbn. repeat first [apply Forall_nil_2 | apply Forall_cons_2]; by intros. }
  rewrite Forall_forall in HF. specialize (HF n (Hin n Hn)). rewrite Forall_forall in HF. by apply HF; [apply Hin|].
Qed.

(** Different bytes have different texts. *)
Lemma EncodeToString_inj l l' : Forall (fun b => b < 256) l -> Forall (fun b => b < 256) l' ->
  EncodeToString l = EncodeToString l' -> l = l'.
Proof.
  unfold EncodeToString. intros Hl Hl' H. apply (f_equal String.list_ascii_of_string) in H.
  rewrite !String.list_ascii_of_string_of_list_ascii in H. revert l' Hl' H.
  induction Hl as [|b l Hb _ IH]; intros [|b' l'] Hl'; [done|done|done|]. rewrite !bind_cons. cbn [app]. intros [= H1 H2 H3].
  apply Forall_cons in Hl' as [Hb' Hl']. f_equal; [|by apply IH].
  apply hex_digit_inj in H1; [|by apply N.Div0.div_lt_upper_bound..]. apply hex_digit_inj in H2; [|by apply N.mod_lt..].
  by rewrite (N.div_mod' b 16), H1, H2, <- N.div_mod'.
Qed.

Lemma Sum256_bytes s : Forall (fun b => b < 256) (Sum256 s) /\ length (Sum256 s) = 32%nat.
Proof.
  unfold Sum256. set (h := sha_blocks _ _ _).
  assert (length h = 8%nat) as Hl by (by apply sha_blocks_length).
  clearbody h. split.
  - apply Forall_bind. apply Forall_forall. intros w _.
    assert (forall x, N.land x 0xFF < 256) as Hx.
    { intros x. change 0xFF with (N.ones 8). rewrite N.land_ones. by apply N.mod_lt. }
    repeat constructor; apply Hx.
  - do 9 (destruct h as [|? h]; simpl in Hl; try lia). done.
Qed.

Lemma sha256_hex_is_hex s : is_hex64 (sha256_hex s).
Proof.
  destruct (Sum256_bytes s) as [Hb Hl]. destruct (EncodeToString_hex _ Hb) as [E1 E2].
  split; [|done]. unfold sha256_hex. rewrite E1, Hl. done.
Qed.
