(* ===== verification/GoAny.v ===== *)
(** * Decoded JSON values

    Go's [any] as [encoding/json] produces and consumes it, and [json.Marshal]
    on it.  A map is the list of its entries in the order in which a [range]
    statement happens to visit them; no property may depend on that order. *)

From stdpp Require Import base gmap sets list strings sorting.
From Stdlib Require Import Ascii ZArith.
From S2P Require Import Prelude GoStrings GoUnicode.
Local Open Scope string_scope.
Local Open Scope list_scope.

(** A finite float64: mantissa times a power of two. *)
Record float64 := mkFloat { f_mant : Z; f_exp : Z }.

(** What the service uses of float64 beyond its value: the text of [%v] and of
    [json.Marshal], and [int64(f)], whose result out of range is left to the
    implementation. *)
Class GoFloat := {
  float_text : float64 -> string;
  float_json : float64 -> string;
  float_overflow : float64 -> Z
}.

Definition float_trunc (f : float64) : Z :=
  if (0 <=? f_exp f)%Z then (f_mant f * 2 ^ f_exp f)%Z
  else Z.quot (f_mant f) (2 ^ (- f_exp f)).

Definition float_integral (f : float64) : bool :=
  (0 <=? f_exp f)%Z || (Z.rem (f_mant f) (2 ^ (- f_exp f)) =? 0)%Z.

Inductive any :=
| ANil
| ABool (b : bool)
| AString (s : string)
| AFloat64 (f : float64)
| ANumber (s : string)           (** json.Number *)
| AInt64 (z : Z)
| AInt (z : Z)
| AInt64s (l : list Z)           (** []int64 *)
| ANilMap                        (** a nil map[string]any *)
| AMap (l : list (string * any))
| ASlice (l : list any).

(** Induction with the hypothesis on every entry. *)
Fixpoint any_rect' (P : any -> Prop)
  (H1 : P ANil) (H2 : forall b, P (ABool b)) (H3 : forall s, P (AString s))
  (H4 : forall f, P (AFloat64 f)) (H5 : forall s, P (ANumber s)) (H6 : forall z, P (AInt64 z))
  (H7 : forall z, P (AInt z)) (H8 : forall l, P (AInt64s l)) (H9 : P ANilMap)
  (H10 : forall l, Forall (fun kv => P (snd kv)) l -> P (AMap l))
  (H11 : forall l, Forall P l -> P (ASlice l)) (v : any) : P v :=
  let rec := any_rect' P H1 H2 H3 H4 H5 H6 H7 H8 H9 H10 H11 in
  match v with
  | ANil => H1
  | ABool b => H2 b
  | AString s => H3 s
  | AFloat64 f => H4 f
  | ANumber s => H5 s
  | AInt64 z => H6 z
  | AInt z => H7 z
  | AInt64s l => H8 l
  | ANilMap => H9
  | AMap l => H10 l ((fix go l := match l return Forall (fun kv => P (snd kv)) l with
                      | [] => Forall_nil_2 _
                      | kv :: l' => Forall_cons_2 (fun kv => P (snd kv)) kv l' (rec (snd kv)) (go l')
                      end) l)
  | ASlice l => H11 l ((fix go l := match l return Forall P l with
                      | [] => Forall_nil_2 _
                      | x :: l' => Forall_cons_2 P x l' (rec x) (go l')
                      end) l)
  end.

(** ** Access *)

(** [v.(map[string]any)]: the entries, none for a nil map. *)
Definition as_map (v : any) : option (list (string * any)) :=
  match v with AMap l => Some l | ANilMap => Some [] | _ => None end.

Definition is_nil_map (v : any) : bool := match v with ANilMap => true | _ => false end.

(** [m[key]] and its [ok]. *)
Fixpoint map_get (l : list (string * any)) (key : string) : option any :=
  match l with
  | [] => None
  | (k, v) :: l' => if String.eqb k key then Some v else map_get l' key
  end.

Definition has_key (l : list (string * any)) (key : string) : bool :=
  match map_get l key with Some _ => true | None => false end.

(** [v.(string)], with the zero value when it is not one. *)
Definition as_string (v : option any) : option string :=
  match v with Some (AString s) => Some s | _ => None end.

(** ** json.Marshal *)

(** The body of a string literal, rune by rune: quotes, backslashes and control
    characters are escaped, so are [<], [>], [&], U+2028 and U+2029, and a byte
    that is not UTF-8 becomes the escape of U+FFFD. *)
Definition json_rune (c : rchunk) : string :=
  match c with
  | RInvalid _ => "\ufffd"
  | RValid r =>
      if (r =? 34)%N then "\" +:+ String (ascii_of_N 34) EmptyString
      else if (r =? 92)%N then "\\"
      else if (r =? 8)%N then "\b"
      else if (r =? 12)%N then "\f"
      else if (r =? 10)%N then "\n"
      else if (r =? 13)%N then "\r"
      else if (r =? 9)%N then "\t"
      else if (r <? 32)%N || (r =? 60)%N || (r =? 62)%N || (r =? 38)%N
              || (r =? 0x2028)%N || (r =? 0x2029)%N
      then "\u" +:+ hex_digits 4 r
      else string_of_runes [r]
  end.

Definition dquote : string := String (ascii_of_N 34) EmptyString.

Definition json_string (s : string) : string :=
  dquote +:+ String.concat EmptyString (json_rune <$> utf8_decode (bytes_of s)) +:+ dquote.

(** A string that went through JSON: undecodable bytes became U+FFFD. *)
Definition to_utf8 (s : string) : string := string_of_runes (runes s).

Definition pair_less (a b : string * string) : bool := str_lt (fst a) (fst b).

Section Json.
Context `{F : GoFloat}.

(** Members are written in increasing order of key. *)
Fixpoint json_marshal (v : any) : string :=
  match v with
  | ANil | ANilMap => "null"
  | ABool b => if b then "true" else "false"
  | AString s => json_string s
  | AFloat64 f => float_json f
  | ANumber s => s
  | AInt64 z | AInt z => FormatInt z
  | AInt64s l => "[" +:+ Join (FormatInt <$> l) "," +:+ "]"
  | AMap l =>
      "{" +:+ Join ((fun kt => json_string (fst kt) +:+ ":" +:+ snd kt)
                      <$> sort_stable pair_less
                            ((fix go l := match l with
                              | [] => []
                              | (k, x) :: l' => (k, json_marshal x) :: go l'
                              end) l)) "," +:+ "}"
  | ASlice l => "[" +:+ Join ((fix go l := match l with
                               | [] => []
                               | x :: l' => json_marshal x :: go l'
                               end) l) "," +:+ "]"
  end.

Definition float_to_int64 (f : float64) : Z :=
  if in_int64 (float_trunc f) then float_trunc f else float_overflow f.

(** [%T] of the dynamic type. *)
Definition type_text (v : any) : string :=
  match v with
  | ANil => "<nil>"
  | ABool _ => "bool"
  | AString _ => "string"
  | AFloat64 _ => "float64"
  | ANumber _ => "json.Number"
  | AInt64 _ => "int64"
  | AInt _ => "int"
  | AInt64s _ => "[]int64"
  | ANilMap | AMap _ => "map[string]interface {}"
  | ASlice _ => "[]interface {}"
  end.

End Json.

(** An instance whose texts are the integral part; every theorem holds for all. *)
#[global] Instance plain_GoFloat : GoFloat := {
  float_text := fun f => FormatInt (float_trunc f);
  float_json := fun f => FormatInt (float_trunc f);
  float_overflow := fun _ => int64_min
}.

(** ** Equality up to the order of map entries *)

(** Keys of a Go map are distinct. *)
Fixpoint any_wf (v : any) : Prop :=
  match v with
  | AMap l => NoDup (fst <$> l) /\
      (fix go l := match l with [] => True | (_, x) :: l' => any_wf x /\ go l' end) l
  | ASlice l => (fix go l := match l with [] => True | x :: l' => any_wf x /\ go l' end) l
  | _ => True
  end.

Lemma any_wf_map l : any_wf (AMap l) <-> NoDup (fst <$> l) /\ Forall (fun kv => any_wf (snd kv)) l.
Proof.
  cbn [any_wf]. f_equiv. induction l as [|[k x] l IH]; [naive_solver|].
  rewrite Forall_cons, <- IH. done.
Qed.

Lemma any_wf_slice l : any_wf (ASlice l) <-> Forall any_wf l.
Proof.
  cbn [any_wf]. induction l as [|x l IH]; [naive_solver|]. rewrite Forall_cons, <- IH. done.
Qed.

Inductive any_eqv : any -> any -> Prop :=
| eqv_refl v : any_eqv v v
| eqv_map l l1 l2 : l ≡ₚ l1 ->
    Forall2 (fun a b => fst a = fst b /\ any_eqv (snd a) (snd b)) l1 l2 ->
    any_eqv (AMap l) (AMap l2)
| eqv_slice l1 l2 : Forall2 any_eqv l1 l2 -> any_eqv (ASlice l1) (ASlice l2).

Section JsonFacts.
Context `{F : GoFloat}.

Lemma json_marshal_map l : json_marshal (AMap l)
  = "{" +:+ Join ((fun kt => json_string (fst kt) +:+ ":" +:+ snd kt)
      <$> sort_stable pair_less ((fun kx => (fst kx, json_marshal (snd kx))) <$> l)) "," +:+ "}".
Proof.
  cbn [json_marshal]. do 4 f_equal. induction l as [|[k x] l IH]; simpl; [done|]. by rewrite IH.
Qed.

Lemma json_marshal_slice l :
  json_marshal (ASlice l) = "[" +:+ Join (json_marshal <$> l) "," +:+ "]".
Proof.
  cbn [json_marshal].
  assert (forall l, (fix go l := match l with [] => [] | x :: l' => json_marshal x :: go l' end) l
    = json_marshal <$> l) as ->; [|done].
  intros l0. induction l0 as [|x l0 IH]; [done|]. by rewrite IH.
Qed.

(** Sorting by distinct keys forgets the order of the input. *)
Lemma sort_pairs_unique (l1 l2 : list (string * string)) :
  NoDup (fst <$> l1) -> l1 ≡ₚ l2 -> sort_stable pair_less l1 = sort_stable pair_less l2.
Proof.
  intros Hnd Hp. assert (WeakOrder pair_less) as W by exact (WeakOrder_str fst).
  apply (sorted_perm_unique pair_less);
    [done| |by apply sort_stable_sorted|by apply sort_stable_sorted|by rewrite !sort_stable_perm].
  intros [k1 t1] [k2 t2]. rewrite !sort_stable_elem. unfold ge_of, pair_less; simpl.
    intros H1 H2 Ha Hb. assert (k1 = k2) as -> by (by apply str_lt_antisym).
    f_equal. apply list_elem_of_lookup in H1 as [i Hi]. apply list_elem_of_lookup in H2 as [j Hj].
    assert (i = j) as ->; [|congruence].
    eapply (NoDup_lookup _ i j k2); [exact Hnd| |]; rewrite list_lookup_fmap;
      [by rewrite Hi|by rewrite Hj].
Qed.

Lemma marshal_eqv v1 : forall v2, any_wf v1 -> any_eqv v1 v2 -> json_marshal v1 = json_marshal v2.
Proof.
  induction v1 as [| | | | | | | | |l IH|l IH] using any_rect'; intros v2 Hwf E;
    inversion E as [|? l1 l2 Hp Hall|? l2 Hall]; subst; try done.
  - apply any_wf_map in Hwf as [Hnd Hwf]. rewrite !json_marshal_map. do 4 f_equal.
    trans (sort_stable pair_less ((fun kx => (fst kx, json_marshal (snd kx))) <$> l1)).
    + apply sort_pairs_unique; [by rewrite <- list_fmap_compose|by rewrite Hp].
    + f_equal. rewrite Hp in IH, Hwf. clear Hp Hnd E. induction Hall as [|[k1 x1] [k2 x2] l1 l2 [Hk Hx] _ IHl];
        [done|]. apply Forall_cons in IH as [IHx IH]. apply Forall_cons in Hwf as [Hwx Hwf].
      rewrite !fmap_cons. simpl in *. subst k2. f_equal; [|by apply IHl]. f_equal. by apply IHx.
  - apply any_wf_slice in Hwf. rewrite !json_marshal_slice. do 3 f_equal. clear E.
    induction Hall as [|x1 x2 l1 l2 Hx _ IHl]; [done|].
    apply Forall_cons in IH as [IHx IH]. apply Forall_cons in Hwf as [Hwx Hwf].
    rewrite !fmap_cons. f_equal; [by apply IHx|by apply IHl].
Qed.

End JsonFacts.

Lemma map_get_elem l k v : NoDup (fst <$> l) -> map_get l k = Some v <-> (k, v) ∈ l.
Proof.
  induction l as [|[k' v'] l IH]; intros Hnd; cbn [map_get]; [set_solver|].
  rewrite fmap_cons, NoDup_cons, list_elem_of_fmap in Hnd. destruct Hnd as [Hk Hnd].
  rewrite elem_of_cons. destruct (String.eqb_spec k' k) as [->|Hne].
  - split; [intros [= ->]; by left|]. intros [[= ->]|Hin]; [done|].
    exfalso. apply Hk. by exists (k, v).
  - rewrite IH by done. naive_solver.
Qed.

Lemma map_get_none l k : map_get l k = None <-> k ∉ fst <$> l.
Proof.
  induction l as [|[k' v'] l IH]; cbn [map_get]; [set_solver|].
  rewrite fmap_cons, not_elem_of_cons. destruct (String.eqb_spec k' k); naive_solver.
Qed.

Lemma has_key_spec l k : has_key l k = true <-> k ∈ fst <$> l.
Proof.
  unfold has_key. destruct (map_get l k) eqn:E.
  - split; [|done]. intros _. apply dec_stable. intros Hn.
    apply map_get_none in Hn. congruence.
  - apply map_get_none in E. naive_solver.
Qed.

(** ** Maps with string keys *)

(** [m[k] = v] and [delete(m, k)]. *)
Definition map_delete (k : string) (l : list (string * any)) : list (string * any) :=
  base.filter (fun kv => fst kv <> k) l.
Definition map_set (k : string) (v : any) (l : list (string * any)) : list (string * any) :=
  (k, v) :: map_delete k l.

Lemma map_get_delete k k' l : map_get (map_delete k l) k' = if String.eqb k k' then None else map_get l k'.
Proof.
  unfold map_delete. induction l as [|[k0 v] l IH]; [by destruct (String.eqb k k')|].
  rewrite filter_cons. cbn [fst]. destruct (decide (k0 <> k)) as [Hne|Heq]; cbn [map_get].
  - rewrite IH. destruct (String.eqb_spec k k') as [->|Hk]; [|done].
    by destruct (String.eqb_spec k0 k').
  - apply dec_stable in Heq as ->. rewrite IH. by destruct (String.eqb_spec k k').
Qed.

Lemma map_get_set k v k' l :
  map_get (map_set k v l) k' = if String.eqb k k' then Some v else map_get l k'.
Proof.
  unfold map_set. cbn [map_get]. destruct (String.eqb k k') eqn:E; [done|].
  by rewrite map_get_delete, E.
Qed.

Lemma map_delete_fresh k l : k ∉ fst <$> l -> map_delete k l = l.
Proof.
  intros Hk. unfold map_delete. induction l as [|[k' x] l IH]; [done|].
  rewrite fmap_cons, not_elem_of_cons in Hk. rewrite filter_cons_True by (simpl in *; naive_solver).
  f_equal. naive_solver.
Qed.
