(* ===== verification/GoFloat.v ===== *)
(** * Numbers of a JSON document as float64

    [strconv.ParseFloat(s, 64)] on the number literals of JSON, and the value a
    document becomes when [encoding/json] stores it in an [any]: numbers are
    float64, a literal beyond the range of float64 is an error, and of two
    members with one name the last counts. *)

From stdpp Require Import base gmap sets list strings.
From Stdlib Require Import Ascii ZArith DecimalString DecimalN.
From S2P Require Import Prelude GoStrings GoUnicode GoAny.
Local Open Scope string_scope.
Local Open Scope list_scope.
Local Open Scope Z_scope.

(** ** Decimal literals *)

Definition is_digit (a : ascii) : bool := (48 <=? N_of_ascii a)%N && (N_of_ascii a <=? 57)%N.

Definition digit_value (a : ascii) : Z := Z.of_N (N_of_ascii a) - 48.

(** The digits a text starts with, and what follows. *)
Fixpoint take_digits (s : string) : list ascii * string :=
  match s with
  | String a s' => if is_digit a then let '(d, r) := take_digits s' in (a :: d, r) else ([], s)
  | EmptyString => ([], EmptyString)
  end.

Definition digits_value (l : list ascii) : Z := foldl (fun acc a => 10 * acc + digit_value a) 0 l.

(** An optional fraction: its digits. *)
Definition take_fraction (s : string) : list ascii * string :=
  match s with
  | String a s' => if Ascii.eqb a "." then take_digits s' else ([], s)
  | EmptyString => ([], EmptyString)
  end.

(** An optional exponent: its value. *)
Definition take_exponent (s : string) : Z * string :=
  match s with
  | String a s' =>
      if Ascii.eqb a "e" || Ascii.eqb a "E" then
        match s' with
        | String b s'' =>
            if Ascii.eqb b "-" then let '(d, r) := take_digits s'' in (- digits_value d, r)
            else if Ascii.eqb b "+" then let '(d, r) := take_digits s'' in (digits_value d, r)
            else let '(d, r) := take_digits s' in (digits_value d, r)
        | EmptyString => (0, s)
        end
      else (0, s)
  | EmptyString => (0, EmptyString)
  end.

(** Digits and power of ten of a literal without sign. *)
Definition parse_unsigned (s : string) : option (Z * Z) :=
  let '(ip, s2) := take_digits s in
  let '(fp, s3) := take_fraction s2 in
  let '(e, s4) := take_exponent s3 in
  if is_empty s4 && negb (bool_decide (ip = []))
  then Some (digits_value (ip ++ fp), e - Z.of_nat (length fp))
  else None.

(** With the sign. *)
Definition parse_decimal (s : string) : option (bool * (Z * Z)) :=
  match s with
  | String a s' => if Ascii.eqb a "-" then pair true <$> parse_unsigned s' else pair false <$> parse_unsigned s
  | EmptyString => None
  end.

(** ** Rounding to float64 *)

(** The integer nearest to [n / d], the even one of two. *)
Definition round_half_even (n d : Z) : Z :=
  let q := n / d in
  let r := n mod d in
  if (2 * r <? d) || ((2 * r =? d) && Z.even q) then q else q + 1.

(** The exponent of the last place of [n / d] in float64: 53 significant bits,
    or fewer below the normal range. *)
Definition ulp_exponent (n d : Z) : Z :=
  let k := Z.log2 n - Z.log2 d - 52 in
  let k := if n * 2 ^ Z.max 0 (- (k + 52)) <? d * 2 ^ Z.max 0 (k + 52) then k - 1 else k in
  Z.max k (-1074).

(** The float64 nearest to [n / d]; [None]: it is beyond the finite range. *)
Definition round_float64 (n d : Z) : option float64 :=
  if n =? 0 then Some (mkFloat 0 0)
  else
    let k := ulp_exponent n d in
    let q := round_half_even (n * 2 ^ Z.max 0 (- k)) (d * 2 ^ Z.max 0 k) in
    if 2 ^ 1024 <=? q * 2 ^ Z.max 0 k then None else Some (mkFloat q k).

Definition float_opp (f : float64) : float64 := mkFloat (- f_mant f) (f_exp f).

(** [strconv.ParseFloat(s, 64)] on a literal of JSON. *)
Definition ParseFloat (s : string) : option float64 :=
  d ← parse_decimal s;
  let '(neg, (m, e)) := d : bool * (Z * Z) in
  f ← round_float64 (m * 10 ^ Z.max 0 e) (10 ^ Z.max 0 (- e));
  Some (if neg then float_opp f else f).

(** ** Documents as values of type [any] *)

(** A member set in a map, in the order of the document. *)
Definition set_member (m : list (string * any)) (kv : string * any) : list (string * any) :=
  map_set (fst kv) (snd kv) m.

(** [json.Unmarshal(raw, &v)] with [v] of type [any]; the error is the first
    literal out of range. *)
Fixpoint interface_value (v : any) : res string any :=
  let number s := match ParseFloat s with Some f => Ok (AFloat64 f) | None => Err s end in
  match v with
  | ANil | ANilMap => Ok ANil
  | ABool b => Ok (ABool b)
  | AString s => Ok (AString (to_utf8 s))
  | AFloat64 f => Ok (AFloat64 f)
  | ANumber s => number s
  | AInt64 z | AInt z => number (FormatInt z)
  | AInt64s l => ASlice <$> mapM (fun z => number (FormatInt z)) l
  | AMap l =>
      (fun l => AMap (foldl set_member [] l)) <$>
        (fix go l := match l with
         | [] => Ok []
         | (k, x) :: l' => y ← interface_value x; rest ← go l'; Ok ((to_utf8 k, y) :: rest)
         end) l
  | ASlice l =>
      ASlice <$> (fix go l := match l with
                  | [] => Ok []
                  | x :: l' => y ← interface_value x; rest ← go l'; Ok (y :: rest)
                  end) l
  end.

Definition interface_member (kv : string * any) : res string (string * any) :=
  y ← interface_value (snd kv); Ok (to_utf8 (fst kv), y).

(** The text of the error of a literal that float64 cannot hold. *)
Definition number_range_error (literal : string) : string :=
  "json: cannot unmarshal number " +:+ literal +:+ " into Go value of type float64".

Lemma interface_value_map l :
  interface_value (AMap l) = (fun l => AMap (foldl set_member [] l)) <$> mapM interface_member l.
Proof.
  cbn [interface_value]. f_equal. induction l as [|[k x] l IH]; [done|].
  cbn [mapM]. change (interface_member (k, x)) with (y ← interface_value x; Ok (to_utf8 k, y)).
  destruct (interface_value x) as [y|e]; [|done].
  cbn [mbind res_bind]. by rewrite IH.
Qed.

Lemma interface_value_slice l : interface_value (ASlice l) = ASlice <$> mapM interface_value l.
Proof. done. Qed.

(** ** Exactness of integers *)

Lemma round_half_even_exact n d : 0 < d -> n mod d = 0 -> round_half_even n d = n / d.
Proof.
  intros Hd Hr. unfold round_half_even. rewrite Hr.
  replace (2 * 0 <? d) with true by (symmetry; apply Z.ltb_lt; lia). done.
Qed.

(** An integer of at most 53 bits is represented exactly. *)
Lemma round_float64_exact n : 0 <= n < 2 ^ 53 ->
  exists f, round_float64 n 1 = Some f /\ float_trunc f = n /\ float_integral f = true.
Proof.
  intros Hn. unfold round_float64. destruct (Z.eqb_spec n 0) as [->|H0]; [by eexists|].
  assert (Hlog : 0 <= Z.log2 n < 53) by (split; [apply Z.log2_nonneg|apply Z.log2_lt_pow2; lia]).
  assert (Hk : Z.log2 n - 53 <= ulp_exponent n 1 <= 0).
  { unfold ulp_exponent. change (Z.log2 1) with 0. cbv zeta. case_match; lia. }
  generalize dependent (ulp_exponent n 1). intros k Hk.
  replace (Z.max 0 k) with 0 by lia. replace (Z.max 0 (- k)) with (- k) by lia. change (1 * 2 ^ 0) with 1.
  rewrite round_half_even_exact by (lia || apply Z.mod_1_r). rewrite Z.div_1_r, Z.pow_0_r, Z.mul_1_r.
  assert (Hp : 0 < 2 ^ (- k)) by (apply Z.pow_pos_nonneg; lia).
  assert (Hb : n * 2 ^ (- k) < 2 ^ 1024).
  { assert (2 ^ (- k) <= 2 ^ 53) by (apply Z.pow_le_mono_r; lia).
    apply Z.lt_le_trans with (2 ^ 53 * 2 ^ 53); [nia|]. rewrite <- Z.pow_add_r by lia.
    apply Z.pow_le_mono_r; lia. }
  destruct (Z.leb_spec (2 ^ 1024) (n * 2 ^ (- k))); [lia|]. eexists. split; [done|].
  unfold float_trunc, float_integral. cbn [f_mant f_exp].
  destruct (Z.leb_spec 0 k).
  - assert (k = 0) as -> by lia. cbn. split; [lia|done].
  - rewrite Z.quot_mul, Z.rem_mul by lia. done.
Qed.

(** The rounding is to a nearest integer, so a float64 is within half a unit in
    the last place of the literal. *)
Lemma round_half_even_nearest n d : 0 < d -> 2 * Z.abs (n - d * round_half_even n d) <= d.
Proof.
  intros Hd. unfold round_half_even. assert (E := Z.div_mod n d ltac:(lia)). assert (B := Z.mod_pos_bound n d Hd).
  destruct (Z.ltb_spec (2 * (n mod d)) d); simpl; [lia|].
  destruct (Z.eqb_spec (2 * (n mod d)) d); simpl; [destruct (Z.even _)|]; lia.
Qed.

Lemma digits_acc u p :
  foldl (fun acc a => 10 * acc + digit_value a) (Zpos p)
    (String.list_ascii_of_string (NilEmpty.string_of_uint u)) = Zpos (Pos.of_uint_acc u p).
Proof.
  revert p. induction u as [|u IH|u IH|u IH|u IH|u IH|u IH|u IH|u IH|u IH|u IH]; intros p; [done|..];
    cbn [NilEmpty.string_of_uint String.list_ascii_of_string foldl Pos.of_uint_acc]; rewrite <- IH; f_equal;
    match goal with |- context [digit_value ?a] =>
      let v := eval vm_compute in (digit_value a) in change (digit_value a) with v end; lia.
Qed.

Lemma digits_value_uint u :
  digits_value (String.list_ascii_of_string (NilEmpty.string_of_uint u)) = Z.of_N (N.of_uint u).
Proof.
  unfold digits_value.
  induction u as [|u IH|u IH|u IH|u IH|u IH|u IH|u IH|u IH|u IH|u IH]; [done| |..];
    cbn [NilEmpty.string_of_uint String.list_ascii_of_string foldl];
    match goal with |- context [10 * 0 + digit_value ?a] =>
      let v := eval vm_compute in (10 * 0 + digit_value a) in change (10 * 0 + digit_value a) with v end;
    [exact IH|apply digits_acc..].
Qed.

Lemma take_digits_uint u s :
  match s with String a _ => is_digit a = false | EmptyString => True end ->
  take_digits (NilEmpty.string_of_uint u +:+ s) = (String.list_ascii_of_string (NilEmpty.string_of_uint u), s).
Proof.
  intros Hs. induction u; [destruct s; [done|simpl; by rewrite Hs]|..]; cbn [NilEmpty.string_of_uint];
    match goal with |- context [String ?a ?x +:+ s] => change (String a x +:+ s) with (String a (x +:+ s)) end;
    cbn [take_digits String.list_ascii_of_string]; rewrite IHu; done.
Qed.

Lemma NilZero_NilEmpty n : NilZero.string_of_uint (N.to_uint n) = NilEmpty.string_of_uint (N.to_uint n).
Proof. destruct (N.to_uint n) eqn:E; try done. by destruct (to_uint_nonnil n). Qed.

Lemma parse_unsigned_uint n :
  parse_unsigned (NilZero.string_of_uint (N.to_uint n)) = Some (Z.of_N n, 0).
Proof.
  destruct (string_of_uint_head (N.to_uint n)) as (c & s & E & Hc & _).
  unfold parse_unsigned. rewrite NilZero_NilEmpty in *.
  assert (T := take_digits_uint (N.to_uint n) EmptyString I). rewrite string_app_nil_r in T. rewrite T.
  cbn [take_fraction take_exponent is_empty andb].
  rewrite bool_decide_false by (rewrite E; done). cbn [negb].
  rewrite app_nil_r, digits_value_uint, DecimalN.Unsigned.of_to. done.
Qed.

Lemma parse_decimal_FormatInt z : parse_decimal (FormatInt z) = Some ((z <? 0)%Z, (Z.abs z, 0)).
Proof.
  destruct z as [|p|p]; [done|..]; unfold FormatInt, parse_decimal.
  - destruct (string_of_uint_head (N.to_uint (Npos p))) as (c & s & E & Hc & _).
    rewrite E, Hc, <- E, parse_unsigned_uint. done.
  - change (Ascii.eqb "-" "-") with true. cbv iota. by rewrite parse_unsigned_uint.
Qed.

(** The integers of up to 53 bits that a document holds are the integers it
    is read as. *)
Lemma ParseFloat_FormatInt z : - 2 ^ 53 < z < 2 ^ 53 ->
  exists f, ParseFloat (FormatInt z) = Some f /\ float_trunc f = z /\ float_integral f = true.
Proof.
  intros Hz. destruct (round_float64_exact (Z.abs z)) as (f & Hf & Ht & Hi); [lia|].
  unfold ParseFloat. rewrite parse_decimal_FormatInt. cbn [mbind option_bind].
  change (Z.max 0 0) with 0. change (Z.max 0 (- 0)) with 0. rewrite Z.pow_0_r, Z.mul_1_r, Hf.
  cbn [mbind option_bind]. eexists. split; [done|]. destruct (Z.ltb_spec z 0); [|lia || split; [lia|done]].
  unfold float_trunc, float_integral, float_opp in *. cbn [f_mant f_exp].
  destruct (0 <=? f_exp f) eqn:E0; [split; [lia|done]|].
  rewrite Z.quot_opp_l, Z.rem_opp_l by (apply Z.pow_nonzero; apply Z.leb_gt in E0; lia).
  simpl in Hi |- *. rewrite Z.eqb_eq in *. lia.
Qed.
