(* ===== verification/PayloadHash.v ===== *)
(** * The hashed payload

    [internal/payloadhash]: the closed form of a persist payload, its
    normalisation and its digest ([digest.go], [normalize.go], [errors.go]). *)

From stdpp Require Import base gmap sets list strings sorting.
From Stdlib Require Import Ascii ZArith.
From S2P Require Import Prelude GoStrings GoUnicode GoAny GoFloat Sha256.
Local Open Scope string_scope.
Local Open Scope list_scope.

(** ** Data *)

Definition ReasonNotObject : string := "hashed_payload_not_object".
Definition ReasonMissingField : string := "hashed_payload_missing_field".
Definition ReasonUnknownField : string := "hashed_payload_unknown_field".
Definition ReasonNullForbidden : string := "hashed_payload_null_forbidden".
Definition ReasonNumberForbidden : string := "hashed_payload_number_forbidden".
Definition ReasonUnsupportedType : string := "hashed_payload_unsupported_type".
Definition ReasonFindingsNotArray : string := "accepted_findings_not_array".
Definition ReasonFindingsItemType : string := "accepted_findings_item_not_string".
Definition ReasonCanonicalizeFailed : string := "jcs_canonicalize_failed".

Record HashError := reject {
  he_Reason : string;
  he_Path : string;
  he_Message : string
}.

Definition HashError_Error (e : option HashError) : string :=
  match e with
  | None => EmptyString
  | Some e =>
      if negb (is_empty (he_Path e))
      then he_Reason e +:+ ": " +:+ he_Message e +:+ " (" +:+ he_Path e +:+ ")"
      else if negb (is_empty (he_Message e)) then he_Reason e +:+ ": " +:+ he_Message e
      else he_Reason e
  end.

Definition closedFields : list string :=
  ["schema_version"; "crypto_policy_id"; "required_posture"; "user_constraints";
   "solution_profile_ref"; "accepted_provider_snapshot"; "accepted_findings"].

(** RFC 8785 canonicalisation is a library outside the repository
    (github.com/gowebpki/jcs): a function of the text to a text or an error. *)
Class JCS := { jcs_Transform : string -> res string string }.

(** ** NormalizeAcceptedFindings *)

(** The compaction loop on the sorted slice: [i] is the index read, [n] the
    index written; the slice is updated in place. *)
Fixpoint compact_loop (fuel i n : nat) (out : list string) : list string * nat :=
  match fuel with
  | O => (out, n)
  | S fuel' =>
      match out !! i with
      | None => (out, n)
      | Some s =>
          if Nat.ltb 0 i && bool_decide (out !! (i - 1)%nat = Some s)
          then compact_loop fuel' (S i) n out
          else compact_loop fuel' (S i) (S n) (<[n := s]> out)
      end
  end.

(** [sort.Strings] has one result, which insertion computes. *)
Definition NormalizeAcceptedFindings (findings : list string) : list string :=
  if Nat.eqb (length findings) 0 then []
  else
    let out := sort_stable str_lt findings in
    let '(out', n) := compact_loop (length out) 0 0 out in
    take n out'.

(** ** DigestCanonical *)

Section Digest.
Context `{F : GoFloat, J : JCS}.

Fixpoint first_unknown (obj : list (string * any)) : option string :=
  match obj with
  | [] => None
  | (k, _) :: obj' => if existsb (String.eqb k) closedFields then first_unknown obj' else Some k
  end.

Fixpoint first_missing (obj : list (string * any)) (fields : list string) : option string :=
  match fields with
  | [] => None
  | f :: fields' => if has_key obj f then first_missing obj fields' else Some f
  end.

Fixpoint assertAllowedSubtree (v : any) (path : string) : res HashError unit :=
  match v with
  | ANil => Err (reject ReasonNullForbidden path "null forbidden in hashed subtree")
  | AFloat64 f => Err (reject ReasonNumberForbidden path
      ("number forbidden in hashed subtree (got " +:+ float_text f +:+ ")"))
  | ANumber s => Err (reject ReasonNumberForbidden path
      ("number forbidden in hashed subtree (got " +:+ s +:+ ")"))
  | ABool _ | AString _ => Ok tt
  | ANilMap => Ok tt
  | AMap l =>
      (fix go l := match l with
       | [] => Ok tt
       | (k, child) :: l' =>
           match assertAllowedSubtree child (path +:+ "." +:+ k) with
           | Err e => Err e
           | Ok _ => go l'
           end
       end) l
  | ASlice l =>
      (fix go (i : nat) l := match l with
       | [] => Ok tt
       | child :: l' =>
           match assertAllowedSubtree child (path +:+ "[" +:+ FormatInt (Z.of_nat i) +:+ "]") with
           | Err e => Err e
           | Ok _ => go (S i) l'
           end
       end) 0%nat l
  | AInt64 _ | AInt _ | AInt64s _ =>
      Err (reject ReasonUnsupportedType path ("unsupported JSON type " +:+ type_text v))
  end.

Fixpoint findings_items (i : nat) (path : string) (arr : list any) : res HashError (list string) :=
  match arr with
  | [] => Ok []
  | AString s :: arr' => out ← findings_items (S i) path arr'; Ok (s :: out)
  | _ :: _ => Err (reject ReasonFindingsItemType
                (path +:+ "[" +:+ FormatInt (Z.of_nat i) +:+ "]")
                "accepted_findings items must be strings")
  end.

Definition findingsAsStrings (v : option any) (path : string) : res HashError (list string) :=
  match v with
  | Some (ASlice arr) => findings_items 0 path arr
  | _ => Err (reject ReasonFindingsNotArray path "accepted_findings must be a JSON array")
  end.

(** The closed object: the seven fields, the findings normalised.  A missing
    entry reads as nil. *)
Definition closed_object (obj : list (string * any)) (normalized : list string)
    : list (string * any) :=
  (fun field =>
     (field, if String.eqb field "accepted_findings" then ASlice (AString <$> normalized)
             else match map_get obj field with Some v => v | None => ANil end))
    <$> closedFields.

Definition DigestCanonical (root : any) : res HashError (string * list (string * any)) :=
  match as_map root with
  | None => Err (reject ReasonNotObject "$" "hashed payload must be a JSON object")
  | Some obj =>
      fail_if is_nil_map root
        with reject ReasonNotObject "$" "hashed payload must be a JSON object" ;;
      match first_unknown obj with
      | Some key => Err (reject ReasonUnknownField ("$." +:+ key) "unknown top-level hashed field")
      | None =>
          match first_missing obj closedFields with
          | Some field =>
              Err (reject ReasonMissingField ("$." +:+ field) "required closed field missing")
          | None =>
              _ ← assertAllowedSubtree root "$";
              findings ← findingsAsStrings (map_get obj "accepted_findings") "$.accepted_findings";
              let closed := closed_object obj (NormalizeAcceptedFindings findings) in
              match jcs_Transform (json_marshal (AMap closed)) with
              | Err text => Err (reject ReasonCanonicalizeFailed "$" text)
              | Ok canon => Ok (sha256_hex canon, closed)
              end
          end
      end
  end.

(** The document of a raw payload, as [json.Unmarshal] stores it in an [any]. *)
Definition DigestCanonicalJSON (raw : any) : res HashError (string * list (string * any)) :=
  match interface_value raw with
  | Err literal => Err (reject ReasonNotObject "$" ("invalid JSON: " +:+ number_range_error literal))
  | Ok root => DigestCanonical root
  end.

Definition DigestJSON (raw : any) : res HashError string := fst <$> DigestCanonicalJSON raw.

End Digest.

(** For evaluation: a canonicaliser that keeps the text, which is what RFC 8785
    asks for on objects whose keys and values are plain ASCII. *)
Definition identity_JCS : JCS := {| jcs_Transform := fun s => Ok s |}.

(** ** The golden vectors of [internal/contract/testdata/payload_sha256] *)

Definition str_map (l : list (string * string)) : any := AMap ((fun kv => (fst kv, AString (snd kv))) <$> l).
Definition str_list (l : list string) : any := ASlice (AString <$> l).

Definition golden_minimal : any := AMap
  [("schema_version", AString "cafe.crypto_policy.v0.2");
   ("crypto_policy_id", AString "cpm_pq_account_validation_v1");
   ("required_posture", AString "hybrid");
   ("user_constraints", AMap
      [("allow_new_wallet", ABool true); ("address_continuity_required", ABool false);
       ("key_rotation_model", AString "per_userop")]);
   ("solution_profile_ref", str_map
      [("provider_id", "nicetry"); ("solution_profile_id", "nicetry.fors_c.erc4337.v0_1");
       ("manifest_version", "2026-08")]);
   ("accepted_provider_snapshot", AMap
      [("maturity", AString "research"); ("claim_status", AString "declared");
       ("resulting_posture", AString "hybrid");
       ("signature", str_map [("scheme", "FORS+C"); ("family", "hash_based");
                              ("key_rotation_model", "per_userop")]);
       ("account_model", AMap [("standard", AString "ERC-4337");
                               ("execution_model", AString "erc4337_bundler");
                               ("requires_bundler", ABool true)]);
       ("constraints", AMap [("requires_new_account", ABool true);
                             ("requires_local_signer_state", ABool true)]);
       ("chain_support_used", ASlice
          [AMap [("chain_id", AString "1"); ("status", AString "production_supported");
                 ("capabilities", str_list ["deploy"; "sign_userop"; "rotate_signer"])];
           AMap [("chain_id", AString "11155111"); ("status", AString "testnet_supported");
                 ("capabilities", str_list ["deploy"; "sign_userop"; "rotate_signer"])]]);
       ("references", ASlice [str_map [("kind", "source_repo"); ("url", "https://example.com/a");
                                       ("commit", "deadbeef")]]);
       ("accepted_findings", str_list ["requires_bundler"; "requires_local_signer_state"])]);
   ("accepted_findings", str_list ["requires_local_signer_state"; "requires_bundler";
                                   "requires_local_signer_state"])].

Example golden_minimal_digest :
  fst <$> @DigestCanonical _ identity_JCS golden_minimal
  = Ok "2f54b2fbf6c519ad147a1840def48d3684d66d23f306c85fa19a88d756721e3d".
Proof. vm_compute. reflexivity. Qed.

(** ** The normal form of findings *)

(** Reference: drop each element equal to its predecessor. *)
Fixpoint uniq_adjacent (prev : option string) (l : list string) : list string :=
  match l with
  | [] => []
  | s :: l' => if decide (prev = Some s) then uniq_adjacent prev l' else s :: uniq_adjacent (Some s) l'
  end.

Lemma compact_loop_spec fuel i n out :
  i + fuel = length out -> n <= i ->
  let '(out', n') := compact_loop fuel i n out in
  take n' out' = take n out
    ++ uniq_adjacent (if Nat.ltb 0 i then out !! (i - 1) else None) (drop i out).
Proof.
  revert i n out. induction fuel as [|fuel IH]; intros i n out Hi Hn; cbn [compact_loop].
  { rewrite drop_ge by lia. by rewrite app_nil_r. }
  destruct (lookup_lt_is_Some_2 out i) as [s Hs]; [lia|]. rewrite Hs, (drop_S out s i Hs).
  cbn [uniq_adjacent].
  assert (forall o : list string, o !! i = Some s -> (if Nat.ltb 0 (S i) then o !! (S i - 1) else None) = Some s)
    as Hprev by (intros o Ho; simpl; by rewrite Nat.sub_0_r).
  destruct (Nat.ltb 0 i && bool_decide (out !! (i - 1) = Some s)) eqn:Hskip.
  - apply andb_true_iff in Hskip as [Hlt Hb]. apply bool_decide_eq_true in Hb. rewrite Hlt.
    rewrite decide_True by done. specialize (IH (S i) n out). rewrite (Hprev out Hs) in IH.
    rewrite Hb. apply IH; lia.
  - rewrite decide_False; cycle 1.
    { intros E. destruct (Nat.ltb 0 i); [|done]. simpl in Hskip.
      apply bool_decide_eq_false in Hskip. done. }
    specialize (IH (S i) (S n) (<[n := s]> out)).
    assert (<[n := s]> out !! i = Some s) as Hs'.
    { destruct (decide (n = i)) as [->|Hne]; [apply list_lookup_insert_eq; lia|].
      by rewrite list_lookup_insert_ne. }
    rewrite (Hprev _ Hs'), drop_insert_lt, (take_S_r _ _ s), take_insert_ge in IH by
      (first [lia|apply list_lookup_insert_eq; lia]).
    rewrite <- app_assoc in IH. apply IH; [rewrite length_insert; lia|lia].
Qed.

Lemma NormalizeAcceptedFindings_uniq l :
  NormalizeAcceptedFindings l = uniq_adjacent None (sort_stable str_lt l).
Proof.
  unfold NormalizeAcceptedFindings. destruct l as [|x l]; [done|]. cbn [length Nat.eqb].
  pose proof (compact_loop_spec (length (sort_stable str_lt (x :: l))) 0 0
    (sort_stable str_lt (x :: l)) eq_refl (Nat.le_refl 0)) as H.
  destruct (compact_loop _ _ _ _) as [out' n']. by rewrite H.
Qed.

Lemma uniq_adjacent_spec prev l :
  StronglySorted (fun a b => str_lt b a = false) l ->
  (forall p, prev = Some p -> Forall (fun s => str_lt s p = false) l) ->
  StronglySorted (fun a b => str_lt a b = true) (uniq_adjacent prev l)
  /\ (forall p, prev = Some p -> Forall (fun s => str_lt p s = true) (uniq_adjacent prev l))
  /\ (forall s, s ∈ uniq_adjacent prev l <-> s ∈ l /\ prev <> Some s).
Proof.
  revert prev. induction l as [|x l IH]; intros prev Hs Hp; cbn [uniq_adjacent].
  { split_and!; [constructor|constructor|set_solver]. }
  apply StronglySorted_inv in Hs as [Hs Hx]. case_decide as Hd.
  - destruct (IH prev Hs) as (H1 & H2 & H3).
    { intros p E. specialize (Hp p E). by apply Forall_cons in Hp as [_ ?]. }
    split_and!; [done..|]. intros s. rewrite H3, elem_of_cons. naive_solver.
  - destruct (IH (Some x) Hs) as (H1 & H2 & H3).
    { intros p [= <-]. done. }
    specialize (H2 x eq_refl). split_and!.
    + by constructor.
    + intros p E. specialize (Hp p E). apply Forall_cons in Hp as [Hpx _].
      assert (str_lt p x = true) as Hlt.
      { destruct (str_lt_total p x) as [->|[?|?]]; [done|done|congruence]. }
      constructor; [done|]. eapply Forall_impl; [exact H2|]. intros s Hxs.
      by eapply str_lt_trans.
    + intros s. rewrite !elem_of_cons, H3. split; [|destruct (decide (s = x)); naive_solver].
      intros [->|[Hin Hne]]; [naive_solver|]. split; [by right|]. intros ->.
      specialize (Hp s eq_refl). apply Forall_cons in Hp as [Hpx _].
      rewrite Forall_forall in Hx. specialize (Hx s Hin).
      apply Hne. f_equal. by apply str_lt_antisym.
Qed.

#[local] Instance WeakOrder_str_lt : WeakOrder str_lt := WeakOrder_str (fun s => s).

Lemma normal_form l :
  StronglySorted (fun a b => str_lt a b = true) (NormalizeAcceptedFindings l)
  /\ forall s, s ∈ NormalizeAcceptedFindings l <-> s ∈ l.
Proof.
  rewrite NormalizeAcceptedFindings_uniq.
  destruct (uniq_adjacent_spec None (sort_stable str_lt l)) as (H1 & _ & H3).
  - assert (Transitive (ge_of str_lt)) by apply weak_trans.
    exact (Sorted_StronglySorted _ _ (sort_stable_sorted str_lt l)).
  - done.
  - split; [done|]. intros s. rewrite H3, sort_stable_elem. naive_solver.
Qed.

Lemma normal_form_elem l s : s ∈ NormalizeAcceptedFindings l <-> s ∈ l.
Proof. apply normal_form. Qed.

(** A strictly sorted list is determined by its elements. *)
Lemma strictly_sorted_unique (l1 l2 : list string) :
  StronglySorted (fun a b => str_lt a b = true) l1 ->
  StronglySorted (fun a b => str_lt a b = true) l2 ->
  (forall s, s ∈ l1 <-> s ∈ l2) -> l1 = l2.
Proof.
  intros H1. revert l2. induction H1 as [|x l1 Hs IH Hx]; intros l2 H2 E.
  { symmetry. apply elem_of_nil_inv. intros s. rewrite <- E. set_solver. }
  destruct H2 as [|y l2 H2 Hy]; [specialize (E x); set_solver|].
  rewrite Forall_forall in Hx, Hy.
  assert (x = y) as ->.
  { destruct (decide (x = y)) as [|Hne]; [done|].
    assert (x ∈ l2) as Hx2 by (specialize (E x); set_solver).
    assert (y ∈ l1) as Hy1 by (specialize (E y); set_solver).
    specialize (Hx y Hy1). specialize (Hy x Hx2).
    pose proof (str_lt_trans _ _ _ Hx Hy) as Hc. by rewrite str_lt_irrefl in Hc. }
  f_equal. apply IH; [done|]. intros s.
  assert (y ∉ l1) by (intros Hin; specialize (Hx y Hin); by rewrite str_lt_irrefl in Hx).
  assert (y ∉ l2) by (intros Hin; specialize (Hy y Hin); by rewrite str_lt_irrefl in Hy).
  specialize (E s). rewrite !elem_of_cons in E.
  destruct (decide (s = y)) as [->|]; naive_solver.
Qed.

Lemma normal_form_ext l1 l2 : (forall s, s ∈ l1 <-> s ∈ l2) ->
  NormalizeAcceptedFindings l1 = NormalizeAcceptedFindings l2.
Proof.
  intros E. destruct (normal_form l1) as [S1 E1], (normal_form l2) as [S2 E2].
  apply strictly_sorted_unique; [done|done|]. intros s. by rewrite E1, E2.
Qed.

(** The in-place sort-and-compact of [NormalizeAcceptedFindings] returns
    the findings without duplicates in strictly increasing order; lists with
    the same elements have the same normal form, and a normal form is its own. *)
Theorem NormalizeAcceptedFindings_correct l :
  StronglySorted (fun a b => str_lt a b = true) (NormalizeAcceptedFindings l)
  /\ (forall s, s ∈ NormalizeAcceptedFindings l <-> s ∈ l)
  /\ (forall l', (forall s, s ∈ l' <-> s ∈ l) ->
        NormalizeAcceptedFindings l' = NormalizeAcceptedFindings l)
  /\ NormalizeAcceptedFindings (NormalizeAcceptedFindings l) = NormalizeAcceptedFindings l.
Proof.
  destruct (normal_form l) as [H1 H2]. split_and!; [done|done| |].
  - intros l' E. by apply normal_form_ext.
  - by apply normal_form_ext.
Qed.

(** ** What is hashed *)

(** Strings, booleans, objects and arrays only. *)
Fixpoint allowed (v : any) : Prop :=
  match v with
  | ABool _ | AString _ | ANilMap => True
  | AMap l => (fix go l := match l with [] => True | (_, x) :: l' => allowed x /\ go l' end) l
  | ASlice l => (fix go l := match l with [] => True | x :: l' => allowed x /\ go l' end) l
  | _ => False
  end.

Lemma allowed_map l : allowed (AMap l) <-> Forall (fun kv => allowed (snd kv)) l.
Proof.
  cbn [allowed]. induction l as [|[k x] l IH]; [naive_solver|]. rewrite Forall_cons, <- IH. done.
Qed.

Lemma allowed_slice l : allowed (ASlice l) <-> Forall allowed l.
Proof. cbn [allowed]. induction l as [|x l IH]; [naive_solver|]. rewrite Forall_cons, <- IH. done. Qed.

Lemma map_get_eqv l1 l2 k v :
  NoDup (fst <$> l1) -> any_eqv (AMap l1) (AMap l2) ->
  map_get l1 k = Some v -> exists v', map_get l2 k = Some v' /\ any_eqv v v'.
Proof.
  intros Hnd E. inversion E as [|? l1' ? Hp Hall|]; subst; [naive_solver constructor|].
  rewrite map_get_elem by done. rewrite Hp. rewrite Hp in Hnd. clear Hp E.
  induction Hall as [|[k1 x1] [k2 x2] l1' l2 [Hk Hx] _ IH]; [set_solver|].
  rewrite fmap_cons, NoDup_cons, list_elem_of_fmap in Hnd. destruct Hnd as [Hk1 Hnd].
  simpl in *. subst k2. rewrite elem_of_cons. intros Hin. cbn [map_get].
  destruct (String.eqb_spec k1 k) as [->|Hne].
  - destruct Hin as [[= ->]|Hin]; [by exists x2|]. exfalso. apply Hk1. by exists (k, v).
  - apply IH; [done|]. naive_solver.
Qed.

Lemma keys_eqv l1 l2 : any_eqv (AMap l1) (AMap l2) -> fst <$> l1 ≡ₚ fst <$> l2.
Proof.
  intros E. inversion E as [|? l1' ? Hp Hall|]; subst; [done|]. rewrite Hp. clear -Hall.
  induction Hall as [|a b l1' l2 [Hk _] _ IH]; [done|]. rewrite !fmap_cons, Hk. by f_equiv.
Qed.

Lemma allowed_eqv v1 : forall v2, any_eqv v1 v2 -> allowed v1 -> allowed v2.
Proof.
  induction v1 as [| | | | | | | | |l IH|l IH] using any_rect'; intros v2 E;
    inversion E as [|? l1 l2 Hp Hall|? l2 Hall]; subst; try done.
  - rewrite !allowed_map. rewrite Hp in *. clear Hp E.
    induction Hall as [|a b l1 l2 [_ Hx] _ IHl]; [done|].
    rewrite !Forall_cons in *. destruct IH as [IHx IH]. intros [Ha Hl]. split; [by eapply IHx|by apply IHl].
  - rewrite !allowed_slice. clear E. induction Hall as [|a b l1 l2 Hx _ IHl]; [done|].
    rewrite !Forall_cons in *. destruct IH as [IHx IH]. intros [Ha Hl]. split; [by apply IHx|by apply IHl].
Qed.

Lemma findings_items_ok i path arr l :
  findings_items i path arr = Ok l <-> arr = AString <$> l.
Proof.
  revert i l. induction arr as [|x arr IH]; intros i l; cbn [findings_items].
  { split; [intros [= <-]; done|]. destruct l; naive_solver. }
  destruct x; try (split; [done|destruct l; naive_solver]).
  rewrite res_bind_ok. setoid_rewrite IH. split.
  - intros (out & -> & [= <-]). done.
  - destruct l as [|s' l]; [done|]. intros [= -> ->]. by exists l.
Qed.

Lemma findingsAsStrings_ok v path l :
  findingsAsStrings v path = Ok l <-> v = Some (str_list l).
Proof.
  unfold findingsAsStrings, str_list. destruct v as [[]|]; try naive_solver.
  rewrite findings_items_ok. naive_solver.
Qed.

Lemma eqv_str_list l v : any_eqv (str_list l) v -> v = str_list l.
Proof.
  unfold str_list. intros E. inversion E as [| |? l2 Hall]; subst; [done|]. f_equal. clear E.
  revert l2 Hall. induction l as [|s l IH]; intros l2 Hall; inversion Hall as [|? x ? ? Hx]; subst; [done|].
  inversion Hx; subst. rewrite fmap_cons. f_equal. by apply IH.
Qed.

Lemma str_list_inj (l1 : list string) : forall l2 : list string, AString <$> l1 = AString <$> l2 -> l1 = l2.
Proof.
  induction l1 as [|s l1 IH]; intros [|s' l2]; [done..|]. rewrite !fmap_cons.
  intros [= -> E]. f_equal. by apply IH.
Qed.

Section DigestSpec.
Context `{F : GoFloat, J : JCS}.

Lemma assertAllowedSubtree_ok v : forall path, assertAllowedSubtree v path = Ok tt <-> allowed v.
Proof.
  induction v as [| | | | | | | | |l IH|l IH] using any_rect'; intros path;
    cbn [assertAllowedSubtree]; try (split; done).
  - rewrite allowed_map. induction l as [|[k x] l IHl]; [by split; [constructor|]|].
    apply Forall_cons in IH as [IHx IH]. simpl in IHx. rewrite Forall_cons, <- (IHx (path +:+ "." +:+ k)).
    destruct (assertAllowedSubtree x _) as [[]|]; [|naive_solver]. rewrite IHl by done. naive_solver.
  - rewrite allowed_slice. generalize 0 at 1.
    induction l as [|x l IHl]; intros i; [by split; [constructor|]|].
    apply Forall_cons in IH as [IHx IH].
    rewrite Forall_cons, <- (IHx (path +:+ "[" +:+ FormatInt (Z.of_nat i) +:+ "]")).
    destruct (assertAllowedSubtree x _) as [[]|]; [|naive_solver]. rewrite IHl by done. naive_solver.
Qed.

Lemma first_unknown_none obj : first_unknown obj = None <-> Forall (fun k => k ∈ closedFields) (fst <$> obj).
Proof.
  induction obj as [|[k v] obj IH]; cbn [first_unknown]; [by split; [constructor|]|].
  rewrite fmap_cons, Forall_cons. cbn [fst].
  destruct (existsb (String.eqb k) closedFields) eqn:E.
  - apply existsb_exists in E as (k' & Hin & ->%String.eqb_eq).
    rewrite <- list_elem_of_In in Hin. rewrite IH. naive_solver.
  - split; [done|]. intros [Hk _]. exfalso. apply list_elem_of_In in Hk.
    assert (existsb (String.eqb k) closedFields = true); [|congruence].
    apply existsb_exists. exists k. by rewrite String.eqb_refl.
Qed.

Lemma first_missing_none obj fields :
  first_missing obj fields = None <-> Forall (fun f => f ∈ fst <$> obj) fields.
Proof.
  induction fields as [|f fields IH]; cbn [first_missing]; [by split; [constructor|]|].
  rewrite Forall_cons, <- has_key_spec. destruct (has_key obj f); naive_solver.
Qed.

(** The objects that have a digest, up to canonicalisation. *)
Definition hashable (obj : list (string * any)) (findings : list string) : Prop :=
  (forall k, k ∈ fst <$> obj <-> k ∈ closedFields)
  /\ allowed (AMap obj)
  /\ map_get obj "accepted_findings" = Some (str_list findings).

Lemma DigestCanonical_ok root d closed :
  DigestCanonical root = Ok (d, closed) <->
  exists obj findings canon, root = AMap obj /\ hashable obj findings
    /\ closed = closed_object obj (NormalizeAcceptedFindings findings)
    /\ jcs_Transform (json_marshal (AMap closed)) = Ok canon /\ d = sha256_hex canon.
Proof.
  unfold DigestCanonical, hashable. destruct root as [| | | | | | | | |obj|];
    cbn [as_map is_nil_map guard_err];
    try (split; [done|intros (?&?&?&?&_); done]).
  destruct (first_unknown obj) eqn:Hu.
  { split; [done|]. intros (? & ? & ? & [= <-] & (Hk & _) & _).
    assert (first_unknown obj = None); [|congruence].
    apply first_unknown_none, Forall_forall. naive_solver. }
  destruct (first_missing obj closedFields) eqn:Hm.
  { split; [done|]. intros (? & ? & ? & [= <-] & (Hk & _) & _).
    assert (first_missing obj closedFields = None); [|congruence].
    apply first_missing_none, Forall_forall. naive_solver. }
  apply first_unknown_none in Hu. apply first_missing_none in Hm. rewrite Forall_forall in Hu, Hm.
  rewrite res_bind_ok. setoid_rewrite res_bind_ok. setoid_rewrite findingsAsStrings_ok. split.
  - intros ([] & Ha & findings & Hf & E). apply assertAllowedSubtree_ok in Ha.
    destruct (jcs_Transform _) as [canon|] eqn:Hj; [|done]. injection E as <- <-.
    exists obj, findings, canon. split_and!; try done. intros k. split; [apply Hu|apply Hm].
  - intros (obj0 & findings & canon & [= <-] & (_ & Ha & Hf) & -> & Hj & ->).
    exists tt. rewrite assertAllowedSubtree_ok. split; [done|]. exists findings. split; [done|].
    by rewrite Hj.
Qed.

(** The closed object read back. *)
Lemma DigestCanonicalJSON_ok raw d closed :
  DigestCanonicalJSON raw = Ok (d, closed) <->
  exists root, interface_value raw = Ok root /\ DigestCanonical root = Ok (d, closed).
Proof. unfold DigestCanonicalJSON. destruct (interface_value raw); naive_solver. Qed.

Lemma closed_object_get obj findings f : f ∈ closedFields -> f <> "accepted_findings" ->
  map_get (closed_object obj findings) f
  = Some (match map_get obj f with Some v => v | None => ANil end).
Proof.
  intros Hf Hne. unfold closed_object. induction closedFields as [|f' l IH]; [set_solver|].
  rewrite fmap_cons. cbn [map_get]. destruct (String.eqb_spec f' f) as [->|Hff].
  - apply String.eqb_neq in Hne as ->. done.
  - apply IH. set_solver.
Qed.

Lemma closed_object_findings obj findings :
  map_get (closed_object obj findings) "accepted_findings" = Some (str_list findings).
Proof. reflexivity. Qed.

Lemma closed_object_keys obj findings : fst <$> closed_object obj findings = closedFields.
Proof. reflexivity. Qed.

Lemma allowed_get obj f v : allowed (AMap obj) -> map_get obj f = Some v -> allowed v.
Proof.
  rewrite allowed_map. induction obj as [|[k x] obj IH]; cbn [map_get]; [done|].
  rewrite Forall_cons. intros [Hx Ho]. case_match; [intros [= <-]; done|]. by apply IH.
Qed.

Lemma closed_object_allowed obj findings l : hashable obj l ->
  allowed (AMap (closed_object obj findings)).
Proof.
  intros (Hk & Ha & _). rewrite allowed_map. unfold closed_object.
  rewrite Forall_fmap. apply Forall_forall. intros f Hf. unfold compose. cbn [snd].
  destruct (String.eqb f "accepted_findings").
  - apply allowed_slice. rewrite Forall_fmap. by apply Forall_forall.
  - destruct (map_get obj f) as [v|] eqn:E; [by eapply allowed_get|].
    exfalso. apply map_get_none in E. by apply E, Hk.
Qed.

Lemma closed_object_idem obj findings l : hashable obj l ->
  closed_object (closed_object obj findings) findings = closed_object obj findings.
Proof.
  intros (Hk & _). unfold closed_object at 1 3. apply list_fmap_ext.
  intros i f Hf%list_elem_of_lookup_2. f_equal.
  destruct (String.eqb_spec f "accepted_findings") as [|Hne]; [done|].
  by rewrite closed_object_get.
Qed.

(** The canonical object hashes to the same digest. *)
Lemma DigestCanonical_again root d closed :
  DigestCanonical root = Ok (d, closed) -> DigestCanonical (AMap closed) = Ok (d, closed).
Proof.
  intros (obj & findings & canon & -> & Hh & -> & Hj & ->)%DigestCanonical_ok.
  apply DigestCanonical_ok.
  exists (closed_object obj (NormalizeAcceptedFindings findings)),
    (NormalizeAcceptedFindings findings), canon.
  assert (NormalizeAcceptedFindings (NormalizeAcceptedFindings findings)
          = NormalizeAcceptedFindings findings) as Hn by (apply normal_form_ext, normal_form).
  split_and!; try done.
  - unfold hashable. rewrite closed_object_keys, closed_object_findings.
    split_and!; [done| |done]. by eapply closed_object_allowed.
  - rewrite Hn. symmetry. by eapply closed_object_idem.
Qed.

(** C25: the canonical object returned with a digest (what is persisted) has
    exactly the closed fields and hashes to the same digest again, without
    change: a reader of the store can recompute the digest. *)
Theorem DigestCanonical_stable root d closed :
  DigestCanonical root = Ok (d, closed) ->
  fst <$> closed = closedFields /\ is_hex64 d
  /\ DigestCanonical (AMap closed) = Ok (d, closed).
Proof.
  intros H. split_and!; [| |by eapply DigestCanonical_again];
    apply DigestCanonical_ok in H as (obj & findings & canon & -> & _ & -> & _ & ->).
  - apply closed_object_keys.
  - apply sha256_hex_is_hex.
Qed.

Lemma closed_object_wf obj findings : any_wf (AMap obj) -> any_wf (AMap (closed_object obj findings)).
Proof.
  rewrite !any_wf_map. intros [Hnd Hwf]. rewrite closed_object_keys. split.
  { by apply (bool_decide_unpack _). }
  unfold closed_object. rewrite Forall_fmap. apply Forall_forall. intros f _. unfold compose. cbn [snd].
  destruct (String.eqb f "accepted_findings").
  - apply any_wf_slice. rewrite Forall_fmap. by apply Forall_forall.
  - destruct (map_get obj f) as [v|] eqn:E; [|done].
    apply map_get_elem in E; [|done]. rewrite Forall_forall in Hwf. by apply (Hwf (f, v)).
Qed.

Lemma closed_object_eqv obj obj' findings : any_wf (AMap obj) -> any_eqv (AMap obj) (AMap obj') ->
  any_eqv (AMap (closed_object obj findings)) (AMap (closed_object obj' findings)).
Proof.
  intros Hwf E. pose proof (keys_eqv _ _ E) as Hk.
  apply any_wf_map in Hwf as [Hnd _]. eapply eqv_map; [reflexivity|].
  unfold closed_object. apply Forall2_fmap_2. apply Forall_Forall2_diag, Forall_forall.
  intros f _. split; [done|]. cbn [snd]. destruct (String.eqb f "accepted_findings"); [constructor|].
  destruct (map_get obj f) as [v|] eqn:Ev.
  - destruct (map_get_eqv obj obj' f v Hnd E Ev) as (v' & -> & ?). done.
  - apply map_get_none in Ev. rewrite Hk in Ev. apply map_get_none in Ev as ->. constructor.
Qed.

Lemma DigestCanonical_eqv root root' d closed :
  any_wf root -> any_eqv root root' -> DigestCanonical root = Ok (d, closed) ->
  exists closed', DigestCanonical root' = Ok (d, closed') /\ any_eqv (AMap closed) (AMap closed').
Proof.
  intros Hwf E (obj & findings & canon & -> & (Hk & Ha & Hf) & -> & Hj & ->)%DigestCanonical_ok.
  assert (exists obj', root' = AMap obj') as [obj' ->] by (inversion E; eauto).
  assert (NoDup (fst <$> obj)) as Hnd by (apply any_wf_map in Hwf; apply Hwf).
  pose proof (closed_object_eqv obj obj' (NormalizeAcceptedFindings findings) Hwf E) as Ec.
  exists (closed_object obj' (NormalizeAcceptedFindings findings)). split; [|done].
  apply DigestCanonical_ok. exists obj', findings, canon. split_and!; try done.
  - split_and!; [intros k; by rewrite <- (keys_eqv _ _ E)|by eapply allowed_eqv|].
    destruct (map_get_eqv _ _ _ _ Hnd E Hf) as (v & -> & Hv). by apply eqv_str_list in Hv as ->.
  - rewrite <- Hj. f_equal. symmetry. apply marshal_eqv; [by apply closed_object_wf|done].
Qed.

(** The digest does not depend on the order in which Go's maps are
    visited: two payloads that differ only in the order of object members, at
    any depth, have the same digest. *)
Theorem DigestCanonical_order_independent root root' d closed :
  any_wf root -> any_eqv root root' -> DigestCanonical root = Ok (d, closed) ->
  exists closed', DigestCanonical root' = Ok (d, closed') /\ any_eqv (AMap closed) (AMap closed').
Proof. apply DigestCanonical_eqv. Qed.

(** The digest does not depend on the order or repetition of the accepted
    findings: two payloads that agree on the other closed fields and list the
    same findings have the same digest and the same canonical object. *)
Theorem DigestCanonical_findings_independent obj obj' l l' d closed :
  DigestCanonical (AMap obj) = Ok (d, closed) ->
  (forall k, k ∈ fst <$> obj' <-> k ∈ closedFields) -> allowed (AMap obj') ->
  (forall f, f <> "accepted_findings" -> map_get obj' f = map_get obj f) ->
  map_get obj "accepted_findings" = Some (str_list l) ->
  map_get obj' "accepted_findings" = Some (str_list l') ->
  (forall s, s ∈ l' <-> s ∈ l) ->
  DigestCanonical (AMap obj') = Ok (d, closed).
Proof.
  intros (? & findings & canon & [= <-] & (Hk & Ha & Hf) & -> & Hj & ->)%DigestCanonical_ok
    Hk' Ha' Hsame Hl Hl' Hset.
  assert (findings = l) as ->.
  { rewrite Hl in Hf. injection Hf as Hf. symmetry. by apply str_list_inj. }
  apply DigestCanonical_ok. exists obj', l', canon. rewrite (normal_form_ext l' l) by done.
  assert (closed_object obj' (NormalizeAcceptedFindings l)
          = closed_object obj (NormalizeAcceptedFindings l)) as Ec.
  { unfold closed_object. apply list_fmap_ext. intros _ f _. f_equal.
    destruct (String.eqb_spec f "accepted_findings"); [done|]. by rewrite Hsame. }
  rewrite Ec. split_and!; done.
Qed.

End DigestSpec.

Lemma DigestCanonical_stable_witness : exists closed,
  @DigestCanonical _ identity_JCS (AMap closed)
  = Ok ("2f54b2fbf6c519ad147a1840def48d3684d66d23f306c85fa19a88d756721e3d", closed).
Proof.
  destruct (@DigestCanonical _ identity_JCS golden_minimal) as [[d closed]|] eqn:E;
    [|vm_compute in E; discriminate].
  exists closed. pose proof (@DigestCanonical_stable _ identity_JCS _ _ _ E) as (_ & _ & H).
  rewrite H. do 2 f_equal. vm_compute in E. by injection E as <- _.
Defined.

(** The golden payload with the members of the root in reverse order. *)
Definition golden_reversed : any :=
  match golden_minimal with AMap l => AMap (rev l) | v => v end.

Lemma DigestCanonical_order_independent_witness : exists closed,
  @DigestCanonical _ identity_JCS golden_reversed
  = Ok ("2f54b2fbf6c519ad147a1840def48d3684d66d23f306c85fa19a88d756721e3d", closed).
Proof.
  destruct (@DigestCanonical _ identity_JCS golden_minimal) as [[d closed]|] eqn:E;
    [|vm_compute in E; discriminate].
  destruct (@DigestCanonical_order_independent _ identity_JCS golden_minimal golden_reversed d closed)
    as (closed' & H & _).
  - vm_compute. repeat split; by apply (bool_decide_unpack _).
  - eapply eqv_map; [apply Permutation_rev|]. apply Forall_Forall2_diag, Forall_forall.
    intros. split; [done|constructor].
  - exact E.
  - exists closed'. rewrite H. do 2 f_equal. vm_compute in E. by injection E as <- _.
Defined.

Definition with_findings (l : list string) (v : any) : list (string * any) :=
  match v with
  | AMap m => (fun kv => (fst kv, if String.eqb (fst kv) "accepted_findings" then str_list l
                                  else snd kv)) <$> m
  | _ => []
  end.

Lemma with_findings_get l m f : f <> "accepted_findings" ->
  map_get (with_findings l (AMap m)) f = map_get m f.
Proof.
  intros Hf. cbn [with_findings]. induction m as [|[k v] m IH]; [done|].
  rewrite fmap_cons. cbn [map_get fst snd]. destruct (String.eqb_spec k f) as [->|]; [|done].
  by apply String.eqb_neq in Hf as ->.
Qed.

Lemma DigestCanonical_findings_independent_witness : exists closed,
  @DigestCanonical _ identity_JCS
    (AMap (with_findings ["requires_bundler"; "requires_local_signer_state"] golden_minimal))
  = Ok ("2f54b2fbf6c519ad147a1840def48d3684d66d23f306c85fa19a88d756721e3d", closed).
Proof.
  destruct (@DigestCanonical _ identity_JCS golden_minimal) as [[d closed]|] eqn:E;
    [|vm_compute in E; discriminate].
  exists closed.
  rewrite (@DigestCanonical_findings_independent _ identity_JCS
    (match golden_minimal with AMap m => m | _ => [] end)
    (with_findings ["requires_bundler"; "requires_local_signer_state"] golden_minimal)
    ["requires_local_signer_state"; "requires_bundler"; "requires_local_signer_state"]
    ["requires_bundler"; "requires_local_signer_state"] d closed E).
  - do 2 f_equal. vm_compute in E. by injection E as <- _.
  - intros k. change (fst <$> with_findings _ _) with closedFields. done.
  - vm_compute. repeat split.
  - intros f Hf. apply (with_findings_get _ _ f Hf).
  - reflexivity.
  - reflexivity.
  - intros s. rewrite !elem_of_cons, !elem_of_nil. tauto.
Defined.
