(* ===== verification/Snapshot.v ===== *)
(** * The accepted provider snapshot

    [internal/domain/policy/accepted_provider_snapshot.go]: the snapshot that a
    client persists, built from the registry; its types are declared in
    [persist_payload.go]. *)

From stdpp Require Import base gmap sets list strings sorting.
From S2P Require Import Prelude GoStrings GoUnicode Errors Manifest Registry Compat CryptoPolicy GoAny PayloadHash.
Local Open Scope string_scope.
Local Open Scope list_scope.

(** ** Data *)

(** [ChainID] is a [FlexibleChainID], an int64. *)
Record SnapshotChainSupport := mkSnapshotChain {
  scs_ChainID : Z;
  scs_Status : string;
  scs_Capabilities : list string
}.

Record AcceptedProviderSnapshot := mkSnapshot {
  snap_Maturity : string;
  snap_ClaimStatus : string;
  snap_ResultingPosture : string;
  snap_InputRequirements : InputRequirements;
  snap_Signature : SignatureProfile;
  snap_AccountModel : AccountModel;
  snap_Constraints : ProfileConstraints;
  snap_ChainSupportUsed : list SnapshotChainSupport;
  snap_References : list Reference;
  snap_AcceptedFindings : list string;
  snap_AcceptedRiskNotes : list string
}.

Record BuildAcceptedProviderSnapshotInput := mkSnapshotInput {
  bi_CryptoPolicy : option CryptoPolicy;
  bi_SolutionProfileRef : SolutionProfileRef;
  bi_AcceptedFindings : list string;
  bi_Registry : option Registry
}.

Record BuildAcceptedProviderSnapshotResult := mkSnapshotResult {
  br_SolutionProfileRef : SolutionProfileRef;
  br_AcceptedProviderSnapshot : AcceptedProviderSnapshot
}.

(** ** Operations *)

Definition trim_ref (r : SolutionProfileRef) : SolutionProfileRef :=
  mkSolutionRef (TrimSpace (spr_ProviderID r)) (TrimSpace (spr_SolutionProfileID r))
    (TrimSpace (spr_ManifestVersion r)) (TrimSpace (spr_VerificationDate r)).

(** The loop of [collectPersistableChainSupport]. *)
Definition persistable_chain (cs : ChainSupport) : option SnapshotChainSupport :=
  if (cs_ChainID cs <=? 0)%Z then None
  else if String.eqb (cs_Status cs) ChainStatusPlanned || is_empty (TrimSpace (cs_Status cs))
  then None
  else Some (mkSnapshotChain (cs_ChainID cs) (cs_Status cs) (cs_Capabilities cs)).

Definition allowed_findings : list string :=
  [FindingCodeRequiresBundler; FindingCodeRequiresLocalSignerState].

Section Snapshot.
Context `{U : Unicode, S : GoSort}.

Definition providerAllowedByCryptoPolicy (cp : option CryptoPolicy) (providerID : string) : bool :=
  match cp with
  | None => false
  | Some cp =>
      existsb (fun id => String.eqb (ToLower (TrimSpace id)) (ToLower (TrimSpace providerID)))
              (cp_AllowedProviders cp)
  end.

Definition collectPersistableChainSupport (entries : list ChainSupport)
    : gores (list SnapshotChainSupport) :=
  let out := omap persistable_chain entries in
  fail_if Nat.eqb (length out) 0
    with errorf ErrSnapshotAssistChainNotSupported
           "no deployable chain_support (status != planned)" ;;
  Ok (sort_slice (fun a b => (scs_ChainID a <? scs_ChainID b)%Z) out).

(** The loop over the client's findings. *)
Fixpoint client_findings (client : list string) : gores (list string) :=
  match client with
  | [] => Ok []
  | c :: client' =>
      let code := TrimSpace c in
      if is_empty code then client_findings client'
      else
        fail_if negb (existsb (String.eqb code) allowed_findings)
          with errorf ErrSnapshotAssistFindingsUnknown (Quote code) ;;
        merged ← client_findings client';
        Ok (code :: merged)
  end.

Definition mergeAssistAcceptedFindings (profile : SolutionProfile) (client : list string)
    : gores (list string) :=
  merged ← client_findings client;
  Ok (NormalizeAcceptedFindings (merged ++ (hf_Code <$> EvaluateSoftFindings (Some profile)))).

Definition build_snapshot (p : SolutionProfile) (chains : list SnapshotChainSupport)
    (findings : list string) : AcceptedProviderSnapshot :=
  mkSnapshot (sp_Maturity p) (sp_ClaimStatus p) (sp_ResultingPosture p) (sp_InputRequirements p)
    (sp_Signature p) (sp_AccountModel p) (sp_Constraints p) chains (sp_References p) findings
    (sp_RiskNotes p).

Definition BuildAcceptedProviderSnapshot (input : BuildAcceptedProviderSnapshotInput)
    : gores BuildAcceptedProviderSnapshotResult :=
  match bi_CryptoPolicy input with
  | None => Err (err_of ErrSnapshotAssistCryptoPolicyRequired)
  | Some cp =>
      let ref := trim_ref (bi_SolutionProfileRef input) in
      match SolutionProfileRef_Validate ref with
      | Err e => Err (errorf ErrCryptoPolicyPayloadInvalid (e_text e))
      | Ok _ =>
          fail_if negb (providerAllowedByCryptoPolicy (Some cp) (spr_ProviderID ref))
            with errorf ErrSnapshotAssistProviderNotAllowed
                   ("provider_id " +:+ Quote (spr_ProviderID ref) +:+ " not in allowed_providers for "
                    +:+ cp_ID cp) ;;
          match bi_Registry input with
          | None => Err (err_of ErrSnapshotAssistProfileNotFound)
          | Some reg =>
              match Lookup (Some reg) (mkProfileRef (spr_ProviderID ref) (spr_SolutionProfileID ref)
                                         (spr_ManifestVersion ref)) with
              | None => Err (errorf ErrSnapshotAssistProfileNotFound
                          (spr_ProviderID ref +:+ "/" +:+ spr_SolutionProfileID ref
                           +:+ " (manifest_version " +:+ Quote (spr_ManifestVersion ref) +:+ ")"))
              | Some resolved =>
                  let profile := rp_Profile resolved in
                  chains ← collectPersistableChainSupport (sp_ChainSupport profile);
                  findings ← mergeAssistAcceptedFindings profile (bi_AcceptedFindings input);
                  Ok (mkSnapshotResult
                        (mkSolutionRef (rp_ProviderID resolved) (sp_SolutionProfileID profile)
                           (rp_ProviderVersion resolved) (spr_VerificationDate ref))
                        (build_snapshot profile chains findings))
              end
          end
      end
  end.

End Snapshot.

(** ** Facts *)

Definition ref_complete (r : SolutionProfileRef) : Prop :=
  spr_ProviderID r <> EmptyString /\ spr_SolutionProfileID r <> EmptyString
  /\ spr_ManifestVersion r <> EmptyString.

Section SnapshotSpec.
Context `{U : Unicode, S : GoSort}.

Lemma SolutionProfileRef_Validate_ok r : SolutionProfileRef_Validate r = Ok tt <-> ref_complete r.
Proof.
  unfold SolutionProfileRef_Validate, ref_complete. rewrite !fail_if_ok, !andb_false_iff, !is_empty_false.
  tauto.
Qed.

Lemma providerAllowed_spec cp id :
  providerAllowedByCryptoPolicy (Some cp) id = true <->
  exists a, a ∈ cp_AllowedProviders cp /\ providerKey a = providerKey id.
Proof.
  unfold providerAllowedByCryptoPolicy, providerKey. rewrite existsb_exists.
  setoid_rewrite String.eqb_eq. by setoid_rewrite list_elem_of_In.
Qed.

Lemma client_findings_ok client merged :
  client_findings client = Ok merged <->
  merged = filter (fun s => s <> EmptyString) (TrimSpace <$> client)
  /\ Forall (fun s => s ∈ allowed_findings) merged.
Proof.
  revert merged. induction client as [|c client IH]; intros merged; cbn [client_findings].
  { split; [intros [= <-]; by split|]. by intros [-> _]. }
  rewrite fmap_cons, filter_cons. destruct (is_empty (TrimSpace c)) eqn:E.
  { apply is_empty_spec in E. rewrite decide_False by naive_solver. apply IH. }
  apply is_empty_false in E. rewrite decide_True by done.
  rewrite fail_if_ok, negb_false_iff, res_bind_ok. setoid_rewrite IH.
  assert (existsb (String.eqb (TrimSpace c)) allowed_findings = true
          <-> TrimSpace c ∈ allowed_findings) as -> by apply oneOf_spec.
  split.
  - intros (Hc & m & [-> Hm] & [= <-]). split; [done|]. by constructor.
  - intros [-> Hall]. apply Forall_cons in Hall as [Hc Hm]. split; [done|]. eauto.
Qed.

(** The soft findings of a profile. *)
Definition soft_codes (p : SolutionProfile) : list string :=
  hf_Code <$> EvaluateSoftFindings (Some p).

Lemma soft_codes_allowed p : Forall (fun s => s ∈ allowed_findings) (soft_codes p).
Proof.
  unfold soft_codes, EvaluateSoftFindings, when.
  destruct (am_RequiresBundler _), (pc_RequiresLocalSignerState _); simpl;
    repeat constructor; by apply (bool_decide_unpack _).
Qed.

Lemma merge_ok p client findings :
  mergeAssistAcceptedFindings p client = Ok findings <->
  Forall (fun s => TrimSpace s = EmptyString \/ TrimSpace s ∈ allowed_findings) client
  /\ findings = NormalizeAcceptedFindings
       (filter (fun s => s <> EmptyString) (TrimSpace <$> client) ++ soft_codes p).
Proof.
  unfold mergeAssistAcceptedFindings. rewrite res_bind_ok. setoid_rewrite client_findings_ok.
  assert (Forall (fun s => s ∈ allowed_findings) (filter (fun s => s <> EmptyString) (TrimSpace <$> client))
    <-> Forall (fun s => TrimSpace s = EmptyString \/ TrimSpace s ∈ allowed_findings) client) as Hc.
  { rewrite !Forall_forall. setoid_rewrite list_elem_of_filter. setoid_rewrite list_elem_of_fmap.
    split.
    - intros H s Hs. destruct (decide (TrimSpace s = EmptyString)); [by left|right]. apply H. eauto.
    - intros H s [Hne (s0 & -> & Hs0)]. destruct (H s0 Hs0); done. }
  rewrite <- Hc. split.
  - intros (m & [-> Hm] & [= <-]). done.
  - intros [Hm ->]. eexists. split; [split; [reflexivity|]|]; done.
Qed.

Lemma persistable_chain_spec cs :
  is_Some (persistable_chain cs) <->
  deployable cs /\ TrimSpace (cs_Status cs) <> EmptyString.
Proof.
  unfold persistable_chain, deployable. destruct (Z.leb_spec (cs_ChainID cs) 0).
  { split; [by intros [? ?]|intros [[_ ?] _]; lia]. }
  destruct (String.eqb_spec (cs_Status cs) ChainStatusPlanned); simpl.
  { split; [by intros [? ?]|naive_solver]. }
  destruct (is_empty (TrimSpace (cs_Status cs))) eqn:E.
  - apply is_empty_spec in E. split; [by intros [? ?]|naive_solver].
  - apply is_empty_false in E. split; [done|]. eauto.
Qed.

Lemma collect_ok entries chains :
  collectPersistableChainSupport entries = Ok chains <->
  omap persistable_chain entries <> []
  /\ chains = sort_slice (fun a b => (scs_ChainID a <? scs_ChainID b)%Z) (omap persistable_chain entries).
Proof.
  unfold collectPersistableChainSupport. rewrite fail_if_ok, length_zero_false. naive_solver.
Qed.

Lemma chains_sorted (l : list SnapshotChainSupport) :
  Sorted (fun a b => (scs_ChainID a <= scs_ChainID b)%Z)
    (sort_slice (fun a b => (scs_ChainID a <? scs_ChainID b)%Z) l).
Proof.
  pose proof (sort_slice_sorted (fun a b : SnapshotChainSupport => (scs_ChainID a <? scs_ChainID b)%Z) l
    (WeakOrder_Z scs_ChainID)) as H.
  induction H as [|x l' Hs IH Hx]; constructor; [done|].
  inversion Hx as [|? ? Hge]; constructor. unfold ge_of in Hge. by apply Z.ltb_ge in Hge.
Qed.

Lemma build_spec cp ref client reg res :
  BuildAcceptedProviderSnapshot (mkSnapshotInput (Some cp) ref client (Some reg)) = Ok res <->
  exists resolved, let p := rp_Profile resolved in
    let s := br_AcceptedProviderSnapshot res in
    SolutionProfileRef_Validate (trim_ref ref) = Ok tt
    /\ (exists a, a ∈ cp_AllowedProviders cp /\ providerKey a = providerKey (TrimSpace (spr_ProviderID ref)))
    /\ Lookup (Some reg) (mkProfileRef (TrimSpace (spr_ProviderID ref))
         (TrimSpace (spr_SolutionProfileID ref)) (TrimSpace (spr_ManifestVersion ref))) = Some resolved
    /\ omap persistable_chain (sp_ChainSupport p) <> []
    /\ Forall (fun c => TrimSpace c = EmptyString \/ TrimSpace c ∈ allowed_findings) client
    /\ br_SolutionProfileRef res
       = mkSolutionRef (rp_ProviderID resolved) (sp_SolutionProfileID p) (rp_ProviderVersion resolved)
           (TrimSpace (spr_VerificationDate ref))
    /\ s = build_snapshot p
             (sort_slice (fun a b => (scs_ChainID a <? scs_ChainID b)%Z)
                (omap persistable_chain (sp_ChainSupport p)))
             (NormalizeAcceptedFindings
                (filter (fun c => c <> EmptyString) (TrimSpace <$> client) ++ soft_codes p)).
Proof.
  unfold BuildAcceptedProviderSnapshot. cbn [bi_CryptoPolicy bi_SolutionProfileRef bi_Registry bi_AcceptedFindings].
  destruct (SolutionProfileRef_Validate (trim_ref ref)) as [[]|e];
    [|by split; [|intros (? & ? & _)]].
  rewrite fail_if_ok, negb_false_iff, providerAllowed_spec. cbn [trim_ref spr_ProviderID
    spr_SolutionProfileID spr_ManifestVersion spr_VerificationDate].
  destruct (Lookup _ _) as [resolved|];
    [|by split; [intros [_ ?]|intros (? & _ & _ & ? & _)]].
  split.
  - intros (Ha & (chains & [Hc ->]%collect_ok & (findings & [Hf ->]%merge_ok & [= <-])
      %res_bind_ok)%res_bind_ok).
    by exists resolved.
  - intros (r & _ & Ha & [= <-] & Hc & Hf & Hr & Hs). split; [done|].
    apply res_bind_ok. eexists. split; [by apply collect_ok|].
    apply res_bind_ok. eexists. split; [by apply merge_ok|]. destruct res; simpl in *. congruence.
Qed.

(** A chain a snapshot may pin: deployed somewhere, not merely planned. *)
Definition pinnable (cs : ChainSupport) : Prop :=
  (0 < cs_ChainID cs)%Z /\ cs_Status cs <> "planned" /\ TrimSpace (cs_Status cs) <> EmptyString.

#[global] Instance pinnable_dec cs : Decision (pinnable cs).
Proof. apply _. Defined.

Lemma persistable_pinnable cs :
  persistable_chain cs
  = if decide (pinnable cs) then Some (mkSnapshotChain (cs_ChainID cs) (cs_Status cs) (cs_Capabilities cs)) else None.
Proof.
  unfold persistable_chain. destruct (Z.leb_spec (cs_ChainID cs) 0).
  { rewrite decide_False; [done|]. intros [? _]. lia. }
  destruct (String.eqb_spec (cs_Status cs) ChainStatusPlanned) as [E|E]; cbn [orb].
  { rewrite decide_False; [done|]. by intros (_ & ? & _). }
  destruct (is_empty (TrimSpace (cs_Status cs))) eqn:Et.
  - apply is_empty_spec in Et. rewrite decide_False; [done|]. by intros (_ & _ & ?).
  - apply is_empty_false in Et. by rewrite decide_True.
Qed.

Lemma pinned_chains (l : list ChainSupport) :
  omap persistable_chain l
  = (fun cs => mkSnapshotChain (cs_ChainID cs) (cs_Status cs) (cs_Capabilities cs)) <$> filter pinnable l.
Proof.
  induction l as [|cs l IH]; [done|]. cbn [omap list_omap]. rewrite persistable_pinnable, filter_cons.
  destruct (decide (pinnable cs)); cbn [fmap list_fmap]; by rewrite <- IH.
Qed.

Lemma pinned_some (l : list ChainSupport) : omap persistable_chain l <> [] <-> exists cs, cs ∈ l /\ pinnable cs.
Proof.
  rewrite pinned_chains. split.
  - destruct (filter pinnable l) as [|cs l'] eqn:E; [done|]. intros _. exists cs.
    assert (cs ∈ filter pinnable l) as H by (rewrite E; by left). by apply list_elem_of_filter in H as [??].
  - intros (cs & Hin & Hp) H%fmap_nil_inv. assert (cs ∈ filter pinnable l) as Hf by (by apply list_elem_of_filter).
    rewrite H in Hf. by apply elem_of_nil in Hf.
Qed.

(** The soft findings a profile brings along. *)
Lemma soft_codes_elem p c : c ∈ soft_codes p <->
  c = "requires_bundler" /\ am_RequiresBundler (sp_AccountModel p) = true
  \/ c = "requires_local_signer_state" /\ pc_RequiresLocalSignerState (sp_Constraints p) = true.
Proof.
  unfold soft_codes, EvaluateSoftFindings, when.
  destruct (am_RequiresBundler _), (pc_RequiresLocalSignerState _); cbn [fmap list_fmap app hf_Code];
    rewrite ?elem_of_cons, ?elem_of_nil; unfold FindingCodeRequiresBundler, FindingCodeRequiresLocalSignerState; naive_solver.
Qed.

Lemma allowed_codes client :
  Forall (fun c => TrimSpace c = EmptyString \/ TrimSpace c ∈ allowed_findings) client
  <-> Forall (fun c => TrimSpace c ∈ [EmptyString; "requires_bundler"; "requires_local_signer_state"]) client.
Proof.
  rewrite !Forall_forall. split; intros H c Hc; specialize (H c Hc); unfold allowed_findings in *; set_solver.
Qed.

(** What the assist returns, field by field. *)
Definition snapshot_of (ref : SolutionProfileRef) (client : list string) (resolved : ResolvedProfile)
    (res : BuildAcceptedProviderSnapshotResult) : Prop :=
  let p := rp_Profile resolved in
  let s := br_AcceptedProviderSnapshot res in
  br_SolutionProfileRef res
  = mkSolutionRef (rp_ProviderID resolved) (sp_SolutionProfileID p) (rp_ProviderVersion resolved)
      (TrimSpace (spr_VerificationDate ref))
  /\ s = {| snap_Maturity := sp_Maturity p; snap_ClaimStatus := sp_ClaimStatus p;
            snap_ResultingPosture := sp_ResultingPosture p; snap_InputRequirements := sp_InputRequirements p;
            snap_Signature := sp_Signature p; snap_AccountModel := sp_AccountModel p; snap_Constraints := sp_Constraints p;
            snap_ChainSupportUsed := snap_ChainSupportUsed s; snap_References := sp_References p;
            snap_AcceptedFindings := snap_AcceptedFindings s; snap_AcceptedRiskNotes := sp_RiskNotes p |}
  /\ snap_ChainSupportUsed s
     ≡ₚ (fun cs => mkSnapshotChain (cs_ChainID cs) (cs_Status cs) (cs_Capabilities cs)) <$> filter pinnable (sp_ChainSupport p)
  /\ Sorted (fun a b => (scs_ChainID a <= scs_ChainID b)%Z) (snap_ChainSupportUsed s)
  /\ StronglySorted (fun a b => str_lt a b = true) (snap_AcceptedFindings s)
  /\ (forall code, code ∈ snap_AcceptedFindings s <->
        (code <> EmptyString /\ exists c, c ∈ client /\ code = TrimSpace c)
        \/ code = "requires_bundler" /\ am_RequiresBundler (sp_AccountModel p) = true
        \/ code = "requires_local_signer_state" /\ pc_RequiresLocalSignerState (sp_Constraints p) = true).

(** C34: The snapshot assist succeeds exactly when the reference names a provider,
    a profile and a version, the policy allows the provider, the registry holds
    the profile at that version, one of its chains has a positive id and a status
    other than "planned" or blank, and the client named no finding but the two
    soft ones.  The snapshot then copies the profile's facts field by field, pins
    exactly those chains, in order of chain id, and accepts, sorted and without
    repetition, the client's findings and those the profile itself brings. *)
Theorem BuildAcceptedProviderSnapshot_correct cp ref client reg :
  let build := BuildAcceptedProviderSnapshot (mkSnapshotInput (Some cp) ref client (Some reg)) in
  let found := Lookup (Some reg) (mkProfileRef (TrimSpace (spr_ProviderID ref))
         (TrimSpace (spr_SolutionProfileID ref)) (TrimSpace (spr_ManifestVersion ref))) in
  (is_ok build = true <->
     TrimSpace (spr_ProviderID ref) <> EmptyString /\ TrimSpace (spr_SolutionProfileID ref) <> EmptyString
     /\ TrimSpace (spr_ManifestVersion ref) <> EmptyString
     /\ (exists a, a ∈ cp_AllowedProviders cp /\ ToLower (TrimSpace a) = ToLower (TrimSpace (spr_ProviderID ref)))
     /\ (exists resolved cs, found = Some resolved /\ cs ∈ sp_ChainSupport (rp_Profile resolved) /\ pinnable cs)
     /\ Forall (fun c => TrimSpace c ∈ [EmptyString; "requires_bundler"; "requires_local_signer_state"]) client)
  /\ (forall res, build = Ok res -> exists resolved, found = Some resolved /\ snapshot_of ref client resolved res).
Proof.
  cbv zeta. split.
  - rewrite is_ok_true. split.
    + intros [res (r & Hr & H & Hl & Hc & Hf & _)%build_spec].
      apply SolutionProfileRef_Validate_ok in Hr as (? & ? & ?). apply pinned_some in Hc as (cs & ? & ?).
      apply allowed_codes in Hf. unfold providerKey in H. rewrite TrimSpace_idem in H. split_and!; try done. by exists r, cs.
    + intros (H1 & H2 & H3 & H4 & (r & cs & H5 & H6 & H7) & H8).
      eexists (mkSnapshotResult _ _). apply build_spec. exists r. cbn [br_SolutionProfileRef br_AcceptedProviderSnapshot].
      split_and!; [by apply SolutionProfileRef_Validate_ok| |done|by apply pinned_some; exists cs|by apply allowed_codes
                  |reflexivity|reflexivity]. unfold providerKey. by rewrite TrimSpace_idem.
  - intros res (resolved & _ & _ & H1 & _ & _ & H2 & H3)%build_spec. exists resolved. split; [exact H1|].
    unfold snapshot_of. rewrite H3. unfold build_snapshot. cbn [snap_ChainSupportUsed snap_AcceptedFindings].
    split_and!; [exact H2|done|by rewrite sort_slice_perm, pinned_chains|apply chains_sorted|apply normal_form|].
    intros code. rewrite normal_form_elem, elem_of_app, soft_codes_elem, list_elem_of_filter, list_elem_of_fmap.
    apply or_iff_compat_r, and_iff_compat_l. split; intros (c & ? & ?); by exists c.
Qed.

Lemma build_ok cp ref client reg r :
  BuildAcceptedProviderSnapshot (mkSnapshotInput (Some cp) ref client (Some reg)) = Ok r ->
  exists resolved,
    Lookup (Some reg) (mkProfileRef (TrimSpace (spr_ProviderID ref))
         (TrimSpace (spr_SolutionProfileID ref)) (TrimSpace (spr_ManifestVersion ref))) = Some resolved
    /\ omap persistable_chain (sp_ChainSupport (rp_Profile resolved)) <> []
    /\ Forall (fun c => TrimSpace c = EmptyString \/ TrimSpace c ∈ allowed_findings) client
    /\ br_SolutionProfileRef r
       = mkSolutionRef (rp_ProviderID resolved) (sp_SolutionProfileID (rp_Profile resolved))
           (rp_ProviderVersion resolved) (TrimSpace (spr_VerificationDate ref))
    /\ br_AcceptedProviderSnapshot r = build_snapshot (rp_Profile resolved)
             (sort_slice (fun a b => (scs_ChainID a <? scs_ChainID b)%Z)
                (omap persistable_chain (sp_ChainSupport (rp_Profile resolved))))
             (NormalizeAcceptedFindings
                (filter (fun c => c <> EmptyString) (TrimSpace <$> client)
                 ++ soft_codes (rp_Profile resolved))).
Proof.
  intros (resolved & _ & _ & ? & ? & ? & ? & ?)%build_spec. by exists resolved.
Qed.

End SnapshotSpec.

Definition nicetry_ref : SolutionProfileRef :=
  mkSolutionRef "nicetry" "nicetry.fors_c.erc4337.v0_1" "2026-08" EmptyString.

(** The assist on the test data: the three chains, sorted, and both findings. *)
Example snapshot_nicetry :
  (fun r => (scs_ChainID <$> snap_ChainSupportUsed (br_AcceptedProviderSnapshot r),
             snap_AcceptedFindings (br_AcceptedProviderSnapshot r)))
    <$> BuildAcceptedProviderSnapshot
          (mkSnapshotInput (Some pq_policy) nicetry_ref ["requires_bundler "] (Some (loaded sample_docs)))
  = Ok ([1; 84532; 11155111]%Z, ["requires_bundler"; "requires_local_signer_state"]).
Proof. vm_compute. reflexivity. Qed.

Lemma BuildAcceptedProviderSnapshot_correct_witness :
  exists res, BuildAcceptedProviderSnapshot
      (mkSnapshotInput (Some pq_policy) nicetry_ref ["requires_bundler "] (Some (loaded sample_docs))) = Ok res
    /\ Sorted (fun a b => (scs_ChainID a <= scs_ChainID b)%Z) (snap_ChainSupportUsed (br_AcceptedProviderSnapshot res)).
Proof.
  destruct (BuildAcceptedProviderSnapshot_correct pq_policy nicetry_ref ["requires_bundler "] (loaded sample_docs)) as [_ H].
  destruct (BuildAcceptedProviderSnapshot
    (mkSnapshotInput (Some pq_policy) nicetry_ref ["requires_bundler "] (Some (loaded sample_docs)))) as [res|e] eqn:E.
  - exists res. split; [reflexivity|]. destruct (H res eq_refl) as (resolved & _ & _ & _ & _ & Hs & _). exact Hs.
  - exfalso. apply (f_equal is_ok) in E. vm_compute in E. discriminate E.
Defined.
