(* ===== verification/PersistGate.v ===== *)
(** * The persist gate

    [internal/domain/policy/persist_payload.go] and
    [internal/app/persist_gate_errors.go]: decoding a hashed payload, the checks
    it must pass before a policy is created, and the codes of the refusals. *)

From stdpp Require Import base gmap sets list strings sorting.
From Stdlib Require Import Ascii ZArith.
From S2P Require Import Prelude GoStrings GoUnicode Errors Manifest Registry Compat CryptoPolicy GoAny PayloadHash Snapshot.
Local Open Scope string_scope.
Local Open Scope list_scope.

(** ** Data *)

Definition CryptoPolicySchemaVersionV02 : string := "cafe.crypto_policy.v0.2".

Record CryptoPolicyPersistPayload := mkPersist {
  pp_SchemaVersion : string;
  pp_PolicyKind : string;
  pp_CryptoPolicyID : string;
  pp_RequiredPosture : string;
  pp_UserConstraints : UserConstraints;
  pp_SolutionProfileRef : SolutionProfileRef;
  pp_AcceptedProviderSnapshot : AcceptedProviderSnapshot;
  pp_AcceptedFindings : list string
}.

(** ** Decoding

    [json.Unmarshal] of what [json.Marshal] wrote, as a function of the value
    itself.  A decoder takes the value and the field's present content, which
    null leaves as it is; [None] is a decoding error.  Members are assigned in
    the order they are written (increasing key), each to the field whose name
    equals the key up to case. *)

Definition decoder (A : Type) : Type := any -> A -> option A.

Section Decode.
Context `{U : Unicode, F : GoFloat}.

Definition dec_string : decoder string := fun v old =>
  match v with
  | AString s => Some (to_utf8 s)
  | ANil | ANilMap => Some old
  | _ => None
  end.

Definition dec_bool : decoder bool := fun v old =>
  match v with
  | ABool b => Some b
  | ANil | ANilMap => Some old
  | _ => None
  end.

(** The elements of an array are decoded into those the slice already has, and
    beyond them into zero values; a slice has elements when its member is
    repeated.  (What is left between the length and the capacity of a slice that
    a repeated member has shortened is not represented.) *)
Fixpoint dec_elements {A} (d : decoder A) (zero : A) (l : list any) (old : list A) : option (list A) :=
  match l with
  | [] => Some []
  | x :: l' =>
      a ← d x (hd zero old);
      rest ← dec_elements d zero l' (tl old);
      Some (a :: rest)
  end.

Definition dec_list {A} (d : decoder A) (zero : A) : decoder (list A) := fun v old =>
  match v with
  | ASlice l => dec_elements d zero l old
  | AInt64s l => dec_elements d zero (AInt64 <$> l) old
  | ANil | ANilMap => Some []
  | _ => None
  end.

Lemma dec_elements_fresh {A} (d : decoder A) zero l : dec_elements d zero l [] = mapM (fun x => d x zero) l.
Proof. induction l as [|x l IH]; [done|]. cbn [dec_elements mapM hd tl]. by rewrite IH. Qed.

Definition find_field {A} (fields : list (string * decoder A)) (key : string) : option (decoder A) :=
  snd <$> find (fun f => EqualFold key (fst f)) fields.

Definition assign_member {A} (fields : list (string * decoder A)) (acc : option A)
    (kv : string * any) : option A :=
  a ← acc;
  match find_field fields (to_utf8 (fst kv)) with
  | None => Some a
  | Some d => d (snd kv) a
  end.

Definition member_less (a b : string * any) : bool := str_lt (fst a) (fst b).

Definition dec_struct {A} (fields : list (string * decoder A)) : decoder A := fun v old =>
  match v with
  | AMap l => foldl (assign_member fields) (Some old) (sort_stable member_less l)
  | ANil | ANilMap => Some old
  | _ => None
  end.

(** A field of a struct: decode into it, and put the result back. *)
Definition field {A B} (get : A -> B) (set : B -> A -> A) (d : decoder B) : decoder A :=
  fun v a => (fun b => set b a) <$> d v (get a).

(** [FlexibleChainID.UnmarshalJSON]. *)
Definition FlexibleChainID_Unmarshal : decoder Z := fun v _ =>
  match v with
  | ANil | ANilMap => Some 0%Z
  | AString s0 =>
      let s := TrimSpace (to_utf8 s0) in
      if is_empty s then Some 0%Z else ParseInt s
  | AFloat64 f => ParseInt (float_json f)
  | ANumber s => ParseInt s
  | AInt64 z | AInt z => Some z
  | _ => None
  end.

(** [FlexibleChainID.MarshalJSON]: a decimal string. *)
Definition FlexibleChainID_Marshal (z : Z) : any := AString (FormatInt z).

Definition user_constraints_fields : list (string * decoder UserConstraints) :=
  [("allow_new_wallet", field uc_AllowNewWallet
      (fun b a => mkUserConstraints b (uc_AddressContinuityRequired a) (uc_KeyRotationModel a)) dec_bool);
   ("address_continuity_required", field uc_AddressContinuityRequired
      (fun b a => mkUserConstraints (uc_AllowNewWallet a) b (uc_KeyRotationModel a)) dec_bool);
   ("key_rotation_model", field uc_KeyRotationModel
      (fun b a => mkUserConstraints (uc_AllowNewWallet a) (uc_AddressContinuityRequired a) b) dec_string)].

Definition solution_ref_fields : list (string * decoder SolutionProfileRef) :=
  [("provider_id", field spr_ProviderID (fun b a => mkSolutionRef b (spr_SolutionProfileID a)
      (spr_ManifestVersion a) (spr_VerificationDate a)) dec_string);
   ("solution_profile_id", field spr_SolutionProfileID (fun b a => mkSolutionRef (spr_ProviderID a) b
      (spr_ManifestVersion a) (spr_VerificationDate a)) dec_string);
   ("manifest_version", field spr_ManifestVersion (fun b a => mkSolutionRef (spr_ProviderID a)
      (spr_SolutionProfileID a) b (spr_VerificationDate a)) dec_string);
   ("verification_date", field spr_VerificationDate (fun b a => mkSolutionRef (spr_ProviderID a)
      (spr_SolutionProfileID a) (spr_ManifestVersion a) b) dec_string)].

Definition input_requirements_fields : list (string * decoder InputRequirements) :=
  [("wallet_types", field ir_WalletTypes
      (fun b a => mkInputRequirements b (ir_RequiresWalletControlProof a)) (dec_list dec_string EmptyString));
   ("requires_wallet_control_proof", field ir_RequiresWalletControlProof
      (fun b a => mkInputRequirements (ir_WalletTypes a) b) dec_bool)].

Definition signature_fields : list (string * decoder SignatureProfile) :=
  [("scheme", field sig_Scheme (fun b a => mkSignature b (sig_Family a) (sig_KeyRotationModel a)) dec_string);
   ("family", field sig_Family (fun b a => mkSignature (sig_Scheme a) b (sig_KeyRotationModel a)) dec_string);
   ("key_rotation_model", field sig_KeyRotationModel
      (fun b a => mkSignature (sig_Scheme a) (sig_Family a) b) dec_string)].

Definition account_model_fields : list (string * decoder AccountModel) :=
  [("standard", field am_Standard (fun b a => mkAccountModel b (am_ExecutionModel a)
      (am_RequiresBundler a) (am_RequiresEntrypoint a) (am_EntrypointVersions a)) dec_string);
   ("execution_model", field am_ExecutionModel (fun b a => mkAccountModel (am_Standard a) b
      (am_RequiresBundler a) (am_RequiresEntrypoint a) (am_EntrypointVersions a)) dec_string);
   ("requires_bundler", field am_RequiresBundler (fun b a => mkAccountModel (am_Standard a)
      (am_ExecutionModel a) b (am_RequiresEntrypoint a) (am_EntrypointVersions a)) dec_bool);
   ("requires_entrypoint", field am_RequiresEntrypoint (fun b a => mkAccountModel (am_Standard a)
      (am_ExecutionModel a) (am_RequiresBundler a) b (am_EntrypointVersions a)) dec_bool);
   ("entrypoint_versions", field am_EntrypointVersions (fun b a => mkAccountModel (am_Standard a)
      (am_ExecutionModel a) (am_RequiresBundler a) (am_RequiresEntrypoint a) b)
      (dec_list dec_string EmptyString))].

Definition constraints_fields : list (string * decoder ProfileConstraints) :=
  [("requires_new_account", field pc_RequiresNewAccount (fun b a => mkConstraints b
      (pc_AddressContinuitySupported a) (pc_RequiresLocalSignerState a)) dec_bool);
   ("address_continuity_supported", field pc_AddressContinuitySupported
      (fun b a => mkConstraints (pc_RequiresNewAccount a) b (pc_RequiresLocalSignerState a)) dec_bool);
   ("requires_local_signer_state", field pc_RequiresLocalSignerState
      (fun b a => mkConstraints (pc_RequiresNewAccount a) (pc_AddressContinuitySupported a) b) dec_bool)].

Definition snapshot_chain_fields : list (string * decoder SnapshotChainSupport) :=
  [("chain_id", field scs_ChainID (fun b a => mkSnapshotChain b (scs_Status a) (scs_Capabilities a))
      FlexibleChainID_Unmarshal);
   ("status", field scs_Status (fun b a => mkSnapshotChain (scs_ChainID a) b (scs_Capabilities a)) dec_string);
   ("capabilities", field scs_Capabilities (fun b a => mkSnapshotChain (scs_ChainID a) (scs_Status a) b)
      (dec_list dec_string EmptyString))].

Definition reference_fields : list (string * decoder Reference) :=
  [("kind", field rf_Kind (fun b a => mkReference b (rf_URL a) (rf_Commit a) (rf_Version a)) dec_string);
   ("url", field rf_URL (fun b a => mkReference (rf_Kind a) b (rf_Commit a) (rf_Version a)) dec_string);
   ("commit", field rf_Commit (fun b a => mkReference (rf_Kind a) (rf_URL a) b (rf_Version a)) dec_string);
   ("version", field rf_Version (fun b a => mkReference (rf_Kind a) (rf_URL a) (rf_Commit a) b) dec_string)].

Definition zero_chain : SnapshotChainSupport := mkSnapshotChain 0 EmptyString [].
Definition zero_reference : Reference := mkReference EmptyString EmptyString EmptyString EmptyString.

Definition zero_snapshot : AcceptedProviderSnapshot :=
  mkSnapshot EmptyString EmptyString EmptyString (mkInputRequirements [] false)
    (mkSignature EmptyString EmptyString EmptyString)
    (mkAccountModel EmptyString EmptyString false false []) (mkConstraints false false false)
    [] [] [] [].

Definition snapshot_fields : list (string * decoder AcceptedProviderSnapshot) :=
  [("maturity", field snap_Maturity (fun x '(mkSnapshot a b c d e f g h i j k) =>
      mkSnapshot x b c d e f g h i j k) dec_string);
   ("claim_status", field snap_ClaimStatus (fun x '(mkSnapshot a b c d e f g h i j k) =>
      mkSnapshot a x c d e f g h i j k) dec_string);
   ("resulting_posture", field snap_ResultingPosture (fun x '(mkSnapshot a b c d e f g h i j k) =>
      mkSnapshot a b x d e f g h i j k) dec_string);
   ("input_requirements", field snap_InputRequirements (fun x '(mkSnapshot a b c d e f g h i j k) =>
      mkSnapshot a b c x e f g h i j k) (dec_struct input_requirements_fields));
   ("signature", field snap_Signature (fun x '(mkSnapshot a b c d e f g h i j k) =>
      mkSnapshot a b c d x f g h i j k) (dec_struct signature_fields));
   ("account_model", field snap_AccountModel (fun x '(mkSnapshot a b c d e f g h i j k) =>
      mkSnapshot a b c d e x g h i j k) (dec_struct account_model_fields));
   ("constraints", field snap_Constraints (fun x '(mkSnapshot a b c d e f g h i j k) =>
      mkSnapshot a b c d e f x h i j k) (dec_struct constraints_fields));
   ("chain_support_used", field snap_ChainSupportUsed (fun x '(mkSnapshot a b c d e f g h i j k) =>
      mkSnapshot a b c d e f g x i j k) (dec_list (dec_struct snapshot_chain_fields) zero_chain));
   ("references", field snap_References (fun x '(mkSnapshot a b c d e f g h i j k) =>
      mkSnapshot a b c d e f g h x j k) (dec_list (dec_struct reference_fields) zero_reference));
   ("accepted_findings", field snap_AcceptedFindings (fun x '(mkSnapshot a b c d e f g h i j k) =>
      mkSnapshot a b c d e f g h i x k) (dec_list dec_string EmptyString));
   ("accepted_risk_notes", field snap_AcceptedRiskNotes (fun x '(mkSnapshot a b c d e f g h i j k) =>
      mkSnapshot a b c d e f g h i j x) (dec_list dec_string EmptyString))].

Definition zero_ref : SolutionProfileRef := mkSolutionRef EmptyString EmptyString EmptyString EmptyString.

Definition zero_payload : CryptoPolicyPersistPayload :=
  mkPersist EmptyString EmptyString EmptyString EmptyString (mkUserConstraints false false EmptyString)
    zero_ref zero_snapshot [].

Definition payload_fields : list (string * decoder CryptoPolicyPersistPayload) :=
  [("schema_version", field pp_SchemaVersion (fun x '(mkPersist a b c d e f g h) =>
      mkPersist x b c d e f g h) dec_string);
   ("policy_kind", field pp_PolicyKind (fun x '(mkPersist a b c d e f g h) =>
      mkPersist a x c d e f g h) dec_string);
   ("crypto_policy_id", field pp_CryptoPolicyID (fun x '(mkPersist a b c d e f g h) =>
      mkPersist a b x d e f g h) dec_string);
   ("required_posture", field pp_RequiredPosture (fun x '(mkPersist a b c d e f g h) =>
      mkPersist a b c x e f g h) dec_string);
   ("user_constraints", field pp_UserConstraints (fun x '(mkPersist a b c d e f g h) =>
      mkPersist a b c d x f g h) (dec_struct user_constraints_fields));
   ("solution_profile_ref", field pp_SolutionProfileRef (fun x '(mkPersist a b c d e f g h) =>
      mkPersist a b c d e x g h) (dec_struct solution_ref_fields));
   ("accepted_provider_snapshot", field pp_AcceptedProviderSnapshot (fun x '(mkPersist a b c d e f g h) =>
      mkPersist a b c d e f x h) (dec_struct snapshot_fields));
   ("accepted_findings", field pp_AcceptedFindings (fun x '(mkPersist a b c d e f g h) =>
      mkPersist a b c d e f g x) (dec_list dec_string EmptyString))].

Definition decode_payload (raw : list (string * any)) : option CryptoPolicyPersistPayload :=
  dec_struct payload_fields (AMap raw) zero_payload.

End Decode.

(** ** Normalisation *)

Definition trimNonEmpty (l : list string) : list string :=
  filter (fun s => s <> EmptyString) (TrimSpace <$> l).

Definition normalize_snapshot (s : AcceptedProviderSnapshot) : AcceptedProviderSnapshot :=
  mkSnapshot (TrimSpace (snap_Maturity s)) (TrimSpace (snap_ClaimStatus s))
    (TrimSpace (snap_ResultingPosture s)) (snap_InputRequirements s)
    (mkSignature (TrimSpace (sig_Scheme (snap_Signature s))) (TrimSpace (sig_Family (snap_Signature s)))
       (TrimSpace (sig_KeyRotationModel (snap_Signature s))))
    (snap_AccountModel s) (snap_Constraints s)
    ((fun c => mkSnapshotChain (scs_ChainID c) (TrimSpace (scs_Status c)) (scs_Capabilities c))
       <$> snap_ChainSupportUsed s)
    (normalizeReference <$> snap_References s)
    (trimNonEmpty (snap_AcceptedFindings s)) (trimNonEmpty (snap_AcceptedRiskNotes s)).

(** [normalize]: the top-level [accepted_findings] stay as they are. *)
Definition normalize_payload (p : CryptoPolicyPersistPayload) : CryptoPolicyPersistPayload :=
  mkPersist (TrimSpace (pp_SchemaVersion p)) (TrimSpace (pp_PolicyKind p))
    (TrimSpace (pp_CryptoPolicyID p)) (TrimSpace (pp_RequiredPosture p))
    (mkUserConstraints (uc_AllowNewWallet (pp_UserConstraints p))
       (uc_AddressContinuityRequired (pp_UserConstraints p))
       (TrimSpace (uc_KeyRotationModel (pp_UserConstraints p))))
    (trim_ref (pp_SolutionProfileRef p))
    (normalize_snapshot (pp_AcceptedProviderSnapshot p)) (pp_AcceptedFindings p).

(** The snapshot as the profile it was taken from. *)
Definition snapshotAsProfile (p : CryptoPolicyPersistPayload) : SolutionProfile :=
  let s := pp_AcceptedProviderSnapshot p in
  mkProfile (spr_SolutionProfileID (pp_SolutionProfileRef p)) EmptyString (snap_Maturity s)
    (snap_ClaimStatus s) (snap_ResultingPosture s) (snap_InputRequirements s) (snap_Signature s)
    (snap_AccountModel s) (snap_Constraints s) None
    ((fun c => mkChainSupport (scs_ChainID c) EmptyString (scs_Status c) (scs_Capabilities c))
       <$> snap_ChainSupportUsed s)
    (snap_References s) [].

(** ** The gate *)

(** The texts of [encoding/json]'s errors; writing a value without numbers
    never fails. *)
Class GoJson := {
  json_decode_error : any -> string;
  json_marshal_error : any -> option string;
  json_marshal_allowed : forall v, allowed v -> json_marshal_error v = None
}.

#[global] Instance quiet_GoJson : GoJson.
Proof.
  refine {| json_decode_error := fun _ => "json: cannot unmarshal"; json_marshal_error := fun _ => None |}.
  done.
Defined.

Definition softFindingsForPersist (p : CryptoPolicyPersistPayload) : gores (list string) :=
  let top := NormalizeAcceptedFindings (pp_AcceptedFindings p) in
  let snap := NormalizeAcceptedFindings (snap_AcceptedFindings (pp_AcceptedProviderSnapshot p)) in
  fail_if Nat.ltb 0 (length top) && Nat.ltb 0 (length snap) && negb (bool_decide (top = snap))
    with err_of ErrAcceptedFindingsDivergent ;;
  if Nat.ltb 0 (length top) then Ok top else Ok snap.

Definition requireAcceptedSoftFindings (p : CryptoPolicyPersistPayload) : gores unit :=
  let s := pp_AcceptedProviderSnapshot p in
  accepted ← softFindingsForPersist p;
  let missing :=
    when (am_RequiresBundler (snap_AccountModel s)
          && negb (existsb (String.eqb FindingCodeRequiresBundler) accepted))
         FindingCodeRequiresBundler
    ++ when (pc_RequiresLocalSignerState (snap_Constraints s)
             && negb (existsb (String.eqb FindingCodeRequiresLocalSignerState) accepted))
            FindingCodeRequiresLocalSignerState in
  fail_if Nat.ltb 0 (length missing)
    with errorf ErrProviderSoftFindingsRequired ("missing " +:+ Join missing ", ") ;;
  Ok tt.

Fixpoint pinned_references (i : nat) (refs : list Reference) : gores unit :=
  match refs with
  | [] => Ok tt
  | r :: refs' =>
      fail_if Reference_IsUnpinned r
        with errorf ErrProviderRefsUnpinned
               ("references[" +:+ nat_text i +:+ "] commit/version is " +:+ UnpinnedPendingFixture
                +:+ " or empty") ;;
      pinned_references (Datatypes.S i) refs'
  end.

Definition requirePinnedReferences (p : CryptoPolicyPersistPayload) : gores unit :=
  let refs := snap_References (pp_AcceptedProviderSnapshot p) in
  fail_if Nat.eqb (length refs) 0 with errorf ErrProviderRefsUnpinned "references required" ;;
  pinned_references 0 refs.

Fixpoint validate_chains_used (i : nat) (l : list SnapshotChainSupport) : gores unit :=
  match l with
  | [] => Ok tt
  | c :: l' =>
      fail_if (scs_ChainID c <=? 0)%Z || is_empty (scs_Status c)
        with errorf ErrCryptoPolicyPayloadInvalid
               ("chain_support_used[" +:+ nat_text i +:+ "] chain_id/status required") ;;
      fail_if String.eqb (scs_Status c) ChainStatusPlanned with err_of ErrProviderChainPlanned ;;
      validate_chains_used (Datatypes.S i) l'
  end.

Definition finding_text (f : HardFinding) : string :=
  "[" +:+ hf_Code f +:+ "] " +:+ hf_Message f.

Definition legacy_keys : list string :=
  ["allow_new_wallet"; "address_continuity_required"; "key_rotation_model"].

(** The first of [keys] that the object has, or that it lacks. *)
Definition first_present (raw : list (string * any)) (keys : list string) : option string :=
  find (fun k => has_key raw k) keys.

Definition first_absent (raw : list (string * any)) (keys : list string) : option string :=
  find (fun k => negb (has_key raw k)) keys.

Definition rejectLegacyPersistShape (raw : list (string * any)) : gores unit :=
  fail_if has_key raw "template_id"
    with errorf ErrCryptoPolicyPayloadInvalid "template_id is not allowed; use crypto_policy_id" ;;
  fail_if has_key raw "selection_request"
    with errorf ErrCryptoPolicyPayloadInvalid "selection_request is not allowed on persist payload" ;;
  match first_present raw legacy_keys with
  | Some key => Err (errorf ErrCryptoPolicyPayloadInvalid
                       (key +:+ " must be nested under user_constraints"))
  | None =>
      fail_if negb (has_key raw "crypto_policy_id")
        with errorf ErrCryptoPolicyPayloadInvalid "crypto_policy_id is required" ;;
      Ok tt
  end.

Definition requirePersistUserConstraints (raw : list (string * any)) : gores unit :=
  match map_get raw "user_constraints" with
  | None | Some ANil =>
      Err (errorf ErrCryptoPolicyPayloadInvalid "user_constraints is required")
  | Some v =>
      match as_map v with
      | None => Err (errorf ErrCryptoPolicyPayloadInvalid "user_constraints must be an object")
      | Some uc =>
          match first_absent uc legacy_keys with
          | Some key => Err (errorf ErrCryptoPolicyPayloadInvalid
                               ("user_constraints." +:+ key +:+ " is required"))
          | None => Ok tt
          end
      end
  end.

Definition stringFromAny (v : option any) : string :=
  TrimSpace (match as_string v with Some s => s | None => EmptyString end).

Section Gate.
Context `{U : Unicode, S : GoSort, F : GoFloat, J : GoJson}.

Definition int64SliceFromAny (v : option any) : list Z :=
  match v with
  | Some (AInt64s l) => l
  | Some (ASlice l) =>
      omap (fun item => match item with
            | AFloat64 f => Some (float_to_int64 f)
            | AInt64 z | AInt z => Some z
            | ANumber s => ParseInt s
            | _ => None
            end) l
  | _ => []
  end.

Definition observationFromPersistRaw (raw : list (string * any)) : HardObservation :=
  let '(kind, chains) :=
    match map_get raw "policy_context" ≫= as_map with
    | Some pc =>
        let k := stringFromAny (map_get pc "wallet_type") in
        (if is_empty k then stringFromAny (map_get pc "account_kind") else k,
         int64SliceFromAny (map_get pc "chain_ids"))
    | None => (EmptyString, [])
    end in
  mkObservation (if is_empty kind then "EOA" else kind) chains.

Definition validatePersistIdentity (p : CryptoPolicyPersistPayload) : gores unit :=
  fail_if negb (String.eqb (pp_SchemaVersion p) CryptoPolicySchemaVersionV02)
    with errorf ErrCryptoPolicyPayloadInvalid ("schema_version " +:+ Quote (pp_SchemaVersion p)) ;;
  fail_if is_empty (pp_CryptoPolicyID p)
    with errorf ErrCryptoPolicyPayloadInvalid "crypto_policy_id is required" ;;
  fail_if negb (CurrentPQPosture_IsValid (pp_RequiredPosture p))
          || String.eqb (pp_RequiredPosture p) PQPostureUnknown
    with errorf ErrCryptoPolicyPayloadInvalid ("required_posture " +:+ Quote (pp_RequiredPosture p)) ;;
  fail_if negb (oneOf (uc_KeyRotationModel (pp_UserConstraints p)) rotation_models)
    with errorf ErrCryptoPolicyPayloadInvalid
      ("user_constraints.key_rotation_model " +:+ Quote (uc_KeyRotationModel (pp_UserConstraints p))) ;;
  match SolutionProfileRef_Validate (pp_SolutionProfileRef p) with
  | Err e => Err (errorf ErrCryptoPolicyPayloadInvalid ("solution_profile_ref: " +:+ e_text e))
  | Ok _ => Ok tt
  end.

Definition validatePersistSnapshot (p : CryptoPolicyPersistPayload) : gores unit :=
  let s := pp_AcceptedProviderSnapshot p in
  fail_if is_empty (snap_Maturity s) || is_empty (snap_ClaimStatus s) || is_empty (snap_ResultingPosture s)
    with errorf ErrCryptoPolicyPayloadInvalid
      "accepted_provider_snapshot maturity/claim_status/resulting_posture required" ;;
  fail_if negb (oneOf (snap_ClaimStatus s) claim_statuses)
    with errorf ErrCryptoPolicyPayloadInvalid ("claim_status " +:+ Quote (snap_ClaimStatus s)) ;;
  fail_if negb (oneOf (snap_ResultingPosture s) postures)
    with errorf ErrCryptoPolicyPayloadInvalid ("resulting_posture " +:+ Quote (snap_ResultingPosture s)) ;;
  fail_if is_empty (sig_Scheme (snap_Signature s)) || is_empty (sig_Family (snap_Signature s))
    with errorf ErrCryptoPolicyPayloadInvalid
      "accepted_provider_snapshot.signature scheme/family required" ;;
  fail_if Nat.eqb (length (snap_ChainSupportUsed s)) 0
    with errorf ErrCryptoPolicyPayloadInvalid "chain_support_used must be a non-empty array" ;;
  validate_chains_used 0 (snap_ChainSupportUsed s).

Definition persist_request (obs : HardObservation) (p : CryptoPolicyPersistPayload)
    : HardSelectionRequest :=
  mkSelection (pp_RequiredPosture p) (ob_ChainIDs obs) (uc_AllowNewWallet (pp_UserConstraints p))
    (uc_AddressContinuityRequired (pp_UserConstraints p)) (uc_KeyRotationModel (pp_UserConstraints p)).

Definition replayCoucheAB (p : CryptoPolicyPersistPayload) (obs : HardObservation) : gores unit :=
  let profile := Some (snapshotAsProfile p) in
  match EvaluateScanCompatibility obs (pp_RequiredPosture p) profile with
  | f :: _ => Err (errorf ErrProviderScanCompatFailed (hf_Message f))
  | [] =>
      match EvaluateUserConstraints (pp_UserConstraints p) profile with
      | f :: _ => Err (errorf ErrProviderUserConstraintsIncompatible (finding_text f))
      | [] =>
          match EvaluateHardCompatibility obs (persist_request obs p) profile with
          | f :: _ => Err (errorf ErrProviderUserConstraintsIncompatible (finding_text f))
          | [] => Ok tt
          end
      end
  end.

Definition ValidateForPersist (p : option CryptoPolicyPersistPayload) (obs : HardObservation)
    : gores unit :=
  match p with
  | None => Err (errorf ErrCryptoPolicyPayloadInvalid "nil")
  | Some p0 =>
      let p := normalize_payload p0 in
      _ ← validatePersistIdentity p;
      _ ← validatePersistSnapshot p;
      _ ← requireAcceptedSoftFindings p;
      _ ← requirePinnedReferences p;
      replayCoucheAB p obs
  end.

(** A nil map is [None]. *)
Definition ValidatePayloadForPersist (raw : option (list (string * any))) : gores unit :=
  match raw with
  | None => Err (errorf ErrCryptoPolicyPayloadInvalid "payload is nil")
  | Some raw =>
      _ ← rejectLegacyPersistShape raw;
      _ ← requirePersistUserConstraints raw;
      match json_marshal_error (AMap raw) with
      | Some text => Err (errorf ErrCryptoPolicyPayloadInvalid ("marshal: " +:+ text))
      | None =>
          match decode_payload raw with
          | None => Err (errorf ErrCryptoPolicyPayloadInvalid
                           ("decode: " +:+ json_decode_error (AMap raw)))
          | Some p => ValidateForPersist (Some p) (observationFromPersistRaw raw)
          end
      end
  end.

End Gate.

(** ** Codes of the refusals *)

(** [msg[a:b]]. *)
Definition substring (s : string) (a b : nat) : string := take_bytes (b - a) (drop_bytes a s).

Definition UserConstraintsIncompatibleFindingCode (err : option goerror) : string :=
  match err with
  | None => EmptyString
  | Some e =>
      if negb (errors_Is e ErrProviderUserConstraintsIncompatible) then EmptyString
      else
        match Index (e_text e) "[", Index (e_text e) "]" with
        | Some start, Some fin =>
            if Nat.leb fin (start + 1) then EmptyString
            else TrimSpace (substring (e_text e) (start + 1) fin)
        | _, _ => EmptyString
        end
  end.

Definition persistCodeProviderRefsUnpinned : string := "PROVIDER_REFS_UNPINNED".
Definition persistCodeProviderSoftFindingsRequired : string := "PROVIDER_SOFT_FINDINGS_REQUIRED".
Definition persistCodeProviderChainPlanned : string := "PROVIDER_CHAIN_PLANNED".
Definition persistCodeProviderScanCompatFailed : string := "PROVIDER_SCAN_COMPAT_FAILED".
Definition persistCodeProviderUserConstraintsIncompatible : string :=
  "PROVIDER_USER_CONSTRAINTS_INCOMPATIBLE".
Definition persistCodeCryptoPolicyPayloadInvalid : string := "CRYPTO_POLICY_PAYLOAD_INVALID".

(** Status, code and message; the status is always 400. *)
Definition mapPersistProviderGateError (e : goerror) : nat * string * string :=
  (400,
   if errors_Is e ErrProviderRefsUnpinned then persistCodeProviderRefsUnpinned
   else if errors_Is e ErrProviderSoftFindingsRequired then persistCodeProviderSoftFindingsRequired
   else if errors_Is e ErrProviderChainPlanned then persistCodeProviderChainPlanned
   else if errors_Is e ErrProviderScanCompatFailed then persistCodeProviderScanCompatFailed
   else if errors_Is e ErrProviderUserConstraintsIncompatible
        then persistCodeProviderUserConstraintsIncompatible
   else if errors_Is e ErrAcceptedFindingsDivergent then persistCodeCryptoPolicyPayloadInvalid
   else if errors_Is e ErrCryptoPolicyPayloadInvalid then persistCodeCryptoPolicyPayloadInvalid
   else persistCodeCryptoPolicyPayloadInvalid,
   e_text e).

Definition cryptoPolicyIDFromPayload (payload : option (list (string * any))) : string :=
  match payload with
  | None => EmptyString
  | Some m => stringFromAny (map_get m "crypto_policy_id")
  end.

(** ** What the gate accepts *)

Definition chain_used_ok (c : SnapshotChainSupport) : Prop :=
  (0 < scs_ChainID c)%Z /\ scs_Status c <> EmptyString /\ scs_Status c <> ChainStatusPlanned.

Definition pinned (r : Reference) : Prop :=
  rf_Commit r <> UnpinnedPendingFixture /\ rf_Version r <> UnpinnedPendingFixture
  /\ (rf_Commit r <> EmptyString \/ rf_Version r <> EmptyString).

Lemma pinned_spec r : Reference_IsUnpinned r = false <-> pinned r.
Proof.
  unfold Reference_IsUnpinned, pinned.
  destruct (String.eqb_spec (rf_Commit r) UnpinnedPendingFixture); [naive_solver|].
  destruct (String.eqb_spec (rf_Version r) UnpinnedPendingFixture); simpl; [naive_solver|].
  rewrite andb_false_iff, !is_empty_false. tauto.
Qed.

Lemma pinned_references_ok i refs : pinned_references i refs = Ok tt <-> Forall pinned refs.
Proof.
  revert i. induction refs as [|r refs IH]; intros i; cbn [pinned_references]; [by split; [constructor|]|].
  rewrite fail_if_ok, IH, Forall_cons, pinned_spec. done.
Qed.

Lemma validate_chains_used_ok i l : validate_chains_used i l = Ok tt <-> Forall chain_used_ok l.
Proof.
  revert i. induction l as [|c l IH]; intros i; cbn [validate_chains_used]; [by split; [constructor|]|].
  rewrite !fail_if_ok, IH, Forall_cons, orb_false_and, Z.leb_gt, is_empty_false, String.eqb_neq.
  unfold chain_used_ok. tauto.
Qed.

(** The accepted findings: the top-level list when it is not empty, which must
    then agree with the snapshot's unless that one is empty. *)
Definition findings_agree (p : CryptoPolicyPersistPayload) : Prop :=
  let top := pp_AcceptedFindings p in
  let snap := snap_AcceptedFindings (pp_AcceptedProviderSnapshot p) in
  top = [] \/ snap = [] \/ (forall s, s ∈ top <-> s ∈ snap).

Definition effective_findings (p : CryptoPolicyPersistPayload) : list string :=
  match pp_AcceptedFindings p with
  | [] => snap_AcceptedFindings (pp_AcceptedProviderSnapshot p)
  | l => l
  end.

Definition soft_accepted (p : CryptoPolicyPersistPayload) : Prop :=
  (am_RequiresBundler (snap_AccountModel (pp_AcceptedProviderSnapshot p)) = true ->
     FindingCodeRequiresBundler ∈ effective_findings p)
  /\ (pc_RequiresLocalSignerState (snap_Constraints (pp_AcceptedProviderSnapshot p)) = true ->
     FindingCodeRequiresLocalSignerState ∈ effective_findings p).

Lemma normal_form_nil l : NormalizeAcceptedFindings l = [] <-> l = [].
Proof.
  split; [|by intros ->]. intros E. apply elem_of_nil_inv. intros s Hs.
  apply normal_form in Hs. rewrite E in Hs. set_solver.
Qed.

Lemma ltb_length {A} (l : list A) : Nat.ltb 0 (length l) = true <-> l <> [].
Proof. destruct l; naive_solver. Qed.

Lemma softFindings_ok p l :
  softFindingsForPersist p = Ok l <->
  findings_agree p /\ l = NormalizeAcceptedFindings (effective_findings p).
Proof.
  unfold softFindingsForPersist, findings_agree, effective_findings. rewrite fail_if_ok.
  set (top := pp_AcceptedFindings p). set (snap := snap_AcceptedFindings _).
  assert (Nat.ltb 0 (length (NormalizeAcceptedFindings top))
            && Nat.ltb 0 (length (NormalizeAcceptedFindings snap))
            && negb (bool_decide (NormalizeAcceptedFindings top = NormalizeAcceptedFindings snap)) = false
          <-> (top = [] \/ snap = [] \/ (forall s, s ∈ top <-> s ∈ snap))) as ->.
  { rewrite !andb_false_iff, <- !not_true_iff_false, !ltb_length, negb_true_iff, bool_decide_eq_false,
      !normal_form_nil.
    assert (NormalizeAcceptedFindings top = NormalizeAcceptedFindings snap
            <-> (forall s, s ∈ top <-> s ∈ snap)) as <-.
    { split; [|apply normal_form_ext]. intros E s.
      by rewrite <- (proj2 (normal_form top)), E, (proj2 (normal_form snap)). }
    destruct (decide (top = [])), (decide (snap = [])),
      (decide (NormalizeAcceptedFindings top = NormalizeAcceptedFindings snap)); tauto. }
  destruct top as [|x top]; [naive_solver|].
  assert (Nat.ltb 0 (length (NormalizeAcceptedFindings (x :: top))) = true) as ->.
  { rewrite ltb_length, normal_form_nil. done. }
  naive_solver.
Qed.

Lemma existsb_accepted code l :
  existsb (String.eqb code) (NormalizeAcceptedFindings l) = true <-> code ∈ l.
Proof. rewrite (oneOf_spec code (NormalizeAcceptedFindings l)). apply normal_form. Qed.

Lemma requireAcceptedSoftFindings_ok p :
  requireAcceptedSoftFindings p = Ok tt <-> findings_agree p /\ soft_accepted p.
Proof.
  unfold requireAcceptedSoftFindings, soft_accepted. rewrite res_bind_ok.
  setoid_rewrite softFindings_ok. setoid_rewrite fail_if_ok.
  assert (forall b1 b2 c1 c2 : bool, forall x y : string,
    Nat.ltb 0 (length (when (b1 && negb c1) x ++ when (b2 && negb c2) y)) = false
    <-> (b1 = true -> c1 = true) /\ (b2 = true -> c2 = true)) as Hw.
  { intros [] [] [] [] x y; simpl; (split; [try done; intros _; by split|]); try done;
      intros [H1 H2]; first [by specialize (H1 eq_refl)|by specialize (H2 eq_refl)]. }
  setoid_rewrite Hw. split.
  - intros (l & (Hag & ->) & H & _). rewrite !existsb_accepted in H. done.
  - intros (Hag & H). eexists. split; [done|]. by rewrite !existsb_accepted.
Qed.

Section GateSpec.
Context `{U : Unicode, S : GoSort, F : GoFloat, J : GoJson}.

(** What each stage asks of the normalised payload. *)
Definition identity_ok (p : CryptoPolicyPersistPayload) : Prop :=
  pp_SchemaVersion p = CryptoPolicySchemaVersionV02 /\ pp_CryptoPolicyID p <> EmptyString
  /\ pp_RequiredPosture p ∈ postures
  /\ uc_KeyRotationModel (pp_UserConstraints p) ∈ rotation_models
  /\ ref_complete (pp_SolutionProfileRef p).

Definition snapshot_ok (p : CryptoPolicyPersistPayload) : Prop :=
  let s := pp_AcceptedProviderSnapshot p in
  snap_Maturity s <> EmptyString /\ snap_ClaimStatus s ∈ claim_statuses
  /\ snap_ResultingPosture s ∈ postures
  /\ sig_Scheme (snap_Signature s) <> EmptyString /\ sig_Family (snap_Signature s) <> EmptyString
  /\ snap_ChainSupportUsed s <> [] /\ Forall chain_used_ok (snap_ChainSupportUsed s).

Definition references_ok (p : CryptoPolicyPersistPayload) : Prop :=
  snap_References (pp_AcceptedProviderSnapshot p) <> []
  /\ Forall pinned (snap_References (pp_AcceptedProviderSnapshot p)).

Definition replay_ok (p : CryptoPolicyPersistPayload) (obs : HardObservation) : Prop :=
  scan_accepts obs (pp_RequiredPosture p) (snapshotAsProfile p)
  /\ user_accepts (pp_UserConstraints p) (snapshotAsProfile p)
  /\ targets_ok (sp_ChainSupport (snapshotAsProfile p)) (ob_ChainIDs obs).

Lemma posture_check s :
  negb (CurrentPQPosture_IsValid s) || String.eqb s PQPostureUnknown = false <-> s ∈ postures.
Proof.
  rewrite orb_false_and, negb_false_iff, posture_valid_spec, String.eqb_neq. split; [naive_solver|].
  intros H. pose proof (posture_nonempty _ H). naive_solver.
Qed.

Lemma validatePersistIdentity_ok p : validatePersistIdentity p = Ok tt <-> identity_ok p.
Proof.
  unfold validatePersistIdentity, identity_ok.
  rewrite !fail_if_ok, posture_check, !negb_false_iff, String.eqb_eq, oneOf_spec, is_empty_false.
  rewrite <- SolutionProfileRef_Validate_ok. destruct (SolutionProfileRef_Validate _) as [[]|]; naive_solver.
Qed.

Lemma validatePersistSnapshot_ok p : validatePersistSnapshot p = Ok tt <-> snapshot_ok p.
Proof.
  unfold validatePersistSnapshot, snapshot_ok.
  rewrite !fail_if_ok, !orb_false_and, !negb_false_iff, !oneOf_spec, !is_empty_false, length_zero_false,
    validate_chains_used_ok.
  split; [tauto|]. intros (? & Hc & Hp & ?). pose proof (posture_nonempty _ Hp).
  assert (snap_ClaimStatus (pp_AcceptedProviderSnapshot p) <> EmptyString); [|tauto].
  intros E. rewrite E in Hc. unfold claim_statuses in Hc. set_solver.
Qed.

Lemma requirePinnedReferences_ok p : requirePinnedReferences p = Ok tt <-> references_ok p.
Proof.
  unfold requirePinnedReferences, references_ok.
  by rewrite fail_if_ok, length_zero_false, pinned_references_ok.
Qed.

Lemma request_targets_persist obs p : request_targets obs (persist_request obs p) = ob_ChainIDs obs.
Proof. unfold request_targets, persist_request; simpl. by destruct (ob_ChainIDs obs). Qed.

Lemma replayCoucheAB_ok p obs : replayCoucheAB p obs = Ok tt <-> replay_ok p obs.
Proof.
  unfold replayCoucheAB, replay_ok. rewrite <- scan_pass, <- user_pass.
  destruct (EvaluateScanCompatibility _ _ _) as [|f l] eqn:Hs; [|by split; [|intros [? _]]].
  destruct (EvaluateUserConstraints _ _) as [|f l] eqn:Hu; [|by split; [|intros (_ & ? & _)]].
  apply scan_pass in Hs as (Hp & Hw & _). apply user_pass in Hu.
  assert (EvaluateHardCompatibility obs (persist_request obs p) (Some (snapshotAsProfile p)) = []
          <-> targets_ok (sp_ChainSupport (snapshotAsProfile p)) (ob_ChainIDs obs)) as Hh.
  { rewrite hard_pass, request_targets_persist. unfold request_user, persist_request; simpl.
    destruct (pp_UserConstraints p); simpl in *. tauto. }
  destruct (EvaluateHardCompatibility _ _ _) as [|f l]; [naive_solver|].
  split; [done|]. intros (_ & _ & Ht). by apply Hh in Ht.
Qed.

Lemma ValidateForPersist_ok p0 obs :
  ValidateForPersist (Some p0) obs = Ok tt <->
  let p := normalize_payload p0 in
  identity_ok p /\ snapshot_ok p /\ (findings_agree p /\ soft_accepted p) /\ references_ok p
  /\ replay_ok p obs.
Proof.
  unfold ValidateForPersist. cbn zeta.
  rewrite <- validatePersistIdentity_ok, <- validatePersistSnapshot_ok,
    <- requireAcceptedSoftFindings_ok, <- requirePinnedReferences_ok, <- replayCoucheAB_ok.
  unfold mbind, res_bind.
  destruct (validatePersistIdentity _) as [[]|]; [|naive_solver].
  destruct (validatePersistSnapshot _) as [[]|]; [|naive_solver].
  destruct (requireAcceptedSoftFindings _) as [[]|]; [|naive_solver].
  destruct (requirePinnedReferences _) as [[]|]; [|naive_solver]. naive_solver.
Qed.

(** C9: the persist gate accepts exactly the payloads whose identity and
    snapshot are complete, whose accepted findings agree and cover the
    profile's soft findings, whose references are present and pinned, and on
    whose snapshot couche A, couche B and, for every positive observed chain,
    the hard chain check hold. *)
Theorem ValidateForPersist_correct p0 obs :
  ValidateForPersist (Some p0) obs = Ok tt <->
  let p := normalize_payload p0 in
  identity_ok p /\ snapshot_ok p /\ findings_agree p /\ soft_accepted p
  /\ references_ok p
  /\ scan_accepts obs (pp_RequiredPosture p) (snapshotAsProfile p)
  /\ user_accepts (pp_UserConstraints p) (snapshotAsProfile p)
  /\ targets_ok (sp_ChainSupport (snapshotAsProfile p)) (ob_ChainIDs obs).
Proof. rewrite ValidateForPersist_ok. unfold replay_ok. tauto. Qed.

End GateSpec.

(** ** From the assist to the gate *)

Section AssistGate.
Context `{U : Unicode, S : GoSort, F : GoFloat, J : GoJson}.

(** The payload a client submits from an assist answer. *)
Definition assist_payload (cp : CryptoPolicy) (uc : UserConstraints)
    (r : BuildAcceptedProviderSnapshotResult) : CryptoPolicyPersistPayload :=
  mkPersist CryptoPolicySchemaVersionV02 EmptyString (cp_ID cp) (cp_RequiredPosture cp) uc
    (br_SolutionProfileRef r) (br_AcceptedProviderSnapshot r)
    (snap_AcceptedFindings (br_AcceptedProviderSnapshot r)).

Lemma allowed_finding_solid s : s ∈ allowed_findings -> TrimSpace s = s /\ s <> EmptyString.
Proof.
  unfold allowed_findings. rewrite !elem_of_cons, elem_of_nil. intros [->|[->|[]]]; done.
Qed.

Lemma trimNonEmpty_fix l : Forall (fun s => s ∈ allowed_findings) l -> trimNonEmpty l = l.
Proof.
  unfold trimNonEmpty. induction 1 as [|s l Hs _ IH]; [done|].
  destruct (allowed_finding_solid s Hs) as [Ht Hne].
  rewrite fmap_cons, filter_cons, Ht, decide_True by done. by rewrite IH.
Qed.

Lemma assist_findings_allowed client p :
  Forall (fun c => TrimSpace c = EmptyString \/ TrimSpace c ∈ allowed_findings) client ->
  Forall (fun s => s ∈ allowed_findings)
    (NormalizeAcceptedFindings (filter (fun c => c <> EmptyString) (TrimSpace <$> client) ++ soft_codes p)).
Proof.
  intros Hc. apply Forall_forall. intros s Hs. rewrite normal_form_elem in Hs. apply elem_of_app in Hs as [Hs|Hs].
  - apply list_elem_of_filter in Hs as [Hne (c & -> & Hin)%list_elem_of_fmap].
    rewrite Forall_forall in Hc. destruct (Hc c Hin); done.
  - pose proof (soft_codes_allowed p) as H. rewrite Forall_forall in H. auto.
Qed.

Lemma normal_profile_chain p cs : normalizeSolutionProfile p = p -> cs ∈ sp_ChainSupport p ->
  TrimSpace (cs_Status cs) = cs_Status cs.
Proof.
  intros Hn Hin. rewrite <- Hn in Hin. simpl in Hin. apply list_elem_of_fmap in Hin as (c & -> & _).
  apply TrimSpace_idem.
Qed.

Lemma persistable_elem p c : normalizeSolutionProfile p = p ->
  c ∈ omap persistable_chain (sp_ChainSupport p) -> TrimSpace (scs_Status c) = scs_Status c /\ chain_used_ok c.
Proof.
  intros Hn (cs & Hin & E)%list_elem_of_omap. pose proof (normal_profile_chain p cs Hn Hin) as Ht.
  assert (is_Some (persistable_chain cs)) as [[Hs Hp] Hne]%persistable_chain_spec by (by exists c).
  unfold persistable_chain in E. repeat case_match; simplify_eq. simpl in *.
  rewrite Ht in *. done.
Qed.

(** On an already normalised snapshot [normalize] changes nothing. *)
Lemma normalize_built p chains findings :
  normalizeSolutionProfile p = p -> Forall (fun s => s ∈ allowed_findings) findings ->
  (forall c, c ∈ chains -> TrimSpace (scs_Status c) = scs_Status c) ->
  let s := normalize_snapshot (build_snapshot p chains findings) in
  s = mkSnapshot (sp_Maturity p) (sp_ClaimStatus p) (sp_ResultingPosture p) (sp_InputRequirements p)
        (sp_Signature p) (sp_AccountModel p) (sp_Constraints p) chains (sp_References p) findings
        (snap_AcceptedRiskNotes s).
Proof.
  intros Hn Hf Hc. unfold normalize_snapshot, build_snapshot. simpl.
  assert (Hp : forall g : SolutionProfile -> string, g (normalizeSolutionProfile p) = TrimSpace (g p) ->
    TrimSpace (g p) = g p) by (intros g E; by rewrite <- E, Hn).
  rewrite (Hp sp_Maturity eq_refl), (Hp sp_ClaimStatus eq_refl), (Hp sp_ResultingPosture eq_refl).
  rewrite (Hp (fun p => sig_Scheme (sp_Signature p)) eq_refl),
    (Hp (fun p => sig_Family (sp_Signature p)) eq_refl),
    (Hp (fun p => sig_KeyRotationModel (sp_Signature p)) eq_refl), (trimNonEmpty_fix findings Hf).
  assert (normalizeReference <$> sp_References p = sp_References p) as ->
    by (change (sp_References (normalizeSolutionProfile p) = sp_References p); by rewrite Hn).
  assert ((fun c => mkSnapshotChain (scs_ChainID c) (TrimSpace (scs_Status c)) (scs_Capabilities c))
    <$> chains = chains) as ->.
  { rewrite <- (list_fmap_id chains) at 2. apply list_fmap_ext. intros i c Hi%list_elem_of_lookup_2.
    rewrite Hc by done. by destruct c. }
  by destruct (sp_Signature p).
Qed.

Lemma soft_accepted_built p s findings :
  snap_AccountModel s = sp_AccountModel p -> snap_Constraints s = sp_Constraints p ->
  snap_AcceptedFindings s = findings -> (forall c, c ∈ soft_codes p -> c ∈ findings) ->
  forall a b c d e f, soft_accepted (mkPersist a b c d e f s findings).
Proof.
  intros Ha Hc Hf Hsub a b c d e f. unfold soft_accepted.
  assert (effective_findings (mkPersist a b c d e f s findings) = findings) as ->.
  { unfold effective_findings; simpl. by destruct findings. }
  simpl. rewrite Ha, Hc. unfold soft_codes, EvaluateSoftFindings, when in Hsub.
  split; intros Hb; apply Hsub; rewrite Hb; simpl; [by left|].
  destruct (am_RequiresBundler _); simpl; set_solver.
Qed.

Lemma lookup_profile_wf flag reg ref resolved : reg_inv flag reg ->
  Lookup (Some reg) ref = Some resolved ->
  exists m, manifest_wf m /\ rp_Profile resolved ∈ pm_SolutionProfiles m
    /\ rp_ProviderID resolved = pm_ProviderID m /\ rp_ProviderVersion resolved = pm_ProviderVersion m.
Proof.
  intros Hinv. unfold Lookup. destruct (byKey reg !! _) as [got|] eqn:Hk; [|done].
  case_match; [done|]. intros [= ->].
  apply (inv_index _ _ Hinv) in Hk as (m & p & Hr & Hp & _ & ->).
  destruct (inv_manifests _ _ Hinv _ _ Hr) as [_ Hwf]. by exists m.
Qed.

Lemma wf_profile m p : manifest_wf m -> p ∈ pm_SolutionProfiles m ->
  normalizeSolutionProfile p = p /\ profile_ok p.
Proof.
  intros (Hn & [] & _) Hp. rewrite Forall_forall in ok_profile. split; [|auto].
  rewrite <- Hn in Hp. simpl in Hp. apply list_elem_of_fmap in Hp as (q & -> & _).
  apply normalizeSolutionProfile_idem.
Qed.

(** The payload of the assist, normalised. *)
Lemma assist_normalized cp uc r p chains findings ref' :
  CryptoPolicy_Normalize cp = cp -> policy_ok cp -> uc_KeyRotationModel uc ∈ rotation_models ->
  normalizeSolutionProfile p = p -> Forall (fun s => s ∈ allowed_findings) findings ->
  (forall c, c ∈ chains -> TrimSpace (scs_Status c) = scs_Status c) ->
  br_SolutionProfileRef r = ref' -> trim_ref ref' = ref' ->
  br_AcceptedProviderSnapshot r = build_snapshot p chains findings ->
  exists notes, normalize_payload (assist_payload cp uc r)
    = mkPersist CryptoPolicySchemaVersionV02 EmptyString (cp_ID cp) (cp_RequiredPosture cp) uc ref'
        (mkSnapshot (sp_Maturity p) (sp_ClaimStatus p) (sp_ResultingPosture p) (sp_InputRequirements p)
           (sp_Signature p) (sp_AccountModel p) (sp_Constraints p) chains (sp_References p) findings notes)
        findings.
Proof.
  intros Hcn Hcp Huc Hpn Hf Hc Hr Hrt Hs. eexists. unfold normalize_payload, assist_payload. simpl.
  rewrite Hs, Hr, Hrt, (normalize_built p chains findings) by done.
  assert (TrimSpace (cp_ID cp) = cp_ID cp) as -> by (rewrite <- Hcn at 2; done).
  assert (TrimSpace (cp_RequiredPosture cp) = cp_RequiredPosture cp) as ->.
  { pose proof (cok_posture _ Hcp) as H. unfold postures in H. rewrite !elem_of_cons, elem_of_nil in H.
    destruct H as [->|[->|[->|[]]]]; done. }
  assert (TrimSpace (uc_KeyRotationModel uc) = uc_KeyRotationModel uc) as ->.
  { unfold rotation_models in Huc. rewrite !elem_of_cons, elem_of_nil in Huc.
    destruct Huc as [->|[->|[]]]; done. }
  by destruct uc.
Qed.

Lemma greenfield_replay p posture uc a b c ref snap findings :
  posture ∈ postures -> sp_ResultingPosture p ∈ postures ->
  snap_ResultingPosture snap = sp_ResultingPosture p ->
  snap_InputRequirements snap = sp_InputRequirements p ->
  snap_Signature snap = sp_Signature p -> snap_Constraints snap = sp_Constraints p ->
  replay_ok (mkPersist a b c posture uc ref snap findings) (mkObservation "EOA" []) <->
  sp_ResultingPosture p = posture
  /\ wallet_ok "EOA" (ir_WalletTypes (sp_InputRequirements p)) /\ user_accepts uc p.
Proof.
  intros Hp Hrp E1 E2 E3 E4.
  unfold replay_ok, scan_accepts, user_accepts, posture_ok, targets_ok, snapshotAsProfile; simpl.
  rewrite E1, E2, E3, E4.
  assert (forall s, s ∈ postures -> TrimSpace s = s /\ s <> EmptyString) as Ht.
  { intros s. unfold postures. rewrite !elem_of_cons, elem_of_nil. intros [->|[->|[->|[]]]]; done. }
  destruct (Ht _ Hp) as [-> Hne], (Ht _ Hrp) as [-> _].
  split; [naive_solver|]. intros (? & ? & ?). split_and!; try set_solver; naive_solver.
Qed.

Lemma assist_ref_trimmed m p resolved date : manifest_wf m -> p ∈ pm_SolutionProfiles m ->
  rp_ProviderID resolved = pm_ProviderID m -> rp_ProviderVersion resolved = pm_ProviderVersion m ->
  normalizeSolutionProfile p = p -> rp_Profile resolved = p ->
  trim_ref (mkSolutionRef (rp_ProviderID resolved) (sp_SolutionProfileID p)
              (rp_ProviderVersion resolved) (TrimSpace date))
  = mkSolutionRef (rp_ProviderID resolved) (sp_SolutionProfileID p) (rp_ProviderVersion resolved)
      (TrimSpace date).
Proof.
  intros Hwf Hp -> -> Hpn _. unfold trim_ref; simpl. rewrite (wf_profile_trimmed m p) by done.
  destruct Hwf as [<- _]; simpl. by rewrite !TrimSpace_idem.
Qed.

Lemma maturity_nonempty s : s ∈ maturities -> s <> EmptyString.
Proof. unfold maturities. rewrite !elem_of_cons, elem_of_nil. intros [->|[->|[->|[]]]]; done. Qed.

(** C18: a payload assembled from a successful snapshot assist passes the gate
    (closed payloads carry no wallet observation) exactly when the profile's
    references are present and pinned, its posture is the policy's, it accepts
    externally owned accounts, and couche B accepts the user's constraints:
    every other check is guaranteed by the assist. *)
Theorem assist_payload_gate flag reg cp uc ref client r resolved :
  reg_inv flag reg -> policy_ok cp -> CryptoPolicy_Normalize cp = cp ->
  uc_KeyRotationModel uc ∈ rotation_models ->
  BuildAcceptedProviderSnapshot (mkSnapshotInput (Some cp) ref client (Some reg)) = Ok r ->
  Lookup (Some reg) (mkProfileRef (TrimSpace (spr_ProviderID ref))
    (TrimSpace (spr_SolutionProfileID ref)) (TrimSpace (spr_ManifestVersion ref))) = Some resolved ->
  let p := rp_Profile resolved in
  ValidateForPersist (Some (assist_payload cp uc r)) (mkObservation "EOA" []) = Ok tt <->
  sp_References p <> [] /\ Forall pinned (sp_References p)
  /\ sp_ResultingPosture p = cp_RequiredPosture cp
  /\ wallet_ok "EOA" (ir_WalletTypes (sp_InputRequirements p))
  /\ user_accepts uc p.
Proof.
  intros Hinv Hcp Hcn Huc Hb Hl p.
  destruct (build_ok _ _ _ _ _ Hb) as (resolved' & Hl' & Hne & Hcl & Href & Hs).
  rewrite Hl in Hl'. injection Hl' as <-. fold p in Hne, Href, Hs.
  destruct (lookup_profile_wf _ _ _ _ Hinv Hl) as (m & Hwf & Hp & Hid & Hver). fold p in Hp.
  destruct (wf_profile m p Hwf Hp) as [Hpn Hpok].
  set (chains := sort_slice _ _) in Hs. set (findings := NormalizeAcceptedFindings _) in Hs.
  assert (forall c, c ∈ chains -> TrimSpace (scs_Status c) = scs_Status c /\ chain_used_ok c) as Hch.
  { intros c. unfold chains. rewrite sort_slice_perm. by apply persistable_elem. }
  destruct (assist_normalized cp uc r p chains findings _ Hcn Hcp Huc Hpn
    (assist_findings_allowed client p Hcl) (fun c Hc => proj1 (Hch c Hc)) Href
    (assist_ref_trimmed m p resolved _ Hwf Hp Hid Hver Hpn eq_refl) Hs) as [notes Hnorm].
  rewrite ValidateForPersist_ok. cbn zeta. rewrite Hnorm.
  rewrite (greenfield_replay p) by (done || apply Hcp || apply Hpok).
  unfold references_ok. cbn [pp_AcceptedProviderSnapshot snap_References].
  assert (chains <> []) as Hne'.
  { intros E. apply Hne, Permutation_nil. rewrite <- E. apply sort_slice_perm. }
  pose proof (ok_pid _ (proj1 (proj2 Hwf))). pose proof (ok_pversion _ (proj1 (proj2 Hwf))).
  split; [tauto|]. intros Hrest. split_and!; try tauto.
  - destruct Hcp, Hpok. split_and!; [done..|]. unfold ref_complete. simpl. by rewrite Hid, Hver.
  - destruct Hpok. split_and!; try done.
    + by apply maturity_nonempty.
    + apply Forall_forall. intros c Hc. by apply Hch.
  - right. right. done.
  - eapply soft_accepted_built; try done. intros c Hc. unfold findings. rewrite normal_form_elem.
    apply elem_of_app. by right.
Qed.

End AssistGate.

(** ** Refusals *)

(** Every code that couche B and the hard gate report. *)
Definition hard_codes : list string :=
  [FindingCodeUnresolved; FindingCodePosture; FindingCodeWalletType; FindingCodeNewWallet;
   FindingCodeContinuity; FindingCodeRotation; FindingCodeChain].

Lemma when_Forall {A} (P : A -> Prop) b x : P x -> Forall P (when b x).
Proof. destruct b; by repeat constructor. Qed.

Section Refusals.
Context `{U : Unicode, S : GoSort, F : GoFloat, J : GoJson}.

Lemma user_codes uc p : Forall (fun f => hf_Code f ∈ hard_codes) (EvaluateUserConstraints uc p).
Proof.
  destruct p as [p|]; cbn [EvaluateUserConstraints]; rewrite ?Forall_app;
    repeat split; repeat (apply when_Forall || constructor); by apply (bool_decide_unpack _).
Qed.

Lemma hard_chain_codes support ids :
  Forall (fun f => hf_Code f ∈ hard_codes) (hard_chain_findings support ids).
Proof.
  induction ids as [|id ids IH]; cbn [hard_chain_findings]; [constructor|].
  apply Forall_app; split; [|done].
  repeat case_match; repeat (apply when_Forall || constructor); by apply (bool_decide_unpack _).
Qed.

Lemma hard_gate_codes obs req p :
  Forall (fun f => hf_Code f ∈ hard_codes) (EvaluateHardCompatibility obs req p).
Proof.
  destruct p as [p|]; cbn [EvaluateHardCompatibility]; rewrite ?Forall_app;
    repeat split; try apply hard_chain_codes;
    repeat (apply when_Forall || constructor); by apply (bool_decide_unpack _).
Qed.

(** The code in brackets is found again in the error's text. *)
Lemma finding_code_extract f : hf_Code f ∈ hard_codes ->
  UserConstraintsIncompatibleFindingCode
    (Some (errorf ErrProviderUserConstraintsIncompatible (finding_text f))) = hf_Code f.
Proof.
  intros Hc.
  assert (has_byte "]"%char (hf_Code f) = false /\ TrimSpace (hf_Code f) = hf_Code f
          /\ 0 < len (hf_Code f)) as (Hb & Ht & Hl).
  { unfold hard_codes in Hc. rewrite !elem_of_cons, elem_of_nil in Hc.
    destruct_or!; try done; rewrite Hc; split_and!; try reflexivity; apply Nat.lt_0_succ. }
  unfold UserConstraintsIncompatibleFindingCode.
  rewrite errors_Is_errorf, bool_decide_true by done. cbn [negb].
  set (pre := sentinel_text ErrProviderUserConstraintsIncompatible +:+ ": ").
  set (rest := " " +:+ hf_Message f).
  assert (e_text (errorf ErrProviderUserConstraintsIncompatible (finding_text f))
          = pre +:+ String "["%char (hf_Code f +:+ String "]"%char rest)) as ->.
  { unfold errorf, finding_text, pre, rest. cbn [e_text]. by rewrite !string_app_assoc. }
  rewrite Index_byte_app by reflexivity.
  assert (pre +:+ String "["%char (hf_Code f +:+ String "]"%char rest)
          = (pre +:+ String "["%char (hf_Code f)) +:+ String "]"%char rest) as E
    by (by rewrite string_app_assoc).
  rewrite E at 1. rewrite Index_byte_app by (rewrite has_byte_app; done).
  rewrite len_app. cbn [len String.length]. fold (len (hf_Code f)).
  destruct (Nat.leb_spec (len pre + Datatypes.S (len (hf_Code f))) (len pre + 1)); [lia|].
  unfold substring.
  replace (len pre + Datatypes.S (len (hf_Code f)) - (len pre + 1)) with (len (hf_Code f)) by lia.
  replace (len pre + 1) with (len (pre +:+ "[")) by (by rewrite len_app).
  assert (pre +:+ String "["%char (hf_Code f +:+ String "]"%char rest)
          = (pre +:+ "[") +:+ (hf_Code f +:+ String "]"%char rest)) as ->
    by (by rewrite string_app_assoc).
  by rewrite drop_bytes_app, take_bytes_app.
Qed.

(** When the replay refuses a payload for the user's constraints, the code
    extracted from the error text is that of the first finding of couche B, or
    of the hard gate when couche B accepts. *)
Theorem refusal_code_extracted p obs e :
  replayCoucheAB p obs = Err e ->
  errors_Is e ErrProviderUserConstraintsIncompatible = true ->
  exists f l, (EvaluateUserConstraints (pp_UserConstraints p) (Some (snapshotAsProfile p)) = f :: l
      \/ EvaluateUserConstraints (pp_UserConstraints p) (Some (snapshotAsProfile p)) = []
         /\ EvaluateHardCompatibility obs (persist_request obs p) (Some (snapshotAsProfile p)) = f :: l)
    /\ UserConstraintsIncompatibleFindingCode (Some e) = hf_Code f /\ hf_Code f ∈ hard_codes.
Proof.
  unfold replayCoucheAB. intros He Hi.
  destruct (EvaluateScanCompatibility _ _ _) as [|f l].
  2:{ injection He as <-. rewrite errors_Is_errorf in Hi. by apply bool_decide_eq_true in Hi. }
  destruct (EvaluateUserConstraints _ _) as [|f l] eqn:Hu.
  - destruct (EvaluateHardCompatibility _ _ _) as [|f l] eqn:Hh; [done|]. injection He as <-.
    pose proof (hard_gate_codes obs (persist_request obs p) (Some (snapshotAsProfile p))) as Hc.
    rewrite Hh in Hc. apply Forall_cons in Hc as [Hc _].
    exists f, l. split; [by right|]. split; [by apply finding_code_extract|done].
  - injection He as <-. pose proof (user_codes (pp_UserConstraints p) (Some (snapshotAsProfile p))) as Hc.
    rewrite Hu in Hc. apply Forall_cons in Hc as [Hc _].
    exists f, l. split; [by left|]. split; [by apply finding_code_extract|done].
Qed.

Lemma identity_err p e : validatePersistIdentity p = Err e -> e_wraps e = [ErrCryptoPolicyPayloadInvalid].
Proof.
  unfold validatePersistIdentity. intros H.
  do 4 (apply fail_if_err in H as [[_ <-]|[_ H]]; [done|]).
  destruct (SolutionProfileRef_Validate _); [done|]. by injection H as <-.
Qed.

Lemma chains_used_err i l e : validate_chains_used i l = Err e ->
  e_wraps e = [ErrCryptoPolicyPayloadInvalid] \/ e_wraps e = [ErrProviderChainPlanned].
Proof.
  revert i. induction l as [|c l IH]; intros i; cbn [validate_chains_used]; [done|]. intros H.
  apply fail_if_err in H as [[_ <-]|[_ H]]; [by left|].
  apply fail_if_err in H as [[_ <-]|[_ H]]; [by right|]. by eapply IH.
Qed.

Lemma snapshot_err p e : validatePersistSnapshot p = Err e ->
  e_wraps e = [ErrCryptoPolicyPayloadInvalid] \/ e_wraps e = [ErrProviderChainPlanned].
Proof.
  unfold validatePersistSnapshot. cbn zeta. intros H.
  do 5 (apply fail_if_err in H as [[_ <-]|[_ H]]; [by left|]). by eapply chains_used_err.
Qed.

Lemma soft_err p e : requireAcceptedSoftFindings p = Err e ->
  findings_agree p /\ e_wraps e = [ErrProviderSoftFindingsRequired]
  \/ ~ findings_agree p /\ e_wraps e = [ErrAcceptedFindingsDivergent].
Proof.
  unfold requireAcceptedSoftFindings, mbind, res_bind.
  destruct (softFindingsForPersist p) as [l|e'] eqn:Hf.
  - apply softFindings_ok in Hf as [Hag _]. intros [[_ <-]|[_ H]]%fail_if_err; [by left|done].
  - intros [= <-]. right. split.
    + intros Hag. assert (softFindingsForPersist p = Ok (NormalizeAcceptedFindings (effective_findings p)))
        by (by apply softFindings_ok). congruence.
    + unfold softFindingsForPersist in Hf. apply fail_if_err in Hf as [[_ <-]|[_ Hf]]; [done|].
      by case_match.
Qed.

Lemma references_err p e : requirePinnedReferences p = Err e -> e_wraps e = [ErrProviderRefsUnpinned].
Proof.
  unfold requirePinnedReferences. cbn zeta. intros [[_ <-]|[_ H]]%fail_if_err; [done|]. revert H.
  generalize 0 as i. induction (snap_References _) as [|r l IH]; intros i; cbn [pinned_references]; [done|].
  intros [[_ <-]|[_ H]]%fail_if_err; [done|]. by eapply IH.
Qed.

Lemma replay_err p obs e : replayCoucheAB p obs = Err e ->
  ~ scan_accepts obs (pp_RequiredPosture p) (snapshotAsProfile p)
    /\ e_wraps e = [ErrProviderScanCompatFailed]
  \/ scan_accepts obs (pp_RequiredPosture p) (snapshotAsProfile p)
    /\ e_wraps e = [ErrProviderUserConstraintsIncompatible].
Proof.
  unfold replayCoucheAB. rewrite <- scan_pass. intros H.
  destruct (EvaluateScanCompatibility _ _ _) as [|f l]; [right|left; by injection H as <-].
  destruct (EvaluateUserConstraints _ _); [|by injection H as <-].
  destruct (EvaluateHardCompatibility _ _ _); [done|]. by injection H as <-.
Qed.

Definition gate_code (e : goerror) : string := snd (fst (mapPersistProviderGateError e)).

(** The code of an error that wraps one sentinel. *)
Lemma gate_code_wraps e s : e_wraps e = [s] ->
  gate_code e = match s with
    | ErrProviderRefsUnpinned => persistCodeProviderRefsUnpinned
    | ErrProviderSoftFindingsRequired => persistCodeProviderSoftFindingsRequired
    | ErrProviderChainPlanned => persistCodeProviderChainPlanned
    | ErrProviderScanCompatFailed => persistCodeProviderScanCompatFailed
    | ErrProviderUserConstraintsIncompatible => persistCodeProviderUserConstraintsIncompatible
    | _ => persistCodeCryptoPolicyPayloadInvalid
    end.
Proof.
  intros E. unfold gate_code, mapPersistProviderGateError, errors_Is. cbn [fst snd].
  rewrite E. destruct s; reflexivity.
Qed.


End Refusals.

(** ** Test data *)

(** The nested golden vector; its first entry of [chain_support_used] is kept. *)
Definition golden_nested (rotation : string) : list (string * any) :=
  [("schema_version", AString "cafe.crypto_policy.v0.2");
   ("crypto_policy_id", AString "cpm_pq_account_validation_v1");
   ("required_posture", AString "hybrid");
   ("user_constraints", AMap
      [("allow_new_wallet", ABool true); ("address_continuity_required", ABool false);
       ("key_rotation_model", AString rotation)]);
   ("solution_profile_ref", str_map
      [("provider_id", "nicetry"); ("solution_profile_id", "nicetry.fors_c.erc4337.v0_1");
       ("manifest_version", "2026-08"); ("verification_date", "2026-08-03")]);
   ("accepted_provider_snapshot", AMap
      [("maturity", AString "research"); ("claim_status", AString "declared");
       ("resulting_posture", AString "hybrid");
       ("input_requirements", AMap [("wallet_types", str_list ["EOA"]);
                                    ("requires_wallet_control_proof", ABool true)]);
       ("signature", str_map [("scheme", "FORS+C"); ("family", "hash_based");
                              ("key_rotation_model", "per_userop")]);
       ("account_model", AMap [("standard", AString "ERC-4337");
                               ("execution_model", AString "erc4337_bundler");
                               ("requires_bundler", ABool true); ("requires_entrypoint", ABool true);
                               ("entrypoint_versions", str_list ["0.7"])]);
       ("constraints", AMap [("requires_new_account", ABool true);
                             ("address_continuity_supported", ABool false);
                             ("requires_local_signer_state", ABool true)]);
       ("chain_support_used", ASlice
          [AMap [("chain_id", AString "1"); ("status", AString "production_supported");
                 ("capabilities", str_list ["deploy"; "sign_userop"; "rotate_signer"])]]);
       ("references", ASlice [str_map [("kind", "source_repo"); ("url", "https://example.com/a");
                                       ("commit", "deadbeef")]]);
       ("accepted_findings", str_list ["requires_bundler"; "requires_local_signer_state"])]);
   ("accepted_findings", str_list ["requires_bundler"; "requires_local_signer_state"])].

Example golden_nested_accepted :
  ValidatePayloadForPersist (Some (golden_nested "per_userop")) = Ok tt.
Proof. vm_compute. reflexivity. Qed.

(** A key in another case still names its field; null leaves it empty. *)
Example decode_fold_and_null :
  pp_CryptoPolicyID <$> decode_payload [("CRYPTO_Policy_id", AString "x"); ("schema_version", ANil)]
  = Some "x".
Proof. vm_compute. reflexivity. Qed.

Definition sample_uc : UserConstraints := mkUserConstraints true false "per_userop".

Definition snapshot_sample : BuildAcceptedProviderSnapshotResult :=
  match BuildAcceptedProviderSnapshot
          (mkSnapshotInput (Some pq_policy) nicetry_ref [] (Some (loaded sample_docs))) with
  | Ok r => r
  | Err _ => mkSnapshotResult zero_ref zero_snapshot
  end.

Lemma assist_payload_gate_witness :
  ValidateForPersist (Some (assist_payload pq_policy sample_uc snapshot_sample)) (mkObservation "EOA" [])
  = Ok tt.
Proof.
  apply (assist_payload_gate no_flag (loaded sample_docs) pq_policy sample_uc nicetry_ref []
    snapshot_sample (mkResolved "nicetry" "2026-08" nicetry_profile false)).
  - exact sample_inv.
  - apply CryptoPolicy_Validate_ok. vm_compute. reflexivity.
  - vm_compute. reflexivity.
  - by apply (bool_decide_unpack _).
  - vm_compute. reflexivity.
  - vm_compute. reflexivity.
  - split_and!.
    + discriminate.
    + repeat constructor; vm_compute; intuition discriminate.
    + reflexivity.
    + apply walletTypeAccepted_spec. vm_compute. reflexivity.
    + apply user_pass. vm_compute. reflexivity.
Defined.

Definition refused_payload : CryptoPolicyPersistPayload :=
  match decode_payload (golden_nested "none") with Some p => p | None => zero_payload end.

Definition refused_error : goerror :=
  match replayCoucheAB refused_payload (mkObservation "EOA" []) with
  | Err e => e
  | Ok _ => errors_New EmptyString
  end.

Lemma refusal_code_extracted_witness :
  UserConstraintsIncompatibleFindingCode (Some refused_error) = FindingCodeRotation.
Proof.
  assert (H1 : replayCoucheAB refused_payload (mkObservation "EOA" []) = Err refused_error)
    by (vm_compute; reflexivity).
  assert (H2 : errors_Is refused_error ErrProviderUserConstraintsIncompatible = true)
    by (vm_compute; reflexivity).
  destruct (refusal_code_extracted _ _ _ H1 H2) as (f & l & [Hf|[Hu _]] & -> & _).
  - vm_compute in Hf. injection Hf as <- _. reflexivity.
  - vm_compute in Hu. discriminate.
Defined.

