(* ===== verification/WalletTarget.v ===== *)
(** * Wallet targets and scan ids

    [internal/persistence/wallet_target.go] and [internal/app/scan_id.go]: the
    normal forms of wallet addresses, wallet subject ids and scan ids. *)

From stdpp Require Import base list strings.
From Stdlib Require Import Ascii NArith.
From S2P Require Import Prelude GoStrings GoUnicode Errors.
Local Open Scope string_scope.
Local Open Scope list_scope.

Definition WalletSubjectPrefix : string := "wallet:".

(** A lower-case hexadecimal digit, as a rune. *)
Definition lower_hex (r : N) : bool :=
  ((48 <=? r)%N && (r <=? 57)%N) || ((97 <=? r)%N && (r <=? 102)%N).

Definition err_address_required : goerror := errors_New "target_address is required".
Definition err_address_form : goerror := errors_New "target_address must be a normalized EVM address".

Section WalletTarget.
Context `{U : Unicode}.

Definition NormalizeWalletTargetAddress (address : string) : gores string :=
  let a := TrimSpace address in
  fail_if is_empty a with err_address_required ;;
  let a := if HasPrefix a "0X" then "0x" +:+ drop_bytes 2 a else a in
  let a := if negb (HasPrefix a "0x") then "0x" +:+ a else a in
  let a := ToLower a in
  fail_if negb (Nat.eqb (len a) 42) || negb (HasPrefix a "0x") with err_address_form ;;
  fail_if negb (forallb lower_hex (runes (drop_bytes 2 a))) with err_address_form ;;
  Ok a.

Definition WalletSubjectIDFromAddress (address : string) : gores string :=
  norm ← NormalizeWalletTargetAddress address;
  Ok (WalletSubjectPrefix +:+ norm).

Definition NormalizeWalletSubjectID (subjectID : string) : string :=
  let value := TrimSpace subjectID in
  if is_empty value then value
  else
    let hexPart :=
      if HasPrefix (ToLower value) WalletSubjectPrefix
      then TrimSpace (drop_bytes (len WalletSubjectPrefix) value) else value in
    match NormalizeWalletTargetAddress hexPart with
    | Err _ => value
    | Ok norm => WalletSubjectPrefix +:+ norm
    end.

(** The scan id pattern: groups of 8, 4, 4, 4 and 12 hexadecimal digits of
    either case, joined by hyphens. *)
Definition hex_char (a : ascii) : bool :=
  let n := N_of_ascii a in
  ((48 <=? n)%N && (n <=? 57)%N) || ((97 <=? n)%N && (n <=? 102)%N)
  || ((65 <=? n)%N && (n <=? 70)%N).

Fixpoint match_hex (n : nat) (s : string) : option string :=
  match n with
  | O => Some s
  | S n' => match s with
            | String a s' => if hex_char a then match_hex n' s' else None
            | EmptyString => None
            end
  end.

Definition match_hyphen (s : string) : option string :=
  match s with
  | String a s' => if Ascii.eqb a "-"%char then Some s' else None
  | EmptyString => None
  end.

Definition scanUUIDPattern_MatchString (s : string) : bool :=
  match (s ← match_hex 8 s; s ← match_hyphen s; s ← match_hex 4 s; s ← match_hyphen s;
         s ← match_hex 4 s; s ← match_hyphen s; s ← match_hex 4 s; s ← match_hyphen s;
         match_hex 12 s) with
  | Some rest => is_empty rest
  | None => false
  end.

Definition NormalizeDiscoveryScanID (s : string) : gores string :=
  let scan := TrimSpace s in
  fail_if negb (scanUUIDPattern_MatchString scan) with err_of ErrInvalidDiscoveryScanUUID ;;
  Ok (ToLower scan).

End WalletTarget.

(** ** Normal forms *)

(** "0x" and forty lower-case hexadecimal digits. *)
Definition canonical_address (a : string) : Prop :=
  exists h, a = "0x" +:+ h /\ len h = 40%nat
    /\ Forall (fun c => lower_hex (N_of_ascii c) = true) (String.list_ascii_of_string h).

Section WalletTargetSpec.
Context `{U : Unicode}.

Lemma lower_hex_ascii r : lower_hex r = true -> (r < 128)%N /\ ascii_lower r = r.
Proof. unfold lower_hex, ascii_lower. rewrite orb_true_iff, !andb_true_iff, !N.leb_le. intros. rune_cases. Qed.

Lemma hex_string_ascii h :
  Forall (fun c => lower_hex (N_of_ascii c) = true) (String.list_ascii_of_string h) -> is_ascii h.
Proof. intros H. eapply Forall_impl; [exact H|]. intros c Hc. by apply lower_hex_ascii in Hc as [? _]. Qed.

Lemma map_string_id f s :
  Forall (fun c => f (N_of_ascii c) = N_of_ascii c) (String.list_ascii_of_string s) ->
  map_string f s = s.
Proof.
  unfold map_string, string_of_bytes, bytes_of. rewrite <- !list_fmap_compose.
  induction s as [|c s IH]; intros H; [done|]. simpl in *. apply Forall_cons in H as [Hc H].
  rewrite Hc, ascii_N_embedding. f_equal. by apply IH.
Qed.

Lemma canonical_ascii a : canonical_address a -> is_ascii a.
Proof.
  intros (h & -> & _ & Hh). apply hex_string_ascii in Hh. unfold is_ascii in *.
  rewrite list_ascii_of_string_app. apply Forall_app. split; [by repeat constructor|done].
Qed.

Lemma canonical_ToLower a : canonical_address a -> ToLower a = a.
Proof.
  intros Ha. rewrite ToLower_is_ascii by (by apply canonical_ascii).
  apply map_string_id. destruct Ha as (h & -> & _ & Hh). rewrite list_ascii_of_string_app.
  apply Forall_app. split; [by repeat constructor|].
  eapply Forall_impl; [exact Hh|]. intros c Hc. by apply lower_hex_ascii.
Qed.

Lemma canonical_trimmed a : canonical_address a -> TrimSpace a = a.
Proof.
  intros (h & -> & _ & Hh). apply all_solid_trimmed. unfold all_solid. rewrite list_ascii_of_string_app.
  apply Forall_app. split; [by repeat constructor|].
  eapply Forall_impl; [exact Hh|]. intros c Hc. simpl in Hc. unfold lower_hex in Hc. unfold solid, ws1.
  apply orb_true_iff in Hc as [Hc|Hc]; apply andb_true_iff in Hc as [H1%N.leb_le H2%N.leb_le];
    rune_cases.
Qed.

Lemma normalize_canonical a b : NormalizeWalletTargetAddress a = Ok b -> canonical_address b.
Proof.
  unfold NormalizeWalletTargetAddress. cbn zeta.
  rewrite !fail_if_ok, orb_false_and, !negb_false_iff.
  set (x := ToLower _). intros (_ & [Hlen Hp] & Hh & [= <-]).
  apply Nat.eqb_eq in Hlen. apply HasPrefix_inv in Hp.
  set (h := drop_bytes (len "0x") x) in Hp. change (drop_bytes 2 x) with h in Hh.
  exists h. split; [done|]. rewrite Hp, len_app in Hlen. split; [change (len "0x") with 2%nat in Hlen; lia|].
  rewrite forallb_forall in Hh.
  assert (Forall (fun r => (r < 128)%N) (runes h)) as Hasc.
  { apply Forall_forall. intros r Hr%list_elem_of_In. by apply Hh, lower_hex_ascii in Hr as [? _]. }
  apply Forall_forall. intros c Hc. apply Hh, list_elem_of_In. rewrite runes_ascii_bytes by done.
  unfold bytes_of. apply list_elem_of_fmap. by exists c.
Qed.

Lemma canonical_normalize b : canonical_address b -> NormalizeWalletTargetAddress b = Ok b.
Proof.
  intros Hb. unfold NormalizeWalletTargetAddress. cbn zeta. rewrite (canonical_trimmed b Hb).
  pose proof (canonical_ToLower b Hb) as Hlow. pose proof Hb as (h & E & Hl & Hh).
  assert (HasPrefix b "0x" = true) as Hp by (rewrite E; apply HasPrefix_app).
  assert (HasPrefix b "0X" = false) as HpX by (by rewrite E).
  assert (is_empty b = false) as -> by (by rewrite E).
  assert (len b = 42%nat) as Hlen by (rewrite E, len_app, Hl; done).
  rewrite HpX, Hp. cbn [negb guard_err]. rewrite Hlow, Hlen, Hp. cbn [negb guard_err orb Nat.eqb].
  assert (drop_bytes 2 b = h) as Hd by (rewrite E; apply (drop_bytes_app "0x")).
  rewrite Hd, runes_ascii by (by apply hex_string_ascii).
  assert (forallb lower_hex (bytes_of h) = true) as ->; [|done].
  unfold bytes_of. apply forallb_forall. intros r Hr%list_elem_of_In.
  apply list_elem_of_fmap in Hr as (c & -> & Hc). rewrite Forall_forall in Hh. by apply Hh.
Qed.

Lemma normalize_idem a b :
  NormalizeWalletTargetAddress a = Ok b -> NormalizeWalletTargetAddress b = Ok b.
Proof. intros H. by eapply canonical_normalize, normalize_canonical. Qed.

(** A normalised wallet address is "0x" and forty lower-case hexadecimal
    digits; these are exactly the addresses that normalisation leaves alone. *)
Theorem NormalizeWalletTargetAddress_correct a b :
  (NormalizeWalletTargetAddress a = Ok b -> canonical_address b)
  /\ (canonical_address a <-> NormalizeWalletTargetAddress a = Ok a).
Proof.
  split; [apply normalize_canonical|]. split; [apply canonical_normalize|apply normalize_canonical].
Qed.

(** ** Subject ids *)

Lemma subject_prefix_lower norm : canonical_address norm ->
  HasPrefix (ToLower (WalletSubjectPrefix +:+ norm)) WalletSubjectPrefix = true.
Proof.
  intros Hn. assert (is_ascii (WalletSubjectPrefix +:+ norm)) as Ha.
  { unfold is_ascii. rewrite list_ascii_of_string_app. apply Forall_app.
    split; [by repeat constructor|by apply canonical_ascii]. }
  assert (ToLower (WalletSubjectPrefix +:+ norm) = WalletSubjectPrefix +:+ norm) as ->;
    [|apply HasPrefix_app].
  rewrite ToLower_is_ascii by done. apply map_string_id. rewrite list_ascii_of_string_app.
  apply Forall_app. split; [by repeat constructor|].
  destruct Hn as (h & -> & _ & Hh). rewrite list_ascii_of_string_app. apply Forall_app.
  split; [by repeat constructor|]. eapply Forall_impl; [exact Hh|]. intros c Hc. by apply lower_hex_ascii.
Qed.

Lemma subject_trimmed norm : canonical_address norm ->
  TrimSpace (WalletSubjectPrefix +:+ norm) = WalletSubjectPrefix +:+ norm.
Proof.
  intros (h & -> & Hl & Hh). apply all_solid_trimmed. unfold all_solid.
  rewrite !list_ascii_of_string_app. rewrite !Forall_app.
  split; [by repeat constructor|]. split; [by repeat constructor|].
  eapply Forall_impl; [exact Hh|]. intros c Hc. simpl in Hc. unfold lower_hex in Hc. unfold solid, ws1.
  apply orb_true_iff in Hc as [Hc|Hc]; apply andb_true_iff in Hc as [H1%N.leb_le H2%N.leb_le];
    rune_cases.
Qed.

Lemma subject_normal norm : canonical_address norm ->
  NormalizeWalletSubjectID (WalletSubjectPrefix +:+ norm) = WalletSubjectPrefix +:+ norm.
Proof.
  intros Hn. unfold NormalizeWalletSubjectID. rewrite subject_trimmed by done. cbn zeta.
  assert (is_empty (WalletSubjectPrefix +:+ norm) = false) as -> by done.
  rewrite subject_prefix_lower by done. rewrite drop_bytes_app, canonical_trimmed by done.
  by rewrite canonical_normalize.
Qed.

(** Normalising a wallet subject id twice is normalising it once, and a
    bare address and the same address with the "wallet:" prefix have the same
    normal form, "wallet:" followed by the canonical address. *)
Theorem NormalizeWalletSubjectID_correct s a norm :
  NormalizeWalletSubjectID (NormalizeWalletSubjectID s) = NormalizeWalletSubjectID s
  /\ (NormalizeWalletTargetAddress a = Ok norm ->
      NormalizeWalletSubjectID (WalletSubjectPrefix +:+ norm) = WalletSubjectPrefix +:+ norm
      /\ WalletSubjectIDFromAddress a = Ok (WalletSubjectPrefix +:+ norm)).
Proof.
  split.
  - unfold NormalizeWalletSubjectID at 2 3. cbn zeta. destruct (is_empty (TrimSpace s)) eqn:E.
    { unfold NormalizeWalletSubjectID. by rewrite TrimSpace_idem, E. }
    set (hexPart := if HasPrefix _ _ then _ else _).
    destruct (NormalizeWalletTargetAddress hexPart) as [n|e] eqn:Hn.
    + apply subject_normal. by eapply normalize_canonical.
    + unfold NormalizeWalletSubjectID. rewrite TrimSpace_idem, E. fold hexPart. by rewrite Hn.
  - intros H. pose proof (normalize_canonical _ _ H) as Hn. split; [by apply subject_normal|].
    unfold WalletSubjectIDFromAddress. by rewrite H.
Qed.

End WalletTargetSpec.

Example normalize_address_example :
  NormalizeWalletTargetAddress " 0XABCDEF0123456789abcdef0123456789ABCDEF01 "
  = Ok "0xabcdef0123456789abcdef0123456789abcdef01".
Proof. vm_compute. reflexivity. Qed.

Lemma NormalizeWalletTargetAddress_correct_witness :
  canonical_address "0xabcdef0123456789abcdef0123456789abcdef01".
Proof.
  apply (NormalizeWalletTargetAddress_correct " 0XABCDEF0123456789abcdef0123456789ABCDEF01 "
           "0xabcdef0123456789abcdef0123456789abcdef01").
  vm_compute. reflexivity.
Defined.

Lemma NormalizeWalletSubjectID_correct_witness :
  WalletSubjectIDFromAddress " 0XABCDEF0123456789abcdef0123456789ABCDEF01 "
  = Ok "wallet:0xabcdef0123456789abcdef0123456789abcdef01".
Proof.
  apply (NormalizeWalletSubjectID_correct EmptyString " 0XABCDEF0123456789abcdef0123456789ABCDEF01 "
           "0xabcdef0123456789abcdef0123456789abcdef01").
  vm_compute. reflexivity.
Defined.

(** ** Scan ids *)

Section ScanIdSpec.
Context `{U : Unicode}.

Definition scan_char (a : ascii) : bool := hex_char a || Ascii.eqb a "-".

Lemma match_hex_inv n s rest : match_hex n s = Some rest ->
  exists h, s = h +:+ rest /\ Forall (fun c => scan_char c = true) (String.list_ascii_of_string h).
Proof.
  revert s. induction n as [|n IH]; intros s; cbn [match_hex].
  - intros [= ->]. exists EmptyString. split; [done|constructor].
  - destruct s as [|a s]; [done|]. destruct (hex_char a) eqn:Ha; [|done].
    intros (h & -> & Hh)%IH. exists (String a h). split; [done|]. constructor; [|done].
    unfold scan_char. by rewrite Ha.
Qed.

Lemma match_hyphen_inv s rest : match_hyphen s = Some rest ->
  exists h, s = h +:+ rest /\ Forall (fun c => scan_char c = true) (String.list_ascii_of_string h).
Proof.
  destruct s as [|a s]; cbn [match_hyphen]; [done|]. destruct (Ascii.eqb_spec a "-") as [->|]; [|done].
  intros [= <-]. exists "-". split; [done|]. by repeat constructor.
Qed.

Lemma scan_pattern_chars s : scanUUIDPattern_MatchString s = true ->
  s <> EmptyString /\ Forall (fun c => scan_char c = true) (String.list_ascii_of_string s).
Proof.
  unfold scanUUIDPattern_MatchString. intros H.
  assert (s <> EmptyString) as Hne by (intros ->; done). split; [done|]. clear Hne.
  match type of H with (match ?x with _ => _ end) = true => destruct x as [rest|] eqn:E; [|done] end.
  apply is_empty_spec in H as ->.
  repeat (apply bind_Some in E as (? & (? & -> & ?)%match_hex_inv & E)
          || apply bind_Some in E as (? & (? & -> & ?)%match_hyphen_inv & E)).
  apply match_hex_inv in E as (? & -> & ?). rewrite !list_ascii_of_string_app, !Forall_app. split_and!; done || constructor.
Qed.

(** A scan id in normal form: nothing but lower-case digits and hyphens. *)
Lemma normal_scan_id s n : NormalizeDiscoveryScanID s = Ok n -> all_solid n /\ n <> EmptyString.
Proof.
  unfold NormalizeDiscoveryScanID. rewrite fail_if_ok, negb_false_iff. intros [[Hne H]%scan_pattern_chars [= <-]].
  set (t := TrimSpace s) in *.
  assert (forall c, scan_char c = true -> (N_of_ascii c < 128)%N /\ solid (ascii_of_N (ascii_lower (N_of_ascii c))) = true) as Hc.
  { intros c. unfold scan_char. destruct c as [[] [] [] [] [] [] [] []]; vm_compute; naive_solver. }
  rewrite ToLower_is_ascii.
  - unfold map_string, string_of_bytes, bytes_of, all_solid. split.
    + rewrite String.list_ascii_of_string_of_list_ascii. rewrite !Forall_fmap.
      eapply Forall_impl; [exact H|]. intros c Hcc. by apply Hc in Hcc as [_ ?].
    + destruct t; done.
  - unfold is_ascii. eapply Forall_impl; [exact H|]. intros c Hcc. by apply Hc in Hcc as [? _].
Qed.

End ScanIdSpec.
