(* ===== verification/WalletAuth.v ===== *)
(** * Wallet authorisation

    [internal/walletauth]: the message a wallet signs to authorise persisting a
    crypto policy, its parser, and the verification of a signed message. *)

From stdpp Require Import base list strings.
From Stdlib Require Import Ascii NArith ZArith.
From S2P Require Import Prelude GoStrings GoUnicode Errors GoTime WalletTarget.
Local Open Scope string_scope.
Local Open Scope list_scope.

(** ** Data *)

Definition ActionPersistCryptoPolicy : string := "persist_crypto_policy".
Definition messageTitle : string := "CAFE Crypto Policy Persistence".
Definition messageFooter : string :=
  "By signing this message, I prove control of the wallet and authorize CAFE to persist this Crypto Policy for this wallet.".
Definition MaxValidityWindow : Z := 10 * minute_ns.
Definition DefaultClockSkew : Z := 30 * second_ns.

Definition CodeWalletControlProofRequired : string := "WALLET_CONTROL_PROOF_REQUIRED".
Definition CodeInvalidWalletSignature : string := "INVALID_WALLET_SIGNATURE".
Definition CodeWalletSignatureAddressMismatch : string := "WALLET_SIGNATURE_ADDRESS_MISMATCH".
Definition CodeWalletAuthorizationExpired : string := "WALLET_AUTHORIZATION_EXPIRED".
Definition CodeWalletAuthorizationNotYetValid : string := "WALLET_AUTHORIZATION_NOT_YET_VALID".
Definition CodeWalletAuthorizationValidityLong : string := "WALLET_AUTHORIZATION_VALIDITY_TOO_LONG".
Definition CodePayloadSHA256Mismatch : string := "PAYLOAD_SHA256_MISMATCH".
Definition CodeWalletAuthorizationScanMismatch : string := "WALLET_AUTHORIZATION_SCAN_MISMATCH".
Definition CodeWalletAuthorizationWalletMismatch : string := "WALLET_AUTHORIZATION_WALLET_MISMATCH".
Definition CodeWalletAuthorizationChainMismatch : string := "WALLET_AUTHORIZATION_CHAIN_MISMATCH".
Definition CodeWalletAuthorizationActionMismatch : string := "WALLET_AUTHORIZATION_ACTION_MISMATCH".

Record VerificationError := verificationError {
  ve_Code : string;
  ve_Message : string
}.

Definition VerificationError_Error (e : option VerificationError) : string :=
  match e with
  | None => EmptyString
  | Some e => if negb (is_empty (ve_Message e)) then ve_Message e else ve_Code e
  end.

Record Fields := mkFields {
  fd_Domain : string;
  fd_Action : string;
  fd_WalletAddress : string;
  fd_ChainID : Z;
  fd_ScanID : string;
  fd_PayloadSHA256 : string;
  fd_IssuedAt : time;
  fd_ExpiresAt : time
}.

Record VerifyInput := mkVerifyInput {
  vi_Domain : string;
  vi_WalletAddress : string;
  vi_ChainID : Z;
  vi_ScanID : string;
  vi_PayloadSHA256 : string;
  vi_SignedMessage : string;
  vi_Signature : string;
  vi_Now : time;
  vi_ClockSkew : Z
}.

(** ** The message *)

Definition newline : ascii := ascii_of_nat 10.

Definition message_lines (f : Fields) : list string :=
  [messageTitle;
   EmptyString;
   "Domain: " +:+ TrimSpace (fd_Domain f);
   "Action: " +:+ TrimSpace (fd_Action f);
   "Wallet: " +:+ TrimSpace (fd_WalletAddress f);
   "Chain ID: " +:+ FormatInt (fd_ChainID f);
   "Scan ID: " +:+ TrimSpace (fd_ScanID f);
   "Payload SHA-256: " +:+ TrimSpace (fd_PayloadSHA256 f);
   "Issued At: " +:+ FormatRFC3339 (fd_IssuedAt f);
   "Expiration Time: " +:+ FormatRFC3339 (fd_ExpiresAt f);
   EmptyString;
   messageFooter].

Definition BuildMessage (f : Fields) : string := Join (message_lines f) (String newline EmptyString).

(** The first line with the prefix, without it and trimmed. *)
Fixpoint read_line (lines : list string) (prefix : string) : option string :=
  match lines with
  | [] => None
  | line :: lines' =>
      if HasPrefix line prefix then Some (TrimSpace (TrimPrefix line prefix))
      else read_line lines' prefix
  end.

Definition readField (lines : list string) (prefix : string) : res string string :=
  match read_line lines prefix with
  | Some v => Ok v
  | None => Err ("missing " +:+ TrimSuffix prefix ": ")
  end.

Definition ParseMessage (message : string) : res string Fields :=
  let lines := Split message newline in
  fail_if Nat.ltb (length lines) 11 with "canonical message is too short" ;;
  fail_if negb (String.eqb (TrimSpace (default EmptyString (head lines))) messageTitle)
    with "canonical message title mismatch" ;;
  fail_if negb (String.eqb (TrimSpace (default EmptyString (last lines))) messageFooter)
    with "canonical message footer mismatch" ;;
  domain ← readField lines "Domain: ";
  action ← readField lines "Action: ";
  wallet ← readField lines "Wallet: ";
  chainRaw ← readField lines "Chain ID: ";
  match ParseInt chainRaw with
  | None => Err "invalid chain id in canonical message"
  | Some chainID =>
      fail_if (chainID <? 1)%Z with "invalid chain id in canonical message" ;;
      scanID ← readField lines "Scan ID: ";
      payloadSHA256 ← readField lines "Payload SHA-256: ";
      fail_if is_empty (TrimSpace payloadSHA256) with "missing Payload SHA-256" ;;
      fail_if is_ok (readField lines "Draft ID: ")
        with "canonical message must not include Draft ID" ;;
      issuedRaw ← readField lines "Issued At: ";
      expiresRaw ← readField lines "Expiration Time: ";
      match ParseRFC3339 issuedRaw with
      | None => Err "invalid issued_at in canonical message"
      | Some issuedAt =>
          match ParseRFC3339 expiresRaw with
          | None => Err "invalid expires_at in canonical message"
          | Some expiresAt =>
              Ok (mkFields domain action wallet chainID scanID payloadSHA256 issuedAt expiresAt)
          end
      end
  end.

Definition ExpectedMessageFromFields (f : Fields) : string :=
  BuildMessage (mkFields (fd_Domain f) ActionPersistCryptoPolicy (fd_WalletAddress f) (fd_ChainID f)
                  (fd_ScanID f) (fd_PayloadSHA256 f) (fd_IssuedAt f) (fd_ExpiresAt f)).

(** ** Signatures *)

Definition hex_value (a : ascii) : option N :=
  let n := N_of_ascii a in
  if ((48 <=? n)%N && (n <=? 57)%N) then Some (n - 48)%N
  else if ((97 <=? n)%N && (n <=? 102)%N) then Some (n - 87)%N
  else if ((65 <=? n)%N && (n <=? 70)%N) then Some (n - 55)%N
  else None.

(** [hex.DecodeString]. *)
Fixpoint hex_DecodeString (s : string) : option (list N) :=
  match s with
  | EmptyString => Some []
  | String a (String b s') =>
      h ← hex_value a; l ← hex_value b; rest ← hex_DecodeString s';
      Some ((h * 16 + l)%N :: rest)
  | String _ EmptyString => None
  end.

Definition SignatureLength : nat := 65.

Definition decodeSignature (signature : string) : res string (list N) :=
  let raw := TrimSpace signature in
  fail_if is_empty raw with "signature is required" ;;
  let raw := if HasPrefix raw "0x" || HasPrefix raw "0X" then drop_bytes 2 raw else raw in
  match hex_DecodeString raw with
  | None => Err "signature must be hex-encoded"
  | Some sig =>
      fail_if negb (Nat.eqb (length sig) SignatureLength) with "signature must be 65 bytes" ;;
      Ok sig
  end.

(** github.com/ethereum/go-ethereum: the address, in hexadecimal, of the key
    that signed the EIP-191 hash of a message ([accounts.TextHash],
    [crypto.SigToPub], [crypto.PubkeyToAddress] and [Address.Hex]), given the
    65-byte signature with its recovery id, or the text of the error. *)
Class EthCrypto := { recover_hex : string -> list N -> res string string }.

Section Verify.
Context `{U : Unicode, E : EthCrypto}.

(** The recovery id, 27 or 28 in wallets, is brought down to 0 or 1. *)
Definition lower_recovery_id (sig : list N) : list N :=
  match sig !! 64%nat with
  | Some v => if (27 <=? v)%N then <[64%nat := (v - 27)%N]> sig else sig
  | None => sig
  end.

Definition RecoverSignerAddress (message signature : string) : gores string :=
  match decodeSignature signature with
  | Err text => Err (errors_New text)
  | Ok sig =>
      fail_if negb (Nat.eqb (length sig) SignatureLength) with errors_New "invalid signature length" ;;
      match recover_hex message (lower_recovery_id sig) with
      | Err text => Err (errors_New text)
      | Ok hex => NormalizeWalletTargetAddress hex
      end
  end.

Definition normalizedWalletForMessage (address : string) : string :=
  match NormalizeWalletTargetAddress address with
  | Ok norm => norm
  | Err _ => TrimSpace address
  end.

Definition addressesEqual (a b : string) : bool :=
  match NormalizeWalletTargetAddress a, NormalizeWalletTargetAddress b with
  | Ok na, Ok nb => String.eqb na nb
  | _, _ => EqualFold (TrimSpace a) (TrimSpace b)
  end.

(** ** Verification *)

Definition validateFreshness (issuedAt expiresAt now : time) (skew : Z) : res VerificationError unit :=
  fail_if (MaxValidityWindow <? Sub expiresAt issuedAt)%Z
    with verificationError CodeWalletAuthorizationValidityLong
           "signed authorization validity window exceeds 10 minutes" ;;
  fail_if After now expiresAt
    with verificationError CodeWalletAuthorizationExpired "signed authorization has expired" ;;
  fail_if After issuedAt (now + skew)%Z
    with verificationError CodeWalletAuthorizationNotYetValid "signed authorization is not yet valid" ;;
  Ok tt.

Definition compareBindings (parsed : Fields) (input : VerifyInput) : res VerificationError unit :=
  fail_if negb (String.eqb (fd_Action parsed) ActionPersistCryptoPolicy)
    with verificationError CodeWalletAuthorizationActionMismatch "signed authorization action mismatch" ;;
  let wantSHA := TrimSpace (vi_PayloadSHA256 input) in
  let gotSHA := TrimSpace (fd_PayloadSHA256 parsed) in
  fail_if is_empty wantSHA || is_empty gotSHA || negb (EqualFold wantSHA gotSHA)
    with verificationError CodePayloadSHA256Mismatch "signed authorization payload_sha256 mismatch" ;;
  fail_if negb (String.eqb (TrimSpace (fd_ScanID parsed)) (TrimSpace (vi_ScanID input)))
    with verificationError CodeWalletAuthorizationScanMismatch "signed authorization scan mismatch" ;;
  fail_if negb (fd_ChainID parsed =? vi_ChainID input)%Z
    with verificationError CodeWalletAuthorizationChainMismatch "signed authorization chain mismatch" ;;
  match NormalizeWalletTargetAddress (vi_WalletAddress input) with
  | Err _ => Err (verificationError CodeWalletAuthorizationWalletMismatch "wallet address is invalid")
  | Ok wantWallet =>
      match NormalizeWalletTargetAddress (fd_WalletAddress parsed) with
      | Err _ => Err (verificationError CodeWalletAuthorizationWalletMismatch
                        "signed authorization wallet mismatch")
      | Ok gotWallet =>
          fail_if negb (addressesEqual gotWallet wantWallet)
            with verificationError CodeWalletAuthorizationWalletMismatch
                   "signed authorization wallet mismatch" ;;
          Ok tt
      end
  end.

Definition expected_fields (input : VerifyInput) (parsed : Fields) : Fields :=
  mkFields (vi_Domain input) ActionPersistCryptoPolicy
    (normalizedWalletForMessage (vi_WalletAddress input)) (vi_ChainID input)
    (TrimSpace (vi_ScanID input)) (TrimSpace (vi_PayloadSHA256 input))
    (fd_IssuedAt parsed) (fd_ExpiresAt parsed).

(** [clock] is what [time.Now] returns when the input carries no time. *)
Definition VerifyAuthorization (clock : time) (input : VerifyInput) : res VerificationError unit :=
  fail_if is_empty (TrimSpace (vi_SignedMessage input)) || is_empty (TrimSpace (vi_Signature input))
    with verificationError CodeWalletControlProofRequired "signed wallet authorization is required" ;;
  match ParseMessage (vi_SignedMessage input) with
  | Err _ => Err (verificationError CodeInvalidWalletSignature
                    "signed message is not a valid canonical authorization message")
  | Ok parsed =>
      let now := if IsZero (vi_Now input) then clock else vi_Now input in
      let skew := if (vi_ClockSkew input <=? 0)%Z then DefaultClockSkew else vi_ClockSkew input in
      _ ← validateFreshness (fd_IssuedAt parsed) (fd_ExpiresAt parsed) now skew;
      _ ← compareBindings parsed input;
      let expected := ExpectedMessageFromFields (expected_fields input parsed) in
      fail_if negb (String.eqb (vi_SignedMessage input) expected)
        with verificationError CodeInvalidWalletSignature
               "signed_message does not match the canonical authorization message" ;;
      match RecoverSignerAddress (vi_SignedMessage input) (vi_Signature input) with
      | Err _ => Err (verificationError CodeInvalidWalletSignature "wallet signature is invalid")
      | Ok recovered =>
          match NormalizeWalletTargetAddress (vi_WalletAddress input) with
          | Err _ => Err (verificationError CodeWalletAuthorizationWalletMismatch
                            "wallet address is invalid")
          | Ok wantWallet =>
              fail_if negb (addressesEqual recovered wantWallet)
                with verificationError CodeWalletSignatureAddressMismatch
                       "recovered signer does not match wallet_address" ;;
              Ok tt
          end
      end
  end.

End Verify.

(** ** The message and its parser *)

Definition newline_free (s : string) : Prop := has_byte newline (TrimSpace s) = false.

Lemma read_line_skip line lines p :
  HasPrefix line p = false -> read_line (line :: lines) p = read_line lines p.
Proof. cbn [read_line]. by intros ->. Qed.

Lemma read_line_hit v lines p : read_line ((p +:+ v) :: lines) p = Some (TrimSpace v).
Proof. cbn [read_line]. by rewrite HasPrefix_app, TrimPrefix_app. Qed.

(** Find the line with the prefix, or reach the end of the message. *)
Ltac read_message :=
  unfold readField, message_lines;
  repeat first [ rewrite read_line_hit | rewrite read_line_skip by reflexivity ];
  rewrite ?TrimSpace_idem; try reflexivity.

Section Message.
Variable f : Fields.

Lemma read_Domain : readField (message_lines f) "Domain: " = Ok (TrimSpace (fd_Domain f)).
Proof. read_message. Qed.
Lemma read_Action : readField (message_lines f) "Action: " = Ok (TrimSpace (fd_Action f)).
Proof. read_message. Qed.
Lemma read_Wallet : readField (message_lines f) "Wallet: " = Ok (TrimSpace (fd_WalletAddress f)).
Proof. read_message. Qed.
Lemma read_ChainID : readField (message_lines f) "Chain ID: " = Ok (FormatInt (fd_ChainID f)).
Proof. read_message. by rewrite (all_solid_trimmed _ (FormatInt_all_solid _)). Qed.
Lemma read_ScanID : readField (message_lines f) "Scan ID: " = Ok (TrimSpace (fd_ScanID f)).
Proof. read_message. Qed.
Lemma read_PayloadSHA256 :
  readField (message_lines f) "Payload SHA-256: " = Ok (TrimSpace (fd_PayloadSHA256 f)).
Proof. read_message. Qed.
Lemma read_IssuedAt : readField (message_lines f) "Issued At: " = Ok (FormatRFC3339 (fd_IssuedAt f)).
Proof. read_message. by rewrite (all_solid_trimmed _ (FormatRFC3339_all_solid _)). Qed.
Lemma read_ExpiresAt :
  readField (message_lines f) "Expiration Time: " = Ok (FormatRFC3339 (fd_ExpiresAt f)).
Proof. read_message. by rewrite (all_solid_trimmed _ (FormatRFC3339_all_solid _)). Qed.
Lemma read_DraftID : is_ok (readField (message_lines f) "Draft ID: ") = false.
Proof. read_message. Qed.

Hypothesis Hdomain : newline_free (fd_Domain f).
Hypothesis Haction : newline_free (fd_Action f).
Hypothesis Hwallet : newline_free (fd_WalletAddress f).
Hypothesis Hscan : newline_free (fd_ScanID f).
Hypothesis Hsha : newline_free (fd_PayloadSHA256 f).

(** No field can forge a line of its own: the lines come back as they were. *)
Lemma Split_BuildMessage : Split (BuildMessage f) newline = message_lines f.
Proof.
  apply Split_Join; [done|]. unfold message_lines.
  repeat (apply Forall_cons; split; [|]); try (by apply Forall_nil); try reflexivity;
    rewrite has_byte_app; apply orb_false_and; split; try reflexivity; try assumption;
    apply all_solid_no_byte; try reflexivity; first [apply FormatInt_all_solid | apply FormatRFC3339_all_solid].
Qed.

(** What the parser makes of a built message. *)
Lemma ParseMessage_BuildMessage_eq :
  ParseMessage (BuildMessage f) =
  match ParseInt (FormatInt (fd_ChainID f)) with
  | None => Err "invalid chain id in canonical message"
  | Some chainID =>
      fail_if (chainID <? 1)%Z with "invalid chain id in canonical message" ;;
      fail_if is_empty (TrimSpace (fd_PayloadSHA256 f)) with "missing Payload SHA-256" ;;
      match ParseRFC3339 (FormatRFC3339 (fd_IssuedAt f)) with
      | None => Err "invalid issued_at in canonical message"
      | Some issuedAt =>
          match ParseRFC3339 (FormatRFC3339 (fd_ExpiresAt f)) with
          | None => Err "invalid expires_at in canonical message"
          | Some expiresAt =>
              Ok (mkFields (TrimSpace (fd_Domain f)) (TrimSpace (fd_Action f))
                    (TrimSpace (fd_WalletAddress f)) chainID (TrimSpace (fd_ScanID f))
                    (TrimSpace (fd_PayloadSHA256 f)) issuedAt expiresAt)
          end
      end
  end.
Proof.
  unfold ParseMessage. rewrite Split_BuildMessage. cbn zeta.
  change (length (message_lines f)) with 12%nat.
  change (TrimSpace (default EmptyString (head (message_lines f)))) with (TrimSpace messageTitle).
  change (TrimSpace (default EmptyString (last (message_lines f)))) with (TrimSpace messageFooter).
  assert (TrimSpace messageTitle = messageTitle) as -> by (vm_compute; reflexivity).
  assert (TrimSpace messageFooter = messageFooter) as -> by (vm_compute; reflexivity).
  rewrite !String.eqb_refl. cbn [negb guard_err Nat.ltb Nat.leb].
  rewrite read_Domain, read_Action, read_Wallet, read_ChainID. cbn [mbind res_bind].
  destruct (ParseInt _) as [chainID|]; [|done]. destruct (guard_err (chainID <? 1)%Z _); [|done].
  rewrite read_ScanID, read_PayloadSHA256. cbn [mbind res_bind]. rewrite TrimSpace_idem.
  destruct (guard_err (is_empty _) _); [|done]. rewrite read_DraftID. cbn [guard_err].
  rewrite read_IssuedAt, read_ExpiresAt. done.
Qed.

End Message.

(** The fields a message carries: trimmed text and times to the second. *)
Definition carried (f : Fields) : Fields :=
  mkFields (TrimSpace (fd_Domain f)) (TrimSpace (fd_Action f)) (TrimSpace (fd_WalletAddress f))
    (fd_ChainID f) (TrimSpace (fd_ScanID f)) (TrimSpace (fd_PayloadSHA256 f))
    (fd_IssuedAt f / second_ns * second_ns)%Z (fd_ExpiresAt f / second_ns * second_ns)%Z.

(** What the fields of a message must satisfy to be read back. *)
Record message_ok (f : Fields) : Prop := {
  mo_domain : newline_free (fd_Domain f);
  mo_action : newline_free (fd_Action f);
  mo_wallet : newline_free (fd_WalletAddress f);
  mo_scan : newline_free (fd_ScanID f);
  mo_sha : newline_free (fd_PayloadSHA256 f) /\ TrimSpace (fd_PayloadSHA256 f) <> EmptyString;
  mo_chain : (1 <= fd_ChainID f <= int64_max)%Z;
  mo_issued : (0 <= year_of (fd_IssuedAt f) <= 9999)%Z;
  mo_expires : (0 <= year_of (fd_ExpiresAt f) <= 9999)%Z
}.

Lemma parse_build f : message_ok f -> ParseMessage (BuildMessage f) = Ok (carried f).
Proof.
  intros [Hd Ha Hw Hs [Hp Hp0] Hc Hi He]. rewrite ParseMessage_BuildMessage_eq by done.
  rewrite ParseInt_FormatInt.
  2:{ unfold in_int64. apply andb_true_iff. split; apply Z.leb_le; [unfold int64_min|]; lia. }
  rewrite (proj2 (Z.ltb_ge _ _)) by lia. cbn [guard_err].
  apply is_empty_false in Hp0 as ->. cbn [guard_err].
  by rewrite !ParseRFC3339_FormatRFC3339.
Qed.

(** C33: parsing a built authorisation message gives back the fields it was
    built from, trimmed and with times cut to the second, provided no field
    contains a line break; the message is therefore unambiguous: two such field
    sets that build the same message carry the same fields. *)
Theorem ParseMessage_BuildMessage f g : message_ok f -> message_ok g ->
  ParseMessage (BuildMessage f) = Ok (carried f)
  /\ (BuildMessage f = BuildMessage g -> carried f = carried g).
Proof.
  intros Hf Hg. split; [by apply parse_build|]. intros E.
  pose proof (parse_build f Hf) as Pf. rewrite E, (parse_build g Hg) in Pf. congruence.
Qed.

(** ** What verification accepts *)

Section VerifySpec.
Context `{U : Unicode, E : EthCrypto}.

Definition now_of (clock : time) (i : VerifyInput) : time :=
  if IsZero (vi_Now i) then clock else vi_Now i.
Definition skew_of (i : VerifyInput) : Z :=
  if (vi_ClockSkew i <=? 0)%Z then DefaultClockSkew else vi_ClockSkew i.

(** The message is in force at [now], and for at most ten minutes. *)
Definition fresh (issued expires now : time) (skew : Z) : Prop :=
  (expires - issued <= MaxValidityWindow /\ now <= expires /\ issued <= now + skew)%Z.

Lemma Sub_window a b : (MaxValidityWindow <? Sub a b)%Z = false <-> (a - b <= MaxValidityWindow)%Z.
Proof.
  unfold Sub. rewrite Z.ltb_ge. unfold MaxValidityWindow, minute_ns, second_ns, int64_min, int64_max. lia.
Qed.

Lemma validateFreshness_ok issued expires now skew :
  validateFreshness issued expires now skew = Ok tt <-> fresh issued expires now skew.
Proof.
  unfold validateFreshness, fresh, After. rewrite !fail_if_ok, Sub_window, !Z.ltb_ge. naive_solver.
Qed.

Lemma addressesEqual_canonical a b : canonical_address a -> canonical_address b ->
  addressesEqual a b = true <-> a = b.
Proof.
  intros Ha Hb. unfold addressesEqual. rewrite !canonical_normalize by done. apply String.eqb_eq.
Qed.

(** The bindings a message must carry for an input. *)
Record bound (p : Fields) (i : VerifyInput) (wallet : string) : Prop := {
  b_action : fd_Action p = ActionPersistCryptoPolicy;
  b_sha : TrimSpace (vi_PayloadSHA256 i) <> EmptyString
          /\ TrimSpace (fd_PayloadSHA256 p) <> EmptyString
          /\ EqualFold (TrimSpace (vi_PayloadSHA256 i)) (TrimSpace (fd_PayloadSHA256 p)) = true;
  b_scan : TrimSpace (fd_ScanID p) = TrimSpace (vi_ScanID i);
  b_chain : fd_ChainID p = vi_ChainID i;
  b_wallet : NormalizeWalletTargetAddress (vi_WalletAddress i) = Ok wallet
             /\ NormalizeWalletTargetAddress (fd_WalletAddress p) = Ok wallet
}.

Lemma compareBindings_ok p i : compareBindings p i = Ok tt <-> exists w, bound p i w.
Proof.
  unfold compareBindings. rewrite !fail_if_ok, !orb_false_and, !is_empty_false, !negb_false_iff.
  rewrite !String.eqb_eq, Z.eqb_eq. split.
  - intros (Ha & (Hs1 & Hs2) & Hsc & Hc & H).
    destruct (NormalizeWalletTargetAddress (vi_WalletAddress i)) as [w|] eqn:Hw; [|done].
    destruct (NormalizeWalletTargetAddress (fd_WalletAddress p)) as [w'|] eqn:Hw'; [|done].
    apply fail_if_ok in H as [He%negb_false_iff _].
    apply addressesEqual_canonical in He as ->; [|by eapply normalize_canonical..].
    exists w. constructor; try done. by destruct Hs1.
  - intros (w & [Ha (Hs1 & Hs2 & Hs3) Hsc Hc [Hw Hw']]).
    pose proof (normalize_canonical _ _ Hw) as Hcan. rewrite Hw, Hw'.
    rewrite (proj2 (addressesEqual_canonical w w Hcan Hcan)); done.
Qed.

(** The message the service expects for an input, with the times it carries. *)
Definition expected_message (i : VerifyInput) (wallet : string) (issued expires : time) : string :=
  BuildMessage (mkFields (vi_Domain i) ActionPersistCryptoPolicy wallet (vi_ChainID i)
                  (TrimSpace (vi_ScanID i)) (TrimSpace (vi_PayloadSHA256 i)) issued expires).

(** The conditions for accepting a signed message. *)
Definition authorised (clock : time) (i : VerifyInput) (p : Fields) (wallet : string) : Prop :=
  ParseMessage (vi_SignedMessage i) = Ok p
  /\ NormalizeWalletTargetAddress (vi_WalletAddress i) = Ok wallet
  /\ vi_SignedMessage i = expected_message i wallet (fd_IssuedAt p) (fd_ExpiresAt p)
  /\ fresh (fd_IssuedAt p) (fd_ExpiresAt p) (now_of clock i) (skew_of i)
  /\ RecoverSignerAddress (vi_SignedMessage i) (vi_Signature i) = Ok wallet.

Lemma recovered_canonical m s w : RecoverSignerAddress m s = Ok w -> canonical_address w.
Proof.
  unfold RecoverSignerAddress. destruct (decodeSignature s); [|done]. rewrite fail_if_ok.
  intros [_ H]. destruct (recover_hex _ _); [|done]. by eapply normalize_canonical.
Qed.

Lemma recovered_signature m s w : RecoverSignerAddress m s = Ok w -> is_empty (TrimSpace s) = false.
Proof.
  unfold RecoverSignerAddress, decodeSignature. by destruct (is_empty (TrimSpace s)).
Qed.

Lemma BuildMessage_nonempty f : is_empty (TrimSpace (BuildMessage f)) = false.
Proof.
  change (BuildMessage f) with (String "C"%char (drop_bytes 1 (BuildMessage f))).
  destruct (TrimSpace_solid_head "C"%char (drop_bytes 1 (BuildMessage f)) eq_refl) as [t ->]. done.
Qed.

Lemma expected_message_eq i p w : NormalizeWalletTargetAddress (vi_WalletAddress i) = Ok w ->
  ExpectedMessageFromFields (expected_fields i p)
  = expected_message i w (fd_IssuedAt p) (fd_ExpiresAt p).
Proof.
  intros Hw. unfold ExpectedMessageFromFields, expected_fields, normalizedWalletForMessage.
  by rewrite Hw.
Qed.

(** Acceptance, with the bindings still explicit. *)
Lemma VerifyAuthorization_ok clock i :
  VerifyAuthorization clock i = Ok tt <-> exists p w, authorised clock i p w /\ bound p i w.
Proof.
  unfold VerifyAuthorization, authorised. rewrite fail_if_ok, orb_false_and. cbn zeta.
  fold (now_of clock i) (skew_of i). split.
  - intros (_ & H). destruct (ParseMessage (vi_SignedMessage i)) as [p|] eqn:Hp; [|done].
    apply res_bind_ok in H as ([] & Hf & H). apply validateFreshness_ok in Hf.
    apply res_bind_ok in H as ([] & Hb & H). apply compareBindings_ok in Hb as (w & Hb).
    destruct (b_wallet _ _ _ Hb) as [Hw _]. rewrite (expected_message_eq i p w Hw) in H.
    apply fail_if_ok in H as [Hm%negb_false_iff%String.eqb_eq H].
    destruct (RecoverSignerAddress _ _) as [r|] eqn:Hr; [|done]. rewrite Hw in H.
    apply fail_if_ok in H as [He%negb_false_iff _].
    apply addressesEqual_canonical in He as ->;
      [|by eapply recovered_canonical|by eapply normalize_canonical].
    exists p, w. done.
  - intros (p & w & (Hp & Hw & Hm & Hf & Hr) & Hb).
    rewrite (recovered_signature _ _ _ Hr). split.
    { rewrite Hm. split; [apply BuildMessage_nonempty|done]. }
    rewrite Hp. apply res_bind_ok. exists tt. split; [by apply validateFreshness_ok|].
    apply res_bind_ok. exists tt. split; [apply compareBindings_ok; by exists w|].
    rewrite (expected_message_eq i p w Hw), <- Hm, String.eqb_refl, Hr, Hw.
    pose proof (normalize_canonical _ _ Hw) as Hc.
    by rewrite (proj2 (addressesEqual_canonical w w Hc Hc)).
Qed.

(** The input's texts hold no line break. *)
Definition input_ok (i : VerifyInput) : Prop :=
  newline_free (vi_Domain i) /\ newline_free (vi_ScanID i) /\ newline_free (vi_PayloadSHA256 i).

Lemma trim_newline_free s : newline_free s -> newline_free (TrimSpace s).
Proof. unfold newline_free. by rewrite TrimSpace_idem. Qed.

Lemma canonical_newline_free w : canonical_address w -> newline_free w.
Proof.
  intros Hw. unfold newline_free. rewrite (canonical_trimmed w Hw).
  destruct Hw as (h & -> & _ & Hh). rewrite has_byte_app. apply orb_false_and. split; [done|].
  apply not_true_iff_false. rewrite has_byte_list. rewrite Forall_forall in Hh. intros Hin.
  by apply Hh in Hin.
Qed.

(** A message equal to the expected one carries the bindings of the input. *)
Lemma authorised_bound clock i p w : input_ok i -> authorised clock i p w -> bound p i w.
Proof.
  intros (Hd & Hs & Hh) (Hp & Hw & Hm & _). rewrite Hm in Hp. unfold expected_message in Hp.
  pose proof (normalize_canonical _ _ Hw) as Hc.
  rewrite ParseMessage_BuildMessage_eq in Hp; cbn [fd_Domain fd_Action fd_WalletAddress fd_ScanID fd_PayloadSHA256];
    [|done|done|by apply canonical_newline_free|by apply trim_newline_free..].
  destruct (ParseInt _) as [c|] eqn:Ec; [|done]. apply fail_if_ok in Hp as [_ Hp].
  apply fail_if_ok in Hp as [He%is_empty_false Hp].
  cbn [fd_Domain fd_Action fd_WalletAddress fd_ScanID fd_PayloadSHA256 fd_ChainID fd_IssuedAt fd_ExpiresAt] in *.
  destruct (ParseRFC3339 _) as [ti|]; [|done]. destruct (ParseRFC3339 _) as [te|]; [|done].
  assert (c = vi_ChainID i) as -> by (by apply ParseInt_FormatInt_inv in Ec).
  injection Hp as <-. rewrite TrimSpace_idem in He.
  constructor; cbn [fd_Domain fd_Action fd_WalletAddress fd_ScanID fd_PayloadSHA256 fd_ChainID];
    rewrite ?TrimSpace_idem; [done| |done|done|].
  - split_and!; [done|done|apply EqualFold_refl].
  - split; [done|]. rewrite (canonical_trimmed _ Hc). by apply canonical_normalize.
Qed.

(** What the lines of an accepted message hold. *)
Lemma authorised_lines clock i p w : input_ok i -> authorised clock i p w ->
  readField (Split (vi_SignedMessage i) newline) "Domain: " = Ok (TrimSpace (vi_Domain i))
  /\ readField (Split (vi_SignedMessage i) newline) "Payload SHA-256: " = Ok (TrimSpace (vi_PayloadSHA256 i)).
Proof.
  intros (Hd & Hs & Hh) (_ & Hw & Hm & _). pose proof (normalize_canonical _ _ Hw) as Hc.
  rewrite Hm. unfold expected_message.
  rewrite Split_BuildMessage; cbn [fd_Domain fd_Action fd_WalletAddress fd_ScanID fd_PayloadSHA256];
    [|done|done|by apply canonical_newline_free|by apply trim_newline_free..].
  rewrite read_Domain, read_PayloadSHA256. cbn [fd_Domain fd_PayloadSHA256]. by rewrite TrimSpace_idem.
Qed.

(** C8: a signed authorisation is accepted exactly when the signed text is,
    byte for byte, the canonical message for the request's domain, wallet,
    chain, scan and payload digest, the message is in force now (with the clock
    skew) for a window of at most ten minutes, and the signature recovers to the
    request's wallet. *)
Theorem VerifyAuthorization_correct clock i : input_ok i ->
  VerifyAuthorization clock i = Ok tt <-> exists p w, authorised clock i p w.
Proof.
  intros Hi. rewrite VerifyAuthorization_ok. split.
  - intros (p & w & H & _). eauto.
  - intros (p & w & H). exists p, w. split; [done|by eapply authorised_bound].
Qed.

(** One signed message authorises one set of bindings: if two requests are
    accepted with the same signed message they agree on the wallet, chain, scan
    id, payload digest and domain. *)
Theorem VerifyAuthorization_unique clock1 clock2 i j : input_ok i -> input_ok j ->
  vi_SignedMessage i = vi_SignedMessage j ->
  VerifyAuthorization clock1 i = Ok tt -> VerifyAuthorization clock2 j = Ok tt ->
  NormalizeWalletTargetAddress (vi_WalletAddress i) = NormalizeWalletTargetAddress (vi_WalletAddress j)
  /\ vi_ChainID i = vi_ChainID j
  /\ TrimSpace (vi_ScanID i) = TrimSpace (vi_ScanID j)
  /\ TrimSpace (vi_PayloadSHA256 i) = TrimSpace (vi_PayloadSHA256 j)
  /\ TrimSpace (vi_Domain i) = TrimSpace (vi_Domain j).
Proof.
  intros Hi Hj Em. rewrite !VerifyAuthorization_ok.
  intros (p & w & Ha & Hb) (q & v & Ha' & Hb').
  destruct (authorised_lines clock1 i p w Hi Ha) as (Hd & Hs).
  destruct (authorised_lines clock2 j q v Hj Ha') as (Hd' & Hs').
  rewrite Em in Hd, Hs. rewrite Hd in Hd'. rewrite Hs in Hs'. injection Hd' as Hd'. injection Hs' as Hs'.
  destruct Ha as (Hp & _), Ha' as (Hq & _). rewrite Em, Hq in Hp. injection Hp as <-.
  destruct Hb as [_ _ Bs Bc [Bw Bw']], Hb' as [_ _ Bs' Bc' [Cw Cw']].
  rewrite Cw' in Bw'. rewrite Bw, Cw. split_and!; congruence.
Qed.

End VerifySpec.

(** ** Witnesses *)

Definition sample_wallet : string := "0xabcdef0123456789abcdef0123456789abcdef01".
Definition sample_scan : string := "00112233-4455-6677-8899-aabbccddeeff".
Definition sample_sha : string :=
  "e3b0c44298fc1c149afbf4c8996fb92427ae41e4649b934ca495991b7852b855".

(** 1 June 2026, noon. *)
Definition sample_now : time := (1780315200 * second_ns)%Z.

Definition sample_fields : Fields :=
  mkFields "cafe.local" ActionPersistCryptoPolicy sample_wallet 1 sample_scan sample_sha
    sample_now (sample_now + 5 * minute_ns)%Z.

Lemma sample_fields_ok : message_ok sample_fields.
Proof.
  constructor; try (vm_compute; reflexivity); try (vm_compute; split; congruence).
Qed.

Lemma ParseMessage_BuildMessage_witness :
  ParseMessage (BuildMessage sample_fields) = Ok (carried sample_fields).
Proof.
  apply (ParseMessage_BuildMessage sample_fields sample_fields sample_fields_ok sample_fields_ok).
Defined.

(** A signature scheme in which every signature is the sample wallet's. *)
Definition sample_eth : EthCrypto := {| recover_hex := fun _ _ => Ok sample_wallet |}.

Fixpoint repeat_text (n : nat) (s : string) : string :=
  match n with O => EmptyString | S n' => s +:+ repeat_text n' s end.

Definition sample_input : VerifyInput :=
  mkVerifyInput " cafe.local" "0XABCDEF0123456789abcdef0123456789abcdef01" 1 sample_scan sample_sha
    (BuildMessage sample_fields) ("0x" +:+ repeat_text 65 "1b") sample_now 0.

Lemma sample_input_ok : input_ok sample_input.
Proof. split_and!; vm_compute; reflexivity. Qed.

Lemma VerifyAuthorization_correct_witness :
  exists p w, @authorised _ sample_eth zero_time sample_input p w.
Proof.
  apply (proj1 (@VerifyAuthorization_correct _ sample_eth zero_time sample_input sample_input_ok)).
  vm_compute. reflexivity.
Defined.

(** The same request, written differently and checked later. *)
Definition sample_input' : VerifyInput :=
  mkVerifyInput "cafe.local " sample_wallet 1 (" " +:+ sample_scan) sample_sha
    (BuildMessage sample_fields) ("0x" +:+ repeat_text 65 "1c") (sample_now + minute_ns)%Z 0.

Lemma VerifyAuthorization_unique_witness :
  NormalizeWalletTargetAddress (vi_WalletAddress sample_input)
  = NormalizeWalletTargetAddress (vi_WalletAddress sample_input').
Proof.
  apply (@VerifyAuthorization_unique _ sample_eth zero_time zero_time sample_input sample_input'
           sample_input_ok); [split_and!|..]; vm_compute; reflexivity.
Defined.
