(* ===== verification/OwnerStore.v ===== *)
(** * The owner-scoped policy store

    [internal/authz]'s principal and [internal/persistence]: the records, the
    [PolicyStore] interface and its in-memory implementation
    ([owner_scoped_store_dev.go], [wallet_target_dev.go]).

    The store is the Go map from policy id to record; the mutex makes every
    operation atomic, so an operation is a function of the store.  What an
    operation takes from outside (the clock, the random id) is an argument. *)

From stdpp Require Import base gmap sets list strings sorting.
From Stdlib Require Import Ascii ZArith Lia.
From S2P Require Import Prelude GoStrings GoUnicode Errors Sha256 GoAny GoTime WalletTarget.
Local Open Scope string_scope.
Local Open Scope list_scope.

(** ** Principals *)

Record Principal := mkPrincipal {
  pr_UserID : string;
  pr_Subject : string;
  pr_TenantID : string;
  pr_Claims : option (list (string * any))
}.

Definition Principal_Validate (p : Principal) : gores unit :=
  fail_if is_empty (TrimSpace (pr_UserID p)) with errors_New "principal user_id is required" ;;
  fail_if is_empty (TrimSpace (pr_Subject p)) with errors_New "principal subject is required" ;;
  Ok tt.

(** ** Records *)

Record PolicyRecord := mkPolicyRecord {
  rec_ID : string;
  rec_OwnerUserID : string;
  rec_TenantID : string;
  rec_ScanID : string;
  rec_Payload : option (list (string * any));   (** [None]: a nil map *)
  rec_PayloadSHA256 : string;
  rec_WalletAddress : string;
  rec_ChainID : Z;
  rec_CreatedAt : time;
  rec_UpdatedAt : time
}.

Record CreatePolicyInput := mkCreatePolicyInput {
  ci_ScanID : string;
  ci_WalletAddress : string;
  ci_ChainID : Z;
  ci_Payload : option (list (string * any));
  ci_PayloadSHA256 : string;
  ci_SignedMessageHash : string;
  ci_WalletControlMethod : string;
  ci_WalletControlVerifiedAt : time;
  ci_ChallengeIssuedAt : option time;
  ci_ChallengeExpiresAt : option time
}.

Record CreatePolicyResult := mkCreatePolicyResult {
  cr_PolicyID : string;
  cr_ScanID : string;
  cr_WalletAddress : string;
  cr_ChainID : Z;
  cr_PayloadSHA256 : string;
  cr_PersistedAt : time
}.

Record WalletTargetContextCounts := mkCounts {
  wc_Exists : bool;
  wc_PolicyCount : Z
}.

(** ** The interface *)

(** The id of a new policy: [random] is what [rand.Read] gives for 16 bytes. *)
Definition newPolicyID (random : gores (list N)) : gores string :=
  match random with
  | Err err => Err err
  | Ok b => Ok (EncodeToString b)
  end.

(** What [rand.Read] can give. *)
Definition sixteen_bytes (b : list N) : Prop := length b = 16%nat /\ Forall (fun x => x < 256)%N b.

(** Ids are as unlike as the bytes they are made of, and never empty. *)
Lemma newPolicyID_distinct b b' id : sixteen_bytes b -> sixteen_bytes b' ->
  newPolicyID (Ok b) = Ok id -> newPolicyID (Ok b') = Ok id -> b = b' /\ len id = 32%nat.
Proof.
  intros [Hn Hb] [_ Hb'] [= H1] [= H2]. split; [apply EncodeToString_inj; congruence|].
  rewrite <- H1. destruct (EncodeToString_hex b Hb) as [-> _]. by rewrite Hn.
Qed.

(** What the operations read of the outside: the clock and the next random id. *)
Record Env := mkEnv { env_now : time; env_id : gores string }.

(** [persistence.PolicyStore].  A remote store is another process, so that even
    a read passes the state on. *)
Class PolicyStore (S : Type) := {
  st_SavePolicy : Env -> Principal -> string -> string -> option (list (string * any)) -> S -> S * gores PolicyRecord;
  st_CreatePolicy : Env -> Principal -> CreatePolicyInput -> S -> S * gores CreatePolicyResult;
  st_ListPersistedPoliciesForScan : Principal -> string -> S -> S * gores (list PolicyRecord);
  st_DeletePolicy : Principal -> string -> S -> S * gores unit;
  st_GetPolicy : Principal -> string -> S -> S * gores PolicyRecord;
  st_CountActiveWalletCPMContext : Principal -> string -> S -> S * gores WalletTargetContextCounts
}.

(** ** The in-memory store *)

Notation OwnerScopedStore := (gmap string PolicyRecord).

Definition NewOwnerScopedStore : OwnerScopedStore := ∅.

Definition sameOwner (recordUserID recordTenantID userID tenantID : string) : bool :=
  String.eqb recordUserID userID && String.eqb recordTenantID tenantID.

Definition owns (p : Principal) (rec : PolicyRecord) : bool :=
  sameOwner (rec_OwnerUserID rec) (rec_TenantID rec) (pr_UserID p) (pr_TenantID p).

(** A fresh map with the same entries. *)
Definition cloneMap (m : option (list (string * any))) : option (list (string * any)) := m.

(** The records of the store in the order of a [range] statement. *)
Definition range (s : OwnerScopedStore) : list (string * PolicyRecord) := map_to_list s.

Section Store.
Context `{U : Unicode, GS : GoSort}.

Definition SavePolicy (e : Env) (p : Principal) (id scanID : string)
    (payload : option (list (string * any))) (s : OwnerScopedStore)
    : OwnerScopedStore * gores PolicyRecord :=
  match Principal_Validate p with
  | Err _ => (s, Err (err_of ErrPrincipalRequired))
  | Ok _ =>
      let now := env_now e in
      let existing := s !! id in
      if (match existing with Some r => negb (owns p r) | None => false end)
      then (s, Err (err_of ErrForbidden))
      else
        let createdAt := match existing with Some r => rec_CreatedAt r | None => now end in
        let record := mkPolicyRecord id (pr_UserID p) (pr_TenantID p) scanID (cloneMap payload)
                        EmptyString EmptyString 0 createdAt now in
        (<[id := record]> s, Ok record)
  end.

Definition walletFromPolicyPayload (payload : option (list (string * any))) : string :=
  match payload with
  | None => EmptyString
  | Some m =>
      match map_get m "wallet_address" with
      | Some (AString v) =>
          match NormalizeWalletTargetAddress v with Ok norm => norm | Err _ => EmptyString end
      | _ => EmptyString
      end
  end.

Definition walletAddressesEqual (a b : string) : bool :=
  match NormalizeWalletTargetAddress a, NormalizeWalletTargetAddress b with
  | Ok na, Ok nb => String.eqb na nb
  | _, _ => EqualFold (TrimSpace a) (TrimSpace b)
  end.

(** The record holds the wallet for its owner. *)
Definition holds_wallet (p : Principal) (normWallet : string) (rec : PolicyRecord) : bool :=
  owns p rec
  && (walletAddressesEqual (rec_WalletAddress rec) normWallet
      || walletAddressesEqual (walletFromPolicyPayload (rec_Payload rec)) normWallet).

(** The payload as it is stored. *)
Definition persisted_payload (scanID normWallet : string) (chainID : Z) (verifiedAt : time)
    (m : list (string * any)) : list (string * any) :=
  let m := map_set "scan_id" (AString scanID) m in
  let m := map_set "wallet_address" (AString normWallet) m in
  let m := map_set "chain_id" (AInt64 chainID) m in
  let m := map_set "ownership_status" (AString "verified") m in
  let m := map_set "wallet_control_method" (AString "eoa_signature") m in
  let m := map_set "wallet_control_verified_at" (AString (FormatRFC3339 verifiedAt)) m in
  let m := map_set "persisted_at" (AString (FormatRFC3339 verifiedAt)) m in
  map_delete "payload_sha256" (map_delete "signature" (map_delete "signed_message" m)).

(** The checks before the store is locked: the trimmed scan id and digest, the
    payload and the normalised wallet. *)
Definition create_checks (i : CreatePolicyInput)
    : gores (string * string * list (string * any) * string) :=
  let scanID := TrimSpace (ci_ScanID i) in
  fail_if is_empty scanID with errors_New "scan_id is required" ;;
  let sha := TrimSpace (ci_PayloadSHA256 i) in
  fail_if is_empty sha with errors_New "payload_sha256 is required" ;;
  match ci_Payload i with
  | None => Err (errors_New "payload is required")
  | Some payload =>
      fail_if (ci_ChainID i <? 1)%Z with errors_New "chain_id is required" ;;
      match NormalizeWalletTargetAddress (ci_WalletAddress i) with
      | Err err => Err (wrap_prefix "wallet address is invalid" err)
      | Ok normWallet => Ok (scanID, sha, payload, normWallet)
      end
  end.

Definition created_record (policyID : string) (p : Principal) (i : CreatePolicyInput)
    (scanID sha normWallet : string) (payload : list (string * any)) (verifiedAt : time) : PolicyRecord :=
  mkPolicyRecord policyID (pr_UserID p) (pr_TenantID p) scanID
    (Some (persisted_payload scanID normWallet (ci_ChainID i) verifiedAt payload))
    sha normWallet (ci_ChainID i) verifiedAt verifiedAt.

Definition CreatePolicy (e : Env) (p : Principal) (i : CreatePolicyInput) (s : OwnerScopedStore)
    : OwnerScopedStore * gores CreatePolicyResult :=
  match Principal_Validate p with
  | Err _ => (s, Err (err_of ErrPrincipalRequired))
  | Ok _ =>
      match create_checks i with
      | Err err => (s, Err err)
      | Ok (scanID, sha, payload, normWallet) =>
          let verifiedAt := if IsZero (ci_WalletControlVerifiedAt i) then env_now e
                            else ci_WalletControlVerifiedAt i in
          if existsb (fun kv => holds_wallet p normWallet (snd kv)) (range s)
          then (s, Err (err_of ErrPolicyAlreadyExists))
          else
            match env_id e with
            | Err err => (s, Err err)
            | Ok policyID =>
                (<[policyID := created_record policyID p i scanID sha normWallet payload verifiedAt]> s,
                 Ok (mkCreatePolicyResult policyID scanID normWallet (ci_ChainID i) sha verifiedAt))
            end
      end
  end.

(** Newest first, then by id. *)
Definition record_less (a b : PolicyRecord) : bool :=
  if (rec_UpdatedAt a =? rec_UpdatedAt b)%Z then str_lt (rec_ID a) (rec_ID b)
  else After (rec_UpdatedAt a) (rec_UpdatedAt b).

Definition with_id (id : string) (r : PolicyRecord) : PolicyRecord :=
  mkPolicyRecord id (rec_OwnerUserID r) (rec_TenantID r) (rec_ScanID r) (cloneMap (rec_Payload r))
    (rec_PayloadSHA256 r) (rec_WalletAddress r) (rec_ChainID r) (rec_CreatedAt r) (rec_UpdatedAt r).

Definition on_scan (p : Principal) (needle : string) (rec : PolicyRecord) : bool :=
  owns p rec && EqualFold (TrimSpace (rec_ScanID rec)) needle.

Definition ListPersistedPoliciesForScan (p : Principal) (scanID : string) (s : OwnerScopedStore)
    : gores (list PolicyRecord) :=
  match Principal_Validate p with
  | Err _ => Err (err_of ErrPrincipalRequired)
  | Ok _ =>
      let needle := TrimSpace scanID in
      fail_if is_empty needle with errors_New "scan_id is required" ;;
      Ok (sort_slice record_less
            (omap (fun '(id, rec) => if on_scan p needle rec then Some (with_id id rec) else None)
               (range s)))
  end.

Definition DeletePolicy (p : Principal) (id : string) (s : OwnerScopedStore)
    : OwnerScopedStore * gores unit :=
  match Principal_Validate p with
  | Err _ => (s, Err (err_of ErrPrincipalRequired))
  | Ok _ =>
      match s !! id with
      | None => (s, Err (err_of ErrPolicyNotFound))
      | Some record =>
          if negb (owns p record) then (s, Err (err_of ErrForbidden))
          else (delete id s, Ok tt)
      end
  end.

Definition GetPolicy (p : Principal) (id : string) (s : OwnerScopedStore) : gores PolicyRecord :=
  match Principal_Validate p with
  | Err _ => Err (err_of ErrPrincipalRequired)
  | Ok _ =>
      match s !! id with
      | None => Err (err_of ErrPolicyNotFound)
      | Some record => if negb (owns p record) then Err (err_of ErrForbidden) else Ok record
      end
  end.

(** ** The wallet a payload is about *)

Definition stringField (m : list (string * any)) (key : string) : string :=
  match map_get m key with
  | Some (AString s) => TrimSpace s
  | _ => EmptyString
  end.

Fixpoint firstNonEmpty (values : list string) : string :=
  match values with
  | [] => EmptyString
  | v :: values' => if negb (is_empty (TrimSpace v)) then TrimSpace v else firstNonEmpty values'
  end.

(** [m[key].(map[string]any)]. *)
Definition map_field (m : list (string * any)) (key : string) : option (list (string * any)) :=
  v ← map_get m key; as_map v.

Definition result_target (m : list (string * any)) : string :=
  match map_field m "result" with
  | Some res => stringField res "target_address"
  | None => EmptyString
  end.

Definition walletTargetFromPolicyContext (pc : list (string * any)) : string :=
  let addr := firstNonEmpty [stringField pc "target_address"; stringField pc "wallet_address";
                             stringField pc "walletAddress"] in
  if negb (is_empty addr) then addr else result_target pc.

Definition walletTargetFromScanContext (ctx : list (string * any)) : string :=
  let addr := firstNonEmpty [stringField ctx "target_address"; stringField ctx "wallet_address"] in
  if negb (is_empty addr) then addr else result_target ctx.

(** The value of a nested context, when there is one. *)
Definition context_target (m : list (string * any)) (key : string)
    (f : list (string * any) -> string) : string :=
  match map_field m key with Some c => f c | None => EmptyString end.

Definition extractWalletTargetAddress (payload : option (list (string * any))) : string :=
  match payload with
  | None => EmptyString
  | Some m =>
      let addr := context_target m "policy_context" walletTargetFromPolicyContext in
      if negb (is_empty addr) then addr
      else
        let addr := context_target m "selected_wallet_policy_context" walletTargetFromScanContext in
        if negb (is_empty addr) then addr
        else firstNonEmpty [stringField m "target_address"; stringField m "wallet_address";
                            stringField m "walletAddress"]
  end.

Definition walletTargetFromPayload (payload : option (list (string * any))) : string :=
  let addr := extractWalletTargetAddress payload in
  if negb (is_empty addr) then
    match NormalizeWalletTargetAddress addr with Ok norm => norm | Err _ => EmptyString end
  else EmptyString.

Definition lookupActiveWalletCPMContext (p : Principal) (normalizedTargetAddress : string)
    (s : OwnerScopedStore) : gores WalletTargetContextCounts :=
  match Principal_Validate p with
  | Err _ => Err (err_of ErrPrincipalRequired)
  | Ok _ =>
      needle ← NormalizeWalletTargetAddress normalizedTargetAddress;
      let policyCount :=
        length (filter (fun kv => owns p (snd kv)
                          && String.eqb (walletTargetFromPayload (rec_Payload (snd kv))) needle)
                  (range s)) in
      Ok (mkCounts (Nat.ltb 0 policyCount) (Z.of_nat policyCount))
  end.

Definition CountActiveWalletCPMContext := lookupActiveWalletCPMContext.

#[export] Instance OwnerScopedStore_PolicyStore : PolicyStore OwnerScopedStore := {
  st_SavePolicy := SavePolicy;
  st_CreatePolicy := CreatePolicy;
  st_ListPersistedPoliciesForScan := fun p scanID s => (s, ListPersistedPoliciesForScan p scanID s);
  st_DeletePolicy := DeletePolicy;
  st_GetPolicy := fun p id s => (s, GetPolicy p id s);
  st_CountActiveWalletCPMContext := fun p address s => (s, CountActiveWalletCPMContext p address s)
}.

End Store.

(** ** Facts *)

(** The fields the store writes, and those it removes. *)
Definition server_fields : list string :=
  ["scan_id"; "wallet_address"; "chain_id"; "ownership_status"; "wallet_control_method";
   "wallet_control_verified_at"; "persisted_at"].
Definition removed_fields : list string := ["signed_message"; "signature"; "payload_sha256"].

Section StoreSpec.
Context `{U : Unicode}.

(** Reading the stored payload: the server's fields, no proof material, and
    everything else as the client sent it. *)
Lemma persisted_payload_get scanID w c t m k :
  map_get (persisted_payload scanID w c t m) k =
  if bool_decide (k ∈ removed_fields) then None
  else if String.eqb "persisted_at" k then Some (AString (FormatRFC3339 t))
  else if String.eqb "wallet_control_verified_at" k then Some (AString (FormatRFC3339 t))
  else if String.eqb "wallet_control_method" k then Some (AString "eoa_signature")
  else if String.eqb "ownership_status" k then Some (AString "verified")
  else if String.eqb "chain_id" k then Some (AInt64 c)
  else if String.eqb "wallet_address" k then Some (AString w)
  else if String.eqb "scan_id" k then Some (AString scanID)
  else map_get m k.
Proof.
  unfold persisted_payload. cbn zeta. rewrite !map_get_delete, !map_get_set.
  destruct (bool_decide_reflect (k ∈ removed_fields)) as [Hk|Hk].
  - unfold removed_fields in Hk. rewrite !elem_of_cons, elem_of_nil in Hk.
    by destruct Hk as [-> | [-> | [-> | []]]].
  - unfold removed_fields in Hk. rewrite !elem_of_cons, elem_of_nil in Hk.
    rewrite (proj2 (String.eqb_neq "payload_sha256" k)), (proj2 (String.eqb_neq "signature" k)),
      (proj2 (String.eqb_neq "signed_message" k)); [done|intros <-; apply Hk; tauto..].
Qed.

Lemma untouched_field {A} (k : string) (a b c d e f g x : A) : k ∉ server_fields ->
  (if String.eqb "persisted_at" k then a
   else if String.eqb "wallet_control_verified_at" k then b
   else if String.eqb "wallet_control_method" k then c
   else if String.eqb "ownership_status" k then d
   else if String.eqb "chain_id" k then e
   else if String.eqb "wallet_address" k then f
   else if String.eqb "scan_id" k then g else x) = x.
Proof.
  unfold server_fields. intros Hk.
  repeat match goal with |- (if String.eqb ?t k then _ else _) = _ =>
    destruct (String.eqb_spec t k) as [<-|]; [exfalso; apply Hk; by apply (bool_decide_unpack _)|] end.
  done.
Qed.

Lemma persisted_wallet scanID w c t m :
  map_get (persisted_payload scanID w c t m) "wallet_address" = Some (AString w).
Proof. rewrite persisted_payload_get. reflexivity. Qed.

Lemma Principal_Validate_ok p : Principal_Validate p = Ok tt <->
  TrimSpace (pr_UserID p) <> EmptyString /\ TrimSpace (pr_Subject p) <> EmptyString.
Proof. unfold Principal_Validate. rewrite !fail_if_ok, !is_empty_false. naive_solver. Qed.

Lemma owns_spec p r : owns p r = true <->
  rec_OwnerUserID r = pr_UserID p /\ rec_TenantID r = pr_TenantID p.
Proof. unfold owns, sameOwner. rewrite andb_true_iff, !String.eqb_eq. done. Qed.

(** A record as [CreatePolicy] leaves it. *)
Record record_ok (id : string) (r : PolicyRecord) : Prop := {
  ro_id : rec_ID r = id;
  ro_wallet : canonical_address (rec_WalletAddress r);
  ro_payload : walletFromPolicyPayload (rec_Payload r) = rec_WalletAddress r;
  ro_chain : (1 <= rec_ChainID r)%Z;
  ro_proofs : forall m k, rec_Payload r = Some m -> k ∈ removed_fields -> map_get m k = None
}.

(** Two records held by the same owner for the same wallet. *)
Definition same_slot (r1 r2 : PolicyRecord) : Prop :=
  rec_OwnerUserID r1 = rec_OwnerUserID r2 /\ rec_TenantID r1 = rec_TenantID r2
  /\ rec_WalletAddress r1 = rec_WalletAddress r2.

(** W1: at most one policy per owner and wallet. *)
Record store_ok (s : OwnerScopedStore) : Prop := {
  so_records : forall id r, s !! id = Some r -> record_ok id r;
  so_w1 : forall i j r1 r2, s !! i = Some r1 -> s !! j = Some r2 -> same_slot r1 r2 -> i = j
}.

(** The owner's policy for a wallet. *)
Definition holds (p : Principal) (w : string) (s : OwnerScopedStore) (r : PolicyRecord) : Prop :=
  exists id, s !! id = Some r /\ owns p r = true /\ rec_WalletAddress r = w.

Lemma holds_wallet_ok p w id r : record_ok id r -> canonical_address w ->
  holds_wallet p w r = true <-> owns p r = true /\ rec_WalletAddress r = w.
Proof.
  intros [_ Hw Hp _ _] Hc. unfold holds_wallet. rewrite Hp, andb_true_iff, orb_diag.
  unfold walletAddressesEqual. rewrite !canonical_normalize by done. by rewrite String.eqb_eq.
Qed.

Lemma taken_spec p w s : store_ok s -> canonical_address w ->
  existsb (fun kv => holds_wallet p w (snd kv)) (range s) = true <-> exists r, holds p w s r.
Proof.
  intros Hs Hw. rewrite existsb_exists. unfold range, holds. split.
  - intros ([id r] & Hin%list_elem_of_In%elem_of_map_to_list & H). exists r, id.
    split; [done|]. eapply holds_wallet_ok; [by eapply so_records|done|done].
  - intros (r & id & Hr & H). exists (id, r). split; [by apply list_elem_of_In, elem_of_map_to_list|].
    eapply holds_wallet_ok; [by eapply so_records|done|done].
Qed.

Lemma create_checks_ok i scanID sha payload w :
  create_checks i = Ok (scanID, sha, payload, w) <->
  scanID = TrimSpace (ci_ScanID i) /\ scanID <> EmptyString
  /\ sha = TrimSpace (ci_PayloadSHA256 i) /\ sha <> EmptyString
  /\ ci_Payload i = Some payload /\ (1 <= ci_ChainID i)%Z
  /\ NormalizeWalletTargetAddress (ci_WalletAddress i) = Ok w.
Proof.
  unfold create_checks. cbn zeta. rewrite !fail_if_ok, !is_empty_false.
  destruct (ci_Payload i) as [m|]; [|naive_solver].
  rewrite fail_if_ok, Z.ltb_ge. destruct (NormalizeWalletTargetAddress _); naive_solver.
Qed.

Lemma created_record_ok id p i scanID sha w payload t :
  canonical_address w -> (1 <= ci_ChainID i)%Z ->
  record_ok id (created_record id p i scanID sha w payload t).
Proof.
  intros Hw Hc. constructor; [done|done| |done|].
  - unfold created_record. cbn [rec_Payload rec_WalletAddress walletFromPolicyPayload].
    rewrite persisted_wallet. by rewrite canonical_normalize.
  - intros m k [= <-] Hk. rewrite persisted_payload_get. by rewrite bool_decide_true.
Qed.

(** ** Creation *)

(** What a creation that passes its checks does, on both branches. *)
Lemma CreatePolicy_cases e p i s id scanID sha payload w :
  store_ok s -> Principal_Validate p = Ok tt -> create_checks i = Ok (scanID, sha, payload, w) ->
  env_id e = Ok id ->
  let t := if IsZero (ci_WalletControlVerifiedAt i) then env_now e else ci_WalletControlVerifiedAt i in
  ((exists r, holds p w s r) /\ CreatePolicy e p i s = (s, Err (err_of ErrPolicyAlreadyExists)))
  \/ ((forall r, ~ holds p w s r)
     /\ CreatePolicy e p i s = (<[id := created_record id p i scanID sha w payload t]> s,
          Ok (mkCreatePolicyResult id scanID w (ci_ChainID i) sha t))).
Proof.
  intros Hs Hp Hc Hid t. unfold CreatePolicy. rewrite Hp, Hc, Hid.
  assert (canonical_address w) as Hw.
  { apply create_checks_ok in Hc as (_ & _ & _ & _ & _ & _ & Hn). by eapply normalize_canonical. }
  pose proof (taken_spec p w s Hs Hw) as Ht. destruct (existsb _ (range s)).
  - left. split; [by apply Ht|done].
  - right. split; [|done]. intros r Hr. assert (false = true); [|done]. apply Ht. by exists r.
Qed.

(** Either a creation fails without a trace or it inserts the one record. *)
Lemma persist_failed_create e p i s scanID sha payload w :
  store_ok s -> create_checks i = Ok (scanID, sha, payload, w) ->
  (exists err, CreatePolicy e p i s = (s, Err err))
  \/ (exists id, env_id e = Ok id /\ Principal_Validate p = Ok tt /\ (forall r, ~ holds p w s r)
     /\ let t := if IsZero (ci_WalletControlVerifiedAt i) then env_now e else ci_WalletControlVerifiedAt i in
        CreatePolicy e p i s = (<[id := created_record id p i scanID sha w payload t]> s,
          Ok (mkCreatePolicyResult id scanID w (ci_ChainID i) sha t))).
Proof.
  intros Hs Hc. destruct (Principal_Validate p) as [[]|err] eqn:Hp.
  2:{ left. unfold CreatePolicy. rewrite Hp. eauto. }
  destruct (env_id e) as [id|err] eqn:Hid.
  2:{ left. unfold CreatePolicy. rewrite Hp, Hc, Hid. destruct (existsb _ _); eauto. }
  destruct (CreatePolicy_cases e p i s id scanID sha payload w Hs Hp Hc Hid) as [[_ ->]|[Hno ->]]; [eauto|].
  right. exists id. done.
Qed.

Lemma store_ok_insert id r s : store_ok s -> record_ok id r -> s !! id = None ->
  (forall j r', s !! j = Some r' -> ~ same_slot r' r) -> store_ok (<[id := r]> s).
Proof.
  intros [Hr Hw] Hok Hid Hfree. constructor.
  - intros j r'. rewrite lookup_insert_Some. naive_solver.
  - intros i j r1 r2. rewrite !lookup_insert_Some.
    intros [[<- <-]|[Hi H1]] [[<- <-]|[Hj H2]] Hsame; [done| | |by eapply Hw].
    + exfalso. apply (Hfree j r2 H2). destruct Hsame as (?&?&?). by repeat split.
    + exfalso. by apply (Hfree i r1 H1).
Qed.

(** A failed operation leaves the store as it is. *)
Lemma CreatePolicy_state e p i s : store_ok s ->
  (forall id, env_id e = Ok id -> s !! id = None) -> store_ok (fst (CreatePolicy e p i s)).
Proof.
  intros Hs Hfresh. destruct (Principal_Validate p) as [[]|err] eqn:Hp.
  2:{ unfold CreatePolicy. by rewrite Hp. }
  destruct (create_checks i) as [[[[scanID sha] payload] w]|err] eqn:Hc.
  2:{ unfold CreatePolicy. by rewrite Hp, Hc. }
  destruct (env_id e) as [id|err] eqn:Hid.
  2:{ unfold CreatePolicy. rewrite Hp, Hc, Hid. by destruct (existsb _ _). }
  destruct (CreatePolicy_cases e p i s id scanID sha payload w Hs Hp Hc Hid) as [[_ ->]|[Hno ->]]; [done|].
  apply create_checks_ok in Hc as (_ & _ & _ & _ & _ & Hch & Hn%normalize_canonical).
  apply store_ok_insert; [done|by apply created_record_ok|by apply Hfresh|].
  intros j r Hj (E1 & E2 & E3). apply (Hno r). exists j. split; [done|]. rewrite owns_spec. done.
Qed.

Lemma DeletePolicy_state p id s : store_ok s -> store_ok (fst (DeletePolicy p id s)).
Proof.
  intros Hs. unfold DeletePolicy. destruct (Principal_Validate p); [|done].
  destruct (s !! id) as [r|]; [|done]. destruct (negb (owns p r)); [done|]. cbn [fst].
  destruct Hs as [Hr Hw]. constructor.
  - intros j r'. rewrite lookup_delete_Some. naive_solver.
  - intros i j r1 r2. rewrite !lookup_delete_Some. intros [_ H1] [_ H2]. by apply Hw.
Qed.

(** The operations the routes perform on the store; random ids are fresh. *)
Inductive route_step (s : OwnerScopedStore) : OwnerScopedStore -> Prop :=
| step_create e p i :
    (forall id, env_id e = Ok id -> s !! id = None) -> route_step s (fst (CreatePolicy e p i s))
| step_delete p id : route_step s (fst (DeletePolicy p id s)).

Lemma new_store_ok : store_ok NewOwnerScopedStore.
Proof. constructor; unfold NewOwnerScopedStore; intros *; by rewrite lookup_empty. Qed.

Lemma route_steps_ok s s' : store_ok s -> rtc route_step s s' -> store_ok s'.
Proof.
  intros Hs H. induction H as [|s s1 s' [e p i Hf|p id] _ IH]; [done|..]; apply IH;
    [by apply CreatePolicy_state|by apply DeletePolicy_state].
Qed.

(** C7: whatever sequence of creations and deletions the routes perform from an
    empty store, every owner has at most one policy per wallet (W1), and every
    stored policy has its own id, a canonical wallet that its payload agrees
    with, and no signature material. *)
Theorem reachable_W1 s : rtc route_step NewOwnerScopedStore s -> store_ok s.
Proof.
  apply route_steps_ok, new_store_ok.
Qed.

(** C21: in such a store a creation that passes its checks is refused exactly
    when its owner already has a policy for the wallet, and otherwise stores a
    record that its owner reads back, whose payload is the one sent with the
    server's own fields and without proof material, leaving every other record
    alone. *)
Theorem CreatePolicy_correct e p i s id scanID sha payload w :
  store_ok s -> Principal_Validate p = Ok tt -> create_checks i = Ok (scanID, sha, payload, w) ->
  env_id e = Ok id -> s !! id = None ->
  let '(s', r) := CreatePolicy e p i s in
  ((exists rec, holds p w s rec) <-> r = Err (err_of ErrPolicyAlreadyExists))
  /\ (r = Err (err_of ErrPolicyAlreadyExists) -> s' = s)
  /\ ((forall rec, ~ holds p w s rec) ->
      exists rec, GetPolicy p id s' = Ok rec /\ holds p w s' rec
        /\ rec_ScanID rec = scanID /\ rec_PayloadSHA256 rec = sha /\ rec_ChainID rec = ci_ChainID i
        /\ (exists m, rec_Payload rec = Some m
            /\ (forall k, k ∈ removed_fields -> map_get m k = None)
            /\ (forall k, k ∉ server_fields -> k ∉ removed_fields -> map_get m k = map_get payload k))
        /\ (forall j, j <> id -> s' !! j = s !! j)).
Proof.
  intros Hs Hp Hc Hid Hf.
  destruct (CreatePolicy_cases e p i s id scanID sha payload w Hs Hp Hc Hid) as [[Hex ->]|[Hno ->]].
  { split_and!; [done|done|]. intros Hno. destruct Hex as [r Hr]. by apply Hno in Hr. }
  split_and!; [|done|].
  { split; [intros [r Hr]; by apply Hno in Hr|done]. }
  intros _. set (rec := created_record _ _ _ _ _ _ _ _). exists rec.
  assert (owns p rec = true) as Ho by (by apply owns_spec).
  split_and!; try done.
  - unfold GetPolicy. by rewrite Hp, lookup_insert_eq, Ho.
  - exists id. by rewrite lookup_insert_eq.
  - eexists. split; [reflexivity|]. split; intros k; rewrite persisted_payload_get.
    + intros Hk. by rewrite bool_decide_true.
    + intros Hk1 Hk2. rewrite bool_decide_false by done. by apply untouched_field.
  - intros j Hj. by rewrite lookup_insert_ne.
Qed.

End StoreSpec.

(** ** Listing *)

Lemma record_ge a b : ge_of record_less a b <->
  (rec_UpdatedAt b < rec_UpdatedAt a)%Z
  \/ rec_UpdatedAt a = rec_UpdatedAt b /\ str_lt (rec_ID b) (rec_ID a) = false.
Proof.
  unfold ge_of, record_less, After. destruct (Z.eqb_spec (rec_UpdatedAt b) (rec_UpdatedAt a)).
  - split; [by right|]. intros [?|[_ ?]]; [lia|done].
  - rewrite Z.ltb_ge. split; [left; lia|]. intros [?|[? _]]; lia.
Qed.

#[export] Instance WeakOrder_record_less : WeakOrder record_less.
Proof.
  destruct (WeakOrder_str rec_ID) as [Htr Htot]. split.
  - intros a b c. rewrite !record_ge. intros [?|[? H1]] [?|[? H2]]; try (left; lia).
    right. split; [lia|]. by apply (Htr a b c).
  - intros a b. rewrite !record_ge.
    destruct (Z.lt_trichotomy (rec_UpdatedAt a) (rec_UpdatedAt b)) as [?|[?|?]]; [by right; left| |by left; left].
    destruct (Htot a b); [left|right]; right; split; done || lia.
Qed.

Section ListSpec.
Context `{U : Unicode}.

Definition matching (p : Principal) (needle : string) (s : OwnerScopedStore) : list PolicyRecord :=
  omap (fun '(id, rec) => if on_scan p needle rec then Some (with_id id rec) else None) (range s).

Lemma matching_elem p needle s r : r ∈ matching p needle s <->
  exists id r0, s !! id = Some r0 /\ on_scan p needle r0 = true /\ r = with_id id r0.
Proof.
  unfold matching. rewrite list_elem_of_omap. split.
  - intros ([id r0] & Hin & H). apply elem_of_map_to_list in Hin.
    destruct (on_scan p needle r0) eqn:E; [|done]. injection H as <-. by exists id, r0.
  - intros (id & r0 & Hin & Hm & ->). exists (id, r0). split; [by apply elem_of_map_to_list|].
    by rewrite Hm.
Qed.

(** Ids identify the records of a listing. *)
Lemma matching_ids p needle s a b : a ∈ matching p needle s -> b ∈ matching p needle s ->
  rec_ID a = rec_ID b -> a = b.
Proof.
  rewrite !matching_elem. intros (i & r & Hi & _ & ->) (j & r' & Hj & _ & ->) E.
  cbn [with_id rec_ID] in E. subst j. rewrite Hi in Hj. by injection Hj as ->.
Qed.

(** A listing is determined by the records that match. *)
Lemma listing_unique (G1 G2 : GoSort) p needle s l : l ≡ₚ matching p needle s ->
  sort_slice (GoSort := G1) record_less (matching p needle s) = sort_slice (GoSort := G2) record_less l.
Proof.
  intros Hl. apply (sorted_perm_unique record_less); [apply _| |by apply sort_slice_sorted, _..|by rewrite !sort_slice_perm].
  intros x y. rewrite !sort_slice_perm. intros Hx Hy Hxy Hyx. apply (matching_ids p needle s); [done..|].
  rewrite record_ge in Hxy, Hyx. destruct Hxy as [?|[? H1]], Hyx as [?|[? H2]]; [lia..|].
  by apply str_lt_antisym.
Qed.


(** ** Isolation *)

Lemma CreatePolicy_others e p i s j r : s !! j = Some r -> (forall id, env_id e = Ok id -> s !! id = None) ->
  fst (CreatePolicy e p i s) !! j = Some r.
Proof.
  intros Hj Hf. unfold CreatePolicy. destruct (Principal_Validate p); [|done].
  destruct (create_checks i) as [[[[? ?] ?] ?]|]; [|done]. destruct (existsb _ _); [done|].
  destruct (env_id e) as [id'|] eqn:Hid; [|done]. cbn [fst].
  rewrite lookup_insert_ne; [done|]. intros ->. rewrite (Hf j) in Hj; done.
Qed.

Lemma DeletePolicy_others p id s j r : s !! j = Some r -> owns p r = false ->
  fst (DeletePolicy p id s) !! j = Some r.
Proof.
  intros Hj Ho. unfold DeletePolicy. destruct (Principal_Validate p); [|done].
  destruct (s !! id) as [r'|] eqn:Hr'; [|done]. destruct (owns p r') eqn:Ho'; [|done]. cbn [negb fst].
  rewrite lookup_delete_ne; [done|]. intros ->. congruence.
Qed.

Lemma existsb_perm {A} (f : A -> bool) l l' : l ≡ₚ l' -> existsb f l = existsb f l'.
Proof.
  induction 1 as [|x l l' _ IH|x y l|l l1 l' _ IH1 _ IH2]; cbn [existsb]; [done|by rewrite IH| |congruence].
  by destruct (f x), (f y).
Qed.

(** *** What other owners' records contribute to an answer: nothing *)

Section Unseen.
Context `{GS : GoSort} (p : Principal) (s : OwnerScopedStore) (j : string) (r : PolicyRecord)
  (Hj : s !! j = Some r) (Ho : owns p r = false).

Lemma range_without : range s ≡ₚ (j, r) :: range (delete j s).
Proof.
  unfold range. rewrite <- (insert_delete_id s j r Hj) at 1. apply map_to_list_insert, lookup_delete_eq.
Qed.

Lemma listing_unseen scanID : ListPersistedPoliciesForScan p scanID (delete j s) = ListPersistedPoliciesForScan p scanID s.
Proof.
  unfold ListPersistedPoliciesForScan. destruct (Principal_Validate p); [|done]. cbn zeta. destruct (is_empty _); [done|].
  cbn [guard_err]. f_equal. symmetry. apply (listing_unique GS GS p (TrimSpace scanID) s).
  unfold matching. rewrite range_without. cbn [omap list_omap]. unfold on_scan at 2. by rewrite Ho.
Qed.

Lemma count_unseen a : CountActiveWalletCPMContext p a (delete j s) = CountActiveWalletCPMContext p a s.
Proof.
  unfold CountActiveWalletCPMContext, lookupActiveWalletCPMContext. destruct (Principal_Validate p); [|done].
  destruct (NormalizeWalletTargetAddress a) as [w|]; [|done]. cbn [mbind res_bind]. rewrite range_without, filter_cons_False; [done|].
  cbn [snd]. rewrite Ho. cbn [andb]. by intros [].
Qed.

Lemma conflict_unseen w : existsb (fun kv => holds_wallet p w (snd kv)) (range (delete j s))
  = existsb (fun kv => holds_wallet p w (snd kv)) (range s).
Proof.
  rewrite (existsb_perm _ _ _ range_without). cbn [existsb snd]. unfold holds_wallet at 2. by rewrite Ho.
Qed.

Lemma create_unseen e i : snd (CreatePolicy e p i (delete j s)) = snd (CreatePolicy e p i s).
Proof.
  unfold CreatePolicy. destruct (Principal_Validate p); [|done].
  destruct (create_checks i) as [[[[scanID sha] payload] w]|]; [|done]. cbn zeta. rewrite conflict_unseen.
  destruct (existsb _ _); [done|]. by destruct (env_id e).
Qed.

Lemma get_unseen id : id <> j -> GetPolicy p id (delete j s) = GetPolicy p id s.
Proof. intros Hne. unfold GetPolicy. by rewrite lookup_delete_ne. Qed.

End Unseen.

(** C22: No operation of a principal changes a record of another owner, and none
    shows one: reading or deleting the other owner's policy fails, and every
    other answer (a policy read by its id, a listing, the count for a wallet, the
    outcome of a creation) is the one the store would give without that record.
    What is read or listed is the principal's own. *)
Theorem owner_isolation `{GS : GoSort} e p id scanID payload i address s j r :
  s !! j = Some r -> owns p r = false -> (forall id, env_id e = Ok id -> s !! id = None) ->
  (fst (SavePolicy e p id scanID payload s) !! j = Some r
   /\ fst (CreatePolicy e p i s) !! j = Some r
   /\ fst (DeletePolicy p id s) !! j = Some r)
  /\ (is_ok (GetPolicy p j s) = false /\ is_ok (snd (DeletePolicy p j s)) = false
      /\ is_ok (snd (SavePolicy e p j scanID payload s)) = false)
  /\ ((id <> j -> GetPolicy p id (delete j s) = GetPolicy p id s)
      /\ ListPersistedPoliciesForScan p scanID (delete j s) = ListPersistedPoliciesForScan p scanID s
      /\ CountActiveWalletCPMContext p address (delete j s) = CountActiveWalletCPMContext p address s
      /\ snd (CreatePolicy e p i (delete j s)) = snd (CreatePolicy e p i s))
  /\ (forall r', GetPolicy p id s = Ok r' -> owns p r' = true)
  /\ (forall l, ListPersistedPoliciesForScan p scanID s = Ok l -> Forall (fun r' => owns p r' = true /\ rec_ID r' <> j) l).
Proof.
  intros Hj Ho Hf. split_and!.
  - unfold SavePolicy. destruct (Principal_Validate p); [|done]. cbn zeta.
    destruct (decide (id = j)) as [->|Hne]; [by rewrite Hj, Ho|].
    destruct (match s !! id with Some r => _ | None => _ end); [done|]. cbn [fst]. by rewrite lookup_insert_ne.
  - by apply CreatePolicy_others.
  - by apply DeletePolicy_others.
  - unfold GetPolicy. destruct (Principal_Validate p); [|done]. by rewrite Hj, Ho.
  - unfold DeletePolicy. destruct (Principal_Validate p); [|done]. by rewrite Hj, Ho.
  - unfold SavePolicy. destruct (Principal_Validate p); [|done]. cbn zeta. by rewrite Hj, Ho.
  - by apply get_unseen.
  - by eapply listing_unseen.
  - by eapply count_unseen.
  - by eapply create_unseen.
  - intros r'. unfold GetPolicy. destruct (Principal_Validate p); [|done].
    destruct (s !! id) as [x|]; [|done]. destruct (owns p x) eqn:E; [|done]. cbn [negb]. congruence.
  - intros l H. apply Forall_forall. intros r' Hin. unfold ListPersistedPoliciesForScan in H.
    destruct (Principal_Validate p); [|done]. cbn zeta in H. destruct (is_empty _); [done|]. injection H as <-.
    fold (matching p (TrimSpace scanID) s) in Hin. rewrite sort_slice_perm, matching_elem in Hin.
    destruct Hin as (k & r0 & Hk & [Hown _]%andb_true_iff & ->). split; [done|]. cbn [with_id rec_ID]. intros ->. congruence.
Qed.

End ListSpec.

(** ** The wallet context lookup *)

Section CountSpec.
Context `{U : Unicode}.

(** A payload that names no other wallet than the one the store writes; the
    closed payloads the persist route stores are such. *)
Definition plain (m : list (string * any)) : Prop :=
  map_get m "policy_context" = None /\ map_get m "selected_wallet_policy_context" = None
  /\ map_get m "target_address" = None.

Lemma plain_target scanID w c t m : plain m -> canonical_address w ->
  walletTargetFromPayload (Some (persisted_payload scanID w c t m)) = w.
Proof.
  intros (H1 & H2 & H3) Hw. set (m' := persisted_payload scanID w c t m).
  assert (map_get m' "policy_context" = None) as E1 by (unfold m'; rewrite persisted_payload_get; done).
  assert (map_get m' "selected_wallet_policy_context" = None) as E2
    by (unfold m'; rewrite persisted_payload_get; done).
  assert (map_get m' "target_address" = None) as E3 by (unfold m'; rewrite persisted_payload_get; done).
  assert (map_get m' "wallet_address" = Some (AString w)) as E4 by apply persisted_wallet.
  unfold walletTargetFromPayload, extractWalletTargetAddress, context_target, map_field, stringField.
  rewrite E1, E2, E3, E4. cbn [mbind option_bind firstNonEmpty].
  assert (is_empty w = false) as Hne by (destruct Hw as (h & -> & _); done).
  rewrite (canonical_trimmed w Hw), (canonical_trimmed w Hw). cbn [negb is_empty].
  change (is_empty (TrimSpace EmptyString)) with true. change (is_empty EmptyString) with true. cbn [negb].
  rewrite Hne. cbn [negb]. rewrite Hne. cbn [negb]. by rewrite canonical_normalize.
Qed.

(** Every record is counted for the wallet it is stored under. *)
Definition targets_agree (s : OwnerScopedStore) : Prop :=
  forall id r, s !! id = Some r -> walletTargetFromPayload (rec_Payload r) = rec_WalletAddress r.

(** The routes' operations, creations with plain payloads. *)
Inductive plain_step (s : OwnerScopedStore) : OwnerScopedStore -> Prop :=
| plain_create e p i :
    (forall id, env_id e = Ok id -> s !! id = None) ->
    (forall m, ci_Payload i = Some m -> plain m) -> plain_step s (fst (CreatePolicy e p i s))
| plain_delete p id : plain_step s (fst (DeletePolicy p id s)).

Lemma CreatePolicy_targets e p i s : targets_agree s -> (forall m, ci_Payload i = Some m -> plain m) ->
  targets_agree (fst (CreatePolicy e p i s)).
Proof.
  intros Hs Hm. unfold CreatePolicy. destruct (Principal_Validate p); [|done].
  destruct (create_checks i) as [[[[scanID sha] payload] w]|] eqn:Hc; [|done].
  destruct (existsb _ _); [done|]. destruct (env_id e) as [id|]; [|done]. cbn [fst].
  apply create_checks_ok in Hc as (_ & _ & _ & _ & Hp & _ & Hw%normalize_canonical).
  intros j r [[<- <-]|[_ Hj]]%lookup_insert_Some; [|by eapply Hs].
  unfold created_record. cbn [rec_Payload rec_WalletAddress]. apply plain_target; [by apply Hm|done].
Qed.

Lemma plain_reachable s : rtc plain_step NewOwnerScopedStore s -> store_ok s /\ targets_agree s.
Proof.
  revert s. apply rtc_ind_r.
  - split; [constructor|]; unfold NewOwnerScopedStore, targets_agree; intros *; by rewrite lookup_empty.
  - intros s s' _ [e p i Hf Hm|p id] [IH1 IH2].
    + split; [by apply CreatePolicy_state|by apply CreatePolicy_targets].
    + split; [by apply DeletePolicy_state|]. unfold DeletePolicy. destruct (Principal_Validate p); [|done].
      destruct (s !! id) as [r|]; [|done]. destruct (negb (owns p r)); [done|]. cbn [fst].
      intros j r' [_ Hj]%lookup_delete_Some. by eapply IH2.
Qed.

Lemma length_at_most_one {A} (l : list A) : NoDup l -> (forall x y, x ∈ l -> y ∈ l -> x = y) ->
  length l <= 1.
Proof.
  intros Hnd Heq. destruct l as [|x [|y l]]; simpl; [lia..|]. exfalso.
  assert (x = y) as -> by (apply Heq; set_solver). apply NoDup_cons in Hnd as [Hn _]. set_solver.
Qed.

(** C32: the wallet context lookup and W1 agree: in a store the routes built, a
    principal has one policy for a wallet or none, the lookup counts it, and
    exactly when it reports one does a creation for that wallet conflict. *)
Theorem wallet_context_agrees s p a w :
  rtc plain_step NewOwnerScopedStore s -> Principal_Validate p = Ok tt ->
  NormalizeWalletTargetAddress a = Ok w ->
  exists n, CountActiveWalletCPMContext p a s = Ok (mkCounts (Nat.ltb 0 n) (Z.of_nat n))
    /\ n <= 1 /\ (0 < n <-> exists r, holds p w s r)
    /\ (forall e i id scanID sha payload, create_checks i = Ok (scanID, sha, payload, w) -> env_id e = Ok id ->
        0 < n <-> snd (CreatePolicy e p i s) = Err (err_of ErrPolicyAlreadyExists)).
Proof.
  intros [Hs Ht]%plain_reachable Hp Hw.
  unfold CountActiveWalletCPMContext, lookupActiveWalletCPMContext. rewrite Hp, Hw. cbn [mbind res_bind].
  set (l := filter _ (range s)). exists (length l).
  assert (forall id r, (id, r) ∈ l <-> s !! id = Some r /\ owns p r = true /\ rec_WalletAddress r = w) as Hl.
  { intros id r. unfold l, range. rewrite list_elem_of_filter, elem_of_map_to_list. cbn [snd].
    rewrite Is_true_true, andb_true_iff, String.eqb_eq. split.
    - intros [[Ho Hr] Hin]. rewrite (Ht _ _ Hin) in Hr. done.
    - intros (Hin & Ho & Hr). rewrite (Ht _ _ Hin). done. }
  assert (0 < length l <-> exists r, holds p w s r) as Hpos.
  { split.
    - destruct l as [|[id r] l']; [simpl; lia|]. intros _. exists r, id. apply Hl. by left.
    - intros (r & id & Hr). apply Hl in Hr. destruct l; [by apply elem_of_nil in Hr|simpl; lia]. }
  split_and!; [done| |done|].
  - apply length_at_most_one; [apply NoDup_filter, NoDup_map_to_list|].
    intros [i r] [j r']. rewrite !Hl, !owns_spec. intros (Hi & [] & ?) (Hj & [] & ?).
    assert (i = j) as -> by (eapply (so_w1 s Hs); [done|done|split_and!; congruence]).
    rewrite Hi in Hj. by injection Hj as ->.
  - intros e i id scanID sha payload Hc Hid. rewrite Hpos.
    destruct (CreatePolicy_cases e p i s id scanID sha payload w Hs Hp Hc Hid) as [[Hex ->]|[Hno ->]].
    + done.
    + split; [intros [r Hr]; by apply Hno in Hr|done].
Qed.

End CountSpec.

(** ** Witnesses *)

Definition alice : Principal := mkPrincipal "user-1" "sub-1" "tenant-1" None.
Definition bob : Principal := mkPrincipal "user-2" "sub-2" "tenant-1" None.

Definition sample_create : CreatePolicyInput :=
  mkCreatePolicyInput "00112233-4455-6677-8899-aabbccddeeff"
    "0xABCDEF0123456789abcdef0123456789abcdef01" 1
    (Some [("schema_version", AString "0.2"); ("signature", AString "0x00")])
    "digest" EmptyString "eoa_signature" 0%Z None None.

Definition sample_env (id : string) : Env := mkEnv 1000%Z (Ok id).

Definition sample_store : OwnerScopedStore := fst (CreatePolicy (sample_env "id-1") alice sample_create ∅).

Lemma sample_reachable : rtc route_step NewOwnerScopedStore sample_store.
Proof.
  apply rtc_once. apply (step_create ∅ (sample_env "id-1") alice sample_create). intros id _. apply lookup_empty.
Qed.

Lemma sample_plain_reachable : rtc plain_step NewOwnerScopedStore sample_store.
Proof.
  apply rtc_once. apply (plain_create ∅ (sample_env "id-1") alice sample_create).
  - intros id _. apply lookup_empty.
  - intros m [= <-]. by split_and!.
Qed.

Lemma reachable_W1_witness : store_ok sample_store.
Proof. apply (reachable_W1 sample_store sample_reachable). Defined.

Lemma sample_store_ok : store_ok sample_store.
Proof. apply (proj1 (plain_reachable _ sample_plain_reachable)). Qed.

(** A second creation for the same wallet, in other letters, conflicts. *)
Lemma CreatePolicy_correct_witness :
  snd (CreatePolicy (sample_env "id-2") alice sample_create sample_store)
  = Err (err_of ErrPolicyAlreadyExists)
  /\ fst (CreatePolicy (sample_env "id-2") alice sample_create sample_store) = sample_store.
Proof.
  pose proof (CreatePolicy_correct (sample_env "id-2") alice sample_create sample_store "id-2"
    "00112233-4455-6677-8899-aabbccddeeff" "digest" [("schema_version", AString "0.2"); ("signature", AString "0x00")]
    "0xabcdef0123456789abcdef0123456789abcdef01" sample_store_ok
    ltac:(vm_compute; reflexivity) ltac:(vm_compute; reflexivity) ltac:(reflexivity) ltac:(vm_compute; reflexivity)) as H.
  assert (snd (CreatePolicy (sample_env "id-2") alice sample_create sample_store)
          = Err (err_of ErrPolicyAlreadyExists)) as E by (vm_compute; reflexivity).
  destruct (CreatePolicy (sample_env "id-2") alice sample_create sample_store) as [s' r].
  cbn [fst snd] in *. destruct H as (_ & H & _). split; [exact E|by apply H].
Defined.


Lemma owner_isolation_witness :
  is_ok (GetPolicy bob "id-1" sample_store) = false
  /\ is_ok (snd (DeletePolicy bob "id-1" sample_store)) = false
  /\ ListPersistedPoliciesForScan bob "00112233-4455-6677-8899-aabbccddeeff" (delete "id-1" sample_store)
     = ListPersistedPoliciesForScan bob "00112233-4455-6677-8899-aabbccddeeff" sample_store.
Proof.
  assert (exists r, sample_store !! "id-1" = Some r /\ owns bob r = false) as (r & E & Ho)
    by (eexists; split; vm_compute; reflexivity).
  destruct (owner_isolation (sample_env "id-2") bob "id-1" "00112233-4455-6677-8899-aabbccddeeff" None sample_create
    "0xABCDEF0123456789abcdef0123456789abcdef01" sample_store "id-1" r E Ho) as (_ & (H1 & H2 & _) & (_ & H3 & _) & _).
  - intros id [= <-]. vm_compute. reflexivity.
  - split; [exact H1|]. split; [exact H2|exact H3].
Defined.

Lemma wallet_context_agrees_witness :
  exists n, CountActiveWalletCPMContext alice "ABCDEF0123456789abcdef0123456789abcdef01" sample_store
            = Ok (mkCounts (Nat.ltb 0 n) (Z.of_nat n)) /\ n <= 1.
Proof.
  destruct (wallet_context_agrees sample_store alice "ABCDEF0123456789abcdef0123456789abcdef01"
    "0xabcdef0123456789abcdef0123456789abcdef01" sample_plain_reachable) as (n & H1 & H2 & _).
  - vm_compute. reflexivity.
  - vm_compute. reflexivity.
  - exists n. split; [exact H1|exact H2].
Defined.

Example sample_count : CountActiveWalletCPMContext alice "ABCDEF0123456789abcdef0123456789abcdef01" sample_store
  = Ok (mkCounts true 1).
Proof. vm_compute. reflexivity. Qed.
