(* ===== verification/Routes.v ===== *)
(** * Routes

    [internal/cpmroutes], the route classes of [internal/authz] and the route
    inventory of [internal/app/auth.go]: which requests are public, which need
    an authenticated principal, and which are refused. *)

From stdpp Require Import base gmap sets list strings.
From Stdlib Require Import Ascii.
From S2P Require Import Prelude GoStrings GoUnicode Errors.
Local Open Scope string_scope.
Local Open Scope list_scope.

(** ** Paths *)

Definition V1Base : string := "/api/cpm/v1".
Definition CryptoPolicies : string := V1Base +:+ "/crypto-policies".
Definition CryptoPolicyByID : string := CryptoPolicies +:+ "/{crypto_policy_id}".
Definition Providers : string := V1Base +:+ "/providers".
Definition ProviderByID : string := Providers +:+ "/{provider_id}".
Definition PoliciesPrefix : string := V1Base +:+ "/policies".
Definition PoliciesDecisionsExplore : string := PoliciesPrefix +:+ "/decisions/explore".
Definition PoliciesAssessmentRequest : string := PoliciesPrefix +:+ "/assessment/request".
Definition WalletChallenges : string := V1Base +:+ "/wallet-challenges".
Definition AcceptedProviderSnapshots : string := V1Base +:+ "/accepted-provider-snapshots".
Definition WalletTargetContext : string := V1Base +:+ "/wallet-target-context".
Definition Healthz : string := "/healthz".
Definition Metrics : string := "/metrics".
Definition Version : string := "/version".
Definition Policies : string := PoliciesPrefix.

Definition MethodGet : string := "GET".
Definition MethodPost : string := "POST".
Definition MethodPut : string := "PUT".
Definition MethodPatch : string := "PATCH".
Definition MethodDelete : string := "DELETE".

Record AuthenticatedRoute := mkAuthRoute { ar_Method : string; ar_Path : string }.

Definition AuthenticatedRoutes : list AuthenticatedRoute :=
  [mkAuthRoute MethodGet CryptoPolicies;
   mkAuthRoute MethodGet CryptoPolicyByID;
   mkAuthRoute MethodGet Providers;
   mkAuthRoute MethodGet ProviderByID;
   mkAuthRoute MethodPost PoliciesDecisionsExplore;
   mkAuthRoute MethodPost PoliciesAssessmentRequest;
   mkAuthRoute MethodPost WalletChallenges;
   mkAuthRoute MethodPost AcceptedProviderSnapshots;
   mkAuthRoute MethodGet WalletTargetContext;
   mkAuthRoute MethodPost Policies;
   mkAuthRoute MethodGet Policies;
   mkAuthRoute MethodDelete Policies].

(** [strings.Trim(s, "/")]. *)
Definition slash : ascii := "/"%char.

Fixpoint drop_slashes (l : list ascii) : list ascii :=
  match l with
  | a :: l' => if Ascii.eqb a slash then drop_slashes l' else l
  | [] => []
  end.

Definition trim_slashes (s : string) : string :=
  String.string_of_list_ascii
    (rev (drop_slashes (rev (drop_slashes (String.list_ascii_of_string s))))).

(** A segment of the pattern against a segment of the path. *)
Definition segment_matches (pat act : string) : bool :=
  if HasPrefix pat "{" && HasSuffix pat "}" then negb (is_empty act) else String.eqb pat act.

Fixpoint segments_match (pats acts : list string) : bool :=
  match pats, acts with
  | pat :: pats', act :: acts' => segment_matches pat act && segments_match pats' acts'
  | _, _ => true
  end.

Definition PathMatches (pattern actual : string) : bool :=
  if String.eqb pattern actual then true
  else if negb (Contains pattern "{") then false
  else
    let patParts := Split (trim_slashes pattern) slash in
    let actParts := Split (trim_slashes actual) slash in
    if negb (Nat.eqb (length patParts) (length actParts)) then false
    else segments_match patParts actParts.

(** ** Classes *)

Definition RouteClassPublicHealth : string := "public_health".
Definition RouteClassAuthenticated : string := "authenticated_business".
Definition RouteClassDeprecatedDisabled : string := "deprecated_disabled".
Definition RouteClassInternalService : string := "internal_service_token".

Definition IsValidRouteClass (value : string) : bool :=
  String.eqb value RouteClassPublicHealth || String.eqb value RouteClassAuthenticated
  || String.eqb value RouteClassDeprecatedDisabled || String.eqb value RouteClassInternalService.

Record routeSpec := mkRoute { rt_Method : string; rt_Path : string; rt_Class : string }.

Definition buildRouteInventory : list routeSpec :=
  [mkRoute MethodGet Healthz RouteClassPublicHealth;
   mkRoute MethodGet Metrics RouteClassPublicHealth;
   mkRoute MethodGet Version RouteClassPublicHealth]
  ++ ((fun ar => mkRoute (ar_Method ar) (ar_Path ar) RouteClassAuthenticated) <$> AuthenticatedRoutes).

Definition routeInventory : list routeSpec := buildRouteInventory.

Section Inventory.
Context `{U : Unicode}.

(** [%+v] of a route. *)
Definition route_text (r : routeSpec) : string :=
  "{Method:" +:+ rt_Method r +:+ " Path:" +:+ rt_Path r +:+ " Class:" +:+ rt_Class r +:+ "}".

Definition route_key (r : routeSpec) : string := rt_Method r +:+ " " +:+ rt_Path r.

Fixpoint validate_routes (seen : list string) (routes : list routeSpec) : gores unit :=
  match routes with
  | [] => Ok tt
  | r :: routes' =>
      fail_if is_empty (rt_Method r) || is_empty (rt_Path r)
        with errors_New ("route inventory has empty method/path: " +:+ route_text r) ;;
      fail_if negb (IsValidRouteClass (rt_Class r))
        with errors_New ("route inventory has invalid class " +:+ Quote (rt_Class r) +:+ " for "
                         +:+ rt_Method r +:+ " " +:+ rt_Path r) ;;
      fail_if existsb (String.eqb (route_key r)) seen
        with errors_New ("route inventory has duplicate route: " +:+ route_key r) ;;
      validate_routes (route_key r :: seen) routes'
  end.

Definition validateRouteInventory (routes : list routeSpec) : gores unit := validate_routes [] routes.

End Inventory.

Fixpoint classify (routes : list routeSpec) (method path : string) : string :=
  match routes with
  | [] => RouteClassDeprecatedDisabled
  | r :: routes' =>
      if String.eqb (rt_Method r) method && PathMatches (rt_Path r) path then rt_Class r
      else classify routes' method path
  end.

Definition classifyRoute (method path : string) : string := classify routeInventory method path.

(** ** Facts *)

Lemma PathMatches_literal pattern actual : Contains pattern "{" = false ->
  PathMatches pattern actual = true <-> pattern = actual.
Proof.
  intros H. unfold PathMatches. rewrite H. cbn [negb].
  destruct (String.eqb_spec pattern actual); [naive_solver|]. naive_solver.
Qed.

Lemma segments_match_spec pats acts : length pats = length acts ->
  segments_match pats acts = true <-> Forall2 (fun p a => segment_matches p a = true) pats acts.
Proof.
  revert acts. induction pats as [|p pats IH]; intros [|a acts] H; simpl in H; try done.
  cbn [segments_match]. rewrite andb_true_iff, Forall2_cons, IH by lia. done.
Qed.

(** What a path pattern means: equal paths, or segment by segment a parameter
    that is not empty or the same text. *)
Lemma PathMatches_spec pattern actual : PathMatches pattern actual = true <->
  pattern = actual \/ Contains pattern "{" = true
    /\ Forall2 (fun p a => segment_matches p a = true)
         (Split (trim_slashes pattern) slash) (Split (trim_slashes actual) slash).
Proof.
  unfold PathMatches. destruct (String.eqb_spec pattern actual) as [->|Hne]; [naive_solver|].
  destruct (Contains pattern "{"); cbn [negb]; [|naive_solver]. cbn zeta.
  destruct (Nat.eqb_spec (length (Split (trim_slashes pattern) slash))
              (length (Split (trim_slashes actual) slash))) as [E|E]; cbn [negb].
  - rewrite segments_match_spec by done. naive_solver.
  - split; [done|]. intros [?|[_ H]]; [done|]. by apply Forall2_length in H.
Qed.

(** The public routes, and the authenticated ones: their classes differ. *)
Definition public_request (m p : string) : Prop :=
  m = MethodGet /\ (p = Healthz \/ p = Metrics \/ p = Version).

Definition business_request (m p : string) : Prop :=
  exists ar, ar ∈ AuthenticatedRoutes /\ ar_Method ar = m /\ PathMatches (ar_Path ar) p = true.

Lemma classify_app r1 r2 m p : (forall r, r ∈ r1 -> rt_Method r = m -> PathMatches (rt_Path r) p = false) ->
  classify (r1 ++ r2) m p = classify r2 m p.
Proof.
  induction r1 as [|r r1 IH]; intros H; [done|]. cbn [app classify].
  destruct (String.eqb_spec (rt_Method r) m) as [E|]; cbn [andb].
  - rewrite (H r) by (by left || done). apply IH. intros r' Hr'. apply H. by right.
  - apply IH. intros r' Hr'. apply H. by right.
Qed.

Lemma classify_auth l m p :
  classify ((fun ar => mkRoute (ar_Method ar) (ar_Path ar) RouteClassAuthenticated) <$> l) m p
  = if existsb (fun ar => String.eqb (ar_Method ar) m && PathMatches (ar_Path ar) p) l
    then RouteClassAuthenticated else RouteClassDeprecatedDisabled.
Proof.
  induction l as [|ar l IH]; [done|]. rewrite fmap_cons. cbn [classify existsb rt_Method rt_Path rt_Class].
  destruct (String.eqb (ar_Method ar) m && PathMatches (ar_Path ar) p); [done|apply IH].
Qed.

Lemma public_dec m p : {public_request m p} + {~ public_request m p}.
Proof.
  unfold public_request. destruct (decide (m = MethodGet)) as [->|]; [|by right; intros []].
  destruct (decide (p = Healthz)); [by left; auto|]. destruct (decide (p = Metrics)); [by left; auto|].
  destruct (decide (p = Version)); [by left; auto|]. right. naive_solver.
Qed.

Lemma business_dec m p : {business_request m p} + {~ business_request m p}.
Proof.
  destruct (existsb (fun ar => String.eqb (ar_Method ar) m && PathMatches (ar_Path ar) p) AuthenticatedRoutes) eqn:E.
  - left. apply existsb_exists in E as (ar & Hin & [E1%String.eqb_eq E2]%andb_true_iff).
    exists ar. by rewrite list_elem_of_In.
  - right. intros (ar & Hin & E1 & E2). apply not_true_iff_false in E. apply E, existsb_exists. exists ar.
    rewrite <- list_elem_of_In. split; [done|]. rewrite E1, E2, String.eqb_refl. done.
Qed.

Lemma classify_cases m p :
  (classifyRoute m p = RouteClassPublicHealth <-> public_request m p)
  /\ (classifyRoute m p = RouteClassAuthenticated <-> business_request m p)
  /\ (classifyRoute m p = RouteClassDeprecatedDisabled
      <-> ~ public_request m p /\ ~ business_request m p).
Proof.
  assert (business_request m p <->
    existsb (fun ar => String.eqb (ar_Method ar) m && PathMatches (ar_Path ar) p) AuthenticatedRoutes = true) as Hb.
  { unfold business_request. rewrite existsb_exists. split.
    - intros (ar & Hin & E1 & E2). exists ar. rewrite <- list_elem_of_In. split; [done|].
      rewrite E1, E2, String.eqb_refl. done.
    - intros (ar & Hin & [E1%String.eqb_eq E2]%andb_true_iff). exists ar. by rewrite list_elem_of_In. }
  destruct (public_dec m p) as [Hp|Hp].
  - assert (classifyRoute m p = RouteClassPublicHealth /\ ~ business_request m p) as [-> Hnb].
    { rewrite Hb. destruct Hp as [-> [-> | [-> | ->]]]; split; vm_compute; congruence. }
    split_and!; split; try done; naive_solver.
  - assert (classifyRoute m p = if existsb (fun ar => String.eqb (ar_Method ar) m && PathMatches (ar_Path ar) p)
      AuthenticatedRoutes then RouteClassAuthenticated else RouteClassDeprecatedDisabled) as ->.
    { unfold classifyRoute, routeInventory, buildRouteInventory. rewrite classify_app, classify_auth; [done|].
      intros r Hr Hm. apply not_true_iff_false. intros Hpm. apply Hp. unfold public_request.
      rewrite !elem_of_cons, elem_of_nil in Hr.
      destruct Hr as [-> | [-> | [-> | []]]]; cbn [rt_Method rt_Path] in *;
        (apply PathMatches_literal in Hpm; [|done]); subst; tauto. }
    destruct (existsb _ _); split_and!; split; try done; naive_solver.
Qed.

(** The route inventory is consistent, and classification is closed: exactly
    the three GET requests for health, metrics and version are public, a request
    that matches one of the declared business routes needs authentication, and
    every other request is disabled. *)
Theorem classifyRoute_correct `{U : Unicode} m p :
  validateRouteInventory routeInventory = Ok tt
  /\ (classifyRoute m p = RouteClassPublicHealth <-> public_request m p)
  /\ (classifyRoute m p = RouteClassAuthenticated <-> business_request m p)
  /\ (classifyRoute m p = RouteClassDeprecatedDisabled
      <-> ~ public_request m p /\ ~ business_request m p).
Proof. split; [vm_compute; reflexivity|apply classify_cases]. Qed.

(** A parameter segment takes any text but the empty one, and no slash. *)
Example path_param : PathMatches CryptoPolicyByID "/api/cpm/v1/crypto-policies/pq-hybrid" = true
  /\ PathMatches CryptoPolicyByID "/api/cpm/v1/crypto-policies/" = false
  /\ PathMatches CryptoPolicyByID "/api/cpm/v1/crypto-policies/a/b" = false.
Proof. by vm_compute. Qed.
