(* ===== verification/Http.v ===== *)
(** * Requests and responses

    What the handlers of [internal/app] use of [net/http], the identifiers of
    requests ([auth_observability.go]) and the constants of
    [api_constants.go]. *)

From stdpp Require Import base gmap sets list strings.
From Stdlib Require Import Ascii ZArith NArith.
From S2P Require Import Prelude GoStrings GoUnicode Errors GoAny GoFloat GoTime PayloadHash PersistGate OwnerStore.
Local Open Scope string_scope.
Local Open Scope list_scope.

(** ** Bodies *)

(** The body of a request or of an upstream response.  A JSON document is kept
    as the value [encoding/json] reads, with the members of objects in document
    order and numbers as they are written. *)
Inductive body :=
| NoBody                        (** a nil [Body] *)
| Unreadable                    (** reading it fails *)
| EmptyBody
| NotJSON                       (** text that does not start with a JSON value *)
| Prefixed (v : any)            (** a JSON value and other text after it *)
| Document (v : any).

Record Request := mkRequest {
  rq_Method : string;
  rq_Path : string;
  rq_Host : string;
  rq_Header : list (string * string);    (** canonical names, first value *)
  rq_Query : list (string * string);
  rq_Body : body;
  rq_Principal : option Principal        (** the principal in the context *)
}.

Record Response := mkResponse {
  rs_Status : Z;
  rs_Body : option any
}.

(** [Header.Get] and [Query().Get]: the first value, empty when absent. *)
Fixpoint get_first (l : list (string * string)) (key : string) : string :=
  match l with
  | [] => EmptyString
  | (k, v) :: l' => if String.eqb k key then v else get_first l' key
  end.

Definition Header_Get (r : Request) (key : string) : string := get_first (rq_Header r) key.
Definition Query_Get (r : Request) (key : string) : string := get_first (rq_Query r) key.

(** ** Status codes *)

Definition StatusOK : Z := 200.
Definition StatusAccepted : Z := 202.
Definition StatusNoContent : Z := 204.
Definition StatusBadRequest : Z := 400.
Definition StatusUnauthorized : Z := 401.
Definition StatusForbidden : Z := 403.
Definition StatusNotFound : Z := 404.
Definition StatusConflict : Z := 409.
Definition StatusGone : Z := 410.
Definition StatusUnprocessableEntity : Z := 422.
Definition StatusInternalServerError : Z := 500.
Definition StatusServiceUnavailable : Z := 503.

(** ** Constants *)

Definition jsonKeyError : string := "error".
Definition jsonKeyMessage : string := "message".
Definition jsonKeyReason : string := "reason".
Definition jsonKeyDetails : string := "details".
Definition jsonKeyCode : string := "code".
Definition jsonKeyRequestID : string := "request_id".
Definition errMsgAuthenticationRequired : string := "authentication required".
Definition errMsgIDRequired : string := "id is required".
Definition errMsgNotFound : string := "not found".
Definition errMsgInternalServerError : string := "internal server error".
Definition errMsgWalletControlProofRequired : string :=
  "Persisting a Crypto Policy for a wallet requires a valid signed wallet authorization.".
Definition errMsgScanNotFound : string := "scan not found".
Definition errMsgScanAuthorizationUnavailable : string := "scan authorization unavailable".
Definition errCodeNotFound : string := "not_found".
Definition errCodeInternalError : string := "internal_error".
Definition errCodePersistenceUnavailable : string := "PERSISTENCE_UNAVAILABLE".
Definition authReasonPrincipalMissing : string := "principal_missing".
Definition authReasonScanIDMalformed : string := "scan_id_malformed".
Definition authReasonScanAuthFailed : string := "scan_authorization_request_failed".
Definition authReasonScanAuthBuildFailed : string := "scan_authorization_request_build_failed".
Definition authReasonScanAuthInvalidResponse : string := "scan_authorization_invalid_response".
Definition authReasonScanAuthDenied : string := "scan_authorization_denied".
Definition authReasonScanAuthURLNotConfigured : string := "scan_authorization_url_not_configured".
Definition authReasonScanAuthUpstreamUnauthorized : string := "scan_authorization_upstream_unauthorized".
Definition authReasonScanAuthUpstream5xx : string := "scan_authorization_upstream_5xx".
Definition authReasonScanAuthUnexpectedStatus : string := "scan_authorization_unexpected_status".
Definition errMsgScanIDMalformed : string := "scan_id is malformed".
Definition jwtAlgEdDSA : string := "EdDSA".
Definition jwtAlgMLDSA65 : string := "ML-DSA-65".

Definition authCodeUnauthenticated : string := "AUTH_UNAUTHENTICATED".
Definition authCodeValidationUnavailable : string := "AUTH_VALIDATION_UNAVAILABLE".
Definition authCodeScanIDMalformed : string := "AUTHZ_SCAN_ID_MALFORMED".
Definition authCodeScanIDConflict : string := "AUTHZ_SCAN_ID_CONFLICT".
Definition authCodeScanForbidden : string := "AUTHZ_SCAN_FORBIDDEN".
Definition authCodeScanUnavailable : string := "AUTHZ_SCAN_UNAVAILABLE".
Definition authCodeOwnerForbidden : string := "AUTHZ_OWNER_FORBIDDEN".
Definition authCodePrincipalRequired : string := "AUTHZ_PRINCIPAL_REQUIRED".

Definition reasonDetails (reason : string) : list (string * any) := [(jsonKeyReason, AString reason)].

Definition apiErrorJSON (code message : string) : any :=
  AMap [(jsonKeyError, AString code); (jsonKeyMessage, AString message)].

(** ** Request ids *)

Definition request_id_char (a : ascii) : bool :=
  let n := N_of_ascii a in
  ((65 <=? n)%N && (n <=? 90)%N) || ((97 <=? n)%N && (n <=? 122)%N) || ((48 <=? n)%N && (n <=? 57)%N)
  || Ascii.eqb a "." || Ascii.eqb a "_" || Ascii.eqb a ":" || Ascii.eqb a "-".

(** [requestIDAllowedPattern]: 1 to 128 of these characters. *)
Definition requestIDAllowedPattern_MatchString (s : string) : bool :=
  Nat.leb 1 (len s) && Nat.leb (len s) 128 && forallb request_id_char (String.list_ascii_of_string s).

Definition sanitizeRequestID (raw : string) : option string :=
  let value := TrimSpace raw in
  if negb (requestIDAllowedPattern_MatchString value) then None else Some value.

(** [generated] is the next id of the process's generator. *)
Definition ensureRequestID (generated : string) (r : Request) : string :=
  match sanitizeRequestID (Header_Get r "X-Request-Id") with
  | Some requestID => requestID
  | None => generated
  end.

(** [r.Header.Set]. *)
Definition Header_Set (r : Request) (key value : string) : Request :=
  mkRequest (rq_Method r) (rq_Path r) (rq_Host r)
    ((key, value) :: base.filter (fun kv => fst kv <> key) (rq_Header r)) (rq_Query r) (rq_Body r) (rq_Principal r).

(** The id is put back into the request, where later handlers find it. *)
Definition with_request_id (requestID : string) (r : Request) : Request := Header_Set r "X-Request-Id" requestID.

Lemma get_first_filter (l : list (string * string)) key k : k <> key ->
  get_first (base.filter (fun kv => fst kv <> key) l) k = get_first l k.
Proof.
  intros Hk. induction l as [|[k' v] l IH]; [done|].
  destruct (decide (k' = key)) as [->|Hne].
  - rewrite filter_cons_False by naive_solver. cbn [get_first]. destruct (String.eqb_spec key k); congruence.
  - rewrite filter_cons_True by done. cbn [get_first]. by rewrite IH.
Qed.

Lemma Header_Get_Set r key value k :
  Header_Get (Header_Set r key value) k = if String.eqb key k then value else Header_Get r k.
Proof.
  unfold Header_Get. cbn. destruct (String.eqb_spec key k); [done|]. by apply get_first_filter.
Qed.

(** The ids the process generates. *)
Definition requestIDGen (unixNano : Z) (seq : Z) : string :=
  "req_" +:+ FormatInt unixNano +:+ "_" +:+ FormatInt seq.

Lemma requestIDGen_trimmed unixNano seq : trimmed (requestIDGen unixNano seq).
Proof.
  apply all_solid_trimmed. unfold requestIDGen.
  repeat first [apply FormatInt_all_solid | by repeat constructor | apply all_solid_app].
Qed.

(** A request keeps the id it was given. *)
Lemma ensureRequestID_again generated r : trimmed generated ->
  ensureRequestID generated (with_request_id (ensureRequestID generated r) r) = ensureRequestID generated r.
Proof.
  intros Hg. unfold ensureRequestID at 1, with_request_id. rewrite Header_Get_Set, String.eqb_refl.
  unfold ensureRequestID, sanitizeRequestID. cbn zeta.
  destruct (requestIDAllowedPattern_MatchString (TrimSpace (Header_Get r "X-Request-Id"))) eqn:E; cbn [negb].
  - by rewrite TrimSpace_idem, E.
  - rewrite Hg. by destruct (negb _).
Qed.

(** ** Answers *)

Definition writeJSON (status : Z) (payload : any) : Response := mkResponse status (Some payload).

Definition authErrorPayload (code message : string) (details : list (string * any)) (requestID : string) : any :=
  AMap [(jsonKeyCode, AString code); (jsonKeyMessage, AString message); (jsonKeyDetails, AMap details);
        (jsonKeyRequestID, AString requestID)].

Definition writeAuthError (requestID : string) (status : Z) (code message : string)
    (details : list (string * any)) : Response :=
  mkResponse status (Some (authErrorPayload code message details requestID)).

Definition writeWalletAuthorizationError (requestID : string) (status : Z) (code message : string) : Response :=
  writeAuthError requestID status code message [].

(** ** Decoding documents into structs *)

Section DecodeDocument.
Context `{U : Unicode, F : GoFloat}.

(** As [dec_struct], the members in document order. *)
Definition dec_document {A} (fields : list (string * decoder A)) : decoder A := fun v old =>
  match v with
  | AMap l => foldl (assign_member fields) (Some old) l
  | ANil => Some old
  | _ => None
  end.

(** An int64 field: the literal must be an integer in range. *)
Definition dec_int64 : decoder Z := fun v old =>
  match v with
  | ANumber s => ParseInt s
  | ANil => Some old
  | _ => None
  end.

(** A [json.RawMessage] field holds the value, null included. *)
Definition dec_raw : decoder (option any) := fun v _ => Some (Some v).

(** A [map[string]any] field. *)
Definition dec_map : decoder (option (list (string * any))) := fun v old =>
  match v with
  | AMap l =>
      match mapM interface_member l with
      | Ok m => Some (Some (foldl set_member (default [] old) m))
      | Err _ => None
      end
  | ANil => Some None
  | _ => None
  end.

(** [json.NewDecoder(r.Body).Decode(&v)] reads the first value and leaves what
    follows it unread. *)
Definition decode_stream {A} (fields : list (string * decoder A)) (b : body) (zero : A) : option A :=
  match b with
  | Document v | Prefixed v => dec_document fields v zero
  | _ => None
  end.

(** [json.Unmarshal]: the whole text is one document. *)
Definition decode_body {A} (fields : list (string * decoder A)) (b : body) (zero : A) : option A :=
  match b with
  | Document v => dec_document fields v zero
  | _ => None
  end.

(** *** Member names in ASCII *)

Definition ascii_text (s : string) : bool := forallb (fun a => (N_of_ascii a <? 128)%N) (String.list_ascii_of_string s).

Lemma ascii_text_is s : ascii_text s = true -> is_ascii s.
Proof.
  unfold ascii_text, is_ascii. rewrite forallb_forall, Forall_forall. intros H x Hx.
  apply N.ltb_lt, H. by apply list_elem_of_In.
Qed.

Lemma to_utf8_ascii s : is_ascii s -> to_utf8 s = s.
Proof.
  intros H. unfold to_utf8. rewrite runes_ascii, string_of_runes_ascii by (done || by apply bytes_of_ascii).
  apply string_of_bytes_of.
Qed.

Lemma all_solid_ascii s : all_solid s -> is_ascii s.
Proof.
  intros H. unfold is_ascii. eapply Forall_impl; [exact H|]. intros a Ha. simpl in Ha. unfold solid in Ha.
  apply andb_true_iff in Ha as [_ Ha]. by apply N.ltb_lt.
Qed.

(** A member of an ASCII name reaches the field of that name, whatever the
    character data. *)
Definition ascii_field {A} (fields : list (string * decoder A)) (key : string) : option (decoder A) :=
  snd <$> find (fun f => ascii_EqualFold key (fst f)) fields.

Definition ascii_fields {A} (fields : list (string * decoder A)) : bool := forallb (ascii_text ∘ fst) fields.

Lemma find_field_ascii {A} (fields : list (string * decoder A)) key :
  ascii_fields fields = true -> ascii_text key = true -> find_field fields key = ascii_field fields key.
Proof.
  intros Hf Hk. unfold find_field, ascii_field. f_equal.
  induction fields as [|f fields IH]; [done|]. simpl in Hf. apply andb_true_iff in Hf as [H1 H2].
  simpl. rewrite EqualFold_ascii, IH by (done || by apply ascii_text_is). done.
Qed.

Lemma assign_ascii {A} (fields : list (string * decoder A)) a k v :
  ascii_fields fields = true -> ascii_text k = true ->
  assign_member fields (Some a) (k, v)
  = match ascii_field fields k with None => Some a | Some d => d v a end.
Proof.
  intros Hf Hk. unfold assign_member. simpl. by rewrite to_utf8_ascii, find_field_ascii by (done || by apply ascii_text_is).
Qed.

End DecodeDocument.


(** Assigns the next member, whose name is an ASCII constant, to its field. *)
Tactic Notation "decode_member" reference(fields) :=
  rewrite assign_ascii by reflexivity;
  match goal with
  | |- context [ascii_field ?F ?k] =>
      let f := fresh "f" in
      set (f := ascii_field F k); unfold ascii_field, fields in f; cbn [find fst snd] in f;
      repeat match goal with
      | f := context [ascii_EqualFold ?a ?b] |- _ =>
          let v := eval vm_compute in (ascii_EqualFold a b) in change (ascii_EqualFold a b) with v in f; cbv iota in f
      end;
      cbn [fmap option_fmap option_map snd] in f; subst f
  end;
  cbn [fmap option_fmap option_map snd field dec_string].

(** The text of the error when a body does not decode into a Go type. *)
Class JsonErrors := { json_error : string -> body -> string }.

#[global] Instance quiet_JsonErrors : JsonErrors :=
  {| json_error := fun type _ => "json: cannot unmarshal into Go value of type " +:+ type |}.

Section Unmarshal.
Context `{U : Unicode, F : GoFloat, JE : JsonErrors}.

(** [json.Unmarshal(raw, &v)] into a struct of the given type, from its zero
    value. *)
Definition Unmarshal {A} (type : string) (fields : list (string * decoder A)) (zero : A) (b : body) : gores A :=
  match decode_body fields b zero with
  | Some a => Ok a
  | None => Err (errors_New (json_error type b))
  end.

(** Into a [map[string]json.RawMessage]: the members, null as an empty map. *)
Definition Unmarshal_members (b : body) : gores (list (string * any)) :=
  match b with
  | Document (AMap l) => Ok l
  | Document ANil => Ok []
  | _ => Err (errors_New (json_error "map[string]json.RawMessage" b))
  end.

(** Into a string. *)
Definition Unmarshal_string (v : any) : gores string :=
  match dec_string v EmptyString with
  | Some s => Ok s
  | None => Err (errors_New (json_error "string" (Document v)))
  end.

(** The same with the error ignored. *)
Definition Unmarshal_string_quietly (v : any) : string := default EmptyString (dec_string v EmptyString).

(** A pointer field: null empties it. *)
Definition dec_pointer {A} (d : decoder A) (zero : A) : decoder (option A) := fun v old =>
  match v with
  | ANil => Some None
  | _ => Some <$> d v (default zero old)
  end.

Lemma Unmarshal_ok {A} type (fields : list (string * decoder A)) zero b a :
  Unmarshal type fields zero b = Ok a <-> decode_body fields b zero = Some a.
Proof. unfold Unmarshal. destruct (decode_body fields b zero); naive_solver. Qed.

End Unmarshal.

(** ** Iteration over maps *)

(** The order in which a [range] statement visits the keys of a Go map. *)
Class GoRange := {
  range_keys : list string -> list string;
  range_keys_perm : forall l, range_keys l ≡ₚ l
}.

#[global] Instance insertion_GoRange : GoRange := {| range_keys := fun l => l; range_keys_perm := fun l => reflexivity l |}.

(** The first key visited of a decoded object that satisfies a predicate. *)
Definition first_key `{GR : GoRange} (p : string -> bool) (l : list (string * any)) : option string :=
  find p (range_keys (remove_dups (fst <$> l))).

Lemma first_key_None `{GR : GoRange} p l : first_key p l = None <-> Forall (fun kv => p (fst kv) = false) l.
Proof.
  unfold first_key. rewrite Forall_forall. split.
  - intros H kv Hkv. eapply find_none in H; [exact H|]. apply list_elem_of_In. rewrite range_keys_perm, elem_of_remove_dups.
    by apply list_elem_of_fmap_2.
  - intros H. destruct (find _ _) as [k|] eqn:E; [|done]. apply find_some in E as [Hk Hp].
    apply list_elem_of_In in Hk. rewrite range_keys_perm, elem_of_remove_dups in Hk.
    apply list_elem_of_fmap in Hk as (kv & -> & Hkv). rewrite (H kv Hkv) in Hp. done.
Qed.

(** ** Status of an upstream call *)

(** A call to another service: it fails, or it answers a status and a body. *)
Inductive upstream :=
| CallFailed
| Answer (status : Z) (b : body).
