(* ===== verification/Json.v ===== *)
(** * JSON texts

    The grammar that [encoding/json] reads: whitespace, literals, numbers,
    strings with their escapes, arrays and objects nested up to the limit of the
    scanner.  A text becomes the document of [Http.body]: members stay in the
    order of the text, numbers keep their literal, a string is what [unquote]
    makes of it.  The functions run on fuel; the theorems show that twice the
    length of the text is always enough, that a text cut short reads as no value or
    as the object that was complete, and that the text [json.Marshal] writes reads
    back as the value it was made from. *)

From stdpp Require Import base gmap sets list strings sorting.
From Stdlib Require Import Ascii ZArith Lia DecimalString DecimalN.
From Stdlib Require DecimalFacts.
From S2P Require Import Prelude GoStrings GoUnicode Errors GoAny GoFloat PayloadHash PersistGate OwnerStore Http.
Local Open Scope string_scope.
Local Open Scope list_scope.
Local Open Scope N_scope.

(** ** Tokens *)

Definition is_space (c : N) : bool := (c =? 32) || (c =? 9) || (c =? 13) || (c =? 10).

Fixpoint skip_ws (l : list N) : list N :=
  match l with
  | c :: t => if is_space c then skip_ws t else l
  | [] => []
  end.

(** The byte [c] after whitespace: what follows it. *)
Definition eat (c : N) (l : list N) : option (list N) :=
  match skip_ws l with
  | x :: t => if x =? c then Some t else None
  | [] => None
  end.

(** The bytes of a literal: what follows them. *)
Fixpoint strip (lit l : list N) : option (list N) :=
  match lit, l with
  | [], _ => Some l
  | c :: lit', x :: t => if x =? c then strip lit' t else None
  | _ :: _, [] => None
  end.

Definition digit (c : N) : bool := (48 <=? c) && (c <=? 57).

Fixpoint span_digits (l : list N) : list N * list N :=
  match l with
  | c :: t => if digit c then let '(d, r) := span_digits t in (c :: d, r) else ([], l)
  | [] => ([], [])
  end.

(** At least one digit. *)
Definition some_digits (l : list N) : option (list N * list N) :=
  match span_digits l with ([], _) => None | dr => Some dr end.

(** The integer part: no leading zero. *)
Definition scan_int (l : list N) : option (list N * list N) :=
  match l with
  | c :: t => if c =? 48 then Some ([c], t) else some_digits l
  | [] => None
  end.

Definition scan_frac (l : list N) : option (list N * list N) :=
  match l with
  | c :: t => if c =? 46 then '(d, r) ← some_digits t; Some (c :: d, r) else Some ([], l)
  | [] => Some ([], [])
  end.

Definition scan_exp (l : list N) : option (list N * list N) :=
  match l with
  | c :: t =>
      if (c =? 101) || (c =? 69) then
        match t with
        | s :: t' =>
            if (s =? 43) || (s =? 45) then '(d, r) ← some_digits t'; Some (c :: s :: d, r)
            else '(d, r) ← some_digits t; Some (c :: d, r)
        | [] => None
        end
      else Some ([], l)
  | [] => Some ([], [])
  end.

Definition scan_unsigned (l : list N) : option (list N * list N) :=
  '(i, r1) ← scan_int l;
  '(f, r2) ← scan_frac r1;
  '(e, r3) ← scan_exp r2;
  Some (i ++ f ++ e, r3).

(** A number: its literal and what follows. *)
Definition scan_number (l : list N) : option (list N * list N) :=
  match l with
  | c :: t => if c =? 45 then '(d, r) ← scan_unsigned t; Some (c :: d, r) else scan_unsigned l
  | [] => None
  end.

(** *** Strings *)

Definition hex_value (c : N) : option N :=
  if (48 <=? c) && (c <=? 57) then Some (c - 48)
  else if (97 <=? c) && (c <=? 102) then Some (c - 87)
  else if (65 <=? c) && (c <=? 70) then Some (c - 55)
  else None.

Definition hex4 (a b c d : N) : option N :=
  x ← hex_value a; y ← hex_value b; z ← hex_value c; w ← hex_value d;
  Some (((x * 16 + y) * 16 + z) * 16 + w).

(** The one-letter escapes and what they stand for. *)
Definition simple_escape (e : N) : option N :=
  if (e =? 34) || (e =? 92) || (e =? 47) then Some e
  else if e =? 98 then Some 8
  else if e =? 102 then Some 12
  else if e =? 110 then Some 10
  else if e =? 114 then Some 13
  else if e =? 116 then Some 9
  else None.

(** The body of a string up to its closing quote, escapes included: the scanner
    refuses control characters and unknown escapes. *)
Fixpoint scan_string (l : list N) : option (list N * list N) :=
  match l with
  | [] => None
  | c :: t =>
      if c =? 34 then Some ([], t)
      else if c =? 92 then
        match t with
        | e :: t1 =>
            if bool_decide (is_Some (simple_escape e)) then '(b, r) ← scan_string t1; Some (c :: e :: b, r)
            else if e =? 117 then
              match t1 with
              | h1 :: h2 :: h3 :: h4 :: t2 =>
                  if bool_decide (is_Some (hex4 h1 h2 h3 h4))
                  then '(b, r) ← scan_string t2; Some (c :: e :: h1 :: h2 :: h3 :: h4 :: b, r)
                  else None
              | _ => None
              end
            else None
        | [] => None
        end
      else if c <? 32 then None
      else '(b, r) ← scan_string t; Some (c :: b, r)
  end.

Definition is_surrogate (r : N) : bool := (0xD800 <=? r) && (r <=? 0xDFFF).

(** [utf16.DecodeRune]. *)
Definition surrogate_pair (r1 r2 : N) : option N :=
  if (0xD800 <=? r1) && (r1 <=? 0xDBFF) && (0xDC00 <=? r2) && (r2 <=? 0xDFFF)
  then Some ((r1 - 0xD800) * 1024 + (r2 - 0xDC00) + 0x10000) else None.

(** The value of four hexadecimal digits that the scanner let through. *)
Definition unit_value (a b c d : rchunk) : N :=
  default RuneError (hex4 (rune_of a) (rune_of b) (rune_of c) (rune_of d)).

(** [unquote]: the runes of the body of a string.  A surrogate without its half
    and a byte that is not UTF-8 read as U+FFFD. *)
Fixpoint unquote (cs : list rchunk) : list N :=
  match cs with
  | [] => []
  | c :: cs1 =>
      if rune_of c =? 92 then
        match cs1 with
        | [] => []
        | e :: cs2 =>
            if rune_of e =? 117 then
              match cs2 with
              | h1 :: h2 :: h3 :: h4 :: cs3 =>
                  let r1 := unit_value h1 h2 h3 h4 in
                  if is_surrogate r1 then
                    match cs3 with
                    | b :: u :: k1 :: k2 :: k3 :: k4 :: cs4 =>
                        match (if (rune_of b =? 92) && (rune_of u =? 117)
                               then surrogate_pair r1 (unit_value k1 k2 k3 k4) else None) with
                        | Some r => r :: unquote cs4
                        | None => RuneError :: unquote cs3
                        end
                    | _ => RuneError :: unquote cs3
                    end
                  else r1 :: unquote cs3
              | _ => []
              end
            else default RuneError (simple_escape (rune_of e)) :: unquote cs2
        end
      else rune_of c :: unquote cs1
  end.

Definition string_value (b : list N) : string := string_of_runes (unquote (utf8_decode b)).

(** ** Values *)

(** The scanner's limit on open arrays and objects. *)
Definition max_nesting_depth : N := 10000.

Inductive parse_result (A : Type) : Type :=
| Parsed (a : A) (rest : list N)
| Malformed
| OutOfFuel.
Arguments Parsed {A} a rest.
Arguments Malformed {A}.
Arguments OutOfFuel {A}.

Definition parse_map {A B} (f : A -> B) (p : parse_result A) : parse_result B :=
  match p with Parsed a r => Parsed (f a) r | Malformed => Malformed | OutOfFuel => OutOfFuel end.

Definition of_option {A} (o : option (A * list N)) : parse_result A :=
  match o with Some (a, r) => Parsed a r | None => Malformed end.

(** [true], [false] and [null] after their first letter. *)
Definition parse_literal (c : N) (t : list N) : option (any * list N) :=
  if c =? 116 then pair (ABool true) <$> strip (bytes_of "rue") t
  else if c =? 102 then pair (ABool false) <$> strip (bytes_of "alse") t
  else if c =? 110 then pair ANil <$> strip (bytes_of "ull") t
  else None.

(** A value that is not an array or an object. *)
Definition parse_scalar (l : list N) : option (any * list N) :=
  match l with
  | c :: t =>
      if c =? 34 then '(b, r) ← scan_string t; Some (AString (string_value b), r)
      else if (c =? 45) || digit c then '(d, r) ← scan_number l; Some (ANumber (string_of_bytes d), r)
      else parse_literal c t
  | [] => None
  end.

Fixpoint parse_value (fuel : nat) (depth : N) (l : list N) {struct fuel} : parse_result any :=
  match fuel with
  | O => OutOfFuel
  | S f =>
      match eat 123 l with
      | Some t =>
          if max_nesting_depth <=? depth then Malformed
          else match eat 125 t with
               | Some r => Parsed (AMap []) r
               | None => parse_map AMap (parse_members f (depth + 1) t)
               end
      | None =>
          match eat 91 l with
          | Some t =>
              if max_nesting_depth <=? depth then Malformed
              else match eat 93 t with
                   | Some r => Parsed (ASlice []) r
                   | None => parse_map ASlice (parse_elements f (depth + 1) t)
                   end
          | None => of_option (parse_scalar (skip_ws l))
          end
      end
  end
with parse_elements (fuel : nat) (depth : N) (l : list N) {struct fuel} : parse_result (list any) :=
  match fuel with
  | O => OutOfFuel
  | S f =>
      match parse_value f depth l with
      | Parsed v r =>
          match eat 44 r with
          | Some r' => parse_map (cons v) (parse_elements f depth r')
          | None => of_option (pair [v] <$> eat 93 r)
          end
      | Malformed => Malformed
      | OutOfFuel => OutOfFuel
      end
  end
with parse_members (fuel : nat) (depth : N) (l : list N) {struct fuel} : parse_result (list (string * any)) :=
  match fuel with
  | O => OutOfFuel
  | S f =>
      match (t ← eat 34 l; '(b, r) ← scan_string t; r' ← eat 58 r; Some (string_value b, r')) with
      | None => Malformed
      | Some (k, r) =>
          match parse_value f depth r with
          | Parsed v r' =>
              match eat 44 r' with
              | Some r'' => parse_map (cons (k, v)) (parse_members f depth r'')
              | None => of_option (pair [(k, v)] <$> eat 125 r')
              end
          | Malformed => Malformed
          | OutOfFuel => OutOfFuel
          end
      end
  end.

(** Enough for any text of that length. *)
Definition text_fuel (l : list N) : nat := (2 * length l + 1)%nat.

(** The first value of a text, and the rest. *)
Definition read_value (s : string) : parse_result any :=
  let l := bytes_of s in parse_value (text_fuel l) 0 l.

(** The whole text is one value. *)
Definition text_value (s : string) : option any :=
  match read_value s with
  | Parsed v r => match skip_ws r with [] => Some v | _ => None end
  | _ => None
  end.

(** A text as the body of a request or of an answer. *)
Definition body_of_text (s : string) : body :=
  if is_empty s then EmptyBody
  else match read_value s with
       | Parsed v r => match skip_ws r with [] => Document v | _ => Prefixed v end
       | _ => NotJSON
       end.

(** ** Termination *)

Lemma skip_ws_length l : (length (skip_ws l) <= length l)%nat.
Proof. induction l as [|c l IH]; simpl; [done|]. destruct (is_space c); simpl; lia. Qed.

Lemma eat_length c l r : eat c l = Some r -> (length r < length l)%nat.
Proof.
  unfold eat. pose proof (skip_ws_length l). destruct (skip_ws l) as [|x t]; [done|].
  destruct (x =? c); [|done]. intros [= <-]. simpl in *. lia.
Qed.

Lemma strip_length lit l r : strip lit l = Some r -> (length r <= length l)%nat.
Proof.
  revert l. induction lit as [|c lit IH]; intros l; [intros [= <-]; lia|]. destruct l as [|x l]; simpl; [done|].
  destruct (x =? c); [|done]. intros H%IH. lia.
Qed.

Lemma span_digits_split l d r : span_digits l = (d, r) -> l = d ++ r.
Proof.
  revert d r. induction l as [|c l IH]; intros d r; simpl; [by intros [= <- <-]|].
  destruct (digit c); [|by intros [= <- <-]]. destruct (span_digits l) as [d' r'].
  intros [= <- <-]. simpl. f_equal. by apply IH.
Qed.

Lemma some_digits_app l d r : some_digits l = Some (d, r) -> l = d ++ r /\ d <> [].
Proof.
  unfold some_digits. destruct (span_digits l) as [[|x d'] r'] eqn:E; [done|].
  intros [= <- <-]. split; [by apply span_digits_split|done].
Qed.

(** Takes a scanner apart into its steps. *)
Ltac scan_steps :=
  repeat match goal with
  | H : Some _ = Some _ |- _ => injection H as H; subst
  | H : None = Some _ |- _ => discriminate H
  | H : (if ?b then _ else _) = Some _ |- _ => let E := fresh "E" in destruct b eqn:E
  | H : mbind _ ?o = Some _ |- _ => let p := fresh "p" in let E := fresh "E" in
      destruct o as [p|] eqn:E; [cbn [mbind option_bind] in H|discriminate H]
  | H : (let '(_, _) := ?p in _) = Some _ |- _ => destruct p
  | H : (match ?l with [] => _ | _ :: _ => _ end) = Some _ |- _ => is_var l; destruct l
  | H : some_digits _ = Some (_, _) |- _ => apply some_digits_app in H as [? ?]; subst
  end.

Lemma scan_int_app l d r : scan_int l = Some (d, r) -> l = d ++ r /\ d <> [].
Proof. unfold scan_int. intros H. scan_steps; done. Qed.

Lemma scan_frac_app l d r : scan_frac l = Some (d, r) -> l = d ++ r.
Proof. unfold scan_frac. intros H. scan_steps; done. Qed.

Lemma scan_exp_app l d r : scan_exp l = Some (d, r) -> l = d ++ r.
Proof.
  unfold scan_exp. intros H. scan_steps; try done;
    match goal with H : _ = _ ++ _ |- _ => rewrite H end; done.
Qed.

Lemma scan_unsigned_app l d r : scan_unsigned l = Some (d, r) -> l = d ++ r /\ d <> [].
Proof.
  unfold scan_unsigned. intros H. scan_steps.
  match goal with H : scan_int _ = _ |- _ => apply scan_int_app in H as [-> Hd] end.
  match goal with H : scan_frac _ = _ |- _ => apply scan_frac_app in H as -> end.
  match goal with H : scan_exp _ = _ |- _ => apply scan_exp_app in H as -> end.
  rewrite <- !app_assoc. split; [done|]. by destruct l0.
Qed.

Lemma scan_number_app l d r : scan_number l = Some (d, r) -> l = d ++ r /\ d <> [].
Proof.
  unfold scan_number. intros H. destruct l as [|c t]; [done|]. destruct (c =? 45); [|by apply scan_unsigned_app].
  scan_steps. match goal with H : scan_unsigned _ = _ |- _ => apply scan_unsigned_app in H as [-> _] end. done.
Qed.

Lemma scan_string_length l : forall b r, scan_string l = Some (b, r) -> (length r < length l)%nat.
Proof.
  induction l as [l IH] using (induction_ltof1 _ (@length N)). unfold ltof in IH. intros b r.
  destruct l as [|c t]; [done|]. cbn [scan_string]. intros H.
  destruct (c =? 34); [injection H as _ <-; simpl; lia|].
  destruct (c =? 92).
  - destruct t as [|e t1]; [done|]. destruct (bool_decide _).
    + scan_steps. match goal with H : scan_string t1 = _ |- _ => apply IH in H end; simpl in *; lia.
    + destruct (e =? 117); [|done]. destruct t1 as [|h1 [|h2 [|h3 [|h4 t2]]]]; try done.
      scan_steps. match goal with H : scan_string t2 = _ |- _ => apply IH in H end; simpl in *; lia.
  - destruct (c <? 32); [done|]. scan_steps.
    match goal with H : scan_string t = _ |- _ => apply IH in H end; simpl in *; lia.
Qed.

Lemma parse_scalar_length l v r : parse_scalar l = Some (v, r) -> (length r < length l)%nat.
Proof.
  destruct l as [|c t]; [done|]. cbn [parse_scalar]. intros H. destruct (c =? 34).
  { scan_steps. match goal with H : scan_string _ = _ |- _ => apply scan_string_length in H end. simpl. lia. }
  destruct ((c =? 45) || digit c).
  { destruct (scan_number (c :: t)) as [[d r']|] eqn:E; [|done]. injection H as _ <-.
    apply scan_number_app in E as [-> Hd]. rewrite length_app. destruct d; [done|simpl; lia]. }
  unfold parse_literal in H.
  repeat (destruct (_ =? _); [apply fmap_Some in H as (r' & Hs & [= _ <-]); apply strip_length in Hs; simpl; lia|]).
  done.
Qed.

(** What a parser owes with enough fuel: an answer, and progress. *)
Definition settled {A} (p : parse_result A) (l : list N) : Prop :=
  match p with Parsed _ r => (length r < length l)%nat | Malformed => True | OutOfFuel => False end.

Lemma settled_map {A B} (f : A -> B) p l l' :
  settled p l' -> (length l' <= length l)%nat -> settled (parse_map f p) l.
Proof. destruct p; simpl; [lia|done..]. Qed.

Lemma settled_option {A} (o : option (A * list N)) l :
  (forall a r, o = Some (a, r) -> (length r < length l)%nat) -> settled (of_option o) l.
Proof. intros H. destruct o as [[a r]|]; [by eapply H|done]. Qed.

Lemma parse_settled fuel :
  (forall depth l, (2 * length l + 1 <= fuel)%nat -> settled (parse_value fuel depth l) l)
  /\ (forall depth l, (2 * length l + 2 <= fuel)%nat -> settled (parse_elements fuel depth l) l)
  /\ (forall depth l, (2 * length l + 2 <= fuel)%nat -> settled (parse_members fuel depth l) l).
Proof.
  induction fuel as [|f (IHv & IHe & IHm)]; [split_and!; intros; lia|]. split_and!; intros depth l Hf.
  - cbn [parse_value]. destruct (eat 123 l) as [t|] eqn:E1.
    { apply eat_length in E1. destruct (_ <=? _); [done|]. destruct (eat 125 t) eqn:E2.
      - apply eat_length in E2. simpl. lia.
      - eapply settled_map; [apply IHm|]; lia. }
    destruct (eat 91 l) as [t|] eqn:E2.
    { apply eat_length in E2. destruct (_ <=? _); [done|]. destruct (eat 93 t) eqn:E3.
      - apply eat_length in E3. simpl. lia.
      - eapply settled_map; [apply IHe|]; lia. }
    apply settled_option. intros v r Hs%parse_scalar_length. pose proof (skip_ws_length l). lia.
  - cbn [parse_elements]. assert (Hv := IHv depth l ltac:(lia)).
    destruct (parse_value f depth l) as [v r| |]; [|done..]. simpl in Hv.
    destruct (eat 44 r) as [r'|] eqn:E.
    + apply eat_length in E. eapply settled_map; [apply IHe|]; lia.
    + apply settled_option. intros a r' H. apply fmap_Some in H as (? & Hs & [= _ <-]). apply eat_length in Hs. lia.
  - cbn [parse_members]. destruct (mbind _ (eat 34 l)) as [[k r]|] eqn:E; [|done].
    apply bind_Some in E as (t & Et%eat_length & E). apply bind_Some in E as ([b r1] & Es%scan_string_length & E).
    apply bind_Some in E as (r2 & Er%eat_length & [= _ <-]).
    assert (Hv := IHv depth r2 ltac:(lia)). destruct (parse_value f depth r2) as [v r3| |]; [|done..]. simpl in Hv.
    destruct (eat 44 r3) as [r'|] eqn:E.
    + apply eat_length in E. eapply settled_map; [apply IHm|]; lia.
    + apply settled_option. intros a r' H. apply fmap_Some in H as (? & Hs & [= _ <-]). apply eat_length in Hs. lia.
Qed.

(** More fuel does not change an answer. *)
Definition kept {A} (p q : parse_result A) : Prop := p = OutOfFuel \/ q = p.

Lemma kept_map {A B} (f : A -> B) p q : kept p q -> kept (parse_map f p) (parse_map f q).
Proof. intros [->| ->]; [by left|by right]. Qed.

Lemma parse_kept fuel :
  (forall depth l, kept (parse_value fuel depth l) (parse_value (S fuel) depth l))
  /\ (forall depth l, kept (parse_elements fuel depth l) (parse_elements (S fuel) depth l))
  /\ (forall depth l, kept (parse_members fuel depth l) (parse_members (S fuel) depth l)).
Proof.
  induction fuel as [|f (IHv & IHe & IHm)]; [split_and!; intros; by left|].
  split_and!; intros depth l.
  - remember (S f) as g. rewrite Heqg at 1. cbn [parse_value]. subst g.
    repeat case_match; try (by right); apply kept_map; auto.
  - remember (S f) as g. rewrite Heqg at 1. cbn [parse_elements]. subst g.
    destruct (IHv depth l) as [->| ->]; [by left|].
    destruct (parse_value f depth l); [|by right..]. case_match; [|by right]. by apply kept_map.
  - remember (S f) as g. rewrite Heqg at 1. cbn [parse_members]. subst g.
    case_match; [|by right]. destruct p as [k r].
    destruct (IHv depth r) as [->| ->]; [by left|].
    destruct (parse_value f depth r); [|by right..]. case_match; [|by right]. by apply kept_map.
Qed.


(** ** Strings that [json.Marshal] wrote *)

Lemma bytes_of_app a b : bytes_of (a +:+ b) = bytes_of a ++ bytes_of b.
Proof.
  unfold bytes_of. rewrite <- fmap_app. f_equal. induction a as [|c a IH]; [done|].
  change (String c a +:+ b) with (String c (a +:+ b)). cbn [String.list_ascii_of_string]. by rewrite IH.
Qed.

Definition hex_byte (d : N) : N := if d <? 10 then 48 + d else 87 + d.

Lemma hex_digit_byte d : d < 16 -> N_of_ascii (hex_digit d) = hex_byte d.
Proof.
  intros Hd. unfold hex_digit, hex_byte. apply N_ascii_embedding. destruct (d <? 10); lia.
Qed.

Lemma hex_value_byte d : d < 16 -> hex_value (hex_byte d) = Some d.
Proof. intros Hd. unfold hex_value, hex_byte. rune_cases || (repeat case_match; rewrite ?andb_true_iff, ?andb_false_iff, ?N.leb_le, ?N.leb_gt, ?N.ltb_lt, ?N.ltb_ge in *; f_equal; lia). Qed.

(** The four digits of an escape. *)
Definition hex4_bytes (r : N) : list N :=
  [hex_byte (r / 16 / 16 / 16 mod 16); hex_byte (r / 16 / 16 mod 16); hex_byte (r / 16 mod 16); hex_byte (r mod 16)].

Lemma hex_digits_4 r : bytes_of (hex_digits 4 r) = hex4_bytes r.
Proof.
  cbn [hex_digits]. rewrite !bytes_of_app. unfold bytes_of, hex4_bytes.
  cbn [String.list_ascii_of_string fmap list_fmap app]. by rewrite !hex_digit_byte by (apply N.mod_lt; lia).
Qed.

Lemma hex4_back r : r < 65536 ->
  match hex4_bytes r with [a; b; c; d] => hex4 a b c d = Some r | _ => False end.
Proof.
  intros Hr. unfold hex4_bytes, hex4. rewrite !hex_value_byte by (apply N.mod_lt; lia). cbn [mbind option_bind].
  f_equal. assert (r / 16 / 16 / 16 < 16) by (rewrite !N.Div0.div_div; apply N.Div0.div_lt_upper_bound; lia).
  rewrite (N.mod_small (r / 16 / 16 / 16)) by done.
  pose proof (N.div_mod' r 16). pose proof (N.div_mod' (r / 16) 16). pose proof (N.div_mod' (r / 16 / 16) 16). lia.
Qed.

Lemma hex_byte_ascii d : d < 16 -> hex_byte d < 128.
Proof. unfold hex_byte. destruct (d <? 10); lia. Qed.

Lemma hex4_bytes_ascii r : Forall (fun b => b < 128) (hex4_bytes r).
Proof. unfold hex4_bytes. repeat constructor; apply hex_byte_ascii, N.mod_lt; lia. Qed.

Lemma decode_ascii a l : Forall (fun b => b < 128) a -> utf8_decode (a ++ l) = (RValid <$> a) ++ utf8_decode l.
Proof. induction 1 as [|x a Hx _ IH]; [done|]. cbn [app]. rewrite decode_1 by done. by rewrite IH. Qed.

(** The ways a rune is written: as the escape of a unit, as a letter escape, or
    as itself. *)
Inductive rune_form : rchunk -> list N -> Prop :=
| form_unit c : rune_of c < 65536 -> is_surrogate (rune_of c) = false ->
    rune_form c (92 :: 117 :: hex4_bytes (rune_of c))
| form_letter r e : simple_escape e = Some r -> e <> 117 -> e < 128 -> rune_form (RValid r) [92; e]
| form_plain r : valid_rune r = true -> 32 <= r -> r <> 34 -> r <> 92 -> rune_form (RValid r) (utf8_encode r).

Definition chunk_valid (c : rchunk) : Prop := match c with RValid r => valid_rune r = true | RInvalid _ => True end.

Lemma json_rune_form c : chunk_valid c -> rune_form c (bytes_of (json_rune c)).
Proof.
  intros Hv. destruct c as [r|b]; [|apply (form_unit (RInvalid b)); done]. simpl in Hv. unfold json_rune.
  repeat (match goal with |- context [if (r =? ?k) then _ else _] => destruct (N.eqb_spec r k) as [->|] end;
          [by apply form_letter|]).
  destruct ((_ <? _) || _ || _ || _ || _ || _) eqn:E.
  - rewrite bytes_of_app, hex_digits_4. apply (form_unit (RValid r)); simpl; rewrite !orb_true_iff, !N.eqb_eq, N.ltb_lt in E;
      [lia|]. unfold is_surrogate. apply andb_false_iff. rewrite !N.leb_gt. lia.
  - rewrite bytes_of_string_of_runes. cbn [mbind list_bind]. rewrite app_nil_r.
    rewrite !orb_false_iff, !N.eqb_neq, N.ltb_ge in E. apply form_plain; lia || done.
Qed.

(** The bytes of a rune beyond ASCII. *)
Lemma encode_high r : valid_rune r = true -> 128 <= r -> Forall (fun b => 128 <= b) (utf8_encode r).
Proof.
  intros Hv Hr. unfold utf8_encode. rewrite Hv.
  replace (r <? 128) with false by (symmetry; by apply N.ltb_ge).
  repeat case_match; repeat (apply Forall_cons_2; [etrans; [|apply N.le_add_r]; lia|]); apply Forall_nil_2.
Qed.

Lemma encode_low r : r < 128 -> utf8_encode r = [r].
Proof.
  intros Hr. unfold utf8_encode. replace (valid_rune r) with true by (symmetry; apply valid_rune_spec; lia).
  by apply N.ltb_lt in Hr as ->.
Qed.

Lemma scan_high k l b r : Forall (fun x => 128 <= x) k -> scan_string l = Some (b, r) ->
  scan_string (k ++ l) = Some (k ++ b, r).
Proof.
  intros Hk Hl. induction Hk as [|x k Hx _ IH]; [done|]. cbn [app scan_string].
  destruct (N.eqb_spec x 34); [lia|]. destruct (N.eqb_spec x 92); [lia|]. destruct (N.ltb_spec x 32); [lia|].
  by rewrite IH.
Qed.

Lemma scan_rune c k l b r : rune_form c k -> scan_string l = Some (b, r) ->
  scan_string (k ++ l) = Some (k ++ b, r).
Proof.
  intros Hf Hl. destruct Hf as [c Hc Hs|r0 e He Hu Ha|r0 Hv H32 H34 H92].
  - assert (Hh := hex4_back _ Hc). unfold hex4_bytes in *. cbn [app scan_string]. cbv beta.
    change (92 =? 34) with false. change (92 =? 92) with true. cbv iota.
    rewrite bool_decide_false by (vm_compute; by intros [? ?]). change (117 =? 117) with true. cbv iota.
    rewrite bool_decide_true by (rewrite Hh; by eexists). by rewrite Hl.
  - cbn [app scan_string]. change (92 =? 34) with false. change (92 =? 92) with true. cbv iota.
    rewrite bool_decide_true by (by eexists). by rewrite Hl.
  - destruct (N.lt_ge_cases r0 128) as [Hlt|Hge]; [|apply scan_high; [by apply encode_high|done]].
    rewrite encode_low by done. cbn [app scan_string]. apply N.eqb_neq in H34, H92. rewrite H34, H92.
    apply N.ltb_ge in H32 as ->. by rewrite Hl.
Qed.

Lemma unquote_rune c k l : rune_form c k -> unquote (utf8_decode (k ++ l)) = rune_of c :: unquote (utf8_decode l).
Proof.
  intros Hf. destruct Hf as [c Hc Hs|r0 e He Hu Ha|r0 Hv H32 H34 H92].
  - assert (Hh := hex4_back _ Hc). rewrite (decode_ascii (92 :: 117 :: hex4_bytes (rune_of c)))
      by (do 2 (apply Forall_cons_2; [done|]); apply hex4_bytes_ascii).
    unfold hex4_bytes in *. cbn [fmap list_fmap app unquote rune_of]. change (92 =? 92) with true. change (117 =? 117) with true.
    cbv iota. unfold unit_value. cbn [rune_of]. rewrite Hh. unfold from_option, id. by rewrite Hs.
  - rewrite decode_ascii by (repeat (apply Forall_cons_2; [done|]); apply Forall_nil_2). cbn [fmap list_fmap app unquote rune_of].
    change (92 =? 92) with true. cbv iota. apply N.eqb_neq in Hu as ->. by rewrite He.
  - rewrite decode_encode by done. cbn [unquote rune_of]. by apply N.eqb_neq in H92 as ->.
Qed.

Lemma scan_runes cs l : Forall chunk_valid cs ->
  let k := bytes_of (String.concat EmptyString (json_rune <$> cs)) in
  scan_string (k ++ 34 :: l) = Some (k, l)
  /\ unquote (utf8_decode k) = rune_of <$> cs.
Proof.
  induction 1 as [|c cs Hc _ [IH1 IH2]]; [done|]. rewrite fmap_cons.
  assert (E : bytes_of (String.concat EmptyString (json_rune c :: (json_rune <$> cs)))
              = bytes_of (json_rune c) ++ bytes_of (String.concat EmptyString (json_rune <$> cs))).
  { rewrite <- bytes_of_app. f_equal. destruct (json_rune <$> cs); simpl; [by rewrite string_app_nil_r|done]. }
  cbv zeta. rewrite E. apply json_rune_form in Hc. split.
  - rewrite <- app_assoc. by apply (scan_rune _ _ _ _ _ Hc).
  - rewrite (unquote_rune _ _ _ Hc). by rewrite IH2.
Qed.

Lemma utf8_decode_valid l : Forall chunk_valid (utf8_decode l).
Proof.
  induction l as [|c k rest Hc E IH] using utf8_ind; [constructor|]. rewrite E. constructor; [|done].
  destruct c; [by destruct Hc|done].
Qed.

(** The bytes of a string literal after its opening quote. *)
Lemma json_string_bytes s : exists k, bytes_of (json_string s) = 34 :: k ++ [34]
  /\ (forall l, scan_string (k ++ 34 :: l) = Some (k, l)) /\ string_value k = to_utf8 s.
Proof.
  exists (bytes_of (String.concat EmptyString (json_rune <$> utf8_decode (bytes_of s)))).
  assert (Hv := utf8_decode_valid (bytes_of s)). split_and!.
  - unfold json_string. rewrite !bytes_of_app. done.
  - intros l. apply (scan_runes _ l Hv).
  - unfold string_value. by rewrite (proj2 (scan_runes _ [] Hv)).
Qed.

(** ** Numbers *)

(** What may follow a number in a text. *)
Definition number_end (l : list N) : Prop :=
  match l with c :: _ => digit c = false /\ c <> 46 /\ c <> 101 /\ c <> 69 | [] => True end.

(** A literal of the grammar. *)
Definition number_text (s : string) : Prop := scan_number (bytes_of s) = Some (bytes_of s, []).

(** A scan that left [r] reads no further when [rest] follows. *)
Definition stops (r rest : list N) : Prop := r <> [] \/ number_end rest.

Lemma stops_nil rest : stops [] rest -> number_end rest.
Proof. by intros [?|?]. Qed.

Lemma stops_app d r rest : stops r rest -> stops (d ++ r) rest.
Proof. intros [Hr|Hr]; [left; by intros [_ ?]%app_nil|by right]. Qed.

Lemma span_digits_ext l d r rest : stops r rest -> span_digits l = (d, r) ->
  span_digits (l ++ rest) = (d, r ++ rest).
Proof.
  revert d r. induction l as [|c l IH]; intros d r Hr; simpl.
  - intros [= <- <-]. apply stops_nil in Hr. destruct rest as [|c rest]; [done|]. simpl. by destruct Hr as [-> _].
  - destruct (digit c); [|by intros [= <- <-]]. destruct (span_digits l) as [d' r'].
    intros [= <- <-]. by rewrite (IH d' r' Hr eq_refl).
Qed.

Lemma some_digits_ext l d r rest : stops r rest -> some_digits l = Some (d, r) ->
  some_digits (l ++ rest) = Some (d, r ++ rest).
Proof.
  intros Hr. unfold some_digits. destruct (span_digits l) as [d' r'] eqn:E. destruct d'; [done|]. intros [= <- <-].
  by rewrite (span_digits_ext _ _ _ _ Hr E).
Qed.

Lemma scan_int_ext l d r rest : stops r rest -> scan_int l = Some (d, r) -> scan_int (l ++ rest) = Some (d, r ++ rest).
Proof.
  intros Hr. destruct l as [|c t]; [done|]. simpl. destruct (c =? 48); [by intros [= <- <-]|].
  by apply (some_digits_ext (c :: t)).
Qed.

Lemma scan_frac_ext l d r rest : stops r rest -> scan_frac l = Some (d, r) -> scan_frac (l ++ rest) = Some (d, r ++ rest).
Proof.
  intros Hr. destruct l as [|c t]; simpl.
  - intros [= <- <-]. apply stops_nil in Hr. destruct rest as [|c rest]; [done|]. destruct Hr as (_ & H & _). simpl.
    by apply N.eqb_neq in H as ->.
  - destruct (c =? 46); [|by intros [= <- <-]]. destruct (some_digits t) as [[d' r']|] eqn:E; [|done].
    intros [= <- <-]. by rewrite (some_digits_ext _ _ _ _ Hr E).
Qed.

Lemma scan_exp_ext l d r rest : stops r rest -> scan_exp l = Some (d, r) -> scan_exp (l ++ rest) = Some (d, r ++ rest).
Proof.
  intros Hr. destruct l as [|c t]; simpl.
  - intros [= <- <-]. apply stops_nil in Hr. destruct rest as [|c rest]; [done|]. destruct Hr as (_ & _ & H1 & H2). simpl.
    by apply N.eqb_neq in H1 as ->, H2 as ->.
  - destruct ((c =? 101) || (c =? 69)); [|by intros [= <- <-]]. destruct t as [|s t']; [done|]. cbn [app].
    destruct ((s =? 43) || (s =? 45)).
    + destruct (some_digits t') as [[d' r']|] eqn:E; [|done]. intros [= <- <-]. by rewrite (some_digits_ext _ _ _ _ Hr E).
    + destruct (some_digits (s :: t')) as [[d' r']|] eqn:E; [|done]. intros [= <- <-].
      by rewrite (some_digits_ext _ _ _ _ Hr E : some_digits (s :: t' ++ rest) = _).
Qed.

Lemma scan_unsigned_ext l d r rest : stops r rest -> scan_unsigned l = Some (d, r) ->
  scan_unsigned (l ++ rest) = Some (d, r ++ rest).
Proof.
  intros Hr. unfold scan_unsigned.
  destruct (scan_int l) as [[i r1]|] eqn:E1; [|done]. cbn [mbind option_bind].
  destruct (scan_frac r1) as [[f r2]|] eqn:E2; [|done]. cbn [mbind option_bind].
  destruct (scan_exp r2) as [[e r3]|] eqn:E3; [|done]. intros [= <- <-].
  assert (H2 : stops r2 rest) by (rewrite (scan_exp_app _ _ _ E3); by apply stops_app).
  assert (H1 : stops r1 rest) by (rewrite (scan_frac_app _ _ _ E2); by apply stops_app).
  rewrite (scan_int_ext _ _ _ _ H1 E1). cbn [mbind option_bind]. rewrite (scan_frac_ext _ _ _ _ H2 E2).
  cbn [mbind option_bind]. by rewrite (scan_exp_ext _ _ _ _ Hr E3).
Qed.

Lemma scan_number_ext l d r rest : stops r rest -> scan_number l = Some (d, r) ->
  scan_number (l ++ rest) = Some (d, r ++ rest).
Proof.
  intros Hr. destruct l as [|c t]; [done|]. cbn [app scan_number]. destruct (c =? 45).
  - destruct (scan_unsigned t) as [[d' r']|] eqn:E; [|done]. intros [= <- <-]. by rewrite (scan_unsigned_ext _ _ _ _ Hr E).
  - by apply (scan_unsigned_ext (c :: t)).
Qed.

Lemma to_uint_head n u : N.to_uint n = Decimal.D0 u -> u = Decimal.Nil.
Proof.
  intros E. assert (H := DecimalN.Unsigned.to_of (N.to_uint n)). rewrite DecimalN.Unsigned.of_to, E in H.
  unfold Decimal.unorm in H. destruct (Decimal.nzhead (Decimal.D0 u)) eqn:Hn; try done; [by injection H|].
  by apply DecimalFacts.nzhead_nonzero in Hn.
Qed.

Lemma span_digits_uint u :
  span_digits (bytes_of (NilEmpty.string_of_uint u)) = (bytes_of (NilEmpty.string_of_uint u), []).
Proof.
  induction u; [done|..]; cbn [NilEmpty.string_of_uint]; unfold bytes_of in *;
    cbn [String.list_ascii_of_string fmap list_fmap span_digits]; rewrite IHu; done.
Qed.

Lemma scan_unsigned_uint n : let l := bytes_of (NilZero.string_of_uint (N.to_uint n)) in
  scan_unsigned l = Some (l, []) /\ exists c t, l = c :: t /\ digit c = true.
Proof.
  cbv zeta. rewrite NilZero_NilEmpty. assert (Hs := span_digits_uint (N.to_uint n)).
  assert (Hz := to_uint_head n). assert (Hn := to_uint_nonnil n).
  destruct (N.to_uint n) as [|u|u|u|u|u|u|u|u|u|u]; [done|by rewrite (Hz _ eq_refl); split; [done|eexists _, _]|..];
    cbn [NilEmpty.string_of_uint] in *; unfold bytes_of in *; cbn [String.list_ascii_of_string fmap list_fmap] in *;
    (split; [|by eexists _, _]);
    unfold scan_unsigned, scan_int;
    match goal with |- context [N_of_ascii ?a =? 48] => change (N_of_ascii a =? 48) with false end; cbv iota;
    unfold some_digits; rewrite Hs; cbn [mbind option_bind]; cbn [scan_frac scan_exp mbind option_bind];
    by rewrite !app_nil_r.
Qed.

(** Integers are written as numbers. *)
Lemma FormatInt_number z : number_text (FormatInt z).
Proof.
  unfold number_text. destruct z as [|p|p]; [done|..]; unfold FormatInt.
  - destruct (scan_unsigned_uint (Npos p)) as (Hs & c & t & E & Hd). rewrite E in *. cbn [scan_number].
    replace (c =? 45) with false; [done|]. symmetry. apply N.eqb_neq. intros ->. done.
  - destruct (scan_unsigned_uint (Npos p)) as (Hs & _).
    change (bytes_of (String "-" (NilZero.string_of_uint (N.to_uint (N.pos p))))) with (45 :: bytes_of (NilZero.string_of_uint (N.to_uint (N.pos p)))).
    cbn [scan_number]. change (45 =? 45) with true. cbv iota. by rewrite Hs.
Qed.

Lemma number_head s : number_text s -> exists c t, bytes_of s = c :: t /\ (c = 45 \/ digit c = true).
Proof.
  unfold number_text. destruct (bytes_of s) as [|c t]; [done|]. intros H. exists c, t. split; [done|].
  cbn [scan_number] in H. destruct (N.eqb_spec c 45); [by left|]. right. unfold scan_unsigned in H.
  apply bind_Some in H as ([d r] & Hi & _). cbn [scan_int] in Hi.
  destruct (N.eqb_spec c 48) as [->|]; [done|]. unfold some_digits in Hi. cbn [span_digits] in Hi. by destruct (digit c).
Qed.

(** ** What [json.Marshal] writes reads back *)

Lemma settle_more {A} (g : nat -> parse_result A) n m a r :
  (forall k, kept (g k) (g (S k))) -> g n = Parsed a r -> (n <= m)%nat -> g m = Parsed a r.
Proof.
  intros Hg Hn Hle. induction Hle as [|m _ IH]; [done|]. destruct (Hg m) as [H|H]; congruence.
Qed.

Lemma value_at n m depth l a r :
  parse_value n depth l = Parsed a r -> (n <= m)%nat -> parse_value m depth l = Parsed a r.
Proof. apply (settle_more (fun f => parse_value f depth l)). intros; apply parse_kept. Qed.

Lemma elements_at n m depth l a r :
  parse_elements n depth l = Parsed a r -> (n <= m)%nat -> parse_elements m depth l = Parsed a r.
Proof. apply (settle_more (fun f => parse_elements f depth l)). intros; apply parse_kept. Qed.

Lemma members_at n m depth l a r :
  parse_members n depth l = Parsed a r -> (n <= m)%nat -> parse_members m depth l = Parsed a r.
Proof. apply (settle_more (fun f => parse_members f depth l)). intros; apply parse_kept. Qed.

(** An answer at some fuel is the answer at the fuel of the text. *)
Lemma parse_at_text_fuel fuel depth l v r :
  parse_value fuel depth l = Parsed v r -> parse_value (text_fuel l) depth l = Parsed v r.
Proof.
  intros H. assert (Hs := proj1 (parse_settled (text_fuel l)) depth l (le_n _)).
  assert (Hm := value_at _ (fuel `max` text_fuel l) _ _ _ _ H ltac:(lia)).
  destruct (parse_value (text_fuel l) depth l) as [v' r'| |] eqn:E; [| |done].
  - rewrite (value_at _ (fuel `max` text_fuel l) _ _ _ _ E) in Hm by lia. done.
  - assert (Hk : forall m, (text_fuel l <= m)%nat -> parse_value m depth l = Malformed).
    { intros m Hle. induction Hle as [|m _ IH]; [done|]. destruct (proj1 (parse_kept m) depth l); congruence. }
    rewrite Hk in Hm by lia. done.
Qed.

(** Reading a text ends, and more fuel changes nothing. *)
Lemma parse_ends fuel raw : (text_fuel (bytes_of raw) <= fuel)%nat ->
  parse_value fuel 0 (bytes_of raw) = read_value raw /\ read_value raw <> OutOfFuel.
Proof.
  unfold read_value. intros Hf. assert (Hs := proj1 (parse_settled (text_fuel (bytes_of raw))) 0 (bytes_of raw) (le_n _)).
  split; [|by intros E; rewrite E in Hs].
  induction Hf as [|m _ IH]; [done|]. destruct (proj1 (parse_kept m) 0 (bytes_of raw)) as [H|H]; [|congruence].
  rewrite H in IH. by rewrite <- IH in Hs.
Qed.

(** ** Texts that are cut

    A reader that stops early sees a prefix of the text.  The prefix of an
    object reads as that object, or as no value at all. *)

Lemma skip_ws_ext l x : skip_ws l <> [] -> skip_ws (l ++ x) = skip_ws l ++ x.
Proof. induction l as [|c l IH]; [done|]. simpl. destruct (is_space c); [exact IH|done]. Qed.

Lemma eat_ext c l x : skip_ws l <> [] -> eat c (l ++ x) = (fun r => r ++ x) <$> eat c l.
Proof.
  intros Hl. unfold eat. rewrite skip_ws_ext by done. destruct (skip_ws l) as [|y t]; [done|]. simpl. by destruct (y =? c).
Qed.

Lemma eat_some c l r : eat c l = Some r -> skip_ws l <> [].
Proof. unfold eat. by destruct (skip_ws l). Qed.

Lemma eat_some_ext c l r x : eat c l = Some r -> eat c (l ++ x) = Some (r ++ x).
Proof. intros H. by rewrite eat_ext, H by (by eapply eat_some). Qed.

Lemma eat_none_ext c l x : skip_ws l <> [] -> eat c l = None -> eat c (l ++ x) = None.
Proof. intros Hl H. by rewrite eat_ext, H. Qed.

Lemma strip_ext lit l r x : strip lit l = Some r -> strip lit (l ++ x) = Some (r ++ x).
Proof.
  revert l. induction lit as [|c lit IH]; intros l; [by intros [= <-]|]. destruct l as [|y l]; [done|]. simpl.
  destruct (y =? c); [apply IH|done].
Qed.

Lemma scan_string_ext l x : forall b r, scan_string l = Some (b, r) -> scan_string (l ++ x) = Some (b, r ++ x).
Proof.
  induction l as [l IH] using (induction_ltof1 _ (@length N)). unfold ltof in IH. intros b r.
  destruct l as [|c t]; [done|]. cbn [scan_string app].
  destruct (c =? 34); [by intros [= <- <-]|]. destruct (c =? 92).
  - destruct t as [|e t1]; [done|]. cbn [app]. destruct (bool_decide _).
    + intros ([b' r'] & E & [= <- <-])%bind_Some. by rewrite (IH t1 ltac:(simpl; lia) _ _ E).
    + destruct (e =? 117); [|done]. destruct t1 as [|h1 [|h2 [|h3 [|h4 t2]]]]; try done. cbn [app].
      destruct (bool_decide _); [|done]. intros ([b' r'] & E & [= <- <-])%bind_Some.
      by rewrite (IH t2 ltac:(simpl; lia) _ _ E).
  - destruct (c <? 32); [done|]. intros ([b' r'] & E & [= <- <-])%bind_Some. by rewrite (IH t ltac:(simpl; lia) _ _ E).
Qed.

Lemma parse_scalar_ext l v r x : parse_scalar l = Some (v, r) -> r <> [] -> parse_scalar (l ++ x) = Some (v, r ++ x).
Proof.
  destruct l as [|c t]; [done|]. cbn [parse_scalar app]. intros H Hr. destruct (c =? 34).
  { apply bind_Some in H as ([b r'] & E & [= <- <-]). by rewrite (scan_string_ext _ x _ _ E). }
  destruct ((c =? 45) || digit c).
  { apply bind_Some in H as ([d r'] & E & [= <- <-]).
    by rewrite (scan_number_ext _ _ _ x (or_introl Hr) E : scan_number (c :: t ++ x) = _). }
  unfold parse_literal in *.
  repeat (destruct (_ =? _); [apply fmap_Some in H as (r' & Hs & [= <- <-]); by rewrite (strip_ext _ _ _ x Hs)|]).
  done.
Qed.

Definition is_container (v : any) : Prop := match v with AMap _ | ASlice _ => True | _ => False end.

Lemma parse_map_parsed {A B} (f : A -> B) p b r : parse_map f p = Parsed b r -> exists a, p = Parsed a r /\ b = f a.
Proof. destruct p; [|done..]. intros [= <- <-]. by eexists. Qed.

Lemma of_option_parsed {A} (o : option (A * list N)) a r : of_option o = Parsed a r -> o = Some (a, r).
Proof. destruct o as [[a' r']|]; [|done]. by intros [= <- <-]. Qed.

Lemma parsed_start f depth l v r : parse_value f depth l = Parsed v r -> skip_ws l <> [].
Proof.
  destruct f as [|f]; [done|]. cbn [parse_value]. intros H E. unfold eat in H. by rewrite E in H.
Qed.

(** After a container, and after a scalar that more text follows, nothing more is
    read of a longer text. *)
Definition extends {A} (p : list N -> parse_result A) (cond : A -> list N -> Prop) : Prop :=
  forall l a r x, p l = Parsed a r -> cond a r -> p (l ++ x) = Parsed a (r ++ x).

Lemma start_nonempty l : skip_ws l <> [] -> l <> [].
Proof. by destruct l. Qed.

Lemma elements_start f depth l a r : parse_elements f depth l = Parsed a r -> skip_ws l <> [].
Proof.
  destruct f as [|f]; [done|]. cbn [parse_elements]. destruct (parse_value f depth l) eqn:E; [|done..].
  intros _. by eapply parsed_start.
Qed.

Lemma members_start f depth l a r : parse_members f depth l = Parsed a r -> skip_ws l <> [].
Proof.
  destruct f as [|f]; [done|]. cbn [parse_members]. destruct (eat 34 l) eqn:E; [|done]. intros _. by eapply eat_some.
Qed.

Lemma scalar_plain l v r : parse_scalar l = Some (v, r) -> ~ is_container v.
Proof.
  destruct l as [|c t]; [done|]. cbn [parse_scalar]. intros H.
  destruct (c =? 34); [apply bind_Some in H as ([? ?] & _ & [= <- _]); exact id|].
  destruct ((c =? 45) || digit c); [apply bind_Some in H as ([? ?] & _ & [= <- _]); exact id|]. unfold parse_literal in H.
  repeat match type of H with (if ?b then _ else _) = _ => destruct b; [apply fmap_Some in H as (? & _ & [= -> _]); exact id|] end.
  done.
Qed.

(** An item of an array or of an object is followed by a comma and the other
    items, or by the closing bracket. *)
Definition after_item {A} (close : N) (last : A) (more : A -> A) (items : list N -> parse_result A) (r : list N) : parse_result A :=
  match eat 44 r with
  | Some r' => parse_map more (items r')
  | None => of_option (pair last <$> eat close r)
  end.

Lemma after_item_ext {A} close (last : A) more items r a r' x :
  extends items (fun _ _ => True) -> after_item close last more items r = Parsed a r' ->
  r <> [] /\ after_item close last more items (r ++ x) = Parsed a (r' ++ x).
Proof.
  intros Hi H. unfold after_item in *. destruct (eat 44 r) as [r1|] eqn:E.
  - split; [by eapply start_nonempty, eat_some|]. rewrite (eat_some_ext _ _ _ x E).
    apply parse_map_parsed in H as (m & H & ->). by rewrite (Hi _ _ _ x H I).
  - apply of_option_parsed, fmap_Some in H as (r1 & E' & [= <- <-]). pose proof (eat_some _ _ _ E') as Hs.
    split; [by apply start_nonempty|]. by rewrite (eat_none_ext _ _ x Hs E), (eat_some_ext _ _ _ x E').
Qed.

(** An opened array or object. *)
Lemma opened_ext {A} close (empty : any) (wrap : A -> any) items t v r x :
  extends items (fun _ _ => True) -> (forall a r, items t = Parsed a r -> skip_ws t <> []) ->
  match eat close t with Some r => Parsed empty r | None => parse_map wrap (items t) end = Parsed v r ->
  match eat close (t ++ x) with Some r => Parsed empty r | None => parse_map wrap (items (t ++ x)) end = Parsed v (r ++ x).
Proof.
  intros Hi Ht H. destruct (eat close t) as [r'|] eqn:E.
  - injection H as <- <-. by rewrite (eat_some_ext _ _ _ x E).
  - apply parse_map_parsed in H as (m & H & ->). rewrite (eat_none_ext _ _ x (Ht _ _ H) E). by rewrite (Hi _ _ _ x H I).
Qed.

Lemma parse_extends fuel :
  (forall depth, extends (parse_value fuel depth) (fun v r => is_container v \/ r <> []))
  /\ (forall depth, extends (parse_elements fuel depth) (fun _ _ => True))
  /\ (forall depth, extends (parse_members fuel depth) (fun _ _ => True)).
Proof.
  induction fuel as [|f (IHv & IHe & IHm)]; [by split_and!; intros ? ? ? ? ? ?|].
  split_and!; intros depth l a r x H Hc.
  - pose proof (parsed_start _ _ _ _ _ H) as Hs. cbn [parse_value] in H |- *.
    destruct (eat 123 l) as [t|] eqn:E1.
    { rewrite (eat_some_ext _ _ _ x E1). destruct (_ <=? _); [done|]. eapply opened_ext; eauto using members_start. }
    rewrite (eat_none_ext _ _ x Hs E1). destruct (eat 91 l) as [t|] eqn:E2.
    { rewrite (eat_some_ext _ _ _ x E2). destruct (_ <=? _); [done|]. eapply opened_ext; eauto using elements_start. }
    rewrite (eat_none_ext _ _ x Hs E2), skip_ws_ext by done. apply of_option_parsed in H.
    rewrite (parse_scalar_ext _ _ _ x H); [done|]. destruct Hc as [Hc|Hc]; [|done]. by apply scalar_plain in H.
  - cbn [parse_elements] in H |- *. destruct (parse_value f depth l) as [v r1| |] eqn:Ev; [|done..].
    destruct (after_item_ext 93 [v] (cons v) _ r1 a r x (IHe depth) H) as [Hr H'].
    by rewrite (IHv _ _ _ _ x Ev (or_intror Hr)).
  - cbn [parse_members] in H |- *. destruct (mbind _ (eat 34 l)) as [[k r0]|] eqn:Ek; [|done].
    apply bind_Some in Ek as (t & Et & Ek). apply bind_Some in Ek as ([b rs] & Es & Ek).
    apply bind_Some in Ek as (r0' & E58 & [= <- <-]).
    rewrite (eat_some_ext _ _ _ x Et). cbn [mbind option_bind]. rewrite (scan_string_ext _ x _ _ Es).
    cbn [mbind option_bind]. rewrite (eat_some_ext _ _ _ x E58). cbn [mbind option_bind].
    destruct (parse_value f depth r0') as [v r1| |] eqn:Ev; [|done..].
    destruct (after_item_ext 125 [(string_value b, v)] (cons (string_value b, v)) _ r1 a r x (IHm depth) H) as [Hr H'].
    by rewrite (IHv _ _ _ _ x Ev (or_intror Hr)).
Qed.

Lemma read_value_ext s x v r : read_value s = Parsed v r -> is_container v \/ r <> [] ->
  read_value (s +:+ x) = Parsed v (r ++ bytes_of x).
Proof.
  unfold read_value. rewrite bytes_of_app. intros H Hc. eapply parse_at_text_fuel.
  by apply (proj1 (parse_extends (text_fuel (bytes_of s))) 0 (bytes_of s) v r (bytes_of x)).
Qed.

Lemma read_object s m r : read_value s = Parsed (AMap m) r -> is_Some (eat 123 (bytes_of s)).
Proof.
  unfold read_value, text_fuel. rewrite Nat.add_1_r. cbn [parse_value]. destruct (eat 123 (bytes_of s)); [by eexists|].
  destruct (eat 91 (bytes_of s)).
  - destruct (_ <=? _); [done|]. destruct (eat 93 _); [done|]. intros H. by apply parse_map_parsed in H as (? & _ & ?).
  - intros H%of_option_parsed%scalar_plain. by destruct H.
Qed.

Lemma read_open s v r : is_Some (eat 123 (bytes_of s)) -> read_value s = Parsed v r -> is_container v.
Proof.
  intros [t E]. unfold read_value, text_fuel. rewrite Nat.add_1_r. cbn [parse_value]. rewrite E.
  destruct (_ <=? _); [done|]. destruct (eat 125 t); [by intros [= <- _]|].
  intros H. by apply parse_map_parsed in H as (? & _ & ->).
Qed.

(** The prefix of a text that is one object. *)
Lemma cut_object s x m : body_of_text (s +:+ x) = Document (AMap m) ->
  body_of_text s = Document (AMap m) \/ body_of_text s = NotJSON \/ body_of_text s = EmptyBody.
Proof.
  unfold body_of_text. destruct (is_empty s) eqn:Es; [auto|]. destruct (is_empty (s +:+ x)); [done|].
  destruct (read_value (s +:+ x)) as [v' r'| |] eqn:E'; [|done..].
  destruct (skip_ws r') eqn:Er'; [|done]. intros [= ->].
  destruct (read_value s) as [v r| |] eqn:E; [|auto..].
  assert (Hc : is_container v).
  { apply read_object in E' as [t Ht]. apply (read_open s v r); [|done]. rewrite bytes_of_app in Ht.
    rewrite eat_ext in Ht by (by eapply parsed_start). apply fmap_Some in Ht as (t' & Ht & _). by eexists. }
  rewrite (read_value_ext _ x _ _ E (or_introl Hc)) in E'. injection E' as -> <-.
  destruct (skip_ws r) as [|y l] eqn:Er; [auto|]. rewrite skip_ws_ext in Er' by (by rewrite Er). by rewrite Er in Er'.
Qed.

Section RoundTrip.
Context `{F : GoFloat}.

(** The document of the text of a value: members by increasing key, strings as
    UTF-8, numbers as literals. *)
Fixpoint doc_of (v : any) : any :=
  match v with
  | ANil | ANilMap => ANil
  | ABool b => ABool b
  | AString s => AString (to_utf8 s)
  | AFloat64 f => ANumber (float_json f)
  | ANumber s => ANumber s
  | AInt64 z | AInt z => ANumber (FormatInt z)
  | AInt64s l => ASlice ((fun z => ANumber (FormatInt z)) <$> l)
  | AMap l =>
      AMap ((fun kx => (to_utf8 (fst kx), snd kx)) <$> sort_stable member_less
        ((fix go l := match l with [] => [] | (k, x) :: l' => (k, doc_of x) :: go l' end) l))
  | ASlice l => ASlice ((fix go l := match l with [] => [] | x :: l' => doc_of x :: go l' end) l)
  end.

Lemma doc_of_map l :
  doc_of (AMap l) = AMap ((fun kx => (to_utf8 (fst kx), doc_of (snd kx))) <$> sort_stable member_less l).
Proof.
  cbn [doc_of]. f_equal.
  assert (E : (fix go l := match l with [] => [] | (k, x) :: l' => (k, doc_of x) :: go l' end) l
              = (fun kx => (fst kx, doc_of (snd kx))) <$> l).
  { induction l as [|[k x] l IH]; [done|]. rewrite fmap_cons. by rewrite IH. }
  rewrite E, (sort_stable_fmap _ member_less) by done. by rewrite <- list_fmap_compose.
Qed.

Lemma doc_of_slice l : doc_of (ASlice l) = ASlice (doc_of <$> l).
Proof. cbn [doc_of]. f_equal. Qed.

(** Values that can be written: their numbers have literals, and arrays and
    objects are nested at most [d] deep. *)
Fixpoint writable (d : nat) (v : any) : Prop :=
  match v with
  | ANil | ANilMap | ABool _ | AString _ | AInt64 _ | AInt _ => True
  | AFloat64 f => number_text (float_json f)
  | ANumber s => number_text s
  | AInt64s _ => (0 < d)%nat
  | AMap l => match d with O => False | S d' => Forall (fun kx => writable d' (snd kx)) l end
  | ASlice l => match d with O => False | S d' => Forall (writable d') l end
  end.

Definition reads_back (depth : N) (v : any) : Prop := forall rest, number_end rest ->
  exists fuel, parse_value fuel depth (bytes_of (json_marshal v) ++ rest) = Parsed (doc_of v) rest.

Lemma eat_here c l : is_space c = false -> eat c (c :: l) = Some l.
Proof. intros H. unfold eat. simpl. by rewrite H, N.eqb_refl. Qed.

Lemma eat_other c x l : is_space x = false -> x <> c -> eat c (x :: l) = None.
Proof. intros H Hx. unfold eat. simpl. rewrite H. by apply N.eqb_neq in Hx as ->. Qed.

(** A value starts with neither whitespace nor a closing bracket. *)
Definition value_start (l : list N) : Prop :=
  match l with c :: _ => is_space c = false /\ c <> 93 /\ c <> 125 | [] => False end.

Lemma digit_start c : c = 45 \/ digit c = true -> is_space c = false /\ c <> 93 /\ c <> 125 /\ c <> 123 /\ c <> 91 /\ c <> 34.
Proof.
  intros H. unfold digit, is_space in *. rewrite andb_true_iff, !N.leb_le in H.
  rewrite !orb_false_iff, !N.eqb_neq. lia.
Qed.

Lemma marshal_start d v : writable d v -> value_start (bytes_of (json_marshal v)).
Proof.
  assert (Hn : forall s, number_text s -> value_start (bytes_of s)).
  { intros s (c & t & -> & H%digit_start)%number_head. simpl. naive_solver. }
  intros Hw. destruct d, v as [|[]|s|f|s|z|z|l| |l|l]; try done; cbn [json_marshal];
    try (apply Hn; done || apply FormatInt_number).
Qed.

(** Scalars. *)
Lemma parse_value_scalar f depth l : value_start l -> (forall t, l <> 123 :: t) -> (forall t, l <> 91 :: t) ->
  parse_value (S f) depth l = of_option (parse_scalar l).
Proof.
  intros Hs H1 H2. destruct l as [|c t]; [done|]. destruct Hs as [Hsp _]. cbn [parse_value].
  rewrite (eat_other 123) by (done || (intros ->; by destruct (H1 t))).
  rewrite (eat_other 91) by (done || (intros ->; by destruct (H2 t))). simpl. by rewrite Hsp.
Qed.

Lemma number_reads_back depth s rest : number_text s -> number_end rest ->
  parse_value 1 depth (bytes_of s ++ rest) = Parsed (ANumber s) rest.
Proof.
  intros Hn Hr. destruct (number_head s Hn) as (c & t & E & Hc). pose proof (digit_start c Hc) as (S1 & S2 & S3 & S4 & S5 & S6).
  unfold number_text in Hn. assert (Hx := scan_number_ext _ _ _ _ (or_intror Hr) Hn). cbn [app] in Hx.
  rewrite E in *. cbn [app] in Hx |- *.
  rewrite parse_value_scalar by (done || (intros ? [= ->]; done)). cbn [parse_scalar].
  apply N.eqb_neq in S6 as ->. replace ((c =? 45) || digit c) with true.
  2:{ symmetry. apply orb_true_iff. rewrite N.eqb_eq. done. }
  rewrite Hx. cbn [mbind option_bind of_option]. rewrite <- E, string_of_bytes_of. done.
Qed.

Lemma string_reads_back depth s rest :
  parse_value 1 depth (bytes_of (json_string s) ++ rest) = Parsed (AString (to_utf8 s)) rest.
Proof.
  destruct (json_string_bytes s) as (k & E & Hs & Hv). rewrite E. cbn [app].
  rewrite parse_value_scalar by done. cbn [parse_scalar]. change (34 =? 34) with true. cbv iota.
  rewrite <- app_assoc. cbn [app]. rewrite Hs. cbn [mbind option_bind of_option]. by rewrite Hv.
Qed.

(** The elements of an array, given how each is written. *)
Lemma elements_read_back depth (l : list any) (txt : any -> string) (doc : any -> any) rest : l <> [] ->
  Forall (fun v => forall rest, number_end rest ->
    exists fuel, parse_value fuel depth (bytes_of (txt v) ++ rest) = Parsed (doc v) rest) l ->
  exists fuel, parse_elements fuel depth (bytes_of (Join (txt <$> l) ",") ++ 93 :: rest) = Parsed (doc <$> l) rest.
Proof.
  intros Hne Hl. induction Hl as [|v l Hv Hl IH]; [done|]. destruct l as [|v' l'].
  - destruct (Hv (93 :: rest)) as [f Hf]; [done|]. exists (S f). cbn [fmap list_fmap Join]. cbn [parse_elements].
    rewrite Hf. by rewrite (eat_other 44), eat_here.
  - destruct IH as [f2 H2]; [done|]. rewrite fmap_cons. destruct (txt <$> v' :: l') as [|t ts] eqn:Et; [done|].
    change (Join (txt v :: t :: ts) ",") with (txt v +:+ "," +:+ Join (t :: ts) ",").
    rewrite !bytes_of_app, <- !app_assoc. cbn [app].
    destruct (Hv (44 :: bytes_of (Join (t :: ts) ",") ++ 93 :: rest)) as [f1 H1]; [done|].
    exists (S (f1 `max` f2)). cbn [parse_elements].
    change (bytes_of ",") with [44]. cbn [app].
    rewrite (value_at _ (f1 `max` f2) _ _ _ _ H1), eat_here by (lia || done).
    by rewrite (elements_at _ (f1 `max` f2) _ _ _ _ H2) by lia.
Qed.

(** The members of an object. *)
Definition member_text (kx : string * any) : string := json_string (fst kx) +:+ ":" +:+ json_marshal (snd kx).
Definition member_doc (kx : string * any) : string * any := (to_utf8 (fst kx), doc_of (snd kx)).

Lemma member_start kx l : exists t,
  bytes_of (member_text kx) ++ l = 34 :: t
  /\ (forall f depth, parse_members (S f) depth (34 :: t)
        = match parse_value f depth (bytes_of (json_marshal (snd kx)) ++ l) with
          | Parsed v r' =>
              match eat 44 r' with
              | Some r'' => parse_map (cons (to_utf8 (fst kx), v)) (parse_members f depth r'')
              | None => of_option (pair [(to_utf8 (fst kx), v)] <$> eat 125 r')
              end
          | Malformed => Malformed
          | OutOfFuel => OutOfFuel
          end).
Proof.
  destruct (json_string_bytes (fst kx)) as (k & E & Hs & Hv).
  exists (k ++ 34 :: 58 :: bytes_of (json_marshal (snd kx)) ++ l). split.
  - unfold member_text. rewrite !bytes_of_app, E. change (bytes_of ":") with [58].
    cbn [app]. by rewrite <- !app_assoc.
  - intros f depth. cbn [parse_members]. rewrite eat_here by done. cbn [mbind option_bind]. rewrite Hs.
    cbn [mbind option_bind]. rewrite eat_here by done. cbn [mbind option_bind]. by rewrite Hv.
Qed.

Lemma members_read_back depth (l : list (string * any)) rest : l <> [] ->
  Forall (fun kx => reads_back depth (snd kx)) l ->
  exists fuel, parse_members fuel depth (bytes_of (Join (member_text <$> l) ",") ++ 125 :: rest)
               = Parsed (member_doc <$> l) rest.
Proof.
  intros Hne Hl. induction Hl as [|v l Hv Hl IH]; [done|]. destruct l as [|v' l'].
  - destruct (Hv (125 :: rest)) as [f Hf]; [done|]. exists (S f). cbn [fmap list_fmap Join].
    destruct (member_start v (125 :: rest)) as (t & -> & ->). rewrite Hf. by rewrite (eat_other 44), eat_here.
  - destruct IH as [f2 H2]; [done|]. rewrite fmap_cons. destruct (member_text <$> v' :: l') as [|t ts] eqn:Et; [done|].
    change (Join (member_text v :: t :: ts) ",") with (member_text v +:+ "," +:+ Join (t :: ts) ",").
    rewrite !bytes_of_app, <- !app_assoc. change (bytes_of ",") with [44]. cbn [app].
    destruct (Hv (44 :: bytes_of (Join (t :: ts) ",") ++ 125 :: rest)) as [f1 H1]; [done|].
    exists (S (f1 `max` f2)).
    destruct (member_start v (44 :: bytes_of (Join (t :: ts) ",") ++ 125 :: rest)) as (t' & -> & ->).
    rewrite (value_at _ (f1 `max` f2) _ _ _ _ H1), eat_here by (lia || done).
    by rewrite (members_at _ (f1 `max` f2) _ _ _ _ H2) by lia.
Qed.

Lemma Join_cons_start (t : string) ts sep l : exists l', bytes_of (Join (t :: ts) sep) ++ l = bytes_of t ++ l'.
Proof.
  destruct ts as [|t' ts]; [by exists l|].
  change (Join (t :: t' :: ts) sep) with (t +:+ sep +:+ Join (t' :: ts) sep).
  rewrite bytes_of_app, <- app_assoc. by eexists.
Qed.

(** An array of texts that each read back. *)
Lemma array_reads_back depth (l : list any) (txt : any -> string) (doc : any -> any) :
  depth + 1 <= max_nesting_depth ->
  Forall (fun v => value_start (bytes_of (txt v)) /\ forall rest, number_end rest ->
    exists fuel, parse_value fuel (depth + 1) (bytes_of (txt v) ++ rest) = Parsed (doc v) rest) l ->
  forall rest, exists fuel,
    parse_value fuel depth (bytes_of ("[" +:+ Join (txt <$> l) "," +:+ "]") ++ rest) = Parsed (ASlice (doc <$> l)) rest.
Proof.
  intros Hd Hl rest. rewrite !bytes_of_app, <- !app_assoc. change (bytes_of "[") with [91]. change (bytes_of "]") with [93].
  cbn [app]. destruct l as [|v l].
  - exists 1%nat. cbn [fmap list_fmap Join parse_value]. rewrite (eat_other 123), eat_here by done.
    replace (max_nesting_depth <=? depth) with false by (symmetry; apply N.leb_gt; lia).
    cbn [bytes_of]. change (bytes_of EmptyString) with (@nil N). cbn [app]. by rewrite eat_here.
  - destruct (elements_read_back (depth + 1) (v :: l) txt doc rest) as [f Hf];
      [done|eapply Forall_impl; [exact Hl|naive_solver]|].
    exists (S f). cbn [parse_value]. rewrite (eat_other 123), eat_here by done.
    replace (max_nesting_depth <=? depth) with false by (symmetry; apply N.leb_gt; lia).
    replace (eat 93 _) with (@None (list N)); [by rewrite Hf|].
    symmetry. rewrite fmap_cons. destruct (Join_cons_start (txt v) (txt <$> l) "," (93 :: rest)) as [l' ->].
    apply Forall_cons in Hl as [[Hs _] _]. destruct (bytes_of (txt v)) as [|c t]; [done|].
    destruct Hs as (H1 & H2 & _). cbn [app]. by apply eat_other.
Qed.

Lemma object_reads_back depth (l : list (string * any)) : depth + 1 <= max_nesting_depth ->
  Forall (fun kx => reads_back (depth + 1) (snd kx)) l ->
  forall rest, exists fuel,
    parse_value fuel depth (bytes_of ("{" +:+ Join (member_text <$> l) "," +:+ "}") ++ rest)
    = Parsed (AMap (member_doc <$> l)) rest.
Proof.
  intros Hd Hl rest. rewrite !bytes_of_app, <- !app_assoc. change (bytes_of "{") with [123]. change (bytes_of "}") with [125].
  cbn [app]. assert (E : (max_nesting_depth <=? depth) = false) by (apply N.leb_gt; lia). destruct l as [|kx l].
  - exists 1%nat. cbn [fmap list_fmap Join parse_value]. rewrite eat_here, E by done.
    change (bytes_of EmptyString) with (@nil N). cbn [app]. by rewrite eat_here.
  - destruct (members_read_back (depth + 1) (kx :: l) rest) as [f Hf]; [done|done|].
    exists (S f). cbn [parse_value]. rewrite eat_here, E by done.
    replace (eat 125 _) with (@None (list N)); [by rewrite Hf|].
    symmetry. rewrite fmap_cons. destruct (Join_cons_start (member_text kx) (member_text <$> l) "," (125 :: rest)) as [l' ->].
    destruct (member_start kx l') as (t & -> & _). by apply eat_other.
Qed.

Lemma number_value_reads_back depth s : number_text s ->
  forall rest, number_end rest -> exists fuel, parse_value fuel depth (bytes_of s ++ rest) = Parsed (ANumber s) rest.
Proof. intros Hn rest Hr. exists 1%nat. by apply number_reads_back. Qed.

Lemma writable_map d l : writable d (AMap l) -> exists d', d = S d' /\ Forall (fun kx => writable d' (snd kx)) l.
Proof. destruct d; [done|]. by eexists. Qed.

Lemma writable_slice d l : writable d (ASlice l) -> exists d', d = S d' /\ Forall (writable d') l.
Proof. destruct d; [done|]. by eexists. Qed.

Lemma writable_reads_back v : forall d depth,
  writable d v -> depth + N.of_nat d <= max_nesting_depth -> reads_back depth v.
Proof.
  induction v as [|b|s|f|s|z|z|l| |l IH|l IH] using any_rect'; intros d depth Hw Hd rest Hr.
  - exists 1%nat. by destruct rest.
  - exists 1%nat. by destruct b, rest.
  - exists 1%nat. apply string_reads_back.
  - cbn [json_marshal doc_of]. apply number_value_reads_back; [by destruct d|done].
  - cbn [json_marshal doc_of]. apply number_value_reads_back; [by destruct d|done].
  - cbn [json_marshal doc_of]. apply number_value_reads_back; [apply FormatInt_number|done].
  - cbn [json_marshal doc_of]. apply number_value_reads_back; [apply FormatInt_number|done].
  - cbn [json_marshal doc_of]. assert (Hd1 : (0 < d)%nat) by (by destruct d).
    assert (E1 : FormatInt <$> l = json_marshal <$> (AInt64 <$> l)) by (by rewrite <- list_fmap_compose).
    assert (E2 : (fun z => ANumber (FormatInt z)) <$> l = doc_of <$> (AInt64 <$> l)) by (by rewrite <- list_fmap_compose).
    rewrite E1, E2. apply array_reads_back; [lia|]. apply Forall_fmap, Forall_forall. intros z _. cbn [compose].
    split; [by apply (marshal_start 0 (AInt64 z))|]. apply number_value_reads_back, FormatInt_number.
  - exists 1%nat. by destruct rest.
  - apply writable_map in Hw as (d' & -> & Hw).
    rewrite json_marshal_map, doc_of_map.
    rewrite (sort_stable_fmap _ member_less) by done. rewrite <- list_fmap_compose.
    refine (object_reads_back depth (sort_stable member_less l) ltac:(lia) _ rest).
    rewrite sort_stable_perm. rewrite Forall_forall in *. intros kx Hin.
    apply (IH kx Hin d'); [by apply Hw|lia].
  - apply writable_slice in Hw as (d' & -> & Hw).
    rewrite json_marshal_slice, doc_of_slice.
    apply array_reads_back; [lia|]. rewrite Forall_forall in *. intros v Hin.
    split; [by eapply marshal_start, Hw|]. apply (IH v Hin d'); [by apply Hw|lia].
Qed.

(** The text of a value is a document: the value, its members in the order they
    are written. *)
Lemma text_value_marshal v : writable (N.to_nat max_nesting_depth) v -> text_value (json_marshal v) = Some (doc_of v).
Proof.
  intros Hw. destruct (writable_reads_back v _ 0 Hw) with (rest := @nil N) as [f Hf]; [by rewrite N2Nat.id|done|].
  rewrite app_nil_r in Hf. unfold text_value, read_value. by rewrite (parse_at_text_fuel _ _ _ _ _ Hf).
Qed.

Lemma body_of_text_marshal v : writable (N.to_nat max_nesting_depth) v -> body_of_text (json_marshal v) = Document (doc_of v).
Proof.
  intros Hw. assert (Hs := marshal_start _ _ Hw). assert (Ht := text_value_marshal _ Hw).
  unfold text_value in Ht. unfold body_of_text.
  destruct (is_empty (json_marshal v)) eqn:E; [apply is_empty_spec in E; by rewrite E in Hs|].
  destruct (read_value (json_marshal v)) as [v' r| |]; [|done..]. destruct (skip_ws r); [congruence|done].
Qed.

End RoundTrip.

(** ** Decoding through the text

    The persist gate decodes a payload by writing it and reading the text; its
    model reads the value itself.  The two agree. *)

Create HintDb through_text.

Section ThroughText.
Context `{U : Unicode, F : GoFloat}.

(** Values a Go program can hold, with keys that came from a document: int64 in
    range, UTF-8 keys. *)
Fixpoint go_value (d : nat) (v : any) : Prop :=
  match v with
  | AInt64 z | AInt z => in_int64 z = true
  | AInt64s l => Forall (fun z => in_int64 z = true) l
  | AMap l => match d with O => False | S d' => Forall (fun kx => to_utf8 (fst kx) = fst kx /\ go_value d' (snd kx)) l end
  | ASlice l => match d with O => False | S d' => Forall (go_value d') l end
  | _ => True
  end.

(** A decoder that does not see whether a value went through its text. *)
Definition through_text {A} (d : decoder A) : Prop :=
  forall n v old, go_value n v -> d (doc_of v) old = d v old.

Lemma to_utf8_idem s : to_utf8 (to_utf8 s) = to_utf8 s.
Proof. unfold to_utf8. by rewrite runes_string_of_runes by apply runes_valid. Qed.

Lemma dec_string_text : through_text dec_string.
Proof. intros n v old _. destruct v; try done. simpl. by rewrite to_utf8_idem. Qed.

Lemma dec_bool_text : through_text dec_bool.
Proof. intros n v old _. by destruct v. Qed.

Lemma FlexibleChainID_text : through_text FlexibleChainID_Unmarshal.
Proof.
  intros n v old Hv. destruct v; try done; cbn [doc_of FlexibleChainID_Unmarshal].
  - by rewrite to_utf8_idem.
  - rewrite ParseInt_FormatInt; [done|by destruct n].
  - rewrite ParseInt_FormatInt; [done|by destruct n].
Qed.

Lemma dec_elements_text {A} (d : decoder A) zero n l old : through_text d -> Forall (go_value n) l ->
  dec_elements d zero (doc_of <$> l) old = dec_elements d zero l old.
Proof.
  intros Hd Hl. revert old. induction Hl as [|x l Hx _ IH]; intros old; [done|].
  rewrite fmap_cons. cbn [dec_elements]. rewrite (Hd n) by done.
  destruct (d x (hd zero old)); [|done]. cbn [mbind option_bind]. by rewrite IH.
Qed.

Lemma dec_list_text {A} (d : decoder A) zero : through_text d -> through_text (dec_list d zero).
Proof.
  intros Hd n v old Hv. destruct v as [| | | | | | |l| |l|l]; try done.
  - cbn [doc_of dec_list]. assert (Hl : Forall (fun z => in_int64 z = true) l) by (by destruct n).
    rewrite <- (dec_elements_text d zero 0 (AInt64 <$> l)); [by rewrite <- list_fmap_compose|done|].
    by apply Forall_fmap.
  - rewrite doc_of_slice. cbn [dec_list]. destruct n; [done|]. by apply (dec_elements_text d zero n).
Qed.

Lemma field_text {A B} (get : A -> B) set (d : decoder B) : through_text d -> through_text (field get set d).
Proof. intros Hd n v old Hv. unfold field. by rewrite (Hd n). Qed.

Definition fields_through_text {A} (fields : list (string * decoder A)) : Prop :=
  Forall (fun f => through_text (snd f)) fields.

Lemma assign_text {A} (fields : list (string * decoder A)) n acc k x :
  fields_through_text fields -> go_value n x ->
  assign_member fields acc (k, doc_of x) = assign_member fields acc (k, x).
Proof.
  intros Hf Hx. unfold assign_member. destruct acc as [a|]; [|done]. cbn [mbind option_bind fst snd]. unfold find_field.
  destruct (find _ fields) as [f|] eqn:E; [|done]. apply find_some in E as [Hin _].
  unfold fields_through_text in Hf. rewrite Forall_forall in Hf. cbn [fmap option_fmap option_map].
  apply (Hf f (proj2 (list_elem_of_In _ _) Hin) n x a Hx).
Qed.

Lemma dec_struct_text {A} (fields : list (string * decoder A)) :
  fields_through_text fields -> through_text (dec_struct fields).
Proof.
  intros Hf n v old Hv. destruct v as [| | | | | | |l| |l|l]; try done.
  rewrite doc_of_map. cbn [dec_struct]. destruct n as [|n]; [done|]. simpl in Hv.
  assert (E : (fun kx => (to_utf8 (fst kx), doc_of (snd kx))) <$> sort_stable member_less l
              = (fun kx => (fst kx, doc_of (snd kx))) <$> sort_stable member_less l).
  { apply list_fmap_ext. intros i kx Hi. f_equal. apply list_elem_of_lookup_2, sort_stable_elem in Hi.
    rewrite Forall_forall in Hv. by apply Hv. }
  rewrite E, (sort_stable_fmap _ member_less) by done.
  rewrite (sort_stable_id member_less (sort_stable member_less l))
    by (apply sort_stable_sorted; exact (WeakOrder_str fst)).
  rewrite <- (sort_stable_perm member_less l) in Hv. clear E.
  generalize (Some old). induction Hv as [|[k x] s [_ Hx] _ IH]; intros acc; [done|].
  rewrite fmap_cons. cbn [foldl fst snd]. rewrite (assign_text _ n) by done. apply IH.
Qed.

Hint Resolve dec_string_text dec_bool_text FlexibleChainID_text dec_list_text field_text dec_struct_text : through_text.

Ltac fields_text := unfold fields_through_text; repeat (apply Forall_cons_2; [cbn [snd]; eauto with through_text|]); apply Forall_nil_2.

Lemma input_requirements_text : fields_through_text input_requirements_fields.
Proof. fields_text. Qed.
Lemma signature_text : fields_through_text signature_fields.
Proof. fields_text. Qed.
Lemma account_model_text : fields_through_text account_model_fields.
Proof. fields_text. Qed.
Lemma constraints_text : fields_through_text constraints_fields.
Proof. fields_text. Qed.
Lemma snapshot_chain_text : fields_through_text snapshot_chain_fields.
Proof. fields_text. Qed.
Lemma reference_text : fields_through_text reference_fields.
Proof. fields_text. Qed.
Lemma user_constraints_text : fields_through_text user_constraints_fields.
Proof. fields_text. Qed.
Lemma solution_ref_text : fields_through_text solution_ref_fields.
Proof. fields_text. Qed.

Hint Resolve input_requirements_text signature_text account_model_text constraints_text snapshot_chain_text
  reference_text user_constraints_text solution_ref_text : through_text.

Lemma snapshot_text : fields_through_text snapshot_fields.
Proof. fields_text. Qed.

Hint Resolve snapshot_text : through_text.

Lemma payload_text : fields_through_text payload_fields.
Proof. fields_text. Qed.

(** The persist gate decodes what a payload's text holds: writing the payload
    and reading the text back, members in the order of the text, gives what the
    gate decodes from the payload itself. *)
Lemma decode_payload_text raw n :
  writable (N.to_nat max_nesting_depth) (AMap raw) -> go_value n (AMap raw) ->
  decode_payload raw
  = (doc ← text_value (json_marshal (AMap raw)); dec_struct payload_fields doc zero_payload).
Proof.
  intros Hw Hg. rewrite text_value_marshal by done. cbn [mbind option_bind].
  symmetry. exact (dec_struct_text _ payload_text n (AMap raw) zero_payload Hg).
Qed.

End ThroughText.
