(* ===== verification/Metrics.v ===== *)
(** * Application counters

    [internal/metrics]: the counters of the service's own registry, as the
    values they hold.  Prometheus counters are float64, which counts exactly
    far beyond what a process can reach. *)

From stdpp Require Import base gmap strings.
From S2P Require Import Prelude.

(** The labels of [ExploreNoDeployableCandidateTotal]. *)
Record explore_labels := mkLabels {
  lb_rejection_code : string;
  lb_wallet_type : string;
  lb_binding : string;
  lb_missing_chain_count : string
}.

#[global] Instance explore_labels_eq_dec : EqDecision explore_labels.
Proof. solve_decision. Defined.

#[global] Instance explore_labels_countable : Countable explore_labels.
Proof.
  refine (inj_countable' (fun l => (lb_rejection_code l, lb_wallet_type l, lb_binding l, lb_missing_chain_count l))
            (fun '(a, b, c, d) => mkLabels a b c d) _).
  by intros [].
Defined.

Record MetricsRegistry := mkMetrics {
  CataloguePostureOrphanTotal : N;
  CatalogueMalformedManifestTotal : N;
  ExploreNoDeployableCandidateTotal : gmap explore_labels N;
  PersistUserConstraintsIncompatibleTotal : N
}.

Definition NewMetrics : MetricsRegistry := mkMetrics 0 0 ∅ 0.

Definition AddCataloguePostureOrphans (n : nat) (m : MetricsRegistry) : MetricsRegistry :=
  if Nat.ltb 0 n
  then mkMetrics (CataloguePostureOrphanTotal m + N.of_nat n) (CatalogueMalformedManifestTotal m)
         (ExploreNoDeployableCandidateTotal m) (PersistUserConstraintsIncompatibleTotal m)
  else m.

Definition AddCatalogueMalformedManifests (n : nat) (m : MetricsRegistry) : MetricsRegistry :=
  if Nat.ltb 0 n
  then mkMetrics (CataloguePostureOrphanTotal m) (CatalogueMalformedManifestTotal m + N.of_nat n)
         (ExploreNoDeployableCandidateTotal m) (PersistUserConstraintsIncompatibleTotal m)
  else m.

Definition IncExploreNoDeployableCandidate (l : explore_labels) (m : MetricsRegistry) : MetricsRegistry :=
  mkMetrics (CataloguePostureOrphanTotal m) (CatalogueMalformedManifestTotal m)
    (<[l := (default 0 (ExploreNoDeployableCandidateTotal m !! l) + 1)%N]> (ExploreNoDeployableCandidateTotal m))
    (PersistUserConstraintsIncompatibleTotal m).

Definition IncPersistUserConstraintsIncompatible (m : MetricsRegistry) : MetricsRegistry :=
  mkMetrics (CataloguePostureOrphanTotal m) (CatalogueMalformedManifestTotal m)
    (ExploreNoDeployableCandidateTotal m) (PersistUserConstraintsIncompatibleTotal m + 1).

(** The number of exploration events counted under all labels. *)
Definition explore_events (m : MetricsRegistry) : N :=
  map_fold (fun _ n acc => (n + acc)%N) 0%N (ExploreNoDeployableCandidateTotal m).

Lemma explore_events_Inc l m :
  explore_events (IncExploreNoDeployableCandidate l m) = (explore_events m + 1)%N.
Proof.
  unfold explore_events, IncExploreNoDeployableCandidate. cbn [ExploreNoDeployableCandidateTotal].
  set (t := ExploreNoDeployableCandidateTotal m).
  rewrite <- (insert_delete_eq t l (default 0%N (t !! l) + 1)%N).
  rewrite map_fold_insert_L; [|intros; lia|by rewrite lookup_delete_eq].
  destruct (t !! l) as [n|] eqn:E; cbn [default].
  - rewrite (map_fold_delete_L _ _ l n t) by (done || intros; lia). simpl. lia.
  - rewrite delete_id by done. simpl. lia.
Qed.
