(* ===== verification/Wire.v ===== *)
(** * The JSON of catalogue answers

    How [encoding/json] writes the structs that the read routes answer with:
    manifests, catalogue items, decisions and snapshots, member by member with
    the names and the [omitempty] options of their tags.  Numbers are kept as
    their decimal text, as in every document. *)

From stdpp Require Import base gmap sets list strings.
From Stdlib Require Import Ascii ZArith.
From S2P Require Import Prelude GoStrings GoUnicode Errors GoTime Manifest Registry Compat CryptoPolicy Explore GoAny PayloadHash Snapshot PersistGate OwnerStore Http.
Local Open Scope string_scope.
Local Open Scope list_scope.

(** ** Members *)

Definition members : Type := list (string * any).

Definition str_member (k s : string) : members := [(k, AString s)].
Definition bool_member (k : string) (b : bool) : members := [(k, ABool b)].
Definition int_member (k : string) (z : Z) : members := [(k, ANumber (FormatInt z))].
Definition list_member {A} (f : A -> any) (k : string) (l : list A) : members := [(k, ASlice (f <$> l))].

(** With [omitempty]. *)
Definition str_omit (k s : string) : members := if is_empty s then [] else [(k, AString s)].
Definition bool_omit (k : string) (b : bool) : members := if b then [(k, ABool b)] else [].
Definition int_omit (k : string) (z : Z) : members := if (z =? 0)%Z then [] else int_member k z.
Definition list_omit {A} (f : A -> any) (k : string) (l : list A) : members :=
  match l with [] => [] | _ => [(k, ASlice (f <$> l))] end.
Definition ptr_omit {A} (f : A -> any) (k : string) (o : option A) : members :=
  match o with None => [] | Some a => [(k, f a)] end.

(** A slice that is nil when it has no element is written as null. *)
Definition nil_list_member {A} (f : A -> any) (k : string) (l : list A) : members :=
  match l with [] => [(k, ANil)] | _ => [(k, ASlice (f <$> l))] end.

(** ** Provider manifests *)

Definition suggested_any (s : SuggestedUserConstraints) : any :=
  AMap (bool_member "allow_new_wallet" (su_AllowNewWallet s)
    ++ bool_member "address_continuity_required" (su_AddressContinuityRequired s)
    ++ str_member "key_rotation_model" (su_KeyRotationModel s)).

Definition input_requirements_any (i : InputRequirements) : any :=
  AMap (list_member AString "wallet_types" (ir_WalletTypes i)
    ++ bool_member "requires_wallet_control_proof" (ir_RequiresWalletControlProof i)).

Definition signature_any (s : SignatureProfile) : any :=
  AMap (str_member "scheme" (sig_Scheme s) ++ str_member "family" (sig_Family s)
    ++ str_member "key_rotation_model" (sig_KeyRotationModel s)).

Definition account_model_any (a : AccountModel) : any :=
  AMap (str_member "standard" (am_Standard a) ++ str_member "execution_model" (am_ExecutionModel a)
    ++ bool_member "requires_bundler" (am_RequiresBundler a)
    ++ bool_member "requires_entrypoint" (am_RequiresEntrypoint a)
    ++ list_omit AString "entrypoint_versions" (am_EntrypointVersions a)).

Definition constraints_any (c : ProfileConstraints) : any :=
  AMap (bool_member "requires_new_account" (pc_RequiresNewAccount c)
    ++ bool_member "address_continuity_supported" (pc_AddressContinuitySupported c)
    ++ bool_member "requires_local_signer_state" (pc_RequiresLocalSignerState c)).

Definition chain_support_any (c : ChainSupport) : any :=
  AMap (int_member "chain_id" (cs_ChainID c) ++ str_member "network" (cs_Network c)
    ++ str_member "status" (cs_Status c) ++ list_omit AString "capabilities" (cs_Capabilities c)).

Definition reference_any (r : Reference) : any :=
  AMap (str_member "kind" (rf_Kind r) ++ str_member "url" (rf_URL r)
    ++ str_omit "commit" (rf_Commit r) ++ str_omit "version" (rf_Version r)).

Definition profile_any (p : SolutionProfile) : any :=
  AMap (str_member "solution_profile_id" (sp_SolutionProfileID p)
    ++ str_member "display_name" (sp_DisplayName p)
    ++ str_member "maturity" (sp_Maturity p)
    ++ str_member "claim_status" (sp_ClaimStatus p)
    ++ str_member "resulting_posture" (sp_ResultingPosture p)
    ++ [("input_requirements", input_requirements_any (sp_InputRequirements p))]
    ++ [("signature", signature_any (sp_Signature p))]
    ++ [("account_model", account_model_any (sp_AccountModel p))]
    ++ [("constraints", constraints_any (sp_Constraints p))]
    ++ ptr_omit suggested_any "suggested_user_constraints" (sp_SuggestedUserConstraints p)
    ++ list_member chain_support_any "chain_support" (sp_ChainSupport p)
    ++ list_omit reference_any "references" (sp_References p)
    ++ list_omit AString "risk_notes" (sp_RiskNotes p)).

Definition manifest_any (m : ProviderManifest) : any :=
  AMap (str_member "schema_version" (pm_SchemaVersion m)
    ++ str_member "provider_id" (pm_ProviderID m)
    ++ str_member "provider_name" (pm_ProviderName m)
    ++ str_member "provider_version" (pm_ProviderVersion m)
    ++ str_member "provider_maturity" (pm_ProviderMaturity m)
    ++ str_omit "website" (pm_Website m)
    ++ list_member profile_any "solution_profiles" (pm_SolutionProfiles m)).

(** ** Catalogue items *)

Definition network_any (n : CompatibleNetwork) : any :=
  AMap (int_member "chain_id" (cn_ChainID n) ++ str_member "network" (cn_Network n)
    ++ str_member "status" (cn_Status n) ++ list_omit AString "capabilities" (cn_Capabilities n)).

Definition provider_summary_any (s : AllowedProviderSummary) : any :=
  AMap (str_member "provider_id" (aps_ProviderID s)
    ++ [("signature", AMap (str_member "scheme" (pss_Scheme (aps_Signature s))
                            ++ str_member "family" (pss_Family (aps_Signature s))))]
    ++ list_member network_any "networks" (aps_Networks s)).

Definition catalog_item_any (i : CryptoPolicyCatalogItem) : any :=
  AMap (str_member "id" (ci_ID i) ++ str_member "name" (ci_Name i) ++ str_member "version" (ci_Version i)
    ++ str_omit "description" (ci_Description i)
    ++ str_member "required_posture" (ci_RequiredPosture i)
    ++ nil_list_member AString "allowed_providers" (ci_AllowedProviders i)
    ++ list_member network_any "compatible_networks" (ci_CompatibleNetworks i)
    ++ list_member provider_summary_any "allowed_provider_summaries" (ci_AllowedProviderSummaries i)).

(** ** Decisions *)

(** The optional member [details] is left out: no finding of the domain packages
    has any. *)
Definition finding_any (f : AssessmentFinding) : any :=
  AMap (str_member "code" (af_Code f) ++ str_omit "message" (af_Message f)
    ++ str_member "severity" (af_Severity f) ++ str_omit "field" (af_Field f)).

Definition solution_ref_any (r : SolutionProfileRef) : any :=
  AMap (str_member "provider_id" (spr_ProviderID r)
    ++ str_member "solution_profile_id" (spr_SolutionProfileID r)
    ++ str_member "manifest_version" (spr_ManifestVersion r)
    ++ str_omit "verification_date" (spr_VerificationDate r)).

Definition composition_any (c : CompositionView) : any :=
  AMap [("account_model",
          AMap (str_member "standard" (cam_Standard (cv_AccountModel c))
            ++ str_member "execution_model" (cam_ExecutionModel (cv_AccountModel c))
            ++ bool_member "requires_bundler" (cam_RequiresBundler (cv_AccountModel c))
            ++ bool_member "requires_entrypoint" (cam_RequiresEntrypoint (cv_AccountModel c))
            ++ list_omit AString "entrypoint_versions" (cam_EntrypointVersions (cv_AccountModel c))));
        ("signature",
          AMap (str_member "scheme" (csg_Scheme (cv_Signature c))
            ++ str_member "family" (csg_Family (cv_Signature c))
            ++ str_member "key_rotation_model" (csg_KeyRotationModel (cv_Signature c))));
        ("constraints",
          AMap (bool_member "requires_new_account" (ccn_RequiresNewAccount (cv_Constraints c))
            ++ bool_member "address_continuity_supported" (ccn_AddressContinuitySupported (cv_Constraints c))
            ++ bool_member "requires_local_signer_state" (ccn_RequiresLocalSignerState (cv_Constraints c))))].

(** The members that ranked and rejected candidates share. *)
Definition candidate_members (candidateID policyID instanceID templateID required resulting : string)
    (ref : SolutionProfileRef) (maturity claim status : string) (findings : list AssessmentFinding) : members :=
  str_member "candidate_id" candidateID ++ str_member "policy_id" policyID
  ++ str_omit "crypto_policy_instance_id" instanceID ++ str_omit "template_id" templateID
  ++ str_omit "required_posture" required ++ str_omit "resulting_posture" resulting
  ++ [("solution_profile_ref", solution_ref_any ref)]
  ++ str_omit "maturity" maturity ++ str_omit "claim_status" claim
  ++ str_member "compatibility_status" status
  ++ list_member finding_any "compatibility_findings" findings.

Definition ranked_any (c : RankedPolicy) : any :=
  AMap (candidate_members (rk_CandidateID c) (rk_PolicyID c) (rk_CryptoPolicyInstanceID c) (rk_TemplateID c)
          (rk_RequiredPosture c) (rk_ResultingPosture c) (rk_SolutionProfileRef c) (rk_Maturity c)
          (rk_ClaimStatus c) (rk_CompatibilityStatus c) (rk_CompatibilityFindings c)
    ++ ptr_omit suggested_any "suggested_user_constraints" (rk_SuggestedUserConstraints c)
    ++ ptr_omit composition_any "composition" (rk_Composition c)).

(** The rejection reasons are not written. *)
Definition rejected_any (c : RejectedPolicy) : any :=
  AMap (candidate_members (rj_CandidateID c) (rj_PolicyID c) (rj_CryptoPolicyInstanceID c) (rj_TemplateID c)
          (rj_RequiredPosture c) (rj_ResultingPosture c) (rj_SolutionProfileRef c) (rj_Maturity c)
          (rj_ClaimStatus c) (rj_CompatibilityStatus c) (rj_CompatibilityFindings c)).

Definition int_any (z : Z) : any := ANumber (FormatInt z).

Definition request_summary_any (s : RequestSummary) : any :=
  AMap (str_omit "crypto_policy_id" (rs_CryptoPolicyID s) ++ str_omit "target_posture" (rs_TargetPosture s)
    ++ list_omit int_any "target_chain_ids" (rs_TargetChainIDs s)
    ++ bool_omit "require_multichain" (rs_RequireMultichain s)
    ++ bool_omit "allow_new_wallet" (rs_AllowNewWallet s)
    ++ bool_omit "address_continuity_required" (rs_AddressContinuityRequired s)
    ++ int_omit "minimum_maturity" (rs_MinimumMaturity s)).

Definition decision_any (d : PolicyDecision) : any :=
  AMap ([("observed_wallet_summary", AMap (list_omit int_any "chain_ids" (pd_ObservedChainIDs d)))]
    ++ [("request_summary", request_summary_any (pd_RequestSummary d))]
    ++ str_omit "selected_policy_id" (pd_SelectedPolicyID d)
    ++ str_omit "selected_policy_instance_id" (pd_SelectedPolicyInstanceID d)
    ++ list_member ranked_any "scan_compatible_providers" (pd_RankedCandidates d)
    ++ list_omit rejected_any "rejected_candidates" (pd_RejectedCandidates d)
    ++ list_omit AString "warnings" (pd_Warnings d)).

(** ** Snapshots *)

Definition snapshot_chain_any (c : SnapshotChainSupport) : any :=
  AMap ([("chain_id", FlexibleChainID_Marshal (scs_ChainID c))] ++ str_member "status" (scs_Status c)
    ++ list_omit AString "capabilities" (scs_Capabilities c)).

Definition snapshot_any (s : AcceptedProviderSnapshot) : any :=
  AMap (str_member "maturity" (snap_Maturity s) ++ str_member "claim_status" (snap_ClaimStatus s)
    ++ str_member "resulting_posture" (snap_ResultingPosture s)
    ++ [("input_requirements", input_requirements_any (snap_InputRequirements s))]
    ++ [("signature", signature_any (snap_Signature s))]
    ++ [("account_model", account_model_any (snap_AccountModel s))]
    ++ [("constraints", constraints_any (snap_Constraints s))]
    ++ list_member snapshot_chain_any "chain_support_used" (snap_ChainSupportUsed s)
    ++ nil_list_member reference_any "references" (snap_References s)
    ++ list_member AString "accepted_findings" (snap_AcceptedFindings s)
    ++ list_omit AString "accepted_risk_notes" (snap_AcceptedRiskNotes s)).
