(* ===== verification/ReadStore.v ===== *)
(** * The catalogue behind the read routes

    [internal/api/catalogue_load.go], the loading half of [read_api.go], and the
    decoding of catalogue documents ([LoadProviderManifestFromBytes],
    [LoadCryptoPolicyFromBytes], [LoadRegistryFromFiles]): how crypto policies
    and provider manifests get from files into the store the routes read.

    The file system is an argument: what [os.ReadDir] and [os.ReadFile] answer.
    The load keeps the lines it logs as events. *)

From stdpp Require Import base gmap sets list strings sorting.
From Stdlib Require Import Ascii ZArith.
From S2P Require Import Prelude GoStrings GoUnicode Errors GoTime Manifest Registry Compat CryptoPolicy GoAny PayloadHash Snapshot PersistGate OwnerStore Http Wire Metrics.
Local Open Scope string_scope.
Local Open Scope list_scope.

(** ** Files *)

Inductive file :=
| ReadFails (text : string)
| File (b : body).

Record FileSystem := mkFileSystem {
  fs_ReadDir : string -> res string (list (string * bool));   (** names, and whether each is a directory *)
  fs_ReadFile : string -> file
}.

(** [filepath.Clean]: the stack of elements seen so far, topmost first. *)
Definition clean_step (rooted : bool) (stack : list string) (elem : string) : list string :=
  if is_empty elem || String.eqb elem "." then stack
  else if String.eqb elem ".." then
    match stack with
    | top :: rest => if String.eqb top ".." then ".." :: stack else rest
    | [] => if rooted then [] else [".."]
    end
  else elem :: stack.

Definition Clean (path : string) : string :=
  let rooted := HasPrefix path "/" in
  let stack := foldl (clean_step rooted) [] (Split path "/") in
  let out := (if rooted then "/" else EmptyString) +:+ Join (rev stack) "/" in
  if is_empty out then "." else out.

(** [filepath.Join] of two elements that are not empty. *)
Definition filepath_Join (dir name : string) : string := Clean (dir +:+ "/" +:+ name).

(** ** Documents *)

Section Documents.
Context `{U : Unicode, F : GoFloat, JE : JsonErrors}.

Definition suggested_fields : list (string * decoder SuggestedUserConstraints) :=
  [("allow_new_wallet", field su_AllowNewWallet (fun x '(mkSuggested a b c) => mkSuggested x b c) dec_bool);
   ("address_continuity_required", field su_AddressContinuityRequired
      (fun x '(mkSuggested a b c) => mkSuggested a x c) dec_bool);
   ("key_rotation_model", field su_KeyRotationModel (fun x '(mkSuggested a b c) => mkSuggested a b x) dec_string)].

Definition chain_support_fields : list (string * decoder ChainSupport) :=
  [("chain_id", field cs_ChainID (fun x '(mkChainSupport a b c d) => mkChainSupport x b c d) dec_int64);
   ("network", field cs_Network (fun x '(mkChainSupport a b c d) => mkChainSupport a x c d) dec_string);
   ("status", field cs_Status (fun x '(mkChainSupport a b c d) => mkChainSupport a b x d) dec_string);
   ("capabilities", field cs_Capabilities (fun x '(mkChainSupport a b c d) => mkChainSupport a b c x)
      (dec_list dec_string EmptyString))].

Definition zero_chain_support : ChainSupport := mkChainSupport 0 EmptyString EmptyString [].

Definition zero_profile : SolutionProfile :=
  mkProfile EmptyString EmptyString EmptyString EmptyString EmptyString (mkInputRequirements [] false)
    (mkSignature EmptyString EmptyString EmptyString)
    (mkAccountModel EmptyString EmptyString false false []) (mkConstraints false false false) None [] [] [].

Definition profile_fields : list (string * decoder SolutionProfile) :=
  [("solution_profile_id", field sp_SolutionProfileID
      (fun x '(mkProfile a b c d e f g h i j k l m) => mkProfile x b c d e f g h i j k l m) dec_string);
   ("display_name", field sp_DisplayName
      (fun x '(mkProfile a b c d e f g h i j k l m) => mkProfile a x c d e f g h i j k l m) dec_string);
   ("maturity", field sp_Maturity
      (fun x '(mkProfile a b c d e f g h i j k l m) => mkProfile a b x d e f g h i j k l m) dec_string);
   ("claim_status", field sp_ClaimStatus
      (fun x '(mkProfile a b c d e f g h i j k l m) => mkProfile a b c x e f g h i j k l m) dec_string);
   ("resulting_posture", field sp_ResultingPosture
      (fun x '(mkProfile a b c d e f g h i j k l m) => mkProfile a b c d x f g h i j k l m) dec_string);
   ("input_requirements", field sp_InputRequirements
      (fun x '(mkProfile a b c d e f g h i j k l m) => mkProfile a b c d e x g h i j k l m)
      (dec_document input_requirements_fields));
   ("signature", field sp_Signature
      (fun x '(mkProfile a b c d e f g h i j k l m) => mkProfile a b c d e f x h i j k l m)
      (dec_document signature_fields));
   ("account_model", field sp_AccountModel
      (fun x '(mkProfile a b c d e f g h i j k l m) => mkProfile a b c d e f g x i j k l m)
      (dec_document account_model_fields));
   ("constraints", field sp_Constraints
      (fun x '(mkProfile a b c d e f g h i j k l m) => mkProfile a b c d e f g h x j k l m)
      (dec_document constraints_fields));
   ("suggested_user_constraints", field sp_SuggestedUserConstraints
      (fun x '(mkProfile a b c d e f g h i j k l m) => mkProfile a b c d e f g h i x k l m)
      (dec_pointer (dec_document suggested_fields) (mkSuggested false false EmptyString)));
   ("chain_support", field sp_ChainSupport
      (fun x '(mkProfile a b c d e f g h i j k l m) => mkProfile a b c d e f g h i j x l m)
      (dec_list (dec_document chain_support_fields) zero_chain_support));
   ("references", field sp_References
      (fun x '(mkProfile a b c d e f g h i j k l m) => mkProfile a b c d e f g h i j k x m)
      (dec_list (dec_document reference_fields) zero_reference));
   ("risk_notes", field sp_RiskNotes
      (fun x '(mkProfile a b c d e f g h i j k l m) => mkProfile a b c d e f g h i j k l x)
      (dec_list dec_string EmptyString))].

Definition zero_manifest : ProviderManifest :=
  mkManifest EmptyString EmptyString EmptyString EmptyString EmptyString EmptyString [].

Definition manifest_fields : list (string * decoder ProviderManifest) :=
  [("schema_version", field pm_SchemaVersion
      (fun x '(mkManifest a b c d e f g) => mkManifest x b c d e f g) dec_string);
   ("provider_id", field pm_ProviderID
      (fun x '(mkManifest a b c d e f g) => mkManifest a x c d e f g) dec_string);
   ("provider_name", field pm_ProviderName
      (fun x '(mkManifest a b c d e f g) => mkManifest a b x d e f g) dec_string);
   ("provider_version", field pm_ProviderVersion
      (fun x '(mkManifest a b c d e f g) => mkManifest a b c x e f g) dec_string);
   ("provider_maturity", field pm_ProviderMaturity
      (fun x '(mkManifest a b c d e f g) => mkManifest a b c d x f g) dec_string);
   ("website", field pm_Website
      (fun x '(mkManifest a b c d e f g) => mkManifest a b c d e x g) dec_string);
   ("solution_profiles", field pm_SolutionProfiles
      (fun x '(mkManifest a b c d e f g) => mkManifest a b c d e f x)
      (dec_list (dec_document profile_fields) zero_profile))].

Definition crypto_policy_fields : list (string * decoder CryptoPolicy) :=
  [("id", field cp_ID (fun x '(mkCryptoPolicy a b c d e f) => mkCryptoPolicy x b c d e f) dec_string);
   ("name", field cp_Name (fun x '(mkCryptoPolicy a b c d e f) => mkCryptoPolicy a x c d e f) dec_string);
   ("version", field cp_Version (fun x '(mkCryptoPolicy a b c d e f) => mkCryptoPolicy a b x d e f) dec_string);
   ("description", field cp_Description
      (fun x '(mkCryptoPolicy a b c d e f) => mkCryptoPolicy a b c x e f) dec_string);
   ("required_posture", field cp_RequiredPosture
      (fun x '(mkCryptoPolicy a b c d e f) => mkCryptoPolicy a b c d x f) dec_string);
   ("allowed_providers", field cp_AllowedProviders
      (fun x '(mkCryptoPolicy a b c d e f) => mkCryptoPolicy a b c d e x) (dec_list dec_string EmptyString))].

Definition zero_crypto_policy : CryptoPolicy :=
  mkCryptoPolicy EmptyString EmptyString EmptyString EmptyString EmptyString [].

Definition LoadProviderManifestFromBytes (raw : body) : gores ProviderManifest :=
  match Unmarshal "provider.ProviderManifest" manifest_fields zero_manifest raw with
  | Err e => Err (wrap_prefix "decode provider manifest" e)
  | Ok m => ProviderManifest_NormalizeAndValidate m
  end.

Definition LoadProviderManifestFromFile (fs : FileSystem) (path : string) : gores ProviderManifest :=
  match fs_ReadFile fs path with
  | ReadFails text => Err (errors_New ("read provider manifest file: " +:+ text))
  | File raw => LoadProviderManifestFromBytes raw
  end.

Definition LoadCryptoPolicyFromBytes (raw : body) : gores CryptoPolicy :=
  match Unmarshal "policy.CryptoPolicy" crypto_policy_fields zero_crypto_policy raw with
  | Err e => Err (wrap_prefix "decode crypto policy" e)
  | Ok cp => CryptoPolicy_NormalizeAndValidate cp
  end.

Definition LoadCryptoPolicyFromFile (fs : FileSystem) (path : string) : gores CryptoPolicy :=
  match fs_ReadFile fs path with
  | ReadFails text => Err (errors_New ("read crypto policy file: " +:+ text))
  | File raw => LoadCryptoPolicyFromBytes raw
  end.

(** The loop of [LoadRegistryFromFiles]: blank paths are skipped, the first
    failure stops the load. *)
Fixpoint load_registry (fs : FileSystem) (reg : Registry) (paths : list string) : gores Registry :=
  match paths with
  | [] => Ok reg
  | path0 :: paths' =>
      let path := TrimSpace path0 in
      if is_empty path then load_registry fs reg paths'
      else
        match LoadProviderManifestFromFile fs path with
        | Err e => Err (wrap_prefix ("provider manifest " +:+ Quote path) e)
        | Ok m =>
            match AddManifest reg (Some m) with
            | (_, Err e) => Err (wrap_prefix ("provider manifest " +:+ Quote path) e)
            | (reg', Ok _) => load_registry fs reg' paths'
            end
        end
  end.

Definition LoadRegistryFromFiles (fs : FileSystem) (paths : list string) : gores Registry :=
  load_registry fs NewRegistry paths.

(** ** Classification *)

Inductive catalogueKind :=
| catalogueKindCryptoPolicy
| catalogueKindProviderManifest
| catalogueKindSkip.

#[global] Instance catalogueKind_eq_dec : EqDecision catalogueKind.
Proof. solve_decision. Defined.

Record peekCatalogueJSON := mkPeek {
  pk_SchemaVersion : string;
  pk_ProviderID : string;
  pk_SolutionProfiles : option any;
  pk_RequiredPosture : string;
  pk_AllowedProviders : option any;
  pk_SolutionProfileRef : option any;
  pk_TemplateID : string;
  pk_CatalogVersion : string
}.

Definition peek_fields : list (string * decoder peekCatalogueJSON) :=
  [("schema_version", field pk_SchemaVersion
      (fun x '(mkPeek a b c d e f g h) => mkPeek x b c d e f g h) dec_string);
   ("provider_id", field pk_ProviderID
      (fun x '(mkPeek a b c d e f g h) => mkPeek a x c d e f g h) dec_string);
   ("solution_profiles", field pk_SolutionProfiles
      (fun x '(mkPeek a b c d e f g h) => mkPeek a b x d e f g h) dec_raw);
   ("required_posture", field pk_RequiredPosture
      (fun x '(mkPeek a b c d e f g h) => mkPeek a b c x e f g h) dec_string);
   ("allowed_providers", field pk_AllowedProviders
      (fun x '(mkPeek a b c d e f g h) => mkPeek a b c d x f g h) dec_raw);
   ("solution_profile_ref", field pk_SolutionProfileRef
      (fun x '(mkPeek a b c d e f g h) => mkPeek a b c d e x g h) dec_raw);
   ("template_id", field pk_TemplateID
      (fun x '(mkPeek a b c d e f g h) => mkPeek a b c d e f x h) dec_string);
   ("catalog_version", field pk_CatalogVersion
      (fun x '(mkPeek a b c d e f g h) => mkPeek a b c d e f g x) dec_string)].

Definition zero_peek : peekCatalogueJSON :=
  mkPeek EmptyString EmptyString None EmptyString None None EmptyString EmptyString.

(** [len(raw) > 0 && string(raw) != "null"]. *)
Definition raw_present (raw : option any) : bool :=
  match raw with None | Some ANil => false | Some _ => true end.

Definition classifyCatalogueJSON (raw : body) : catalogueKind :=
  match decode_body peek_fields raw zero_peek with
  | None => catalogueKindSkip
  | Some peek =>
      let schema := ToLower (TrimSpace (pk_SchemaVersion peek)) in
      if Contains schema "provider_manifest" then catalogueKindProviderManifest
      else if negb (is_empty (TrimSpace (pk_ProviderID peek))) && raw_present (pk_SolutionProfiles peek)
      then catalogueKindProviderManifest
      else if negb (is_empty (TrimSpace (pk_TemplateID peek)))
              || negb (is_empty (TrimSpace (pk_CatalogVersion peek)))
              || raw_present (pk_SolutionProfileRef peek)
      then catalogueKindSkip
      else if negb (is_empty (TrimSpace (pk_RequiredPosture peek))) && raw_present (pk_AllowedProviders peek)
      then catalogueKindCryptoPolicy
      else catalogueKindSkip
  end.

End Documents.

(** ** The store *)

Record ReadStore := mkReadStore {
  cryptoPolicies : list CryptoPolicy;
  cryptoPolicyByID : gmap string CryptoPolicy;
  providers : Registry
}.

Record ReadStoreOptions := mkOptions {
  op_CatalogueDir : string;
  op_CryptoPolicyPaths : list string;
  op_ProviderManifestPaths : list string
}.

(** The lines a directory load logs. *)
Inductive load_event :=
| SkippedUnreadable (path text : string)
| SkippedManifest (path : string) (e : goerror)
| SkippedByRegistry (path : string) (e : goerror)
| LoadedManifest (path providerID : string)
| SkippedPolicy (path : string) (e : goerror)
| SkippedDuplicatePolicy (path id : string)
| LoadedPolicy (path id : string)
| SkippedOther (path : string).

(** What the loop over the files has gathered. *)
Record catalogue := mkCatalogue {
  ct_policies : list CryptoPolicy;
  ct_byID : gmap string CryptoPolicy;
  ct_reg : Registry;
  ct_log : list load_event
}.

Section Load.
Context `{U : Unicode, F : GoFloat, GS : GoSort, JE : JsonErrors}.

Definition is_json_name (name : string) : bool := HasSuffix (ToLower name) ".json".

Definition listCatalogueJSONFiles (fs : FileSystem) (dir : string) : res string (list string) :=
  match fs_ReadDir fs dir with
  | Err text => Err text
  | Ok entries =>
      Ok (sort_stable str_lt
            (omap (fun '(name, isDir) =>
                     if isDir : bool then None
                     else if negb (is_json_name name) then None
                     else Some (filepath_Join dir name)) entries))
  end.

(** One round of the loop. *)
Definition load_file (fs : FileSystem) (c : catalogue) (path : string) : catalogue :=
  let log e := mkCatalogue (ct_policies c) (ct_byID c) (ct_reg c) (ct_log c ++ [e]) in
  match fs_ReadFile fs path with
  | ReadFails text => log (SkippedUnreadable path text)
  | File raw =>
      match classifyCatalogueJSON raw with
      | catalogueKindProviderManifest =>
          match LoadProviderManifestFromBytes raw with
          | Err e => log (SkippedManifest path e)
          | Ok m =>
              match AddManifest (ct_reg c) (Some m) with
              | (reg', Err e) =>
                  mkCatalogue (ct_policies c) (ct_byID c) reg' (ct_log c ++ [SkippedByRegistry path e])
              | (reg', Ok _) =>
                  mkCatalogue (ct_policies c) (ct_byID c) reg' (ct_log c ++ [LoadedManifest path (pm_ProviderID m)])
              end
          end
      | catalogueKindCryptoPolicy =>
          match LoadCryptoPolicyFromBytes raw with
          | Err e => log (SkippedPolicy path e)
          | Ok cp =>
              match ct_byID c !! cp_ID cp with
              | Some _ => log (SkippedDuplicatePolicy path (cp_ID cp))
              | None =>
                  mkCatalogue (ct_policies c ++ [cp]) (<[cp_ID cp := cp]> (ct_byID c)) (ct_reg c)
                    (ct_log c ++ [LoadedPolicy path (cp_ID cp)])
              end
          end
      | catalogueKindSkip => log (SkippedOther path)
      end
  end.

Definition empty_catalogue : catalogue := mkCatalogue [] ∅ NewRegistry [].

(** Flags the contradicting profiles and counts them, and the orphan policies. *)
Definition emitCatalogueLoadSignals (store : ReadStore) (mt : MetricsRegistry) : ReadStore * MetricsRegistry :=
  match ApplyManifestLoadSignals (Some (providers store)) with
  | (Some reg, malformed) =>
      let mt := AddCatalogueMalformedManifests malformed mt in
      let orphans := CheckPostureOrphanage (Some <$> cryptoPolicies store) (Some reg) in
      (mkReadStore (cryptoPolicies store) (cryptoPolicyByID store) reg, AddCataloguePostureOrphans orphans mt)
  | (None, _) => (store, mt)
  end.

(** The part after the listing.  A load returns what it logged, the counters,
    and the store or an error. *)
Definition load_listed (fs : FileSystem) (dir : string) (files : list string) (mt : MetricsRegistry)
    : list load_event * MetricsRegistry * gores ReadStore :=
  match files with
  | [] => ([], mt, Err (errors_New ("catalogue dir " +:+ Quote dir +:+ " contains no .json files")))
  | _ =>
      let c := foldl (load_file fs) empty_catalogue files in
      if Nat.eqb (length (ct_policies c)) 0
      then (ct_log c, mt, Err (errors_New ("catalogue dir " +:+ Quote dir +:+ ": no valid crypto policies loaded")))
      else if Nat.eqb (length (Registry_List (Some (ct_reg c)))) 0
      then (ct_log c, mt, Err (errors_New ("catalogue dir " +:+ Quote dir
                                           +:+ ": no valid provider manifests loaded")))
      else
        let '(store, mt') := emitCatalogueLoadSignals
          (mkReadStore (ct_policies c) (ct_byID c) (ct_reg c)) mt in
        (ct_log c, mt', Ok store)
  end.

Definition loadReadStoreFromCatalogueDir (fs : FileSystem) (dir0 : string) (mt : MetricsRegistry)
    : list load_event * MetricsRegistry * gores ReadStore :=
  let dir := TrimSpace dir0 in
  if is_empty dir then ([], mt, Err (errors_New "catalogue dir is required"))
  else
    match listCatalogueJSONFiles fs dir with
    | Err text => ([], mt, Err (errors_New ("read catalogue dir " +:+ Quote dir +:+ ": " +:+ text)))
    | Ok files => load_listed fs dir files mt
    end.

(** The loop of [LoadReadStore] over explicit policy paths. *)
Fixpoint load_policy_paths (fs : FileSystem) (paths : list string)
    (policies : list CryptoPolicy) (byID : gmap string CryptoPolicy)
    : gores (list CryptoPolicy * gmap string CryptoPolicy) :=
  match paths with
  | [] => Ok (policies, byID)
  | path :: paths' =>
      match LoadCryptoPolicyFromFile fs path with
      | Err e => Err (wrap_prefix ("load crypto policy " +:+ Quote path) e)
      | Ok cp =>
          match byID !! cp_ID cp with
          | Some _ => Err (errors_New ("duplicate crypto policy id " +:+ Quote (cp_ID cp)))
          | None => load_policy_paths fs paths' (policies ++ [cp]) (<[cp_ID cp := cp]> byID)
          end
      end
  end.

Definition LoadReadStore (fs : FileSystem) (opts : ReadStoreOptions) (mt : MetricsRegistry)
    : list load_event * MetricsRegistry * gores ReadStore :=
  let dir := TrimSpace (op_CatalogueDir opts) in
  if negb (is_empty dir) then loadReadStoreFromCatalogueDir fs dir mt
  else if Nat.eqb (length (op_CryptoPolicyPaths opts)) 0
  then ([], mt, Err (errors_New "at least one crypto policy path is required (or set CatalogueDir)"))
  else if Nat.eqb (length (op_ProviderManifestPaths opts)) 0
  then ([], mt, Err (errors_New "at least one provider manifest path is required (or set CatalogueDir)"))
  else
    match load_policy_paths fs (op_CryptoPolicyPaths opts) [] ∅ with
    | Err e => ([], mt, Err e)
    | Ok (policies, byID) =>
        match LoadRegistryFromFiles fs (op_ProviderManifestPaths opts) with
        | Err e => ([], mt, Err (wrap_prefix "load provider manifests" e))
        | Ok reg =>
            let '(store, mt') := emitCatalogueLoadSignals (mkReadStore policies byID reg) mt in
            ([], mt', Ok store)
        end
    end.

End Load.

(** ** What a load gathers *)

(** The first element of each key, in order. *)
Definition add_first {A} (key : A -> string) (acc : list A) (x : A) : list A :=
  if existsb (fun y => String.eqb (key y) (key x)) acc then acc else acc ++ [x].

Definition first_by {A} (key : A -> string) (l : list A) : list A := foldl (add_first key) [] l.

Definition find_by {A} (key : A -> string) (k : string) (l : list A) : option A :=
  find (fun x => String.eqb (key x) k) l.

Section FirstBy.
Context {A : Type} (key : A -> string).

Lemma find_by_snoc k l x : find_by key k (l ++ [x])
  = match find_by key k l with
    | Some y => Some y
    | None => if String.eqb (key x) k then Some x else None
    end.
Proof.
  unfold find_by. induction l as [|y l IH]; simpl; [done|]. destruct (String.eqb (key y) k); [done|apply IH].
Qed.

Lemma first_by_snoc l x : first_by key (l ++ [x]) = add_first key (first_by key l) x.
Proof. unfold first_by. by rewrite foldl_snoc. Qed.

Lemma find_by_Some k l x : find_by key k l = Some x -> x ∈ l /\ key x = k.
Proof. intros H. apply find_some in H as [H E]. by rewrite <- list_elem_of_In in H; apply String.eqb_eq in E. Qed.

Lemma find_by_None k l : find_by key k l = None <-> forall x, x ∈ l -> key x <> k.
Proof.
  split.
  - intros H x Hx E. eapply find_none in H; [|by apply list_elem_of_In]. simpl in H.
    by rewrite E, String.eqb_refl in H.
  - intros H. destruct (find_by key k l) as [x|] eqn:E; [|done]. apply find_by_Some in E as [Hx E]. by destruct (H x).
Qed.

Lemma existsb_key k l : existsb (fun y => String.eqb (key y) k) l = true <-> is_Some (find_by key k l).
Proof.
  rewrite existsb_exists. setoid_rewrite <- list_elem_of_In. setoid_rewrite String.eqb_eq. split.
  - intros (x & Hx & E). destruct (find_by key k l) eqn:Hf; [done|].
    apply find_by_None with (x := x) in Hf; [done|done].
  - intros [x [Hx E]%find_by_Some]. by exists x.
Qed.

Lemma find_first_by k l : find_by key k (first_by key l) = find_by key k l.
Proof.
  induction l as [|x l IH] using rev_ind; [done|]. rewrite first_by_snoc, find_by_snoc. unfold add_first.
  destruct (existsb _ _) eqn:E.
  - rewrite IH. destruct (find_by key k l) eqn:Hk; [done|]. destruct (String.eqb_spec (key x) k) as [<-|]; [|done].
    apply existsb_key in E as [y Hy]. congruence.
  - by rewrite find_by_snoc, IH.
Qed.

Lemma first_by_elem l x : x ∈ first_by key l -> x ∈ l.
Proof.
  induction l as [|y l IH] using rev_ind; [done|]. rewrite first_by_snoc. unfold add_first.
  destruct (existsb _ _); set_solver.
Qed.

Lemma first_by_nodup l : NoDup (key <$> first_by key l).
Proof.
  induction l as [|y l IH] using rev_ind; [constructor|]. rewrite first_by_snoc. unfold add_first.
  destruct (existsb _ _) eqn:E; [done|]. rewrite fmap_app. apply NoDup_app. split_and!; [done| |apply NoDup_singleton].
  intros k (x & -> & Hx)%list_elem_of_fmap H. apply list_elem_of_singleton in H.
  assert (existsb (fun z => String.eqb (key z) (key y)) (first_by key l) = true) as Ht; [|congruence].
  apply existsb_exists. exists x. rewrite <- list_elem_of_In, String.eqb_eq. done.
Qed.

Lemma find_nodup l x : NoDup (key <$> l) -> x ∈ l -> find_by key (key x) l = Some x.
Proof.
  intros Hnd Hx. destruct (find_by key (key x) l) as [y|] eqn:E.
  - apply find_by_Some in E as [Hy E]. f_equal.
    apply list_elem_of_lookup in Hx as [i Hi]. apply list_elem_of_lookup in Hy as [j Hj].
    assert (i = j) as ->; [|congruence].
    eapply (NoDup_lookup _ i j (key x)); [done|by rewrite list_lookup_fmap, Hi|by rewrite list_lookup_fmap, Hj, <- E].
  - by eapply find_by_None in E.
Qed.

Lemma first_by_nil l : first_by key l = [] <-> l = [].
Proof.
  split; [|by intros ->]. intros H. destruct l as [|x l]; [done|].
  pose proof (find_first_by (key x) (x :: l)) as E. rewrite H in E. simpl in E.
  by rewrite String.eqb_refl in E.
Qed.

End FirstBy.

Section LoadSpec.
Context `{U : Unicode, F : GoFloat, GS : GoSort, JE : JsonErrors}.

(** What a file contributes to a directory load. *)
Definition manifest_at (fs : FileSystem) (path : string) : option ProviderManifest :=
  match fs_ReadFile fs path with
  | File raw =>
      match classifyCatalogueJSON raw, LoadProviderManifestFromBytes raw with
      | catalogueKindProviderManifest, Ok m => Some m
      | _, _ => None
      end
  | ReadFails _ => None
  end.

Definition policy_at (fs : FileSystem) (path : string) : option CryptoPolicy :=
  match fs_ReadFile fs path with
  | File raw =>
      match classifyCatalogueJSON raw, LoadCryptoPolicyFromBytes raw with
      | catalogueKindCryptoPolicy, Ok cp => Some cp
      | _, _ => None
      end
  | ReadFails _ => None
  end.

Definition manifest_key (m : ProviderManifest) : string := providerKey (pm_ProviderID m).

(** No provider id of the files holds a NUL byte, the separator of profile keys. *)
Definition no_nul_ids (fs : FileSystem) (paths : list string) : Prop :=
  forall path m raw, path ∈ paths -> fs_ReadFile fs path = File raw ->
    LoadProviderManifestFromBytes raw = Ok m -> has_byte Ascii.zero (pm_ProviderID m) = false.

Lemma LoadProviderManifest_wf raw m : LoadProviderManifestFromBytes raw = Ok m ->
  has_byte Ascii.zero (pm_ProviderID m) = false -> manifest_wf m.
Proof.
  unfold LoadProviderManifestFromBytes. destruct (Unmarshal _ _ _ _) as [d|]; [|done].
  intros [-> Hv]%NormalizeAndValidate_ok Hn. split_and!; [apply Normalize_fixpoint|by apply Validate_ok|done].
Qed.

Lemma LoadCryptoPolicy_ok raw cp : LoadCryptoPolicyFromBytes raw = Ok cp ->
  policy_ok cp /\ NoDup (cp_AllowedProviders cp).
Proof.
  unfold LoadCryptoPolicyFromBytes. destruct (Unmarshal _ _ _ _) as [d|]; [|done].
  unfold CryptoPolicy_NormalizeAndValidate. rewrite res_bind_ok.
  intros ([] & Hv & [= <-]). split; [by apply CryptoPolicy_Validate_ok|apply preserve_loop_nodup].
Qed.

(** The state of the loop after the files of [paths]. *)
Record gathered (fs : FileSystem) (paths : list string) (c : catalogue) : Prop := {
  ga_policies : ct_policies c = first_by cp_ID (omap (policy_at fs) paths);
  ga_byID : forall id, ct_byID c !! id = find_by cp_ID id (omap (policy_at fs) paths);
  ga_manifests : forall k, manifests (ct_reg c) !! k = find_by manifest_key k (omap (manifest_at fs) paths);
  ga_inv : reg_inv no_flag (ct_reg c)
}.

Lemma omap_snoc_None {A B} (f : A -> option B) l x : f x = None -> omap f (l ++ [x]) = omap f l.
Proof. intros H. rewrite omap_app. simpl. by rewrite H, app_nil_r. Qed.

Lemma omap_snoc_Some {A B} (f : A -> option B) l x y : f x = Some y -> omap f (l ++ [x]) = omap f l ++ [y].
Proof. intros H. rewrite omap_app. simpl. by rewrite H. Qed.

Lemma gathered_same fs paths c path log : gathered fs paths c ->
  policy_at fs path = None -> manifest_at fs path = None ->
  gathered fs (paths ++ [path]) (mkCatalogue (ct_policies c) (ct_byID c) (ct_reg c) log).
Proof.
  intros [] Hp Hm. split; cbn [ct_policies ct_byID ct_reg]; [|intros k..|done];
    by rewrite ?(omap_snoc_None _ _ _ Hp), ?(omap_snoc_None _ _ _ Hm).
Qed.

Lemma load_file_gathered fs paths c path : gathered fs paths c -> no_nul_ids fs [path] ->
  gathered fs (paths ++ [path]) (load_file fs c path).
Proof.
  intros Hg Hnul. unfold load_file.
  destruct (fs_ReadFile fs path) as [text|raw] eqn:Hr.
  { apply gathered_same; [done|..]; unfold policy_at, manifest_at; by rewrite Hr. }
  destruct (classifyCatalogueJSON raw) eqn:Hc.
  - destruct (LoadCryptoPolicyFromBytes raw) as [cp|e] eqn:Hl.
    2:{ apply gathered_same; [done|..]; unfold policy_at, manifest_at; by rewrite Hr, Hc, ?Hl. }
    assert (policy_at fs path = Some cp) as Hp by (unfold policy_at; by rewrite Hr, Hc, Hl).
    assert (manifest_at fs path = None) as Hm by (unfold manifest_at; by rewrite Hr, Hc).
    destruct Hg as [Hps Hby Hms Hinv]. rewrite Hby.
    assert (existsb (fun y => String.eqb (cp_ID y) (cp_ID cp)) (first_by cp_ID (omap (policy_at fs) paths))
            = match find_by cp_ID (cp_ID cp) (omap (policy_at fs) paths) with Some _ => true | None => false end) as Hex.
    { rewrite <- find_first_by. destruct (find_by _ _ (first_by _ _)) eqn:Hf.
      - apply existsb_key. eauto.
      - apply not_true_iff_false. intros [? ?]%existsb_key. congruence. }
    destruct (find_by cp_ID (cp_ID cp) _) as [cp0|] eqn:Hf; split; cbn [ct_policies ct_byID ct_reg];
      rewrite ?(omap_snoc_Some _ _ _ _ Hp), ?first_by_snoc; unfold add_first; rewrite ?Hex, ?Hps; try done.
    + intros id. rewrite find_by_snoc, Hby. destruct (find_by cp_ID id _) eqn:Hi; [done|].
      destruct (String.eqb_spec (cp_ID cp) id) as [<-|]; [congruence|done].
    + intros k. by rewrite (omap_snoc_None _ _ _ Hm).
    + intros id. rewrite find_by_snoc. destruct (String.eqb_spec (cp_ID cp) id) as [<-|Hne].
      * by rewrite lookup_insert_eq, Hf.
      * rewrite lookup_insert_ne, Hby by done. by destruct (find_by cp_ID id _).
    + intros k. by rewrite (omap_snoc_None _ _ _ Hm).
  - destruct (LoadProviderManifestFromBytes raw) as [m|e] eqn:Hl.
    2:{ apply gathered_same; [done|..]; unfold policy_at, manifest_at; by rewrite Hr, Hc, ?Hl. }
    assert (policy_at fs path = None) as Hp by (unfold policy_at; by rewrite Hr, Hc).
    assert (manifest_at fs path = Some m) as Hm by (unfold manifest_at; by rewrite Hr, Hc, Hl).
    assert (manifest_wf m) as Hwf by (eapply LoadProviderManifest_wf, Hnul; [done|by left|done|done]).
    destruct Hg as [Hps Hby Hms Hinv]. pose proof (addManifest_wf (ct_reg c) m Hinv Hwf) as Hadd.
    unfold AddManifest. rewrite Hms in Hadd. fold (manifest_key m) in Hadd.
    destruct (find_by manifest_key (manifest_key m) _) as [m0|] eqn:Hf;
      [rewrite Hadd|destruct Hadd as (r' & -> & Hmr & Hinv')];
      split; cbn [ct_policies ct_byID ct_reg]; rewrite ?(omap_snoc_None _ _ _ Hp); try done.
    + intros k. rewrite (omap_snoc_Some _ _ _ _ Hm), find_by_snoc, Hms. destruct (find_by manifest_key k _) eqn:Hi; [done|].
      destruct (String.eqb_spec (manifest_key m) k) as [<-|]; [congruence|done].
    + intros k. rewrite (omap_snoc_Some _ _ _ _ Hm), find_by_snoc, Hmr. fold (manifest_key m).
      destruct (String.eqb_spec (manifest_key m) k) as [<-|Hne].
      * by rewrite lookup_insert_eq, Hf.
      * rewrite lookup_insert_ne, Hms by done. by destruct (find_by manifest_key k _).
  - apply gathered_same; [done|..]; unfold policy_at, manifest_at; by rewrite Hr, Hc.
Qed.

Lemma load_files_gathered fs paths : no_nul_ids fs paths ->
  gathered fs paths (foldl (load_file fs) empty_catalogue paths).
Proof.
  induction paths as [|path paths IH] using rev_ind; intros Hnul.
  - split; try done. apply NewRegistry_inv.
  - rewrite foldl_snoc. apply load_file_gathered.
    + apply IH. intros p m raw Hp. apply Hnul. set_solver.
    + intros p m raw Hp. apply Hnul. set_solver.
Qed.

(** ** The loaded store *)

(** Policies are filed under distinct ids, each once, every one is valid, and
    the registry's index flags exactly the profiles that contradict themselves. *)
Record store_wf (st : ReadStore) : Prop := {
  sw_ids : NoDup (cp_ID <$> cryptoPolicies st);
  sw_byID : forall id, cryptoPolicyByID st !! id = find_by cp_ID id (cryptoPolicies st);
  sw_policies : Forall (fun cp => policy_ok cp /\ NoDup (cp_AllowedProviders cp)) (cryptoPolicies st);
  sw_some : cryptoPolicies st <> [];
  sw_reg : reg_inv suggested_contradicts (providers st)
}.

Lemma emit_signals st mt : reg_inv no_flag (providers st) ->
  exists reg, emitCatalogueLoadSignals st mt
    = (mkReadStore (cryptoPolicies st) (cryptoPolicyByID st) reg, snd (emitCatalogueLoadSignals st mt))
    /\ manifests reg = manifests (providers st) /\ reg_inv suggested_contradicts reg.
Proof.
  intros Hinv. unfold emitCatalogueLoadSignals, ApplyManifestLoadSignals. eexists. split; [reflexivity|].
  split; [done|]. eapply reg_inv_ext, signals_inv, Hinv. intros p. apply orb_false_r.
Qed.

(** The orphans counted are the policies that no allowed provider can serve. *)
Lemma CheckPostureOrphanage_count cps reg : CheckPostureOrphanage (Some <$> cps) reg
  = length (filter (fun cp => HasPostureCompatibleProvider (Some cp) reg = false) cps).
Proof.
  induction cps as [|cp cps IH]; [done|]. rewrite fmap_cons, filter_cons. cbn [CheckPostureOrphanage].
  destruct (HasPostureCompatibleProvider (Some cp) reg); [by rewrite decide_False|].
  rewrite decide_True by done. simpl. by rewrite IH.
Qed.

Lemma policies_contributed fs paths :
  Forall (fun cp => policy_ok cp /\ NoDup (cp_AllowedProviders cp)) (omap (policy_at fs) paths).
Proof.
  apply Forall_forall. intros cp (path & _ & H)%list_elem_of_omap. unfold policy_at in H.
  destruct (fs_ReadFile fs path) as [|raw]; [done|]. destruct (classifyCatalogueJSON raw); try done.
  destruct (LoadCryptoPolicyFromBytes raw) eqn:E; [|done]. injection H as <-. by eapply LoadCryptoPolicy_ok.
Qed.

Lemma load_policy_paths_ok fs paths ps byID ps' byID' :
  load_policy_paths fs paths ps byID = Ok (ps', byID') ->
  NoDup (cp_ID <$> ps) -> (forall id, byID !! id = find_by cp_ID id ps) ->
  Forall (fun cp => policy_ok cp /\ NoDup (cp_AllowedProviders cp)) ps ->
  NoDup (cp_ID <$> ps') /\ (forall id, byID' !! id = find_by cp_ID id ps')
  /\ Forall (fun cp => policy_ok cp /\ NoDup (cp_AllowedProviders cp)) ps'
  /\ length ps' = length ps + length paths.
Proof.
  revert ps byID. induction paths as [|path paths IH]; intros ps byID; cbn [load_policy_paths].
  { intros [= <- <-] ???. simpl. split_and!; try done; lia. }
  destruct (LoadCryptoPolicyFromFile fs path) as [cp|] eqn:Hl; [|done].
  destruct (byID !! cp_ID cp) as [?|] eqn:Hb; [done|]. intros H Hnd Hby Hok.
  apply IH in H as (? & ? & ? & Hlen).
  - split_and!; try done. rewrite Hlen, length_app. simpl. lia.
  - rewrite fmap_app. apply NoDup_app. split_and!; [done| |apply NoDup_singleton].
    intros k (x & -> & Hx)%list_elem_of_fmap E. apply list_elem_of_singleton in E.
    rewrite Hby in Hb. eapply find_by_None in Hb; [by apply Hb|done].
  - intros id. rewrite find_by_snoc. destruct (String.eqb_spec (cp_ID cp) id) as [<-|Hne].
    + by rewrite lookup_insert_eq, <- Hby, Hb.
    + rewrite lookup_insert_ne, Hby by done. by destruct (find_by cp_ID id ps).
  - apply Forall_app. split; [done|]. constructor; [|constructor].
    unfold LoadCryptoPolicyFromFile in Hl. destruct (fs_ReadFile fs path); [done|]. by eapply LoadCryptoPolicy_ok.
Qed.

Lemma load_registry_inv fs reg paths reg' : (forall l, no_nul_ids fs l) ->
  reg_inv no_flag reg -> load_registry fs reg paths = Ok reg' -> reg_inv no_flag reg'.
Proof.
  intros Hnul. revert reg. induction paths as [|path paths IH]; intros reg Hinv; cbn [load_registry].
  { by intros [= <-]. }
  destruct (is_empty (TrimSpace path)); [by apply IH|].
  unfold LoadProviderManifestFromFile. destruct (fs_ReadFile fs (TrimSpace path)) as [|raw] eqn:Hr; [done|].
  destruct (LoadProviderManifestFromBytes raw) as [m|] eqn:Hl; [|done].
  assert (manifest_wf m) as Hwf.
  { eapply LoadProviderManifest_wf; [done|]. by apply (Hnul [TrimSpace path] (TrimSpace path) m raw); [left|..]. }
  pose proof (addManifest_wf reg m Hinv Hwf) as Hadd. unfold AddManifest.
  destruct (manifests reg !! _); [by rewrite Hadd|]. destruct Hadd as (r' & -> & _ & Hinv'). by apply IH.
Qed.

Lemma Registry_List_nil reg : Registry_List (Some reg) = [] <-> manifests reg = ∅.
Proof.
  unfold Registry_List. split.
  - intros H. apply map_to_list_empty_iff, (fmap_nil_inv snd). apply Permutation_nil_r.
    rewrite <- H. symmetry. apply sort_slice_perm.
  - intros ->. rewrite map_to_list_empty. apply Permutation_nil_r, sort_slice_perm.
Qed.


(** The events are about the files, one each, in order. *)
Definition event_path (e : load_event) : string :=
  match e with
  | SkippedUnreadable p _ | SkippedManifest p _ | SkippedByRegistry p _ | LoadedManifest p _
  | SkippedPolicy p _ | SkippedDuplicatePolicy p _ | LoadedPolicy p _ | SkippedOther p => p
  end.

Lemma load_file_log fs c path : event_path <$> ct_log (load_file fs c path) = (event_path <$> ct_log c) ++ [path].
Proof. unfold load_file. repeat (case_match; simpl); by rewrite ?fmap_app. Qed.

Lemma load_files_log fs paths c :
  event_path <$> ct_log (foldl (load_file fs) c paths) = (event_path <$> ct_log c) ++ paths.
Proof.
  revert c. induction paths as [|path paths IH]; intros c; simpl; [by rewrite app_nil_r|].
  by rewrite IH, load_file_log, <- (assoc_L (++)).
Qed.

(** The files of a listing that a load visits, in the order of their paths. *)
Definition catalogue_paths (dir : string) (entries : list (string * bool)) : list string :=
  sort_stable str_lt (omap (fun '(name, isDir) =>
    if isDir : bool then None else if negb (is_json_name name) then None
    else Some (filepath_Join dir name)) entries).

Lemma catalogue_paths_perm dir l1 l2 : l1 ≡ₚ l2 -> catalogue_paths dir l1 = catalogue_paths dir l2.
Proof.
  intros Hp. unfold catalogue_paths. apply (sorted_perm_unique str_lt).
  - apply (WeakOrder_str id).
  - intros x y _ _ H1 H2. by apply str_lt_antisym.
  - apply (@sort_stable_sorted _ str_lt (WeakOrder_str id)).
  - apply (@sort_stable_sorted _ str_lt (WeakOrder_str id)).
  - rewrite !sort_stable_perm. by apply omap_Permutation.
Qed.

Lemma load_dir_listed fs dir mt entries : TrimSpace dir <> EmptyString ->
  fs_ReadDir fs (TrimSpace dir) = Ok entries ->
  loadReadStoreFromCatalogueDir fs dir mt
  = load_listed fs (TrimSpace dir) (catalogue_paths (TrimSpace dir) entries) mt.
Proof.
  intros Hd%is_empty_false Hr. unfold loadReadStoreFromCatalogueDir, listCatalogueJSONFiles. by rewrite Hd, Hr.
Qed.

Lemma load_listed_same_files fs fs' dir paths mt : fs_ReadFile fs' = fs_ReadFile fs ->
  load_listed fs' dir paths mt = load_listed fs dir paths mt.
Proof.
  intros E. assert (forall l c, foldl (load_file fs') c l = foldl (load_file fs) c l) as Hf.
  { induction l as [|p l IH]; intros c; [done|]. simpl. rewrite IH. unfold load_file. by rewrite E. }
  unfold load_listed. destruct paths as [|p paths]; [done|]. by rewrite Hf.
Qed.

Lemma emit_counts st mt : let '(st', mt') := emitCatalogueLoadSignals st mt in
  CataloguePostureOrphanTotal mt' = (CataloguePostureOrphanTotal mt + N.of_nat (length
    (filter (fun cp => HasPostureCompatibleProvider (Some cp) (Some (providers st')) = false)
       (cryptoPolicies st'))))%N.
Proof.
  unfold emitCatalogueLoadSignals, ApplyManifestLoadSignals. cbn [cryptoPolicies providers].
  rewrite CheckPostureOrphanage_count. set (n := length (filter _ (cryptoPolicies st))).
  unfold AddCataloguePostureOrphans, AddCatalogueMalformedManifests.
  destruct (Nat.ltb_spec 0 n); destruct (Nat.ltb 0 _); cbn [CataloguePostureOrphanTotal]; lia.
Qed.

(** What a load of listed files returns. *)
Lemma load_listed_ok fs dir paths mt : (forall l, no_nul_ids fs l) ->
  let cps := omap (policy_at fs) paths in
  let ms := omap (manifest_at fs) paths in
  let '(log, mt', r) := load_listed fs dir paths mt in
  event_path <$> log = paths
  /\ (is_ok r = true <-> cps <> [] /\ ms <> [])
  /\ (is_ok r = false -> mt' = mt)
  /\ forall st, r = Ok st -> cryptoPolicies st = first_by cp_ID cps
        /\ (forall id, Registry_Get (Some (providers st)) id = find_by manifest_key (providerKey id) ms)
        /\ store_wf st
        /\ CataloguePostureOrphanTotal mt' = (CataloguePostureOrphanTotal mt + N.of_nat (length
             (filter (fun cp => HasPostureCompatibleProvider (Some cp) (Some (providers st)) = false)
                (cryptoPolicies st))))%N.
Proof.
  intros Hnul cps ms. assert (cps = omap (policy_at fs) paths /\ ms = omap (manifest_at fs) paths) as [Ecps Ems] by done.
  clearbody cps ms. unfold load_listed. destruct paths as [|p0 paths0] eqn:Hpaths.
  { subst cps. split_and!; try done. split; [done|]. by intros [? _]. }
  rewrite <- Hpaths in *. pose proof (load_files_log fs paths empty_catalogue) as Hlog.
  destruct (load_files_gathered fs paths (Hnul paths)) as [Hps Hby Hms Hinv].
  rewrite <- Ecps in Hps. setoid_rewrite <- Ecps in Hby. setoid_rewrite <- Ems in Hms.
  set (c := foldl _ _ paths) in *.
  destruct (Nat.eqb_spec (length (ct_policies c)) 0) as [E|E].
  { rewrite Hps in E. apply length_zero_iff_nil, first_by_nil in E. split_and!; try done. naive_solver. }
  destruct (Nat.eqb_spec (length (Registry_List (Some (ct_reg c)))) 0) as [E2|E2].
  { apply length_zero_iff_nil, Registry_List_nil in E2.
    assert (ms = []) as Hnil; [|split_and!; try done; naive_solver].
    destruct ms as [|m ms']; [done|]. specialize (Hms (manifest_key m)). rewrite E2, lookup_empty in Hms. symmetry in Hms.
    by eapply find_by_None in Hms; [|left]. }
  set (st0 := mkReadStore _ _ _). pose proof (emit_counts st0 mt) as Hcount.
  destruct (emit_signals st0 mt Hinv) as (reg & He & Hmr & Hri).
  destruct (emitCatalogueLoadSignals st0 mt) as [st mt']. injection He as ->.
  split_and!; [done| |done|].
  - split; [|done]. intros _. split.
    + intros Hn. apply E. rewrite Hps, Hn. done.
    + intros Hn. apply E2. apply length_zero_iff_nil, Registry_List_nil, map_eq. intros k. by rewrite Hms, Hn, lookup_empty.
  - intros st [= <-]. cbn [cryptoPolicies providers] in *. split_and!; [done| | |done].
    + intros id. unfold Registry_Get. by rewrite Hmr, Hms.
    + split; cbn [cryptoPolicies cryptoPolicyByID providers]; rewrite ?Hps.
      * apply first_by_nodup.
      * intros id. by rewrite find_first_by.
      * apply Forall_forall. intros cp Hcp%first_by_elem. revert cp Hcp. apply Forall_forall. rewrite Ecps. apply policies_contributed.
      * intros Hn. apply E. by rewrite Hps, Hn.
      * done.
Qed.

(** C26: A directory load serves, for each policy id and each provider, the first
    file in path order that holds a valid document of the kind, whatever order
    the directory lists its entries in; it fails exactly when one of the two
    kinds is missing, and then counts nothing; every file is accounted for by
    one log line; and the orphan counter grows by the number of policies
    without a usable provider. *)
Theorem catalogue_dir_correct fs dir mt entries :
  TrimSpace dir <> EmptyString -> fs_ReadDir fs (TrimSpace dir) = Ok entries ->
  (forall paths, no_nul_ids fs paths) ->
  let paths := catalogue_paths (TrimSpace dir) entries in
  let cps := omap (policy_at fs) paths in
  let ms := omap (manifest_at fs) paths in
  let '(log, mt', r) := loadReadStoreFromCatalogueDir fs dir mt in
  (event_path <$> log = paths
   /\ (is_ok r = true <-> cps <> [] /\ ms <> [])
   /\ (is_ok r = false -> mt' = mt)
   /\ forall st, r = Ok st -> cryptoPolicies st = first_by cp_ID cps
        /\ (forall id, Registry_Get (Some (providers st)) id = find_by manifest_key (providerKey id) ms)
        /\ store_wf st
        /\ CataloguePostureOrphanTotal mt' = (CataloguePostureOrphanTotal mt + N.of_nat (length
             (filter (fun cp => HasPostureCompatibleProvider (Some cp) (Some (providers st)) = false)
                (cryptoPolicies st))))%N)
  /\ (forall entries' fs', entries ≡ₚ entries' -> fs_ReadFile fs' = fs_ReadFile fs ->
        fs_ReadDir fs' (TrimSpace dir) = Ok entries' ->
        loadReadStoreFromCatalogueDir fs' dir mt = (log, mt', r)).
Proof.
  intros Hd Hr Hnul paths cps ms. rewrite (load_dir_listed fs dir mt entries) by done. fold paths.
  pose proof (load_listed_ok fs (TrimSpace dir) paths mt Hnul) as H. cbv zeta in H. fold cps ms in H.
  destruct (load_listed fs (TrimSpace dir) paths mt) as [[log mt'] r] eqn:El. split; [done|].
  intros entries' fs' Hp Hf Hr'. rewrite (load_dir_listed fs' dir mt entries') by done.
  rewrite (load_listed_same_files fs fs') by done. by rewrite <- (catalogue_paths_perm _ entries).
Qed.

Lemma load_dir_wf fs dir mt log mt' st :
  (forall paths, no_nul_ids fs paths) ->
  loadReadStoreFromCatalogueDir fs dir mt = (log, mt', Ok st) -> store_wf st.
Proof.
  intros Hnul. destruct (is_empty (TrimSpace dir)) eqn:Hd.
  { unfold loadReadStoreFromCatalogueDir. by rewrite Hd. }
  apply is_empty_false in Hd. destruct (fs_ReadDir fs (TrimSpace dir)) as [entries|] eqn:Hr.
  - rewrite (load_dir_listed fs _ mt entries) by done.
    pose proof (load_listed_ok fs (TrimSpace dir) (catalogue_paths (TrimSpace dir) entries) mt Hnul) as H. cbv zeta in H.
    intros E. rewrite E in H. by apply H.
  - unfold loadReadStoreFromCatalogueDir, listCatalogueJSONFiles. apply is_empty_false in Hd. by rewrite Hd, Hr.
Qed.

(** C27: Whatever the options, a store that loads is well formed: policies have
    distinct ids and the index by id agrees with the list, every policy is
    valid, there is at least one, and the registry's index holds exactly the
    registered profiles with the erroneous flag where a suggestion contradicts
    its profile. *)
Theorem LoadReadStore_wf fs opts mt log mt' st :
  (forall paths, no_nul_ids fs paths) ->
  LoadReadStore fs opts mt = (log, mt', Ok st) -> store_wf st.
Proof.
  intros Hnul. unfold LoadReadStore. destruct (is_empty (TrimSpace (op_CatalogueDir opts))) eqn:Hd; cbn [negb].
  - destruct (Nat.eqb_spec (length (op_CryptoPolicyPaths opts)) 0) as [|Hlen]; [done|].
    destruct (Nat.eqb _ 0); [done|].
    destruct (load_policy_paths _ _ _ _) as [[ps byID]|] eqn:Hp; [|done].
    destruct (LoadRegistryFromFiles _ _) as [reg|] eqn:Hreg; [|done].
    apply load_registry_inv in Hreg; [|done|apply NewRegistry_inv].
    destruct (emit_signals (mkReadStore ps byID reg) mt Hreg) as (reg' & -> & _ & Hri). intros [= _ _ <-].
    apply load_policy_paths_ok in Hp as (Hnd & Hby & Hok & Hl); [|constructor|intros; by rewrite lookup_empty|constructor].
    split; cbn [cryptoPolicies cryptoPolicyByID providers]; try done. intros ->. simpl in Hl. lia.
  - by apply load_dir_wf.
Qed.

End LoadSpec.

(** ** A catalogue directory *)

Definition crypto_policy_any (cp : CryptoPolicy) : any :=
  AMap (str_member "id" (cp_ID cp) ++ str_member "name" (cp_Name cp) ++ str_member "version" (cp_Version cp)
        ++ str_member "description" (cp_Description cp) ++ str_member "required_posture" (cp_RequiredPosture cp)
        ++ list_member AString "allowed_providers" (cp_AllowedProviders cp)).

(** Two manifests, a policy, an unreadable file and a text that is not JSON. *)
Definition sample_file (path : string) : file :=
  if String.eqb path "catalogue/a.json" then File (Document (manifest_any nicetry_manifest))
  else if String.eqb path "catalogue/b.json" then File (Document (crypto_policy_any pq_policy))
  else if String.eqb path "catalogue/c.json" then File (Document (manifest_any nicetry2_manifest))
  else if String.eqb path "catalogue/d.json" then File NotJSON
  else ReadFails "no such file".

Definition sample_entries : list (string * bool) :=
  [("d.json", false); ("b.json", false); ("README.md", false); ("old.json", true); ("e.json", false);
   ("c.json", false); ("a.json", false)].

Definition sample_fs : FileSystem :=
  mkFileSystem (fun dir => if String.eqb dir "catalogue" then Ok sample_entries else Err "no such directory") sample_file.

Lemma sample_fs_no_nul paths : no_nul_ids sample_fs paths.
Proof.
  intros path m raw _. cbn [fs_ReadFile sample_fs]. unfold sample_file.
  repeat case_match; intros [= <-] Hm; vm_compute in Hm; try discriminate Hm; injection Hm as <-; reflexivity.
Qed.

Lemma catalogue_dir_correct_witness :
  let '(log, mt', r) := loadReadStoreFromCatalogueDir sample_fs " catalogue" NewMetrics in
  length log = 5 /\ CataloguePostureOrphanTotal mt' = 0%N
  /\ exists st, r = Ok st /\ cryptoPolicies st = [pq_policy] /\ store_wf st.
Proof.
  assert (Hc : TrimSpace " catalogue" <> EmptyString) by (vm_compute; congruence).
  pose proof (catalogue_dir_correct sample_fs " catalogue" NewMetrics sample_entries Hc eq_refl sample_fs_no_nul) as H.
  cbv zeta in H. destruct (loadReadStoreFromCatalogueDir sample_fs " catalogue" NewMetrics) as [[log mt'] r] eqn:E.
  destruct H as [(Hlog & _ & _ & Hst) _].
  destruct r as [st|e]; [|vm_compute in E; discriminate E].
  destruct (Hst st eq_refl) as (Hps & _ & Hwf & _). vm_compute in Hps.
  split_and!.
  - apply (f_equal length) in Hlog. rewrite length_fmap in Hlog. rewrite Hlog. vm_compute. reflexivity.
  - vm_compute in E. injection E as _ <- _. reflexivity.
  - exists st. split_and!; [done|exact Hps|exact Hwf].
Defined.

Definition sample_options : ReadStoreOptions :=
  mkOptions EmptyString ["catalogue/b.json"] ["catalogue/c.json"; "catalogue/a.json"].

Lemma LoadReadStore_wf_witness : exists log mt' st,
  LoadReadStore sample_fs sample_options NewMetrics = (log, mt', Ok st) /\ store_wf st.
Proof.
  destruct (LoadReadStore sample_fs sample_options NewMetrics) as [[log mt'] r] eqn:E.
  destruct r as [st|e]; [|vm_compute in E; discriminate E].
  exists log, mt', st. split; [done|]. exact (LoadReadStore_wf sample_fs sample_options NewMetrics log mt' st sample_fs_no_nul E).
Defined.

(** The store of the directory. *)
Definition sample_catalogue : ReadStore :=
  match loadReadStoreFromCatalogueDir sample_fs "catalogue" NewMetrics with
  | (_, _, Ok st) => st
  | _ => mkReadStore [] ∅ NewRegistry
  end.

Lemma sample_store_wf : store_wf sample_catalogue.
Proof.
  unfold sample_catalogue. destruct (loadReadStoreFromCatalogueDir sample_fs "catalogue" NewMetrics) as [[log mt'] r] eqn:E.
  destruct r as [st|e]; [exact (load_dir_wf sample_fs "catalogue" NewMetrics log mt' st sample_fs_no_nul E)|].
  vm_compute in E. discriminate E.
Qed.
