(* ===== verification/Upstream.v ===== *)
(** * Requests to Discovery

    What the service sends when it validates a session, asks whether a scan may
    be read, lists the scans of a wallet and fetches one of them: method, URL,
    headers, body and timeout, from [internal/app/auth.go] and
    [internal/app/assessment_request.go].  Discovery itself is a function of the
    request. *)

From stdpp Require Import base gmap sets list strings.
From Stdlib Require Import Ascii ZArith Lia.
From S2P Require Import Prelude GoStrings GoUnicode Url GoAny Routes Http.
Local Open Scope string_scope.
Local Open Scope list_scope.

(** The observability hooks and the publisher are modelled where they are used. *)
Record authConfig := mkAuthConfig {
  ac_Required : bool;
  ac_SessionValidationURL : string;
  ac_SessionValidationTimeoutSec : Z;
  ac_SessionValidationServiceToken : string;
  ac_ScanAuthorizationURL : string;
  ac_ScanAuthorizationTimeoutSec : Z;
  ac_ScanAuthorizationServiceToken : string;
  ac_ClockSkewSec : Z;
  ac_DiscoveryHTTPBaseURL : string;
  ac_DiscoveryHTTPTimeoutSec : Z;
  ac_WalletAuthDomain : string
}.

Record discovery_request := mkDiscoveryRequest {
  dq_Method : string;
  dq_URL : string;
  dq_Query : list (string * string);    (** parameters set on the parsed URL *)
  dq_Header : list (string * string);
  dq_Body : option any;
  dq_Timeout : Z                        (** of the client, in nanoseconds; not positive: none *)
}.

(** Whether [net/url] accepts a URL, and what Discovery answers. *)
Class Discovery := {
  url_accepted : string -> bool;
  discovery_call : discovery_request -> upstream
}.

(** [int64] arithmetic wraps around. *)
Definition wrap64 (z : Z) : Z := ((z - int64_min) mod 2 ^ 64 + int64_min)%Z.

(** [time.Duration(sec) * time.Second]. *)
Definition seconds (sec : Z) : Z := wrap64 (sec * 1000000000).

(** A header that is only set to a value that is not empty. *)
Definition header_unless_empty (key value : string) : list (string * string) :=
  if is_empty value then [] else [(key, value)].

Definition bearer_unless_empty (token : string) : list (string * string) :=
  if is_empty token then [] else [("Authorization", "Bearer " +:+ token)].

Definition authorization_unless_blank (authorization : string) : list (string * string) :=
  if is_empty (TrimSpace authorization) then [] else [("Authorization", authorization)].

(** ** The four requests *)

(** The timeout of the session check is compared as a duration, the others as
    a number of seconds. *)
Definition session_timeout (cfg : authConfig) : Z :=
  let timeout := seconds (ac_SessionValidationTimeoutSec cfg) in
  if (timeout <=? 0)%Z then seconds 3 else timeout.

Definition scan_timeout (cfg : authConfig) : Z :=
  let timeoutSec := ac_ScanAuthorizationTimeoutSec cfg in
  seconds (if (timeoutSec <=? 0)%Z then 3 else timeoutSec).

Definition discovery_timeout (cfg : authConfig) : Z :=
  let timeout := ac_DiscoveryHTTPTimeoutSec cfg in
  seconds (if (timeout <=? 0)%Z then 5 else timeout).

Definition session_request (cfg : authConfig) (token requestID : string) : discovery_request :=
  mkDiscoveryRequest MethodPost (ac_SessionValidationURL cfg) []
    (("Content-Type", "application/json") :: header_unless_empty "X-Request-Id" requestID
     ++ bearer_unless_empty (ac_SessionValidationServiceToken cfg))
    (Some (AMap [("token", AString token)])) (session_timeout cfg).

Definition can_read_url (cfg : authConfig) (scanID : string) : string :=
  TrimSuffix (ac_ScanAuthorizationURL cfg) "/" +:+ "/" +:+ PathEscape scanID +:+ "/can-read".

Definition can_read_request (cfg : authConfig) (userID tenantID requestID scanID : string) : discovery_request :=
  mkDiscoveryRequest MethodPost (can_read_url cfg scanID) []
    (("X-User-Id", userID) :: header_unless_empty "X-Tenant-Id" tenantID ++ header_unless_empty "X-Request-Id" requestID
     ++ bearer_unless_empty (ac_ScanAuthorizationServiceToken cfg)) None (scan_timeout cfg).

Definition discovery_base (cfg : authConfig) : string := TrimSuffix (TrimSpace (ac_DiscoveryHTTPBaseURL cfg)) "/".

Definition scan_list_url (cfg : authConfig) : string := discovery_base cfg +:+ "/discovery/v1/wallets/scans".

(** [q.Set]. *)
Definition query_set (q : list (string * string)) (kv : string * string) : list (string * string) :=
  kv :: base.filter (fun kv' => fst kv' <> fst kv) q.

Definition scan_list_request (cfg : authConfig) (authorization requestID targetAddress : string)
    (extra : list (string * string)) : discovery_request :=
  mkDiscoveryRequest MethodGet (scan_list_url cfg)
    (foldl query_set [("address", TrimSpace targetAddress)] extra)
    (authorization_unless_blank authorization ++ header_unless_empty "X-Request-Id" requestID) None (discovery_timeout cfg).

(** What [fetchWalletLatestCompletedScanID] asks for. *)
Definition latest_only : list (string * string) := [("latest", "true")].

Definition scan_detail_url (cfg : authConfig) (scanID : string) : string :=
  discovery_base cfg +:+ "/discovery/v1/wallets/scans/" +:+ PathEscape scanID.

Definition scan_detail_request (cfg : authConfig) (authorization requestID scanID : string) : discovery_request :=
  mkDiscoveryRequest MethodGet (scan_detail_url cfg scanID) []
    (authorization_unless_blank authorization ++ header_unless_empty "X-Request-Id" requestID) None (discovery_timeout cfg).

Section Calls.
Context `{D : Discovery}.

(** A request that cannot be built counts as a failed call. *)
Definition send (rq : discovery_request) : upstream :=
  if url_accepted (dq_URL rq) then discovery_call rq else CallFailed.

Definition session_validate (cfg : authConfig) (token requestID : string) : upstream :=
  send (session_request cfg token requestID).

Definition scan_can_read (cfg : authConfig) (userID tenantID requestID scanID : string) : upstream :=
  send (can_read_request cfg userID tenantID requestID scanID).

Definition wallet_scan_list (cfg : authConfig) (authorization requestID targetAddress : string)
    (extra : list (string * string)) : upstream :=
  send (scan_list_request cfg authorization requestID targetAddress extra).

Definition wallet_scan_detail (cfg : authConfig) (authorization requestID scanID : string) : upstream :=
  send (scan_detail_request cfg authorization requestID scanID).

End Calls.

(** ** What Discovery is asked about *)

Lemma segment_no_slash s : segment_text s -> has_byte slash s = false.
Proof.
  unfold segment_text. induction s as [|a s IH]; [done|]. cbn [String.list_ascii_of_string]. intros H.
  apply Forall_cons in H as [(Ha & _) H]. cbn [has_byte]. apply orb_false_iff. split; [|by apply IH].
  by apply Ascii.eqb_neq.
Qed.

(** A server takes the dot segments out of a path before it looks for the
    resource: "." is dropped, and ".." takes the segment before it along. *)
Definition resolve_step (acc : list string) (segment : string) : list string :=
  if String.eqb segment "." then acc
  else if String.eqb segment ".." then tl acc
  else segment :: acc.

Definition resolve_path (segments : list string) : list string := rev (foldl resolve_step [] segments).

(** The resource of a path, its segments unescaped. *)
Definition resource (segments : list string) : list string := PathUnescape <$> resolve_path segments.

Definition dot_segment (s : string) : Prop := s = "." \/ s = "..".

#[global] Instance dot_segment_dec s : Decision (dot_segment s).
Proof. apply _. Defined.

Lemma resolve_plain acc segments : Forall (fun s => ~ dot_segment s) segments ->
  foldl resolve_step acc segments = rev segments ++ acc.
Proof.
  intros H. revert acc. induction H as [|x l Hx _ IH]; intros acc; [done|]. cbn [foldl rev].
  rewrite IH, <- app_assoc. unfold resolve_step. destruct (String.eqb_spec x "."); [destruct Hx; by left|].
  destruct (String.eqb_spec x ".."); [destruct Hx; by right|]. done.
Qed.

Lemma resolve_after above rest : Forall (fun s => ~ dot_segment s) above ->
  resolve_path (above ++ rest) = rev (foldl resolve_step (rev above) rest).
Proof. intros H. unfold resolve_path. by rewrite foldl_app, (resolve_plain [] above H), app_nil_r. Qed.

(** Escaping neither makes a dot segment nor hides one. *)
Lemma escaped_dots s : dot_segment (PathEscape s) <-> dot_segment s.
Proof.
  split; [|by intros [->| ->]; [left|right]].
  intros H. rewrite <- (PathUnescape_PathEscape s). destruct H as [->| ->]; [by left|by right].
Qed.

(** Where the segments of a scan lead, below a base and with [last] behind. *)
Lemma scan_resource above scanID last : Forall (fun s => ~ dot_segment s) above -> Forall (fun s => ~ dot_segment s) last ->
  resource (above ++ PathEscape scanID :: last) = (PathUnescape <$> above) ++ scanID :: (PathUnescape <$> last)
  <-> ~ dot_segment scanID.
Proof.
  intros Ha Hl. unfold resource. rewrite resolve_after by done. cbn [foldl]. rewrite (resolve_plain _ last Hl), rev_app_distr, rev_involutive.
  rewrite <- (escaped_dots scanID). unfold resolve_step. destruct (String.eqb_spec (PathEscape scanID) ".") as [E|E].
  { rewrite rev_involutive, fmap_app. split; [|intros []; by left].
    intros H%(f_equal length). rewrite !length_app in H. simpl in H. lia. }
  destruct (String.eqb_spec (PathEscape scanID) "..") as [E2|E2].
  { split; [|intros []; by right]. rewrite fmap_app. intros H%(f_equal length). rewrite !length_app, !length_fmap, length_rev in H.
    simpl in H. rewrite length_fmap in H. assert (length (tl (rev above)) <= length (rev above))%nat by (destruct (rev above); simpl; lia).
    rewrite length_rev in *. lia. }
  split; [by intros _ [?|?]|]. intros _. cbn [rev]. rewrite rev_involutive, !fmap_app, <- app_assoc. cbn [fmap list_fmap app].
  by rewrite PathUnescape_PathEscape.
Qed.

Definition sane_timeout (sec : Z) : Prop := (sec <= 9223372036)%Z.

Lemma seconds_positive sec : (0 < sec)%Z -> sane_timeout sec -> (0 < seconds sec)%Z.
Proof.
  unfold seconds, wrap64, sane_timeout, int64_min. intros H1 H2. rewrite Z.mod_small; lia.
Qed.

(** The segments the two requests put behind their bases. *)
Lemma can_read_segments cfg scanID : exists rest,
  can_read_url cfg scanID = TrimSuffix (ac_ScanAuthorizationURL cfg) "/" +:+ "/" +:+ rest
  /\ Split rest slash = [PathEscape scanID; "can-read"].
Proof.
  exists (PathEscape scanID +:+ "/can-read"). split; [done|].
  change (PathEscape scanID +:+ "/can-read") with (Join [PathEscape scanID; "can-read"] "/").
  apply (Split_Join _ slash); [done|]. apply Forall_cons_2; [apply segment_no_slash, PathEscape_segment|].
  by apply Forall_cons_2; [|apply Forall_nil_2].
Qed.

Lemma scan_detail_segments cfg scanID : exists rest,
  scan_detail_url cfg scanID = discovery_base cfg +:+ "/discovery/v1/wallets/scans/" +:+ rest
  /\ Split rest slash = [PathEscape scanID].
Proof.
  exists (PathEscape scanID). split; [done|]. change (PathEscape scanID) with (Join [PathEscape scanID] "/").
  apply (Split_Join _ slash); [done|]. apply Forall_cons_2; [apply segment_no_slash, PathEscape_segment|apply Forall_nil_2].
Qed.

Lemma can_read_tenant cfg userID tenantID requestID scanID :
  get_first (dq_Header (can_read_request cfg userID tenantID requestID scanID)) "X-Tenant-Id" = tenantID.
Proof.
  unfold can_read_request, header_unless_empty, bearer_unless_empty. cbn [dq_Header].
  destruct (is_empty tenantID) eqn:E; [|done]. apply is_empty_spec in E as ->.
  by destruct (is_empty requestID), (is_empty (ac_ScanAuthorizationServiceToken cfg)).
Qed.

Lemma can_read_inj cfg u t q s u' t' q' s' :
  can_read_request cfg u t q s = can_read_request cfg u' t' q' s' -> u = u' /\ t = t' /\ s = s'.
Proof.
  intros H. split_and!.
  - by injection H.
  - by rewrite <- (can_read_tenant cfg u t q s), H, can_read_tenant.
  - apply (f_equal dq_URL) in H. cbn [dq_URL can_read_request] in H.
    destruct (can_read_segments cfg s) as (r & E & Hr), (can_read_segments cfg s') as (r' & E' & Hr').
    rewrite E, E' in H. apply (inj (String.append _)), (inj (String.append _)) in H. subst r'. rewrite Hr in Hr'.
    injection Hr' as Hs. by rewrite <- (PathUnescape_PathEscape s), Hs, PathUnescape_PathEscape.
Qed.

Lemma scan_detail_inj cfg a q s a' q' s' :
  scan_detail_request cfg a q s = scan_detail_request cfg a' q' s' -> s = s'.
Proof.
  intros H%(f_equal dq_URL). cbn [dq_URL scan_detail_request] in H.
  destruct (scan_detail_segments cfg s) as (r & E & Hr), (scan_detail_segments cfg s') as (r' & E' & Hr').
  rewrite E, E' in H. apply (inj (String.append _)), (inj (String.append _)) in H. subst r'. rewrite Hr in Hr'.
  injection Hr' as Hs. by rewrite <- (PathUnescape_PathEscape s), Hs, PathUnescape_PathEscape.
Qed.

(** C37: Below the configured base, and whatever path that base has, the two
    requests about a scan lead to the resource of that scan exactly when its id
    is not "." or "..": no other id can reach out of its segment, while these two
    are resolved away and address a resource above the scan.  Requests about
    different scans, or made for different users or tenants, differ, so that no
    answer can be taken for another's; and no client runs without a timeout
    unless one of centuries is configured. *)
Theorem scan_requests_addressed cfg userID tenantID requestID authorization scanID :
  let canRead := can_read_request cfg userID tenantID requestID in
  let detail := scan_detail_request cfg authorization requestID in
  (exists rest, dq_URL (canRead scanID) = TrimSuffix (ac_ScanAuthorizationURL cfg) "/" +:+ "/" +:+ rest
     /\ forall above, Forall (fun s => ~ dot_segment s) above ->
        resource (above ++ Split rest slash) = (PathUnescape <$> above) ++ [scanID; "can-read"] <-> ~ dot_segment scanID)
  /\ (exists rest, dq_URL (detail scanID) = discovery_base cfg +:+ "/discovery/v1/wallets/scans/" +:+ rest
     /\ forall above, Forall (fun s => ~ dot_segment s) above ->
        resource (above ++ Split rest slash) = (PathUnescape <$> above) ++ [scanID] <-> ~ dot_segment scanID)
  /\ (forall userID' tenantID' requestID' scanID',
        canRead scanID = can_read_request cfg userID' tenantID' requestID' scanID' ->
        userID = userID' /\ tenantID = tenantID' /\ scanID = scanID')
  /\ (forall authorization' requestID' scanID',
        detail scanID = scan_detail_request cfg authorization' requestID' scanID' -> scanID = scanID')
  /\ (0 < session_timeout cfg)%Z
  /\ (sane_timeout (ac_ScanAuthorizationTimeoutSec cfg) -> (0 < dq_Timeout (canRead scanID))%Z)
  /\ (sane_timeout (ac_DiscoveryHTTPTimeoutSec cfg) -> (0 < dq_Timeout (detail scanID))%Z).
Proof.
  cbv zeta. split_and!.
  - destruct (can_read_segments cfg scanID) as (rest & Hu & Hs). exists rest. split; [exact Hu|]. intros above Ha. rewrite Hs.
    apply (scan_resource above scanID ["can-read"] Ha). apply Forall_singleton. by intros [?|?].
  - destruct (scan_detail_segments cfg scanID) as (rest & Hu & Hs). exists rest. split; [exact Hu|]. intros above Ha. rewrite Hs.
    by apply (scan_resource above scanID [] Ha).
  - intros *. apply can_read_inj.
  - intros *. apply scan_detail_inj.
  - unfold session_timeout. destruct (Z.leb_spec (seconds (ac_SessionValidationTimeoutSec cfg)) 0); [done|lia].
  - cbn [dq_Timeout can_read_request]. unfold scan_timeout. intros H.
    destruct (Z.leb_spec (ac_ScanAuthorizationTimeoutSec cfg) 0); [done|by apply seconds_positive].
  - cbn [dq_Timeout scan_detail_request]. unfold discovery_timeout. intros H.
    destruct (Z.leb_spec (ac_DiscoveryHTTPTimeoutSec cfg) 0); [done|by apply seconds_positive].
Qed.

(** The scan list asks for the trimmed address and, from the latest-scan check,
    for the latest scan only. *)
Lemma scan_list_query cfg authorization requestID address :
  get_first (dq_Query (scan_list_request cfg authorization requestID address latest_only)) "address" = TrimSpace address
  /\ get_first (dq_Query (scan_list_request cfg authorization requestID address latest_only)) "latest" = "true".
Proof. done. Qed.

(** A scan id of ".." asks for the "can-read" of the collection above. *)
Example dot_segments : resource ["discovery"; "v1"; "scans"; PathEscape ".."; "can-read"] = ["discovery"; "v1"; "can-read"].
Proof. vm_compute. reflexivity. Qed.
