(* ===== verification/Auth.v ===== *)
(** * Authentication and scan authorisation

    [internal/app/auth.go] and [w2_engagement.go]: the middleware in front of
    every route, the session tokens it checks, the scan ids it authorises, and
    the rule that a wallet is engaged through its latest completed scan. *)

From stdpp Require Import base gmap sets list strings.
From Stdlib Require Import Ascii ZArith NArith Lia.
From S2P Require Import Prelude GoStrings GoUnicode Errors GoAny GoFloat GoTime PayloadHash PersistGate WalletTarget OwnerStore Routes Http Json Upstream.
Local Open Scope string_scope.
Local Open Scope list_scope.

(** ** Configuration and collaborators *)

(** The last member with a name is the one a map keeps. *)
Definition doc_get (l : list (string * any)) (key : string) : option any := map_get (rev l) key.

(** A refusal: status, code, message and the reason in the details. *)
Record APIError := mkAPIError {
  ae_Status : Z;
  ae_Code : string;
  ae_Message : string;
  ae_Details : list (string * any)
}.

Definition refusal (status : Z) (code message reason : string) : APIError :=
  mkAPIError status code message (reasonDetails reason).

(** ** base64.RawURLEncoding *)

Definition base64_value (a : ascii) : option N :=
  let n := N_of_ascii a in
  if ((65 <=? n)%N && (n <=? 90)%N) then Some (n - 65)%N
  else if ((97 <=? n)%N && (n <=? 122)%N) then Some (n - 71)%N
  else if ((48 <=? n)%N && (n <=? 57)%N) then Some (n + 4)%N
  else if (n =? 45)%N then Some 62%N
  else if (n =? 95)%N then Some 63%N
  else None.

(** Whole groups of four digits give three bytes, a last group of two or three
    gives one or two; line breaks were dropped before. *)
Fixpoint base64_groups (l : list N) : option (list N) :=
  match l with
  | [] => Some []
  | [a; b] => Some [(a * 4 + b / 16)%N]
  | [a; b; c] => Some [(a * 4 + b / 16)%N; ((b mod 16) * 16 + c / 4)%N]
  | a :: b :: c :: d :: l' =>
      rest ← base64_groups l';
      Some ((a * 4 + b / 16)%N :: ((b mod 16) * 16 + c / 4)%N :: ((c mod 4) * 64 + d)%N :: rest)
  | [_] => None
  end.

Definition is_line_break (a : ascii) : bool := (N_of_ascii a =? 10)%N || (N_of_ascii a =? 13)%N.

Definition base64_RawURL_DecodeString (s : string) : option string :=
  digits ← mapM base64_value (filter (fun a => is_line_break a = false) (String.list_ascii_of_string s));
  bytes ← base64_groups digits;
  Some (string_of_bytes bytes).

(** ** Session tokens *)

Record token_signature := mkTokenSignature { ts_Protected : string; ts_Signature : string }.
Record token_envelope := mkEnvelope { te_Payload : string; te_Signatures : list token_signature }.

Section Tokens.
Context `{U : Unicode, F : GoFloat}.

Definition token_signature_fields : list (string * decoder token_signature) :=
  [("protected", field ts_Protected (fun b a => mkTokenSignature b (ts_Signature a)) dec_string);
   ("signature", field ts_Signature (fun b a => mkTokenSignature (ts_Protected a) b) dec_string)].

Definition token_envelope_fields : list (string * decoder token_envelope) :=
  [("payload", field te_Payload (fun b a => mkEnvelope b (te_Signatures a)) dec_string);
   ("signatures", field te_Signatures (fun b a => mkEnvelope (te_Payload a) b)
      (dec_list (dec_document token_signature_fields) (mkTokenSignature EmptyString EmptyString)))].

(** The algorithm a signature's protected header names; [None]: the entry is
    not acceptable. *)
Definition signature_alg (s : token_signature) : option string :=
  if is_empty (ts_Protected s) || is_empty (ts_Signature s) then None
  else
    protected ← base64_RawURL_DecodeString (ts_Protected s);
    doc ← text_value protected;
    header ← dec_map doc None;
    Some (default EmptyString (as_string (doc_get (default [] header) "alg"))).

Definition claimAsUnix (value : option any) : option Z :=
  match value with
  | Some (AFloat64 f) => Some (if in_int64 (float_trunc f) then float_trunc f else float_overflow f)
  | Some (AInt64 z) | Some (AInt z) => Some z
  | _ => None
  end.

(** [now] is the Unix time in seconds. *)
Definition validateDiscoveryClaims (now : Z) (claims : list (string * any)) (clockSkewSec : Z) : bool :=
  match claimAsUnix (doc_get claims "exp") with
  | None => false
  | Some exp => negb (wrap64 (exp + clockSkewSec) <? now)%Z
  end.

(** Both algorithms of the hybrid signature are present. *)
Definition hybrid (algs : list string) : bool :=
  existsb (String.eqb jwtAlgEdDSA) algs && existsb (String.eqb jwtAlgMLDSA65) algs.

Definition parseAndValidateDiscoveryToken (now : Z) (rawToken : string) (clockSkewSec : Z)
    : option (list (string * any)) :=
  raw ← base64_RawURL_DecodeString rawToken;
  doc ← text_value raw;
  envelope ← dec_document token_envelope_fields doc (mkEnvelope EmptyString []);
  if is_empty (te_Payload envelope) || Nat.ltb (length (te_Signatures envelope)) 2 then None
  else
    algs ← mapM signature_alg (te_Signatures envelope);
    if negb (hybrid algs) then None
    else
      claimBytes ← base64_RawURL_DecodeString (te_Payload envelope);
      parsed ← text_value claimBytes;
      decoded ← dec_map parsed (Some []);
      let claims := default [] decoded in
      if negb (validateDiscoveryClaims now claims clockSkewSec) then None
      else match as_string (doc_get claims "email") with
           | None => None
           | Some _ => Some claims
           end.

Record discoveryValidationResponse := mkValidation {
  dv_Accepted : bool;
  dv_ErrorMessage : string;
  dv_Claims : option (list (string * any))
}.

Definition validation_fields : list (string * decoder discoveryValidationResponse) :=
  [("accepted", field dv_Accepted (fun b a => mkValidation b (dv_ErrorMessage a) (dv_Claims a)) dec_bool);
   ("error", field dv_ErrorMessage (fun b a => mkValidation (dv_Accepted a) b (dv_Claims a)) dec_string);
   ("claims", field dv_Claims (fun b a => mkValidation (dv_Accepted a) (dv_ErrorMessage a) b) dec_map)].

(** An answer that carries claims, and then any answer without an error, counts
    as accepted. *)
Definition accept_silent (parsed : discoveryValidationResponse) : discoveryValidationResponse :=
  let parsed :=
    if negb (dv_Accepted parsed) && is_empty (dv_ErrorMessage parsed)
       && bool_decide (is_Some (dv_Claims parsed))
    then mkValidation true (dv_ErrorMessage parsed) (dv_Claims parsed) else parsed in
  if negb (dv_Accepted parsed) && is_empty (dv_ErrorMessage parsed)
  then mkValidation true (dv_ErrorMessage parsed) (dv_Claims parsed) else parsed.

Context `{D : Discovery}.

(** [None]: the validation service could not be used. *)
Definition validateTokenWithDiscovery (cfg : authConfig) (token requestID : string)
    : option discoveryValidationResponse :=
  match session_validate cfg token requestID with
  | CallFailed => None
  | Answer status b =>
      if (status =? StatusUnauthorized)%Z || (status =? StatusForbidden)%Z
      then Some (mkValidation false ("discovery rejected token (" +:+ FormatInt status +:+ ")") None)
      else if (500 <=? status)%Z then None
      else if negb (status =? StatusOK)%Z then None
      else
        match b with
        | Document v =>
            match dec_document validation_fields v (mkValidation false EmptyString None) with
            | None => Some (mkValidation true EmptyString None)
            | Some parsed => Some (accept_silent parsed)
            end
        | _ => Some (mkValidation true EmptyString None)
        end
  end.

Definition unauthenticated (reason : string) : APIError :=
  refusal StatusUnauthorized authCodeUnauthenticated errMsgAuthenticationRequired reason.

Definition authenticateBearerToken (now : Z) (r : Request) (cfg : authConfig) (requestID : string)
    : res APIError Principal :=
  let header := TrimSpace (Header_Get r "Authorization") in
  fail_if negb (HasPrefix (ToLower header) "bearer ")
    with unauthenticated "missing_or_malformed_authorization_header" ;;
  let rawToken := TrimSpace (drop_bytes (len "Bearer ") header) in
  fail_if is_empty rawToken with unauthenticated "empty_bearer_token" ;;
  match parseAndValidateDiscoveryToken now rawToken (ac_ClockSkewSec cfg) with
  | None => Err (unauthenticated "malformed_or_expired_session_token")
  | Some tokenClaims =>
      match validateTokenWithDiscovery cfg rawToken requestID with
      | None => Err (refusal StatusServiceUnavailable authCodeValidationUnavailable
                       "authentication validation unavailable" "session_validation_unavailable")
      | Some validation =>
          fail_if negb (dv_Accepted validation) with unauthenticated "session_validation_rejected" ;;
          let claims := default tokenClaims (dv_Claims validation) in
          let userID := default EmptyString (as_string (doc_get claims "user_id")) in
          let tenantID := default EmptyString (as_string (doc_get claims "tenant_id")) in
          fail_if is_empty (TrimSpace userID) with unauthenticated "missing_user_id_claim" ;;
          let principal := mkPrincipal userID userID tenantID (Some claims) in
          match Principal_Validate principal with
          | Err _ => Err (unauthenticated "invalid_principal")
          | Ok _ => Ok principal
          end
      end
  end.

End Tokens.

(** ** Scan ids of a request *)

Section ScanIDs.
Context `{U : Unicode}.

Definition scan_id_malformed : APIError :=
  refusal StatusBadRequest authCodeScanIDMalformed errMsgScanIDMalformed authReasonScanIDMalformed.

(** [None]: not a string. *)
Definition add_scan_id (raw : option any) (out : list string) : option (list string) :=
  match raw with
  | None | Some ANil => Some out
  | Some (AString value) =>
      let value := TrimSpace value in
      if is_empty value then Some out else Some (out ++ [value])
  | Some _ => None
  end.

Definition collectScanIDs (payload : list (string * any)) : option (list string) :=
  out ← add_scan_id (doc_get payload "scan_id") [];
  match doc_get payload "policy_context" with
  | Some (AMap pc) => add_scan_id (doc_get pc "scan_id") out
  | _ => Some out
  end.

Definition isOwnerPoliciesGETPath (path : string) : bool := String.eqb path Policies.

Definition scanIDsFromOwnerPoliciesGETQuery (r : Request) : res APIError (list string) :=
  let id := TrimSpace (Query_Get r "id") in
  let scanID := TrimSpace (Query_Get r "scan_id") in
  fail_if negb (is_empty id) && negb (is_empty scanID)
    with refusal StatusBadRequest authCodeScanIDConflict "id and scan_id are mutually exclusive"
           "mutually_exclusive_query_params" ;;
  if is_empty scanID then Ok []
  else match NormalizeDiscoveryScanID scanID with
       | Err _ => Err scan_id_malformed
       | Ok norm => Ok [norm]
       end.

Definition extractScanIDsForAuthorization (r : Request) : res APIError (list string) :=
  if String.eqb (rq_Method r) MethodPost && String.eqb (rq_Path r) PoliciesAssessmentRequest then Ok []
  else if String.eqb (rq_Method r) MethodGet && isOwnerPoliciesGETPath (rq_Path r)
  then scanIDsFromOwnerPoliciesGETQuery r
  else
    match rq_Body r with
    | NoBody => Ok []
    | b =>
        if negb (String.eqb (rq_Method r) MethodPost) && negb (String.eqb (rq_Method r) MethodPut)
           && negb (String.eqb (rq_Method r) MethodPatch) then Ok []
        else
          match b with
          | Unreadable => Err (mkAPIError StatusBadRequest "AUTHZ_SCAN_PAYLOAD_READ_FAILED"
                                "Could not read request payload for scan authorization." [])
          | Document v =>
              match dec_map v (Some []) with
              | Some (Some payload) =>
                  match collectScanIDs payload with
                  | None => Err scan_id_malformed
                  | Some [] => Ok []
                  | Some (base :: rest) =>
                      fail_if existsb (fun scanID => negb (String.eqb scanID base)) rest
                        with refusal StatusBadRequest authCodeScanIDConflict "scan_id values conflict"
                               "scan_id_conflict" ;;
                      Ok [base]
                  end
              | _ => Ok []
              end
          | _ => Ok []
          end
    end.

End ScanIDs.

(** ** Scan authorisation *)

Record scanAuthorizationResponse := mkScanAuth { sa_Allowed : bool }.

Section ScanAccess.
Context `{U : Unicode, F : GoFloat, D : Discovery}.

Definition scan_auth_fields : list (string * decoder scanAuthorizationResponse) :=
  [("allowed", field sa_Allowed (fun b _ => mkScanAuth b) dec_bool)].

Definition scan_unavailable (reason : string) : APIError :=
  refusal StatusServiceUnavailable authCodeScanUnavailable errMsgScanAuthorizationUnavailable reason.

(** The two routes differ in what they answer when access is denied. *)
Definition scan_access (denied : APIError) (principal : Principal) (scanID : string) (cfg : authConfig)
    (requestID : string) : res APIError unit :=
  fail_if is_empty (TrimSpace scanID) with scan_id_malformed ;;
  fail_if is_empty (TrimSpace (ac_ScanAuthorizationURL cfg))
    with scan_unavailable authReasonScanAuthURLNotConfigured ;;
  fail_if negb (url_accepted (can_read_url cfg scanID)) with scan_unavailable authReasonScanAuthBuildFailed ;;
  match scan_can_read cfg (pr_UserID principal) (pr_TenantID principal) requestID scanID with
  | CallFailed => Err (scan_unavailable authReasonScanAuthFailed)
  | Answer status b =>
      if (status =? StatusOK)%Z then
        match decode_stream scan_auth_fields b (mkScanAuth false) with
        | None => Err (scan_unavailable authReasonScanAuthInvalidResponse)
        | Some parsed => fail_if negb (sa_Allowed parsed) with denied ;; Ok tt
        end
      else if (status =? StatusForbidden)%Z || (status =? StatusNotFound)%Z then Err denied
      else if (status =? StatusUnauthorized)%Z
      then Err (scan_unavailable authReasonScanAuthUpstreamUnauthorized)
      else if (500 <=? status)%Z then Err (scan_unavailable authReasonScanAuthUpstream5xx)
      else Err (scan_unavailable authReasonScanAuthUnexpectedStatus)
  end.

Definition authorizeScanAccess : Principal -> string -> authConfig -> string -> res APIError unit :=
  scan_access (refusal StatusForbidden authCodeScanForbidden "scan access denied" authReasonScanAuthDenied).

Definition authorizeScanReadForAssessment : Principal -> string -> authConfig -> string -> res APIError unit :=
  scan_access (refusal StatusNotFound authCodeScanForbidden errMsgScanNotFound "scan_not_found").

(** ** The latest completed scan of a wallet *)

Record walletScanListItem := mkScanItem { si_ScanID : string; si_Status : string }.
Record walletScanListEnvelope := mkScanList {
  sl_Items : list walletScanListItem;
  sl_Total : Z;
  sl_Limit : Z
}.

Definition scan_item_fields : list (string * decoder walletScanListItem) :=
  [("scan_id", field si_ScanID (fun b a => mkScanItem b (si_Status a)) dec_string);
   ("status", field si_Status (fun b a => mkScanItem (si_ScanID a) b) dec_string)].

Definition scan_list_fields : list (string * decoder walletScanListEnvelope) :=
  [("items", field sl_Items (fun b a => mkScanList b (sl_Total a) (sl_Limit a))
      (dec_list (dec_document scan_item_fields) (mkScanItem EmptyString EmptyString)));
   ("total", field sl_Total (fun b a => mkScanList (sl_Items a) b (sl_Limit a)) dec_int64);
   ("limit", field sl_Limit (fun b a => mkScanList (sl_Items a) (sl_Total a) b) dec_int64)].

Definition qHasLimit (extra : list (string * string)) : bool :=
  existsb (fun kv => String.eqb (fst kv) "limit") extra.

(** A count of one that the answer leaves out, and the limit that was asked for. *)
Definition complete_list (extra : list (string * string)) (envelope : walletScanListEnvelope) : walletScanListEnvelope :=
  let envelope :=
    if (sl_Total envelope =? 0)%Z && Nat.eqb (length (sl_Items envelope)) 1
    then mkScanList (sl_Items envelope) 1 (sl_Limit envelope) else envelope in
  if (sl_Limit envelope =? 0)%Z && qHasLimit extra
  then match ParseInt (get_first extra "limit") with
       | Some parsedLimit => mkScanList (sl_Items envelope) (sl_Total envelope) parsedLimit
       | None => envelope
       end
  else envelope.

(** [None]: an error. *)
Definition fetchWalletScanList (cfg : authConfig) (authorization requestID targetAddress : string)
    (extra : list (string * string))
    : option walletScanListEnvelope :=
  match wallet_scan_list cfg authorization requestID targetAddress extra with
  | CallFailed => None
  | Answer status b =>
      match b with
      | Unreadable => None
      | _ =>
          if negb (status =? StatusOK)%Z then None
          else
            envelope ← decode_body scan_list_fields b (mkScanList [] 0 0);
            Some (complete_list extra envelope)
      end
  end.

Definition fetchWalletLatestCompletedScanID (cfg : authConfig) (authorization requestID targetAddress : string)
    : option string :=
  list ← fetchWalletScanList cfg authorization requestID targetAddress latest_only;
  match sl_Items list with
  | [] => Some EmptyString
  | item :: _ => Some (TrimSpace (si_ScanID item))
  end.

Definition walletAuthCodeScanNotLatest : string := "SCAN_NOT_LATEST".
Definition walletAuthCodeDiscoveryUnavailable : string := "DISCOVERY_UNAVAILABLE".

Record w2GateError := mkW2Error { w2_code : string; w2_message : string; w2_status : Z }.

Definition w2_unavailable : w2GateError :=
  mkW2Error walletAuthCodeDiscoveryUnavailable "discovery is unavailable" StatusServiceUnavailable.
Definition w2_not_latest : w2GateError :=
  mkW2Error walletAuthCodeScanNotLatest "scan_id is not the latest completed wallet scan for this address"
    StatusUnprocessableEntity.

Definition ensureOwnerScopedW2 (r : Request) (cfg : authConfig) (requestID walletAddress scanID : string)
    : res w2GateError unit :=
  fail_if is_empty (TrimSpace (ac_DiscoveryHTTPBaseURL cfg)) with w2_unavailable ;;
  match fetchWalletLatestCompletedScanID cfg (Header_Get r "Authorization") requestID walletAddress with
  | None => Err w2_unavailable
  | Some latest =>
      fail_if is_empty (TrimSpace latest) with w2_not_latest ;;
      match NormalizeDiscoveryScanID latest with
      | Err _ => Err w2_unavailable
      | Ok normLatest =>
          fail_if negb (EqualFold normLatest (TrimSpace scanID)) with w2_not_latest ;;
          Ok tt
      end
  end.

(** ** The wallet of a scan *)

Record scan_detail := mkScanDetail { sd_ScanFamily : string; sd_TargetAddress : string }.

Definition scan_detail_fields : list (string * decoder scan_detail) :=
  [("scan_family", field sd_ScanFamily (fun b a => mkScanDetail b (sd_TargetAddress a)) dec_string);
   ("result", fun v a => dec_document
      [("target_address", field sd_TargetAddress (fun b a => mkScanDetail (sd_ScanFamily a) b) dec_string)] v a)].

(** [Err None] is a decoding error. *)
Definition targetAddressFromWalletScanDetailJSON (detail : body) : res (option sentinel) string :=
  match decode_body scan_detail_fields detail (mkScanDetail EmptyString EmptyString) with
  | None => Err None
  | Some wrap =>
      fail_if EqualFold (TrimSpace (sd_ScanFamily wrap)) "tls" with Some ErrDiscoveryScanNotWallet ;;
      let addr := TrimSpace (sd_TargetAddress wrap) in
      fail_if is_empty addr with Some ErrDiscoveryScanNotWallet ;;
      Ok addr
  end.

Definition fetchWalletTargetAddressForScan (cfg : authConfig) (authorization requestID scanID : string)
    : res (option sentinel) string :=
  match wallet_scan_detail cfg authorization requestID scanID with
  | CallFailed => Err None
  | Answer status b =>
      match b with
      | Unreadable => Err None
      | _ =>
          fail_if (status =? StatusNotFound)%Z with Some ErrDiscoveryScanNotFound ;;
          fail_if negb (status =? StatusOK)%Z with None ;;
          targetAddressFromWalletScanDetailJSON b
      end
  end.

Record immutabilityGuardError := mkGuardError { ig_code : string; ig_message : string; ig_status : Z }.

Definition isImmutabilityGuardRoute (r : Request) : bool :=
  String.eqb (rq_Method r) MethodPost && String.eqb (rq_Path r) PoliciesDecisionsExplore.

Definition guard_unavailable : immutabilityGuardError :=
  mkGuardError walletAuthCodeDiscoveryUnavailable "discovery is unavailable" StatusServiceUnavailable.

Definition enforceScanImmutabilityGuards (r : Request) (cfg : authConfig) (requestID : string)
    : res immutabilityGuardError unit :=
  if negb (isImmutabilityGuardRoute r) then Ok tt
  else
    match extractScanIDsForAuthorization r with
    | Err _ | Ok [] => Ok tt
    | Ok (scanID :: _) =>
        match NormalizeDiscoveryScanID scanID with
        | Err _ => Ok tt
        | Ok requestedScanID =>
            fail_if is_empty (TrimSpace (ac_DiscoveryHTTPBaseURL cfg)) with guard_unavailable ;;
            match fetchWalletTargetAddressForScan cfg (Header_Get r "Authorization") requestID requestedScanID with
            | Err (Some ErrDiscoveryScanNotFound) | Err (Some ErrDiscoveryScanNotWallet) =>
                Err (mkGuardError errCodeNotFound errMsgScanNotFound StatusNotFound)
            | Err _ => Err guard_unavailable
            | Ok targetAddress =>
                fail_if is_empty targetAddress
                  with mkGuardError "SCAN_ID_NOT_WALLET_TARGET" "scan_id is not a wallet target" StatusBadRequest ;;
                match ensureOwnerScopedW2 r cfg requestID targetAddress requestedScanID with
                | Err e => Err (mkGuardError (w2_code e) (w2_message e) (w2_status e))
                | Ok _ => Ok tt
                end
            end
        end
    end.

(** ** The middleware *)

Definition with_principal (r : Request) (p : Principal) : Request :=
  mkRequest (rq_Method r) (rq_Path r) (rq_Host r) (rq_Header r) (rq_Query r) (rq_Body r) (Some p).

(** The scan ids in turn; the first refusal stops. *)
Fixpoint authorize_scans (principal : Principal) (scanIDs : list string) (cfg : authConfig) (requestID : string)
    : res APIError unit :=
  match scanIDs with
  | [] => Ok tt
  | scanID :: rest =>
      _ ← authorizeScanAccess principal scanID cfg requestID;
      authorize_scans principal rest cfg requestID
  end.

(** What the middleware decides for a request: pass it on, perhaps with a
    principal, or answer itself. *)
Definition admission (now : Z) (generated : string) (cfg : authConfig) (r : Request) : res Response Request :=
  let requestID := ensureRequestID generated r in
  let class := classifyRoute (rq_Method r) (rq_Path r) in
  let deny e := Err (writeAuthError requestID (ae_Status e) (ae_Code e) (ae_Message e) (ae_Details e)) in
  if String.eqb class RouteClassPublicHealth then Ok r
  else if String.eqb class RouteClassDeprecatedDisabled
  then Err (writeAuthError requestID StatusNotFound "AUTH_ROUTE_NOT_ENABLED" "route is not enabled" [])
  else
    match authenticateBearerToken now r cfg requestID with
    | Err e => deny e
    | Ok principal =>
        match extractScanIDsForAuthorization r with
        | Err e => deny e
        | Ok routeScanIDs =>
            match authorize_scans principal routeScanIDs cfg requestID with
            | Err e => deny e
            | Ok _ =>
                match enforceScanImmutabilityGuards r cfg requestID with
                | Err e => Err (writeJSON (ig_status e)
                                  (AMap [(jsonKeyError, AString (ig_code e)); (jsonKeyMessage, AString (ig_message e))]))
                | Ok _ => Ok (with_principal r principal)
                end
            end
        end
    end.

(** The handler in front of [next]; building it can fail.  [refuse] writes an
    answer of the middleware's own. *)
Definition withAuthentication {A} (refuse : Response -> A) (next : Request -> A) (cfg : authConfig)
    : gores (Z -> string -> Request -> A) :=
  _ ← validateRouteInventory routeInventory;
  if negb (ac_Required cfg) then Ok (fun _ _ r => next r)
  else
    fail_if is_empty (TrimSpace (ac_SessionValidationURL cfg))
      with errors_New "auth required but session validation URL is not configured" ;;
    Ok (fun now generated r =>
          match admission now generated cfg (with_request_id (ensureRequestID generated r) r) with
          | Err resp => refuse resp
          | Ok r' => next r'
          end).

End ScanAccess.

(** ** What the middleware lets through *)

Section AuthSpec.
Context `{U : Unicode, F : GoFloat, D : Discovery}.

(** The authorisation service said that the principal may read the scan. *)
Definition scan_allowed (cfg : authConfig) (p : Principal) (requestID scanID : string) : Prop :=
  TrimSpace scanID <> EmptyString /\ TrimSpace (ac_ScanAuthorizationURL cfg) <> EmptyString
  /\ url_accepted (can_read_url cfg scanID) = true
  /\ exists b, scan_can_read cfg (pr_UserID p) (pr_TenantID p) requestID scanID = Answer StatusOK b
      /\ decode_stream scan_auth_fields b (mkScanAuth false) = Some (mkScanAuth true).

Lemma scan_access_ok denied p scanID cfg requestID :
  scan_access denied p scanID cfg requestID = Ok tt <-> scan_allowed cfg p requestID scanID.
Proof.
  unfold scan_access, scan_allowed. rewrite !fail_if_ok, !is_empty_false, negb_false_iff.
  destruct (scan_can_read _ _ _ _ _) as [|status b]; [naive_solver|].
  destruct (Z.eqb_spec status StatusOK) as [->|Hne].
  - destruct (decode_stream _ b _) as [[[]]|] eqn:E.
    + split; [intros (? & ? & ? & _); split_and!; [done..|by exists b]|intros (? & ? & ? & _); done].
    + split; [intros (_ & _ & _ & ?); done|]. intros (? & ? & ? & b' & [= <-] & E'). congruence.
    + split; [intros (_ & _ & _ & ?); done|]. intros (? & ? & ? & b' & [= <-] & E'). congruence.
  - split; [|intros (_ & _ & _ & b' & [= -> _] & _); done].
    intros (_ & _ & _ & H). repeat case_match; done.
Qed.

Lemma authorize_scans_ok p ids cfg requestID :
  authorize_scans p ids cfg requestID = Ok tt <-> Forall (scan_allowed cfg p requestID) ids.
Proof.
  induction ids as [|id ids IH]; cbn [authorize_scans]; [by split; [constructor|]|].
  rewrite Forall_cons, res_bind_ok, <- IH. split.
  - intros ([] & H1 & H2). split; [by eapply scan_access_ok|done].
  - intros [H1 H2]. exists tt. split; [by apply scan_access_ok|done].
Qed.

(** The scans Discovery lists for a wallet. *)
Definition listed (cfg : authConfig) (authorization requestID address : string)
    (items : list walletScanListItem) : Prop :=
  exists b total limit,
    wallet_scan_list cfg authorization requestID address latest_only = Answer StatusOK b
    /\ decode_body scan_list_fields b (mkScanList [] 0 0) = Some (mkScanList items total limit).

Lemma complete_list_items extra l : sl_Items (complete_list extra l) = sl_Items l.
Proof. unfold complete_list. by repeat case_match. Qed.

Lemma fetchWalletScanList_ok cfg authorization requestID address items :
  (exists l, fetchWalletScanList cfg authorization requestID address latest_only = Some l /\ sl_Items l = items)
  <-> listed cfg authorization requestID address items.
Proof.
  unfold fetchWalletScanList, listed. destruct (wallet_scan_list _ _ _ _ _) as [|status b]; [naive_solver|].
  destruct (Z.eqb_spec status StatusOK) as [->|Hst]; cbn [negb].
  2:{ split; [|naive_solver]. intros (l & H & _). by destruct b. }
  destruct (decode_body scan_list_fields b (mkScanList [] 0 0)) as [[its total limit]|] eqn:Hdec.
  2:{ split; [|naive_solver]. intros (l & H & _). by destruct b. }
  assert (Hb : b <> Unreadable) by (by intros ->). cbn [mbind option_bind sl_Total sl_Items sl_Limit]. split.
  - intros (l & H & <-). exists b, total, limit. split; [done|]. rewrite Hdec. f_equal.
    destruct b; try done; injection H as <-; by rewrite complete_list_items.
  - intros (b' & t & li & [= <-] & E). rewrite Hdec in E. injection E as -> -> ->.
    destruct b; try done; eexists; (split; [reflexivity|]); by rewrite complete_list_items.
Qed.

Lemma fetchWalletLatestCompletedScanID_ok cfg authorization requestID address latest :
  fetchWalletLatestCompletedScanID cfg authorization requestID address = Some latest <->
  exists items, listed cfg authorization requestID address items
    /\ latest = match items with [] => EmptyString | item :: _ => TrimSpace (si_ScanID item) end.
Proof.
  setoid_rewrite <- fetchWalletScanList_ok. unfold fetchWalletLatestCompletedScanID. split.
  - destruct (fetchWalletScanList _ _ _ _ _) as [l|]; [|done]. cbn [mbind option_bind].
    intros H. exists (sl_Items l). split; [by exists l|]. by destruct (sl_Items l); injection H as <-.
  - intros (items & (l & -> & <-) & ->). cbn [mbind option_bind]. by destruct (sl_Items l).
Qed.

Lemma NormalizeDiscoveryScanID_trim s :
  NormalizeDiscoveryScanID (TrimSpace s) = NormalizeDiscoveryScanID s.
Proof. unfold NormalizeDiscoveryScanID. by rewrite TrimSpace_idem. Qed.

(** C35: the latest-scan rule fails closed: it holds exactly when Discovery is
    configured, answers 200 with a list that decodes, and the first scan listed
    for the wallet is a scan id equal to the one engaged, up to case. *)
Theorem ensureOwnerScopedW2_correct r cfg requestID wallet scanID :
  ensureOwnerScopedW2 r cfg requestID wallet scanID = Ok tt <->
  TrimSpace (ac_DiscoveryHTTPBaseURL cfg) <> EmptyString
  /\ exists item rest latest,
      listed cfg (Header_Get r "Authorization") requestID wallet (item :: rest)
      /\ NormalizeDiscoveryScanID (si_ScanID item) = Ok latest
      /\ EqualFold latest (TrimSpace scanID) = true.
Proof.
  unfold ensureOwnerScopedW2. rewrite fail_if_ok, is_empty_false.
  assert (Hnil : NormalizeDiscoveryScanID EmptyString = Err (err_of ErrInvalidDiscoveryScanUUID)) by done.
  apply and_iff_compat_l. split.
  - destruct (fetchWalletLatestCompletedScanID _ _ _ _) as [latest|] eqn:Hl; [|done].
    intros [He H]%fail_if_ok. apply fetchWalletLatestCompletedScanID_ok in Hl as ([|item rest] & Hl & ->); [done|].
    rewrite NormalizeDiscoveryScanID_trim in H.
    destruct (NormalizeDiscoveryScanID (si_ScanID item)) as [latest|] eqn:Hn; [|done].
    apply fail_if_ok in H as [Hf%negb_false_iff _]. by exists item, rest, latest.
  - intros (item & rest & latest & Hl & Hn & Hf).
    rewrite (proj2 (fetchWalletLatestCompletedScanID_ok _ _ _ _ (TrimSpace (si_ScanID item))));
      [|by exists (item :: rest)].
    rewrite TrimSpace_idem, NormalizeDiscoveryScanID_trim, Hn, Hf.
    destruct (is_empty (TrimSpace (si_ScanID item))) eqn:He; [|done].
    apply is_empty_spec in He. rewrite <- NormalizeDiscoveryScanID_trim, He, Hnil in Hn. done.
Qed.

(** ** Tokens *)

(** The session service accepts the token. *)
Definition session_accepted (cfg : authConfig) (token requestID : string)
    (claims : option (list (string * any))) : Prop :=
  exists b, session_validate cfg token requestID
            = Answer StatusOK b
    /\ match b with
       | Document v =>
           match dec_document validation_fields v (mkValidation false EmptyString None) with
           | Some a => (dv_Accepted a = true \/ dv_ErrorMessage a = EmptyString) /\ claims = dv_Claims a
           | None => claims = None
           end
       | _ => claims = None
       end.

Lemma accept_silent_spec a :
  (dv_Accepted (accept_silent a) = true <-> dv_Accepted a = true \/ dv_ErrorMessage a = EmptyString)
  /\ dv_Claims (accept_silent a) = dv_Claims a.
Proof.
  destruct a as [acc msg cl]. unfold accept_silent. cbn [dv_Accepted dv_ErrorMessage dv_Claims].
  destruct acc; cbn [negb andb dv_Accepted dv_ErrorMessage dv_Claims]; [naive_solver|].
  destruct (is_empty msg) eqn:Em; cbn [andb].
  - apply is_empty_spec in Em as ->. destruct (bool_decide _); cbn [negb andb dv_Accepted dv_ErrorMessage dv_Claims];
      [naive_solver|]. change (is_empty EmptyString) with true. cbn. naive_solver.
  - cbn [negb andb dv_Accepted dv_ErrorMessage dv_Claims]. rewrite Em.
    cbn [negb andb dv_Accepted dv_ErrorMessage dv_Claims]. apply is_empty_false in Em. naive_solver.
Qed.

Lemma validateTokenWithDiscovery_ok cfg token requestID claims :
  (exists v, validateTokenWithDiscovery cfg token requestID = Some v /\ dv_Accepted v = true
             /\ dv_Claims v = claims)
  <-> session_accepted cfg token requestID claims.
Proof.
  unfold validateTokenWithDiscovery, session_accepted.
  destruct (session_validate _ _ _) as [|status b]; [naive_solver|].
  destruct (decide (status = StatusOK)) as [->|Hst].
  2:{ split; [|intros (b' & [= -> _] & _); done]. apply Z.eqb_neq in Hst. rewrite Hst. cbn [negb].
      intros (v & H & Ha & _). repeat case_match; simplify_eq; done. }
  change ((StatusOK =? StatusUnauthorized)%Z || (StatusOK =? StatusForbidden)%Z) with false.
  change (500 <=? StatusOK)%Z with false. change (negb (StatusOK =? StatusOK)%Z) with false.
  cbv iota. destruct b as [| | | |v1|v0];
    try (split; [intros (v & [= <-] & _ & <-); by eexists|
                 intros (b' & [= <-] & ->); eexists; by split_and!]).
  destruct (dec_document validation_fields v0 _) as [[acc msg cl]|] eqn:Hdec.
  2:{ split; [intros (v & [= <-] & _ & <-); exists (Document v0); split; [done|]; by rewrite Hdec|].
      intros (b' & [= <-] & H). rewrite Hdec in H. subst. eexists; by split_and!. }
  destruct (accept_silent_spec (mkValidation acc msg cl)) as [Ea Ec]. split.
  - intros (v & [= <-] & Ha & Hc). exists (Document v0). split; [done|]. rewrite Hdec, <- Ea, <- Ec. done.
  - intros (b' & [= <-] & H). rewrite Hdec in H. eexists. split; [reflexivity|]. rewrite Ea, Ec. naive_solver.
Qed.

(** A well-formed token: both algorithms, an expiry not passed, an email. *)
Definition token_claims (now : Z) (cfg : authConfig) (token : string) (claims : list (string * any)) : Prop :=
  parseAndValidateDiscoveryToken now token (ac_ClockSkewSec cfg) = Some claims.

Lemma token_claims_fresh now cfg token claims : token_claims now cfg token claims ->
  (exists exp, claimAsUnix (doc_get claims "exp") = Some exp /\ (now <= wrap64 (exp + ac_ClockSkewSec cfg))%Z)
  /\ (exists email, doc_get claims "email" = Some (AString email)).
Proof.
  unfold token_claims, parseAndValidateDiscoveryToken. intros H.
  repeat (apply bind_Some in H as (? & ? & H) || (case_match; try done)); simplify_eq.
  split.
  - match goal with H : negb (validateDiscoveryClaims _ _ _) = false |- _ =>
      apply negb_false_iff in H; unfold validateDiscoveryClaims in H;
      destruct (claimAsUnix _) as [exp|]; [|done]; exists exp; split; [done|];
      apply negb_true_iff, Z.ltb_ge in H; lia end.
  - match goal with H : as_string (doc_get _ "email") = Some _ |- _ =>
      destruct (doc_get _ "email") as [[]|]; try done; eauto end.
Qed.

(** The principal of a request: the bearer token, well formed and accepted, and
    the user and tenant its claims name. *)
Definition session (now : Z) (r : Request) (cfg : authConfig) (requestID : string) (p : Principal) : Prop :=
  exists token own accepted,
    HasPrefix (ToLower (TrimSpace (Header_Get r "Authorization"))) "bearer " = true
    /\ token = TrimSpace (drop_bytes 7 (TrimSpace (Header_Get r "Authorization"))) /\ token <> EmptyString
    /\ token_claims now cfg token own /\ session_accepted cfg token requestID accepted
    /\ p = (let claims := default own accepted in
            let userID := default EmptyString (as_string (doc_get claims "user_id")) in
            mkPrincipal userID userID (default EmptyString (as_string (doc_get claims "tenant_id"))) (Some claims))
    /\ TrimSpace (pr_UserID p) <> EmptyString.

Lemma authenticateBearerToken_ok now r cfg requestID p :
  authenticateBearerToken now r cfg requestID = Ok p <-> session now r cfg requestID p.
Proof.
  unfold authenticateBearerToken, session. cbn zeta. rewrite fail_if_ok, negb_false_iff.
  change (len "Bearer ") with 7. set (token := TrimSpace (drop_bytes 7 _)).
  rewrite fail_if_ok, is_empty_false. unfold token_claims.
  destruct (parseAndValidateDiscoveryToken now token (ac_ClockSkewSec cfg)) as [own|] eqn:Hown.
  2:{ split; [naive_solver|]. intros (t & o & a & _ & -> & _ & E & _). congruence. }
  assert (Hval : forall u t c, Principal_Validate (mkPrincipal u u t c) = Ok tt <-> TrimSpace u <> EmptyString).
  { intros. rewrite Principal_Validate_ok. naive_solver. }
  split.
  - intros (Hpre & Htok & H). destruct (validateTokenWithDiscovery cfg token requestID) as [v|] eqn:Hv; [|done].
    apply fail_if_ok in H as [Ha%negb_false_iff H]. apply fail_if_ok in H as [Hu%is_empty_false H].
    destruct (Principal_Validate _); [|done]. injection H as <-.
    exists token, own, (dv_Claims v). split_and!; try done.
    apply validateTokenWithDiscovery_ok. by exists v.
  - intros (t & o & a & Hpre & -> & Htok & Ho & Hacc & -> & Hu). split; [done|]. split; [done|].
    fold token in Ho. rewrite Hown in Ho. injection Ho as <-.
    apply validateTokenWithDiscovery_ok in Hacc as (v & Hv & Ha & Hc). fold token in Hv. rewrite Hv, Ha.
    cbn [negb guard_err]. rewrite Hc. cbn [pr_UserID] in Hu. apply is_empty_false in Hu as Hu'. rewrite Hu'.
    cbn [guard_err]. by rewrite (proj2 (Hval _ _ _) Hu).
Qed.

(** The latest-scan guard on exploration. *)
Definition guard_passes (r : Request) (cfg : authConfig) (requestID : string) : Prop :=
  enforceScanImmutabilityGuards r cfg requestID = Ok tt.

(** What passes the middleware. *)
Lemma admission_passes now generated cfg r r' :
  admission now generated cfg r = Ok r' <->
  (public_request (rq_Method r) (rq_Path r) /\ r' = r)
  \/ (business_request (rq_Method r) (rq_Path r)
     /\ exists p ids, session now r cfg (ensureRequestID generated r) p
         /\ extractScanIDsForAuthorization r = Ok ids
         /\ Forall (scan_allowed cfg p (ensureRequestID generated r)) ids
         /\ guard_passes r cfg (ensureRequestID generated r)
         /\ r' = with_principal r p).
Proof.
  destruct (classify_cases (rq_Method r) (rq_Path r)) as (Hpub & Hbus & Hdis).
  unfold admission, guard_passes. cbn zeta.
  destruct (String.eqb_spec (classifyRoute (rq_Method r) (rq_Path r)) RouteClassPublicHealth) as [E|E].
  { apply Hpub in E as E'. split; [intros [= <-]; by left|].
    intros [[_ ->]|[Hb _]]; [done|]. apply Hbus in Hb. rewrite E in Hb. discriminate Hb. }
  destruct (String.eqb_spec (classifyRoute (rq_Method r) (rq_Path r)) RouteClassDeprecatedDisabled) as [E2|E2].
  { apply Hdis in E2 as [Hnp Hnb]. split; [done|]. naive_solver. }
  assert (Hb : business_request (rq_Method r) (rq_Path r)).
  { destruct (business_dec (rq_Method r) (rq_Path r)) as [|Hnb]; [done|]. exfalso. apply E2, Hdis.
    split; [|done]. intros Hp%Hpub. done. }
  set (rid := ensureRequestID generated r). split.
  - intros H. right. split; [done|].
    destruct (authenticateBearerToken now r cfg rid) as [p|] eqn:Ha; [|done].
    destruct (extractScanIDsForAuthorization r) as [ids|] eqn:Hi; [|done].
    destruct (authorize_scans p ids cfg rid) as [[]|] eqn:Hs; [|done].
    destruct (enforceScanImmutabilityGuards r cfg rid) as [[]|] eqn:Hg; [|done].
    injection H as <-. exists p, ids. split_and!; try done.
    + by apply authenticateBearerToken_ok.
    + by apply authorize_scans_ok.
  - intros [[Hp%Hpub _]|(_ & p & ids & Hs & -> & Hf & Hg & ->)]; [done|].
    apply authenticateBearerToken_ok in Hs as ->. apply authorize_scans_ok in Hf as ->. by rewrite Hg.
Qed.

(** A refusal is an HTTP error. *)
Definition is_refusal (e : APIError) : Prop := (400 <= ae_Status e)%Z.

Lemma authenticate_refusal now r cfg rid e : authenticateBearerToken now r cfg rid = Err e -> is_refusal e.
Proof.
  unfold authenticateBearerToken. intros H.
  walk_refusal H.
Qed.

Lemma extract_refusal r e : extractScanIDsForAuthorization r = Err e -> is_refusal e.
Proof.
  unfold extractScanIDsForAuthorization, scanIDsFromOwnerPoliciesGETQuery. intros H.
  walk_refusal H.
Qed.

Lemma scans_refusal p ids cfg rid e : authorize_scans p ids cfg rid = Err e -> is_refusal e.
Proof.
  induction ids as [|id ids IH]; [done|]. cbn [authorize_scans].
  destruct (authorizeScanAccess p id cfg rid) as [[]|e'] eqn:H; [done|]. intros [= <-].
  unfold authorizeScanAccess, scan_access in H.
  walk_refusal H.
Qed.

Lemma w2_refusal r cfg rid w scan e : ensureOwnerScopedW2 r cfg rid w scan = Err e -> (400 <= w2_status e)%Z.
Proof.
  unfold ensureOwnerScopedW2. intros [[_ <-]|[_ H]]%fail_if_err; [done|].
  walk_refusal H.
Qed.

Lemma guard_refusal r cfg rid e : enforceScanImmutabilityGuards r cfg rid = Err e -> (400 <= ig_status e)%Z.
Proof.
  unfold enforceScanImmutabilityGuards. intros H.
  walk_refusal H.
  by eapply w2_refusal.
Qed.

Lemma admission_refusal now generated cfg r resp :
  admission now generated cfg r = Err resp -> (400 <= rs_Status resp)%Z.
Proof.
  unfold admission. set (rid := ensureRequestID generated r).
  destruct (String.eqb _ _); [done|]. destruct (String.eqb _ _); [by intros [= <-]|].
  destruct (authenticateBearerToken now r cfg rid) eqn:Ha; [|intros [= <-]; by eapply authenticate_refusal].
  destruct (extractScanIDsForAuthorization r) eqn:He; [|intros [= <-]; by eapply extract_refusal].
  destruct (authorize_scans _ _ _ _) eqn:Hs; [|intros [= <-]; by eapply scans_refusal].
  destruct (enforceScanImmutabilityGuards r cfg rid) eqn:Hg; [done|intros [= <-]; by eapply guard_refusal].
Qed.

(** C11: the middleware passes a request on exactly in two cases: the request is
    one of the three public ones, and goes on unchanged; or it is a declared
    business request with a bearer token that is well formed, unexpired and
    accepted by the session service, every scan id it names may be read by the
    token's user, and the exploration guard holds; the handler then sees the
    token's user, which is never blank. *)
Theorem admission_correct now generated cfg r r' :
  admission now generated cfg r = Ok r' <->
  (public_request (rq_Method r) (rq_Path r) /\ r' = r)
  \/ (business_request (rq_Method r) (rq_Path r)
     /\ exists p ids, session now r cfg (ensureRequestID generated r) p
         /\ extractScanIDsForAuthorization r = Ok ids
         /\ Forall (scan_allowed cfg p (ensureRequestID generated r)) ids
         /\ guard_passes r cfg (ensureRequestID generated r)
         /\ r' = with_principal r p).
Proof. apply admission_passes. Qed.

(** What the body says about a scan: absent, null and blank say nothing. *)
Definition names_scan (v : option any) (id : string) : Prop :=
  exists s, v = Some (AString s) /\ TrimSpace s = id /\ id <> EmptyString.

Definition silent (v : option any) : Prop :=
  v = None \/ v = Some ANil \/ exists s, v = Some (AString s) /\ TrimSpace s = EmptyString.

Lemma add_scan_id_ok v out out' : add_scan_id v out = Some out' <->
  (silent v /\ out' = out) \/ (exists id, names_scan v id /\ out' = out ++ [id]).
Proof.
  unfold add_scan_id, silent, names_scan. destruct v as [[| |s| | | | | | | |]|]; try naive_solver.
  destruct (is_empty (TrimSpace s)) eqn:E; cbn zeta.
  - apply is_empty_spec in E. naive_solver.
  - apply is_empty_false in E. naive_solver.
Qed.

(** The scan named under policy_context, when that is an object. *)
Definition context_scan (payload : list (string * any)) : option any :=
  match doc_get payload "policy_context" with
  | Some (AMap pc) => doc_get pc "scan_id"
  | _ => None
  end.

(** Of a request with a JSON body at most one scan is authorised, and it is
    the one the body names: the scan ids at the top level and under
    policy_context must agree when both are given, and the request is refused
    when one of them is not a string. *)
Theorem extractScanIDs_correct r doc payload ids :
  rq_Method r = MethodPost -> rq_Path r <> PoliciesAssessmentRequest ->
  rq_Body r = Document doc -> dec_map doc (Some []) = Some (Some payload) ->
  extractScanIDsForAuthorization r = Ok ids <->
  let top := doc_get payload "scan_id" in
  let ctx := context_scan payload in
  (ids = [] /\ silent top /\ silent ctx)
  \/ (exists id, ids = [id] /\ (names_scan top id \/ silent top) /\ (names_scan ctx id \/ silent ctx)
       /\ (names_scan top id \/ names_scan ctx id)).
Proof.
  intros Hm Hp Hb Hv. unfold extractScanIDsForAuthorization. rewrite Hm, Hb, Hv.
  apply String.eqb_neq in Hp. rewrite Hp. cbn [andb]. change (String.eqb MethodPost MethodPost) with true.
  change (String.eqb MethodPost MethodGet) with false. cbn [negb andb]. cbn zeta.
  assert (Hc : forall out, collectScanIDs payload = Some out <->
    exists o, add_scan_id (doc_get payload "scan_id") [] = Some o /\ add_scan_id (context_scan payload) o = Some out).
  { intros out. unfold collectScanIDs, context_scan. rewrite bind_Some.
    apply exist_proper. intros o. apply and_iff_compat_l.
    destruct (doc_get payload "policy_context") as [[]|]; done. }
  destruct (collectScanIDs payload) as [out|] eqn:Hout.
  - destruct (proj1 (Hc out) eq_refl) as (o & H1 & H2). rewrite !add_scan_id_ok in H1, H2.
    assert (Hex : forall v id, silent v -> names_scan v id -> False).
    { unfold silent, names_scan. intros v id [->|[->|(s & -> & Hs)]] (s' & E & Hs' & Hne); try done.
      injection E as ->. congruence. }
    assert (Hun : forall v a b, names_scan v a -> names_scan v b -> a = b).
    { unfold names_scan. intros v a b (s & -> & <- & _) (s' & [= <-] & <- & _). done. }
    destruct H1 as [[S1 ->]|(a & N1 & ->)], H2 as [[S2 ->]|(b & N2 & ->)]; cbn [app existsb].
    + split; [intros [= <-]; left; by split_and!|].
      intros [(-> & _)|(id & -> & _ & _ & [N|N])]; [done|by destruct (Hex _ _ S1 N)|by destruct (Hex _ _ S2 N)].
    + split; [intros [= <-]; right; exists b; split_and!; [done|by right|by left|by right]|].
      intros [(-> & _ & S)|(id & -> & _ & _ & [N|N])]; [by destruct (Hex _ _ S N2)|by destruct (Hex _ _ S1 N)|].
      by rewrite (Hun _ _ _ N N2).
    + split; [intros [= <-]; right; exists a; split_and!; [done|by left|by right|by left]|].
      intros [(-> & S & _)|(id & -> & _ & _ & [N|N])]; [by destruct (Hex _ _ S N1)| |by destruct (Hex _ _ S2 N)].
      by rewrite (Hun _ _ _ N N1).
    + rewrite orb_false_r, fail_if_ok, negb_false_iff, String.eqb_eq. split.
      * intros [-> [= <-]]. right. exists a. split_and!; [done|by left|by left|by left].
      * intros [(-> & S & _)|(id & -> & [M1|S] & [M2|S'] & _)];
          [by destruct (Hex _ _ S N1)| |by destruct (Hex _ _ S' N2)|by destruct (Hex _ _ S N1)..].
        rewrite (Hun _ _ _ N1 M1), (Hun _ _ _ N2 M2). done.
  - split; [done|]. intros H. exfalso.
    assert (exists o out, add_scan_id (doc_get payload "scan_id") [] = Some o
                          /\ add_scan_id (context_scan payload) o = Some out) as (o & out & Ho).
    { setoid_rewrite add_scan_id_ok. destruct H as [(-> & S1 & S2)|(id & _ & H1 & H2 & _)]; [eauto 10|].
      destruct H1, H2; eauto 10. }
    specialize (Hc out). destruct Hc as [_ Hc]. by discriminate Hc; eauto.
Qed.

End AuthSpec.

(** ** Witnesses *)

(** A token of user-1 that expires at 1000: the base64 text of an envelope with
    the claims and the two signatures. *)
Definition sample_token : string :=
  "eyJwYXlsb2FkIjoiZXlKbGVIQWlPakV3TURBc0ltVnRZV2xzSWpvaVlVQmlMbU1pTENKMWMyVnlYMmxrSWpvaWRYTmxjaTB4SW4wIiwic2lnbmF0dXJlcyI6W3sicHJvdGVjdGVkIjoiZXlKaGJHY2lPaUpGWkVSVFFTSjkiLCJzaWduYXR1cmUiOiJzIn0seyJwcm90ZWN0ZWQiOiJleUpoYkdjaU9pSk5UQzFFVTBFdE5qVWlmUSIsInNpZ25hdHVyZSI6InMifV19".

Definition sample_request (path : string) (payload : list (string * any)) : Request :=
  mkRequest MethodPost path "cpm.local:8080"
    [("Authorization", "Bearer " +:+ sample_token); ("X-Request-Id", "req-1")] [] (Document (AMap payload)) None.

Lemma extractScanIDs_correct_witness :
  extractScanIDsForAuthorization
    (sample_request WalletChallenges [("scan_id", AString " scan-1"); ("policy_context", AMap [("scan_id", AString "scan-1")])])
  = Ok ["scan-1"].
Proof.
  apply (extractScanIDs_correct
    (sample_request WalletChallenges [("scan_id", AString " scan-1"); ("policy_context", AMap [("scan_id", AString "scan-1")])])
    (AMap [("scan_id", AString " scan-1"); ("policy_context", AMap [("scan_id", AString "scan-1")])])
    [("policy_context", AMap [("scan_id", AString "scan-1")]); ("scan_id", AString " scan-1")] ["scan-1"] eq_refl);
    [discriminate|reflexivity|vm_compute; reflexivity|].
  right. exists "scan-1".
  split; [reflexivity|]. split; [|split]; left.
  - exists " scan-1". split; [reflexivity|]. split; [vm_compute; reflexivity|discriminate].
  - exists "scan-1". split; [reflexivity|]. split; [vm_compute; reflexivity|discriminate].
  - exists " scan-1". split; [reflexivity|]. split; [vm_compute; reflexivity|discriminate].
Defined.

Definition sample_scan_id : string := "00112233-4455-6677-8899-aabbccddeeff".

(** A Discovery that answers the session check with the given body, allows every
    scan and lists one. *)
Definition sample_discovery (session_body : body) : Discovery := {|
  url_accepted := fun _ => true;
  discovery_call := fun rq =>
    Answer StatusOK
      (if String.eqb (dq_URL rq) "http://discovery/validate" then session_body
       else if HasSuffix (dq_URL rq) "/can-read" then Document (AMap [("allowed", ABool true)])
       else if HasSuffix (dq_URL rq) "/wallets/scans"
       then Document (AMap [("items", ASlice [AMap [("scan_id", AString sample_scan_id)]])])
       else Document (AMap [("result", AMap [("target_address", AString "0xabc")])]))
|}.

Definition sample_config : authConfig :=
  mkAuthConfig true "http://discovery/validate" 3 EmptyString "http://discovery/scans" 3 EmptyString 0
    "http://discovery" 5 "cafe.local".

Definition plain_float : GoFloat :=
  {| float_text := fun _ => EmptyString; float_json := fun _ => EmptyString; float_overflow := fun _ => 0%Z |}.

Definition sample_claims : list (string * any) :=
  [("user_id", AString "user-1"); ("email", AString "a@b.c");
   ("exp", AFloat64 (mkFloat 8796093022208000 (-43)))].

Definition explore_sample : Request :=
  sample_request PoliciesDecisionsExplore [("scan_id", AString sample_scan_id)].

Example admission_example :
  @admission _ plain_float (sample_discovery EmptyBody) 999 "req-2" sample_config explore_sample
  = Ok (with_principal explore_sample (mkPrincipal "user-1" "user-1" EmptyString
      (Some sample_claims))).
Proof. vm_compute. reflexivity. Qed.

Example admission_expired :
  is_ok (@admission _ plain_float (sample_discovery EmptyBody) 1001 "req-2" sample_config explore_sample)
  = false.
Proof. vm_compute. reflexivity. Qed.

(** A session service that answers 200 with an explicit refusal but no error
    text is taken to accept the token. *)
Lemma silent_refusal_accepted :
  is_ok (@admission _ plain_float (sample_discovery (Document (AMap [("accepted", ABool false)])))
           999 "req-2" sample_config explore_sample) = true
  /\ is_ok (@admission _ plain_float (sample_discovery (Document (AMap [("accepted", ABool false); ("error", AString "revoked")])))
           999 "req-2" sample_config explore_sample) = false.
Proof. split; vm_compute; reflexivity. Qed.
