(* ===== verification/ExploreContext.v ===== *)
(** * The wallet context of an exploration

    [internal/api/explore_policy_context.go] and [wallet_scan_detail.go]: from
    the JSON a client or Discovery sends about a scanned wallet to the observed
    payload the evaluator reads.  The vocabulary of account kinds, algorithms
    and postures belongs to the contract module
    [cafe-contracts/observation/wallet/v01] and is an interface here. *)

From stdpp Require Import base gmap sets list strings.
From Stdlib Require Import Ascii ZArith.
From S2P Require Import Prelude GoStrings GoUnicode Errors GoTime Manifest Registry Compat CryptoPolicy Explore GoAny PayloadHash Snapshot PersistGate OwnerStore Http Upstream Auth.
Local Open Scope string_scope.
Local Open Scope list_scope.

(** ** The contract module *)

Class WalletContract := {
  v01_AccountKindEOA : string;
  v01_AccountKindERC4337SmartAccount : string;
  v01_AccountKindContractAccount : string;
  v01_AccountKindUnknown : string;
  v01_AccountKind_IsValid : string -> bool;
  v01_AlgorithmSecp256k1ECRecover : string;
  v01_IsValidAlgorithmID : string -> bool;
  v01_PQPostureUnknown : string;
  v01_PQPostureFullPQ : string;
  v01_PQPostureClassicalOnly : string;
  v01_CurrentPQPosture_IsValid : string -> bool
}.

(** The constants are values of their vocabularies. *)
Class WalletContractLaws (C : WalletContract) : Prop := {
  kinds_valid : Forall (fun k => v01_AccountKind_IsValid k = true)
    [v01_AccountKindEOA; v01_AccountKindERC4337SmartAccount; v01_AccountKindContractAccount; v01_AccountKindUnknown];
  algorithm_valid : v01_IsValidAlgorithmID v01_AlgorithmSecp256k1ECRecover = true;
  postures_valid : Forall (fun p => v01_CurrentPQPosture_IsValid p = true)
    [v01_PQPostureUnknown; v01_PQPostureFullPQ; v01_PQPostureClassicalOnly; PQPostureHybrid; PQPostureUnknown]
}.

(** ** Wire types *)

Record walletPolicyContextWire := mkContext {
  wp_ScanID : string;
  wp_WalletAddress : string;
  wp_TargetAddress : string;
  wp_WalletType : string;
  wp_ChainIDs : list Z;
  wp_CurrentAlgorithm : string;
  wp_CurrentPQPosture : string;
  wp_ScannedAt : string;
  wp_Status : string;
  wp_KeyExposed : bool
}.

Record walletScanResultV1Wire := mkScanResult {
  wr_TargetAddress : string;
  wr_ChainIDs : list Z;
  wr_WalletType : string;
  wr_CurrentPQPosture : string;
  wr_CurrentAlgorithm : string;
  wr_Algorithm : string;
  wr_ScannedAt : string;
  wr_KeyExposed : bool
}.

(** [strings.NewReplacer("-", "_", " ", "_").Replace]. *)
Fixpoint underscores (s : string) : string :=
  match s with
  | EmptyString => EmptyString
  | String c s' => String (if Ascii.eqb c "-" || Ascii.eqb c " " then "_"%char else c) (underscores s')
  end.

Section Context.
Context `{U : Unicode, F : GoFloat, JE : JsonErrors, C : WalletContract}.

Definition context_fields : list (string * decoder walletPolicyContextWire) :=
  [("scan_id", field wp_ScanID
      (fun x '(mkContext a b c d e f g h i j) => mkContext x b c d e f g h i j) dec_string);
   ("wallet_address", field wp_WalletAddress
      (fun x '(mkContext a b c d e f g h i j) => mkContext a x c d e f g h i j) dec_string);
   ("target_address", field wp_TargetAddress
      (fun x '(mkContext a b c d e f g h i j) => mkContext a b x d e f g h i j) dec_string);
   ("wallet_type", field wp_WalletType
      (fun x '(mkContext a b c d e f g h i j) => mkContext a b c x e f g h i j) dec_string);
   ("chain_ids", field wp_ChainIDs
      (fun x '(mkContext a b c d e f g h i j) => mkContext a b c d x f g h i j) (dec_list dec_int64 0%Z));
   ("current_algorithm", field wp_CurrentAlgorithm
      (fun x '(mkContext a b c d e f g h i j) => mkContext a b c d e x g h i j) dec_string);
   ("current_pq_posture", field wp_CurrentPQPosture
      (fun x '(mkContext a b c d e f g h i j) => mkContext a b c d e f x h i j) dec_string);
   ("scanned_at", field wp_ScannedAt
      (fun x '(mkContext a b c d e f g h i j) => mkContext a b c d e f g x i j) dec_string);
   ("status", field wp_Status
      (fun x '(mkContext a b c d e f g h i j) => mkContext a b c d e f g h x j) dec_string);
   ("key_exposed", field wp_KeyExposed
      (fun x '(mkContext a b c d e f g h i j) => mkContext a b c d e f g h i x) dec_bool)].

Definition zero_context : walletPolicyContextWire :=
  mkContext EmptyString EmptyString EmptyString EmptyString [] EmptyString EmptyString EmptyString EmptyString false.

Definition scan_result_fields : list (string * decoder walletScanResultV1Wire) :=
  [("target_address", field wr_TargetAddress
      (fun x '(mkScanResult a b c d e f g h) => mkScanResult x b c d e f g h) dec_string);
   ("chain_ids", field wr_ChainIDs
      (fun x '(mkScanResult a b c d e f g h) => mkScanResult a x c d e f g h) (dec_list dec_int64 0%Z));
   ("wallet_type", field wr_WalletType
      (fun x '(mkScanResult a b c d e f g h) => mkScanResult a b x d e f g h) dec_string);
   ("current_pq_posture", field wr_CurrentPQPosture
      (fun x '(mkScanResult a b c d e f g h) => mkScanResult a b c x e f g h) dec_string);
   ("current_algorithm", field wr_CurrentAlgorithm
      (fun x '(mkScanResult a b c d e f g h) => mkScanResult a b c d x f g h) dec_string);
   ("algorithm", field wr_Algorithm
      (fun x '(mkScanResult a b c d e f g h) => mkScanResult a b c d e x g h) dec_string);
   ("scanned_at", field wr_ScannedAt
      (fun x '(mkScanResult a b c d e f g h) => mkScanResult a b c d e f x h) dec_string);
   ("key_exposed", field wr_KeyExposed
      (fun x '(mkScanResult a b c d e f g h) => mkScanResult a b c d e f g x) dec_bool)].

Definition zero_scan_result : walletScanResultV1Wire :=
  mkScanResult EmptyString [] EmptyString EmptyString EmptyString EmptyString EmptyString false.

(** ** Normalisation *)

Definition pickAlgorithm (current algorithm : string) : string :=
  if negb (is_empty (TrimSpace current)) then TrimSpace current else TrimSpace algorithm.

Definition normalizeWireAlgorithmID (raw : string) : string :=
  let s := TrimSpace raw in
  if is_empty s then EmptyString
  else
    let ls := ToLower s in
    if v01_IsValidAlgorithmID ls then ls
    else
      let u := underscores ls in
      if String.eqb u "ecdsa_secp256k1" || String.eqb u "secp256k1" then v01_AlgorithmSecp256k1ECRecover
      else s.

Definition normalizeWireAccountKind (walletType : string) : string :=
  let s := TrimSpace walletType in
  let up := ToUpper s in
  let lt := ToLower s in
  if String.eqb up "EOA" then v01_AccountKindEOA
  else if String.eqb up "AA" then v01_AccountKindERC4337SmartAccount
  else if String.eqb up "CONTRACT" then v01_AccountKindContractAccount
  else if String.eqb up "SMART_ACCOUNT" then v01_AccountKindERC4337SmartAccount
  else if String.eqb lt "eoa" then v01_AccountKindEOA
  else if String.eqb lt "aa" || String.eqb lt "smart_account" then v01_AccountKindERC4337SmartAccount
  else if String.eqb lt "contract" then v01_AccountKindContractAccount
  else if String.eqb lt "unknown" then v01_AccountKindUnknown
  else if negb (is_empty lt) && v01_AccountKind_IsValid lt then lt
  else v01_AccountKindUnknown.

Definition mapWirePQPostureToV01Exported (raw : string) : gores string :=
  let s := TrimSpace raw in
  if is_empty s then Ok v01_PQPostureUnknown
  else
    let ls := ToLower s in
    if v01_CurrentPQPosture_IsValid ls then Ok ls
    else if String.eqb ls "pq_ready" then Ok v01_PQPostureFullPQ
    else if String.eqb ls "not_pq_ready" then Ok v01_PQPostureClassicalOnly
    else if String.eqb ls "hybrid" || String.eqb ls "unknown" then Ok ls
    else Err (errors_New ("policy_context.current_pq_posture invalid: " +:+ Quote raw)).

(** ** Parsing *)

(** [bytesTrimSpaceJSON] of a body is empty. *)
Definition blank_body (b : body) : bool := match b with EmptyBody | NoBody => true | _ => false end.

(** A string member of a map of raw messages; anything else reads as empty. *)
Definition quiet_member (top : list (string * any)) (key : string) : string :=
  match doc_get top key with
  | Some v => TrimSpace (Unmarshal_string_quietly v)
  | None => EmptyString
  end.

Definition parsePolicyContextFlexible (raw : body) : gores walletPolicyContextWire :=
  fail_if blank_body raw with errors_New "policy_context is required" ;;
  match Unmarshal_members raw with
  | Err e => Err (wrap_prefix "policy_context" e)
  | Ok top =>
      match doc_get top "result" with
      | None | Some ANil =>
          match Unmarshal "api.walletPolicyContextWire" context_fields zero_context raw with
          | Err e => Err (wrap_prefix "policy_context" e)
          | Ok flat => Ok flat
          end
      | Some sub =>
          match Unmarshal "api.walletScanResultV1Wire" scan_result_fields zero_scan_result (Document sub) with
          | Err e => Err (wrap_prefix "policy_context.result" e)
          | Ok res =>
              Ok {| wp_ScanID := quiet_member top "scan_id";
                    wp_WalletAddress := TrimSpace (wr_TargetAddress res);
                    wp_TargetAddress := TrimSpace (wr_TargetAddress res);
                    wp_WalletType := wr_WalletType res;
                    wp_ChainIDs := wr_ChainIDs res;
                    wp_CurrentAlgorithm := pickAlgorithm (wr_CurrentAlgorithm res) (wr_Algorithm res);
                    wp_CurrentPQPosture := wr_CurrentPQPosture res;
                    wp_ScannedAt := wr_ScannedAt res;
                    wp_Status := quiet_member top "status";
                    wp_KeyExposed := wr_KeyExposed res |}
          end
      end
  end.

(** The layouts are tried in turn; RFC 3339 with nanoseconds parses the same
    texts, a fraction of the second being read with either. *)
Fixpoint parse_layouts (layouts : list (string -> option time)) (raw : string) : option time :=
  match layouts with
  | [] => None
  | parse :: layouts' => match parse raw with Some t => Some t | None => parse_layouts layouts' raw end
  end.

Definition scanned_at (raw0 : string) : gores time :=
  let raw := TrimSpace raw0 in
  if is_empty raw then Ok zero_time
  else match parse_layouts [ParseRFC3339; ParseRFC3339] raw with
       | Some t => Ok t
       | None => Err (errors_New ("policy_context.scanned_at: invalid time " +:+ Quote raw))
       end.

(** The algorithm of a context, with the default for a blank one. *)
Definition context_algorithm (pc : walletPolicyContextWire) : string :=
  let algo := normalizeWireAlgorithmID (wp_CurrentAlgorithm pc) in
  if is_empty algo then v01_AlgorithmSecp256k1ECRecover else algo.

Definition observationFromWalletPolicyContext (pc : option walletPolicyContextWire) : gores Payload :=
  match pc with
  | None => Err (errors_New "policy_context is nil")
  | Some pc =>
      let kind := normalizeWireAccountKind (wp_WalletType pc) in
      fail_if negb (v01_AccountKind_IsValid kind)
        with errors_New ("policy_context.wallet_type resolves to invalid account_kind " +:+ Quote kind) ;;
      let algo := context_algorithm pc in
      fail_if negb (v01_IsValidAlgorithmID algo)
        with errors_New ("policy_context current_algorithm invalid: " +:+ Quote algo) ;;
      pq ← mapWirePQPostureToV01Exported (wp_CurrentPQPosture pc);
      observedAt ← scanned_at (wp_ScannedAt pc);
      Ok {| pl_ChainIDs := wp_ChainIDs pc;
            pl_AccountKind := kind;
            pl_CurrentAlgorithm := algo;
            pl_PublicKeyExposed := wp_KeyExposed pc;
            pl_IsMultichain := Nat.ltb 1 (length (wp_ChainIDs pc));
            pl_ObservedAt := observedAt;
            pl_CurrentPQPosture := pq |}
  end.

(** ** Discovery's scan detail *)

Record scan_probe := mkProbe { sb_ScanFamily : string; sb_Result : option any }.

Definition probe_fields : list (string * decoder scan_probe) :=
  [("scan_family", field sb_ScanFamily (fun x '(mkProbe a b) => mkProbe x b) dec_string);
   ("result", field sb_Result (fun x '(mkProbe a b) => mkProbe a x) dec_raw)].

Definition ObservationPayloadFromDiscoveryWalletScanDetail (detail : body) : gores Payload :=
  match Unmarshal "struct" probe_fields (mkProbe EmptyString None) detail with
  | Err e => Err (wrap_prefix "wallet scan detail" e)
  | Ok probe =>
      fail_if EqualFold (TrimSpace (sb_ScanFamily probe)) "tls" with err_of ErrWalletScanDetailTLS ;;
      match sb_Result probe with
      | None | Some ANil => Err (err_of ErrWalletScanDetailNoResult)
      | Some _ =>
          pc ← parsePolicyContextFlexible detail;
          observationFromWalletPolicyContext (Some pc)
      end
  end.

End Context.

(** ** What a context becomes *)

Section ContextSpec.
Context `{U : Unicode, F : GoFloat, JE : JsonErrors, C : WalletContract, L : !WalletContractLaws C}.

(** Every wallet type becomes an account kind of the contract. *)
Lemma account_kind_valid w : v01_AccountKind_IsValid (normalizeWireAccountKind w) = true.
Proof.
  pose proof kinds_valid as H. rewrite !Forall_cons in H. destruct_and?.
  unfold normalizeWireAccountKind. repeat case_match; try done.
  by match goal with H : _ && _ = true |- _ => apply andb_true_iff in H as [_ ?] end.
Qed.

(** What is read is a posture of the contract. *)
Lemma posture_mapped raw p : mapWirePQPostureToV01Exported raw = Ok p -> v01_CurrentPQPosture_IsValid p = true.
Proof.
  pose proof postures_valid as H. rewrite !Forall_cons in H. destruct_and?.
  unfold mapWirePQPostureToV01Exported. repeat case_match; intros [= <-]; try done.
  match goal with H : _ || _ = true |- _ => apply orb_true_iff in H as [E|E] end;
    apply String.eqb_eq in E; by rewrite E.
Qed.

Definition time_read (raw : string) (t : time) : Prop :=
  TrimSpace raw = EmptyString /\ t = zero_time
  \/ TrimSpace raw <> EmptyString /\ ParseRFC3339 (TrimSpace raw) = Some t.

Lemma scanned_at_ok raw t : scanned_at raw = Ok t <-> time_read raw t.
Proof.
  unfold scanned_at, time_read. destruct (is_empty (TrimSpace raw)) eqn:E.
  - apply is_empty_spec in E. naive_solver.
  - apply is_empty_false in E. cbn [parse_layouts]. destruct (ParseRFC3339 (TrimSpace raw)); naive_solver.
Qed.

(** *** The vocabulary of the wire *)

(** The wallet types of Discovery, in the letters it writes them in, and the
    account kinds they stand for. *)
Definition discovery_kinds : list (string * string) :=
  [("EOA", v01_AccountKindEOA); ("AA", v01_AccountKindERC4337SmartAccount);
   ("CONTRACT", v01_AccountKindContractAccount); ("SMART_ACCOUNT", v01_AccountKindERC4337SmartAccount)].

(** The same in lower case, with the label of a wallet whose kind is not known. *)
Definition lower_kinds : list (string * string) :=
  [("eoa", v01_AccountKindEOA); ("aa", v01_AccountKindERC4337SmartAccount);
   ("contract", v01_AccountKindContractAccount); ("smart_account", v01_AccountKindERC4337SmartAccount);
   ("unknown", v01_AccountKindUnknown)].

(** The account kind that a wallet type stands for: that of its label in upper
    case, else that of its label in lower case, else the type itself when the
    contract has a kind of that name, else unknown. *)
Inductive account_kind_of (walletType : string) : string -> Prop :=
| kind_upper label kind :
    (label, kind) ∈ discovery_kinds -> ToUpper (TrimSpace walletType) = label -> account_kind_of walletType kind
| kind_lower label kind : ToUpper (TrimSpace walletType) ∉ discovery_kinds.*1 ->
    (label, kind) ∈ lower_kinds -> ToLower (TrimSpace walletType) = label -> account_kind_of walletType kind
| kind_named kind : ToUpper (TrimSpace walletType) ∉ discovery_kinds.*1 ->
    ToLower (TrimSpace walletType) ∉ lower_kinds.*1 -> ToLower (TrimSpace walletType) = kind ->
    kind <> EmptyString -> v01_AccountKind_IsValid kind = true -> account_kind_of walletType kind
| kind_unknown : ToUpper (TrimSpace walletType) ∉ discovery_kinds.*1 ->
    ToLower (TrimSpace walletType) ∉ lower_kinds.*1 ->
    ToLower (TrimSpace walletType) = EmptyString \/ v01_AccountKind_IsValid (ToLower (TrimSpace walletType)) = false ->
    account_kind_of walletType v01_AccountKindUnknown.

(** The posture that a label stands for: none is unknown, a posture of the
    contract is itself, and Discovery's two own labels are the extremes. *)
Inductive posture_of (label : string) : string -> Prop :=
| posture_blank : TrimSpace label = EmptyString -> posture_of label v01_PQPostureUnknown
| posture_named posture : TrimSpace label <> EmptyString -> ToLower (TrimSpace label) = posture ->
    v01_CurrentPQPosture_IsValid posture = true -> posture_of label posture
| posture_ready : ToLower (TrimSpace label) = "pq_ready" ->
    TrimSpace label <> EmptyString -> v01_CurrentPQPosture_IsValid "pq_ready" = false -> posture_of label v01_PQPostureFullPQ
| posture_not_ready : ToLower (TrimSpace label) = "not_pq_ready" ->
    TrimSpace label <> EmptyString -> v01_CurrentPQPosture_IsValid "not_pq_ready" = false ->
    posture_of label v01_PQPostureClassicalOnly.

(** The algorithm that a label stands for: none, and the names of ECDSA on
    secp256k1 with hyphens, blanks or underscores, are the contract's; a label
    of the contract is itself. *)
Inductive algorithm_of (label : string) : string -> Prop :=
| algorithm_blank : TrimSpace label = EmptyString -> algorithm_of label v01_AlgorithmSecp256k1ECRecover
| algorithm_lower id : TrimSpace label <> EmptyString -> ToLower (TrimSpace label) = id ->
    v01_IsValidAlgorithmID id = true -> algorithm_of label id
| algorithm_ecdsa : TrimSpace label <> EmptyString -> v01_IsValidAlgorithmID (ToLower (TrimSpace label)) = false ->
    underscores (ToLower (TrimSpace label)) ∈ ["ecdsa_secp256k1"; "secp256k1"] ->
    algorithm_of label v01_AlgorithmSecp256k1ECRecover
| algorithm_verbatim : TrimSpace label <> EmptyString -> v01_IsValidAlgorithmID (ToLower (TrimSpace label)) = false ->
    underscores (ToLower (TrimSpace label)) ∉ ["ecdsa_secp256k1"; "secp256k1"] ->
    v01_IsValidAlgorithmID (TrimSpace label) = true -> algorithm_of label (TrimSpace label).

Ltac in_list := apply elem_of_cons; first [left; reflexivity | right; in_list].
Ltac not_in_list := cbn [fmap list_fmap fst]; rewrite !not_elem_of_cons; split_and!; try done; apply not_elem_of_nil.

Lemma account_kind_table w kind : normalizeWireAccountKind w = kind <-> account_kind_of w kind.
Proof.
  unfold normalizeWireAccountKind. cbv zeta. split.
  - intros <-.
    repeat match goal with
    | |- context [if String.eqb (ToUpper ?x) ?l then _ else _] => destruct (String.eqb_spec (ToUpper x) l);
        [eapply kind_upper; [|eassumption]; unfold discovery_kinds; in_list|]
    end.
    assert (ToUpper (TrimSpace w) ∉ discovery_kinds.*1) by (unfold discovery_kinds; not_in_list).
    repeat match goal with
    | |- context [if String.eqb (ToLower ?x) ?l || String.eqb _ ?l' then _ else _] =>
        destruct (String.eqb_spec (ToLower x) l); cbn [orb];
        [eapply kind_lower; [done| |eassumption]; unfold lower_kinds; in_list|];
        destruct (String.eqb_spec (ToLower x) l');
        [eapply kind_lower; [done| |eassumption]; unfold lower_kinds; in_list|]
    | |- context [if String.eqb (ToLower ?x) ?l then _ else _] => destruct (String.eqb_spec (ToLower x) l);
        [eapply kind_lower; [done| |eassumption]; unfold lower_kinds; in_list|]
    end.
    assert (ToLower (TrimSpace w) ∉ lower_kinds.*1) by (unfold lower_kinds; not_in_list).
    destruct (is_empty _) eqn:Ee; [apply is_empty_spec in Ee; apply kind_unknown; auto|]. cbn [negb andb].
    apply is_empty_false in Ee. destruct (v01_AccountKind_IsValid _) eqn:Ev; [by apply kind_named|apply kind_unknown; auto].
  - assert (Hlow : forall s, s ∉ lower_kinds.*1 -> String.eqb s "eoa" = false /\ (String.eqb s "aa" || String.eqb s "smart_account") = false
      /\ String.eqb s "contract" = false /\ String.eqb s "unknown" = false).
    { intros s Hs. unfold lower_kinds in Hs. cbn [fmap list_fmap fst] in Hs. rewrite !not_elem_of_cons in Hs.
      rewrite orb_false_iff, !String.eqb_neq. tauto. }
    assert (Hup : forall s, s ∉ discovery_kinds.*1 -> String.eqb s "EOA" = false /\ String.eqb s "AA" = false
      /\ String.eqb s "CONTRACT" = false /\ String.eqb s "SMART_ACCOUNT" = false).
    { intros s Hs. unfold discovery_kinds in Hs. cbn [fmap list_fmap fst] in Hs. rewrite !not_elem_of_cons in Hs.
      rewrite !String.eqb_neq. tauto. }
    intros [label k Hin Hu|label k (-> & -> & -> & ->)%Hup Hin Hl|k (-> & -> & -> & ->)%Hup (-> & -> & -> & ->)%Hlow Hl Hne Hv
           |(-> & -> & -> & ->)%Hup (-> & -> & -> & ->)%Hlow Hv].
    + rewrite Hu. unfold discovery_kinds in Hin. rewrite !elem_of_cons in Hin.
      destruct Hin as [[= -> ->]|[[= -> ->]|[[= -> ->]|[[= -> ->]|Hin]]]]; [done..|by apply elem_of_nil in Hin].
    + rewrite Hl. unfold lower_kinds in Hin. rewrite !elem_of_cons in Hin.
      destruct Hin as [[= -> ->]|[[= -> ->]|[[= -> ->]|[[= -> ->]|[[= -> ->]|Hin]]]]]; [done..|by apply elem_of_nil in Hin].
    + subst k. apply is_empty_false in Hne. by rewrite Hne, Hv.
    + destruct Hv as [->| ->]; [done|]. by rewrite andb_false_r.
Qed.

Lemma posture_table label posture : mapWirePQPostureToV01Exported label = Ok posture <-> posture_of label posture.
Proof.
  pose proof postures_valid as H. rewrite !Forall_cons in H. destruct_and?.
  unfold mapWirePQPostureToV01Exported. cbv zeta. split.
  - destruct (is_empty (TrimSpace label)) eqn:E; [apply is_empty_spec in E; injection 1 as <-; by apply posture_blank|].
    apply is_empty_false in E. destruct (v01_CurrentPQPosture_IsValid (ToLower (TrimSpace label))) eqn:Hv; [injection 1 as <-; by apply posture_named|].
    destruct (String.eqb_spec (ToLower (TrimSpace label)) "pq_ready") as [El|]; [rewrite El in Hv; injection 1 as <-; by apply posture_ready|].
    destruct (String.eqb_spec (ToLower (TrimSpace label)) "not_pq_ready") as [El|];
      [rewrite El in Hv; injection 1 as <-; by apply posture_not_ready|].
    destruct (String.eqb_spec (ToLower (TrimSpace label)) "hybrid") as [El|]; [unfold PQPostureHybrid in *; congruence|].
    destruct (String.eqb_spec (ToLower (TrimSpace label)) "unknown") as [El|]; [unfold PQPostureUnknown in *; congruence|]. done.
  - intros [->|p Hne%is_empty_false <- Hv|El Hne%is_empty_false Hv|El Hne%is_empty_false Hv]; [done|..]; rewrite Hne.
    + by rewrite Hv.
    + by rewrite El, Hv.
    + by rewrite El, Hv.
Qed.

Lemma algorithm_table pc id :
  context_algorithm pc = id /\ v01_IsValidAlgorithmID id = true <-> algorithm_of (wp_CurrentAlgorithm pc) id.
Proof.
  pose proof algorithm_valid as Ha. unfold context_algorithm, normalizeWireAlgorithmID. cbv zeta.
  generalize (wp_CurrentAlgorithm pc). intros l.
  assert (Hu : forall u, String.eqb u "ecdsa_secp256k1" || String.eqb u "secp256k1" = true <-> u ∈ ["ecdsa_secp256k1"; "secp256k1"]).
  { intros u. rewrite orb_true_iff, !String.eqb_eq, !elem_of_cons, elem_of_nil. tauto. }
  assert (Hd : (if is_empty v01_AlgorithmSecp256k1ECRecover then v01_AlgorithmSecp256k1ECRecover
                else v01_AlgorithmSecp256k1ECRecover) = v01_AlgorithmSecp256k1ECRecover) by (by case_match).
  split.
  - destruct (is_empty (TrimSpace l)) eqn:E; [apply is_empty_spec in E; intros [<- _]; by apply algorithm_blank|].
    pose proof (proj1 (is_empty_false _) E) as Hne.
    destruct (v01_IsValidAlgorithmID (ToLower (TrimSpace l))) eqn:Hv.
    { destruct (is_empty (ToLower (TrimSpace l))) eqn:El; intros [<- Hid]; [|by apply algorithm_lower].
      by apply is_empty_spec, ToLower_empty in El. }
    destruct (_ || _) eqn:Eu; [rewrite Hd; intros [<- _]; apply algorithm_ecdsa; [done|done|by apply Hu]|].
    rewrite E. intros [<- Hid]. apply algorithm_verbatim; [done|done| |done]. intros H. apply Hu in H. congruence.
  - intros [E0|id' Hne <- Hv|Hne Hv Hin%Hu|Hne Hv Hin Hid]; [by rewrite E0|..]; pose proof (proj2 (is_empty_false _) Hne) as E; rewrite E, Hv.
    + split; [|done]. destruct (is_empty (ToLower (TrimSpace l))) eqn:El; [|done]. by apply is_empty_spec, ToLower_empty in El.
    + rewrite Hin, Hd. done.
    + rewrite <- Hu, not_true_iff_false in Hin. by rewrite Hin, E.
Qed.

(** C29: A policy context becomes an observation exactly when its algorithm and
    its posture have a meaning in the contract and its time is blank or RFC 3339;
    the wallet type always has one.  Which meaning is given label by label:
    Discovery's "pq_ready" is full PQ and "not_pq_ready" classical only, "EOA",
    "AA", "SMART_ACCOUNT" and "CONTRACT" are the three account kinds, ECDSA on
    secp256k1 is the default algorithm.  The observation carries these values,
    all of the contract's vocabularies, the chains as they were sent, the
    exposure of the key, and the multichain flag exactly when there are two
    chains or more. *)
Theorem observation_correct pc p :
  (observationFromWalletPolicyContext (Some pc) = Ok p <->
   algorithm_of (wp_CurrentAlgorithm pc) (pl_CurrentAlgorithm p)
   /\ posture_of (wp_CurrentPQPosture pc) (pl_CurrentPQPosture p)
   /\ account_kind_of (wp_WalletType pc) (pl_AccountKind p)
   /\ time_read (wp_ScannedAt pc) (pl_ObservedAt p)
   /\ pl_ChainIDs p = wp_ChainIDs pc /\ pl_PublicKeyExposed p = wp_KeyExposed pc
   /\ (pl_IsMultichain p = true <-> 2 <= length (wp_ChainIDs pc)))
  /\ (observationFromWalletPolicyContext (Some pc) = Ok p ->
      v01_AccountKind_IsValid (pl_AccountKind p) = true /\ v01_IsValidAlgorithmID (pl_CurrentAlgorithm p) = true
      /\ v01_CurrentPQPosture_IsValid (pl_CurrentPQPosture p) = true).
Proof.
  assert (H : observationFromWalletPolicyContext (Some pc) = Ok p <->
    (context_algorithm pc = pl_CurrentAlgorithm p /\ v01_IsValidAlgorithmID (pl_CurrentAlgorithm p) = true)
    /\ mapWirePQPostureToV01Exported (wp_CurrentPQPosture pc) = Ok (pl_CurrentPQPosture p)
    /\ normalizeWireAccountKind (wp_WalletType pc) = pl_AccountKind p /\ scanned_at (wp_ScannedAt pc) = Ok (pl_ObservedAt p)
    /\ pl_ChainIDs p = wp_ChainIDs pc /\ pl_PublicKeyExposed p = wp_KeyExposed pc
    /\ Nat.ltb 1 (length (wp_ChainIDs pc)) = pl_IsMultichain p).
  { unfold observationFromWalletPolicyContext. rewrite account_kind_valid. cbn [negb guard_err].
    rewrite fail_if_ok, negb_false_iff, res_bind_ok. setoid_rewrite res_bind_ok. split.
    - intros (Ha & pq & Hpq & t & Ht & [= <-]). done.
    - destruct p. cbn. intros ((Ha & Hv) & Hpq & Hk & Ht & -> & -> & <-). subst. split; [done|]. eauto. }
  rewrite algorithm_table, posture_table, account_kind_table, scanned_at_ok in H. split.
  - rewrite H. apply and_iff_compat_l, and_iff_compat_l, and_iff_compat_l, and_iff_compat_l, and_iff_compat_l, and_iff_compat_l.
    destruct (Nat.ltb_spec 1 (length (wp_ChainIDs pc))); destruct (pl_IsMultichain p); intuition (congruence || lia).
  - intros (Ha%algorithm_table & Hp%posture_table & Hk%account_kind_table & _)%H.
    split_and!; [rewrite <- Hk; apply account_kind_valid|apply Ha|by eapply posture_mapped].
Qed.

End ContextSpec.

(** ** An instance of the contract *)

Definition cafe_account_kinds : list string := ["eoa"; "erc4337_smart_account"; "contract_account"; "unknown"].
Definition cafe_postures : list string := ["classical_only"; "hybrid"; "full_pq"; "unknown"].

#[global] Instance cafe_contract : WalletContract := {|
  v01_AccountKindEOA := "eoa";
  v01_AccountKindERC4337SmartAccount := "erc4337_smart_account";
  v01_AccountKindContractAccount := "contract_account";
  v01_AccountKindUnknown := "unknown";
  v01_AccountKind_IsValid := fun k => existsb (String.eqb k) cafe_account_kinds;
  v01_AlgorithmSecp256k1ECRecover := "secp256k1_ecrecover";
  v01_IsValidAlgorithmID := String.eqb "secp256k1_ecrecover";
  v01_PQPostureUnknown := "unknown";
  v01_PQPostureFullPQ := "full_pq";
  v01_PQPostureClassicalOnly := "classical_only";
  v01_CurrentPQPosture_IsValid := fun p => existsb (String.eqb p) cafe_postures
|}.

#[global] Instance cafe_contract_laws : WalletContractLaws cafe_contract.
Proof. split; by repeat constructor. Qed.

(** A scan detail of Discovery, and the flat context with the same content. *)
Definition sample_result : any := AMap
  [("target_address", AString "0x742d35Cc6634C0532925a3b844Bc454e4438f44e"); ("chain_ids", ASlice [ANumber "1"]);
   ("wallet_type", AString "EOA"); ("current_pq_posture", AString "not_pq_ready");
   ("algorithm", AString "ECDSA-secp256k1"); ("scanned_at", AString "2026-04-17T10:00:00Z")].

Definition sample_detail : any := AMap
  [("scan_id", AString "550e8400-e29b-41d4-a716-446655440000"); ("scan_family", AString "wallet");
   ("status", AString "completed"); ("result", sample_result)].

Example detail_observed : ObservationPayloadFromDiscoveryWalletScanDetail (Document sample_detail)
  = Ok (mkPayload [1%Z] "eoa" "secp256k1_ecrecover" false false 1776420000000000000%Z "classical_only").
Proof. vm_compute. reflexivity. Qed.

Definition sample_context : walletPolicyContextWire :=
  mkContext "550e8400-e29b-41d4-a716-446655440000" EmptyString EmptyString "EOA" [1%Z] "secp256k1" "hybrid"
    EmptyString EmptyString false.

(** The labels of Discovery, in any letters. *)
Definition discovery_context : walletPolicyContextWire :=
  mkContext "550e8400-e29b-41d4-a716-446655440000" EmptyString EmptyString " eoa" [1; 137]%Z "ECDSA-secp256k1" "Not_PQ_Ready"
    "2026-04-17T10:00:00Z" EmptyString true.

Lemma observation_correct_witness :
  posture_of "Not_PQ_Ready" "classical_only" /\ account_kind_of " eoa" "eoa"
  /\ algorithm_of "ECDSA-secp256k1" "secp256k1_ecrecover".
Proof.
  destruct (observation_correct discovery_context
    (mkPayload [1; 137]%Z "eoa" "secp256k1_ecrecover" true true 1776420000000000000%Z "classical_only")) as [[H _] _].
  destruct H as (H1 & H2 & H3 & _); [vm_compute; reflexivity|]. split; [exact H2|]. split; [exact H3|exact H1].
Defined.
