(* ===== verification/ReadApi.v ===== *)
(** * The read routes

    [internal/api/read_api.go] and [accepted_provider_snapshot_routes.go]: the
    catalogue listings, the request of an exploration and the snapshot assist,
    as functions of the loaded store.  A route never changes the store. *)

From stdpp Require Import base gmap sets list strings.
From Stdlib Require Import Ascii ZArith.
From S2P Require Import Prelude GoStrings GoUnicode Errors GoTime Manifest Registry Compat CryptoPolicy Explore GoAny PayloadHash Snapshot PersistGate OwnerStore Http Metrics ReadStore Wire Upstream Auth ExploreContext.
Local Open Scope string_scope.
Local Open Scope list_scope.

Definition cryptoPolicyNotOfferedError : string := "crypto policy is not offered".

(** ** Requests *)

Record decisionExploreRequest := mkExploreRequest {
  er_ScanID : string;
  er_CryptoPolicyID : string;
  er_PolicyContext : option walletPolicyContextWire
}.

Definition explorePayloadForbiddenKeys : list string :=
  ["selection_request"; "allow_new_wallet"; "address_continuity_required"; "key_rotation_model";
   "target_posture"; "target_chain_ids"; "require_multichain"; "recovery_required"; "minimum_maturity";
   "allow_research"; "allowed_provider_modes"; "preferred_families"; "preferred_providers";
   "require_bundler_available"; "require_paymaster_available"; "approval_mode"].

Definition explore_known_keys : list string := ["scan_id"; "crypto_policy_id"; "policy_context"].

Record acceptedProviderSnapshotRequest := mkSnapshotRequest {
  ar_CryptoPolicyID : string;
  ar_SolutionProfileRef : SolutionProfileRef;
  ar_AcceptedFindings : list string
}.

Definition snapshot_known_keys : list string := ["crypto_policy_id"; "solution_profile_ref"; "accepted_findings"].

Definition one_of (l : list string) (k : string) : bool := existsb (String.eqb k) l.

Definition zero_solution_ref : SolutionProfileRef := mkSolutionRef EmptyString EmptyString EmptyString EmptyString.

Section ReadRoutes.
Context `{U : Unicode, F : GoFloat, GS : GoSort, GR : GoRange, JE : JsonErrors, C : WalletContract}.

(** The required [crypto_policy_id] of both requests. *)
Definition crypto_policy_id_member (raw : list (string * any)) : gores string :=
  match doc_get raw "crypto_policy_id" with
  | None => Err (errors_New "crypto_policy_id is required")
  | Some v =>
      match Unmarshal_string v with
      | Err e => Err (wrap_prefix "crypto_policy_id" e)
      | Ok id0 =>
          let id := TrimSpace id0 in
          fail_if is_empty id with errors_New "crypto_policy_id is required" ;;
          Ok id
      end
  end.

Definition decodeDecisionExploreRequest (r : Request) : gores decisionExploreRequest :=
  match Unmarshal_members (rq_Body r) with
  | Err e => Err (wrap_prefix "invalid json body" e)
  | Ok raw =>
      match first_key (one_of explorePayloadForbiddenKeys) raw with
      | Some key => Err (errors_New ("legacy field rejected: " +:+ key))
      | None =>
          match first_key (fun key => negb (one_of explore_known_keys key)) raw with
          | Some key => Err (errors_New ("unknown field " +:+ key))
          | None =>
              match doc_get raw "policy_context" with
              | None => Err (errors_New "policy_context is required")
              | Some pcRaw =>
                  pc ← parsePolicyContextFlexible (Document pcRaw);
                  id ← crypto_policy_id_member raw;
                  Ok (mkExploreRequest (quiet_member raw "scan_id") id (Some pc))
              end
          end
      end
  end.

Definition decodeAcceptedProviderSnapshotRequest (r : Request) : gores acceptedProviderSnapshotRequest :=
  match Unmarshal_members (rq_Body r) with
  | Err e => Err (wrap_prefix "invalid json body" e)
  | Ok raw =>
      match first_key (fun key => negb (one_of snapshot_known_keys key)) raw with
      | Some key => Err (errors_New ("unknown field " +:+ key))
      | None =>
          id ← crypto_policy_id_member raw;
          match doc_get raw "solution_profile_ref" with
          | None => Err (errors_New "solution_profile_ref is required")
          | Some refRaw =>
              match Unmarshal "policy.SolutionProfileRef" solution_ref_fields zero_solution_ref (Document refRaw) with
              | Err e => Err (wrap_prefix "solution_profile_ref" e)
              | Ok ref =>
                  match doc_get raw "accepted_findings" with
                  | None | Some ANil => Ok (mkSnapshotRequest id ref [])
                  | Some v =>
                      match dec_list dec_string EmptyString v [] with
                      | None => Err (wrap_prefix "accepted_findings" (errors_New (json_error "[]string" (Document v))))
                      | Some findings => Ok (mkSnapshotRequest id ref findings)
                      end
                  end
              end
          end
      end
  end.

(** ** Answers *)

Definition error_answer (status : Z) (text : string) : Response :=
  writeJSON status (AMap [("error", AString text)]).

(** The policy has a usable provider. *)
Definition offered (st : ReadStore) (cp : CryptoPolicy) : bool :=
  HasPostureCompatibleProvider (Some cp) (Some (providers st)).

Definition catalog_item (st : ReadStore) (cp : CryptoPolicy) : CryptoPolicyCatalogItem :=
  CatalogItemFromCryptoPolicy (Some cp) (Some (providers st)).

(** ** The catalogue *)

Definition handleGETCryptoPolicies (st : ReadStore) : Response :=
  writeJSON StatusOK (AMap [("items",
    ASlice (catalog_item_any ∘ catalog_item st <$> filter (fun cp => offered st cp = true) (cryptoPolicies st)))]).

Definition handleGETCryptoPolicyByID (st : ReadStore) (id : string) : Response :=
  match cryptoPolicyByID st !! id with
  | None => error_answer StatusNotFound "crypto policy not found"
  | Some cp =>
      if negb (offered st cp) then error_answer StatusNotFound cryptoPolicyNotOfferedError
      else writeJSON StatusOK (catalog_item_any (catalog_item st cp))
  end.

(** An empty registry lists nil, written as null. *)
Definition handleGETProviders (st : ReadStore) : Response :=
  writeJSON StatusOK (AMap [("items",
    match Registry_List (Some (providers st)) with
    | [] => ANil
    | l => ASlice (manifest_any <$> l)
    end)]).

Definition handleGETProviderByID (st : ReadStore) (id : string) : Response :=
  match Registry_Get (Some (providers st)) id with
  | None => error_answer StatusNotFound "provider not found"
  | Some m => writeJSON StatusOK (manifest_any m)
  end.

(** ** The snapshot assist *)

Definition mapSnapshotAssistError (e : goerror) : Z * string :=
  if errors_Is e ErrSnapshotAssistChainNotSupported || errors_Is e ErrSnapshotAssistProviderNotAllowed
     || errors_Is e ErrSnapshotAssistProfileNotFound
  then (StatusUnprocessableEntity, e_text e)
  else if errors_Is e ErrSnapshotAssistFindingsUnknown || errors_Is e ErrSnapshotAssistCryptoPolicyRequired
          || errors_Is e ErrCryptoPolicyPayloadInvalid
  then (StatusBadRequest, e_text e)
  else (StatusBadRequest, e_text e).

(** The policy a request names, if the catalogue offers it. *)
Definition named_policy (st : ReadStore) (id : string) : res Response CryptoPolicy :=
  match cryptoPolicyByID st !! id with
  | None => Err (error_answer StatusBadRequest "unknown crypto_policy_id")
  | Some cp =>
      fail_if negb (offered st cp) with error_answer StatusBadRequest cryptoPolicyNotOfferedError ;;
      Ok cp
  end.

Definition handlePOSTAcceptedProviderSnapshots (st : ReadStore) (r : Request) : Response :=
  match decodeAcceptedProviderSnapshotRequest r with
  | Err e => error_answer StatusBadRequest (e_text e)
  | Ok req =>
      match named_policy st (ar_CryptoPolicyID req) with
      | Err resp => resp
      | Ok cp =>
          match BuildAcceptedProviderSnapshot (mkSnapshotInput (Some cp) (ar_SolutionProfileRef req)
                  (ar_AcceptedFindings req) (Some (providers st))) with
          | Err e => let '(status, msg) := mapSnapshotAssistError e in error_answer status msg
          | Ok result =>
              writeJSON StatusOK (AMap [
                ("crypto_policy_id", AString (cp_ID cp));
                ("required_posture", AString (cp_RequiredPosture cp));
                ("solution_profile_ref", solution_ref_any (br_SolutionProfileRef result));
                ("accepted_provider_snapshot", snapshot_any (br_AcceptedProviderSnapshot result))])
          end
      end
  end.

End ReadRoutes.

(** ** What the routes promise *)

Section ReadSpec.
Context `{U : Unicode, F : GoFloat, GS : GoSort, GR : GoRange, JE : JsonErrors, C : WalletContract}.

Lemma named_policy_ok st id cp :
  store_wf st ->
  named_policy st id = Ok cp <-> cp ∈ cryptoPolicies st /\ cp_ID cp = id /\ offered st cp = true.
Proof.
  intros Hwf. unfold named_policy. rewrite (sw_byID st Hwf id). split.
  - destruct (find_by cp_ID id (cryptoPolicies st)) as [cp'|] eqn:E; [|done].
    rewrite fail_if_ok, negb_false_iff. intros [Ho [= ->]]. by apply find_by_Some in E as [? ?].
  - intros (Hin & <- & Ho). rewrite (find_nodup cp_ID) by (done || apply Hwf).
    rewrite fail_if_ok, negb_false_iff. done.
Qed.

Lemma posture_trimmed s : s ∈ postures -> TrimSpace s <> EmptyString.
Proof. unfold postures. rewrite !elem_of_cons, elem_of_nil. intros [->|[->|[->|[]]]]; vm_compute; congruence. Qed.

Lemma get_policy_ok st id cp : named_policy st id = Ok cp ->
  handleGETCryptoPolicyByID st id = writeJSON StatusOK (catalog_item_any (catalog_item st cp)).
Proof.
  unfold named_policy, handleGETCryptoPolicyByID. destruct (cryptoPolicyByID st !! id); [|done].
  rewrite fail_if_ok. intros [-> [= ->]]. done.
Qed.

Lemma get_policy_err st id resp : named_policy st id = Err resp ->
  rs_Status (handleGETCryptoPolicyByID st id) = StatusNotFound /\ rs_Status resp = StatusBadRequest.
Proof.
  unfold named_policy, handleGETCryptoPolicyByID. destruct (cryptoPolicyByID st !! id) as [cp|]; [|by intros [= <-]].
  destruct (negb (offered st cp)); [|done]. by intros [= <-].
Qed.

(** C28: The listing and the route by id agree, and both agree with what the other
    routes accept: a policy is retrieved exactly when it is loaded and one of
    its allowed providers has a profile of the required posture, exactly then
    its id is accepted by exploration and snapshot assist, and the listing is
    the answers of the route by id, policy after policy in load order. *)
Theorem catalogue_consistent st :
  store_wf st ->
  (forall id, rs_Status (handleGETCryptoPolicyByID st id) = StatusOK <->
     exists cp a rp, cp ∈ cryptoPolicies st /\ cp_ID cp = id /\ a ∈ cp_AllowedProviders cp
       /\ rp ∈ ProfilesForProvider (Some (providers st)) (TrimSpace a)
       /\ TrimSpace (sp_ResultingPosture (rp_Profile rp)) = TrimSpace (cp_RequiredPosture cp))
  /\ (forall id, rs_Status (handleGETCryptoPolicyByID st id) = StatusOK <-> is_ok (named_policy st id) = true)
  /\ handleGETCryptoPolicies st = writeJSON StatusOK (AMap [("items", ASlice (omap (fun cp =>
       let resp := handleGETCryptoPolicyByID st (cp_ID cp) in
       if (rs_Status resp =? StatusOK)%Z then rs_Body resp else None) (cryptoPolicies st)))]).
Proof.
  intros Hwf.
  assert (forall id, rs_Status (handleGETCryptoPolicyByID st id) = StatusOK <-> is_ok (named_policy st id) = true) as Hiff.
  { intros id. destruct (named_policy st id) as [cp|resp] eqn:E.
    - by rewrite (get_policy_ok st id cp).
    - by apply get_policy_err in E as [-> _]. }
  split_and!; [|done|].
  - intros id. rewrite Hiff. split.
    + destruct (named_policy st id) as [cp|] eqn:E; [|done]. intros _.
      apply named_policy_ok in E as (Hin & Hid & (_ & a & rp & ? & _ & ? & ?)%HasPosture_spec); [|done]. eauto 10.
    + intros (cp & a & rp & Hin & Hid & Ha & Hrp & Hpost).
      pose proof (proj1 (Forall_forall _ _) (sw_policies st Hwf) cp Hin) as [Hok _].
      assert (named_policy st id = Ok cp) as ->; [|done].
      apply named_policy_ok; [done|]. split_and!; try done. apply HasPosture_spec.
      split; [by apply posture_trimmed, Hok|]. exists a, rp. split_and!; try done.
      by apply (proj1 (Forall_forall _ _) (cok_provider cp Hok)).
  - unfold handleGETCryptoPolicies. do 5 f_equal.
    assert (forall cp, cp ∈ cryptoPolicies st -> named_policy st (cp_ID cp)
      = if offered st cp then Ok cp else Err (error_answer StatusBadRequest cryptoPolicyNotOfferedError)) as Hn.
    { intros cp Hcp. unfold named_policy. rewrite (sw_byID st Hwf), (find_nodup cp_ID) by (done || apply Hwf).
      by destruct (offered st cp). }
    set (l := cryptoPolicies st) in Hn |- *. clearbody l. induction l as [|cp l IH]; [done|].
    specialize (IH (fun cp' H' => Hn cp' (list_elem_of_further cp' cp l H'))).
    specialize (Hn cp (list_elem_of_here cp l)). rewrite filter_cons. case_decide as Ho.
    + rewrite Ho in Hn. rewrite fmap_cons. cbn [omap list_omap]. rewrite (get_policy_ok st (cp_ID cp) cp) by done.
      cbn [writeJSON rs_Status rs_Body StatusOK Z.eqb Pos.eqb]. f_equal. exact IH.
    + apply not_true_is_false in Ho. rewrite Ho in Hn. apply get_policy_err in Hn as [Hs _]. simpl. by rewrite Hs.
Qed.

(** The registry holds the named profile for a provider of the policy, with a
    chain to pin. *)
Definition assistable (st : ReadStore) (cp : CryptoPolicy) (ref : SolutionProfileRef) : Prop :=
  (exists a, a ∈ cp_AllowedProviders cp /\ providerKey a = providerKey (spr_ProviderID ref))
  /\ exists resolved, Lookup (Some (providers st)) (mkProfileRef (spr_ProviderID ref)
       (spr_SolutionProfileID ref) (spr_ManifestVersion ref)) = Some resolved
     /\ omap persistable_chain (sp_ChainSupport (rp_Profile resolved)) <> [].

Definition known_findings (client : list string) : Prop :=
  Forall (fun c => TrimSpace c = EmptyString \/ TrimSpace c ∈ allowed_findings) client.

Lemma client_findings_err client e : client_findings client = Err e ->
  ~ known_findings client /\ mapSnapshotAssistError e = (StatusBadRequest, e_text e).
Proof.
  intros H. split.
  - intros Hk. assert (is_ok (client_findings client) = true) as Ho; [|by rewrite H in Ho].
    destruct (mergeAssistAcceptedFindings zero_profile client) as [fs|e'] eqn:Em.
    + unfold mergeAssistAcceptedFindings in Em. by rewrite H in Em.
    + assert (mergeAssistAcceptedFindings zero_profile client = Ok _) as Hm by (apply merge_ok; split; [exact Hk|reflexivity]).
      by rewrite Hm in Em.
  - revert e H. induction client as [|c client IH]; intros e; cbn [client_findings]; [done|].
    destruct (is_empty (TrimSpace c)); [apply IH|].
    destruct (negb _); [|destruct (client_findings client); naive_solver].
    intros [= <-]. unfold mapSnapshotAssistError. by autorewrite with cpm.
Qed.

(** The three outcomes of the assist, the refusals with the status the route
    maps them to. *)
Lemma assist_outcome st cp ref client :
  let complete := SolutionProfileRef_Validate (trim_ref ref) = Ok tt in
  match BuildAcceptedProviderSnapshot (mkSnapshotInput (Some cp) ref client (Some (providers st))) with
  | Ok _ => complete /\ assistable st cp (trim_ref ref) /\ known_findings client
  | Err e =>
      mapSnapshotAssistError e = (StatusUnprocessableEntity, e_text e) /\ complete /\ ~ assistable st cp (trim_ref ref)
      \/ mapSnapshotAssistError e = (StatusBadRequest, e_text e)
         /\ (~ complete \/ assistable st cp (trim_ref ref) /\ ~ known_findings client)
  end.
Proof.
  intros complete. subst complete.
  destruct (BuildAcceptedProviderSnapshot _) as [res|e] eqn:E.
  { apply build_spec in E as (resolved & Hv & Ha & Hl & Hc & Hf & _). split_and!; [done| |done].
    split; [done|]. by exists resolved. }
  unfold BuildAcceptedProviderSnapshot in E. cbn [bi_CryptoPolicy bi_SolutionProfileRef bi_Registry bi_AcceptedFindings] in E.
  destruct (SolutionProfileRef_Validate (trim_ref ref)) as [[]|ev].
  2:{ injection E as <-. right. unfold mapSnapshotAssistError. autorewrite with cpm. split; [done|]. by left. }
  destruct (providerAllowedByCryptoPolicy (Some cp) (spr_ProviderID (trim_ref ref))) eqn:Ha; cbn [negb] in E.
  2:{ injection E as <-. left. unfold mapSnapshotAssistError. autorewrite with cpm. split_and!; [done|done|].
      intros [Hx _]. apply providerAllowed_spec in Hx. congruence. }
  apply providerAllowed_spec in Ha.
  destruct (Lookup (Some (providers st)) _) as [resolved|] eqn:Hl.
  2:{ injection E as <-. left. unfold mapSnapshotAssistError. autorewrite with cpm. split_and!; [done|done|].
      intros (_ & resolved & Hx & _). congruence. }
  destruct (collectPersistableChainSupport _) as [chains|ec] eqn:Hc; cbn in E.
  - apply collect_ok in Hc as [Hc _]. unfold mergeAssistAcceptedFindings in E. destruct (client_findings client) as [fs|ef] eqn:Hf; cbn in E; [done|].
    injection E as <-. apply client_findings_err in Hf as [Hk Hm]. right. split; [done|]. right. split; [|done].
    split; [done|]. by exists resolved.
  - injection E as <-. left. unfold collectPersistableChainSupport in Hc.
    destruct (Nat.eqb_spec (length (omap persistable_chain (sp_ChainSupport (rp_Profile resolved)))) 0) as [E0|]; [|done].
    injection Hc as <-. unfold mapSnapshotAssistError. autorewrite with cpm. split_and!; [done|done|].
    intros (_ & resolved' & Hx & Hn). rewrite Hl in Hx. injection Hx as <-. by apply Hn, length_zero_iff_nil.
Qed.

(** A snapshot request that decodes and names an offered policy is answered
    200 exactly when its reference is complete, the policy allows the provider,
    the registry holds the profile with a chain to pin, and every finding is
    known; 422 exactly when the reference is complete but the catalogue cannot
    serve it; 400 otherwise.  A request that does not decode or names another
    policy is always answered 400. *)
Theorem snapshot_route_correct st r :
  store_wf st ->
  let status := rs_Status (handlePOSTAcceptedProviderSnapshots st r) in
  match decodeAcceptedProviderSnapshotRequest r with
  | Err _ => status = StatusBadRequest
  | Ok req =>
      let ref := trim_ref (ar_SolutionProfileRef req) in
      let complete := SolutionProfileRef_Validate ref = Ok tt in
      (forall cp, cp ∈ cryptoPolicies st -> cp_ID cp = ar_CryptoPolicyID req -> offered st cp = true ->
         (status = StatusOK <-> complete /\ assistable st cp ref /\ known_findings (ar_AcceptedFindings req))
         /\ (status = StatusUnprocessableEntity <-> complete /\ ~ assistable st cp ref)
         /\ (status = StatusBadRequest <->
               ~ complete \/ (complete /\ assistable st cp ref /\ ~ known_findings (ar_AcceptedFindings req))))
      /\ ((forall cp, cp ∈ cryptoPolicies st -> cp_ID cp = ar_CryptoPolicyID req -> offered st cp = false) ->
          status = StatusBadRequest)
  end.
Proof.
  intros Hwf status. subst status. unfold handlePOSTAcceptedProviderSnapshots.
  destruct (decodeAcceptedProviderSnapshotRequest r) as [req|e]; [|done].
  set (ref := trim_ref (ar_SolutionProfileRef req)). set (complete := SolutionProfileRef_Validate ref = Ok tt). split.
  - intros cp Hin Hid Ho.
    assert (named_policy st (ar_CryptoPolicyID req) = Ok cp) as -> by (by apply named_policy_ok).
    pose proof (assist_outcome st cp (ar_SolutionProfileRef req) (ar_AcceptedFindings req)) as H.
    cbv zeta in H. fold ref complete in H.
    destruct (BuildAcceptedProviderSnapshot _) as [res|e].
    + cbn [writeJSON rs_Status]. split_and!; split; try done; try (intros; tauto).
    + destruct H as [(-> & Hc & Ha)|[-> H]]; cbn [error_answer writeJSON rs_Status]; split_and!; split; try done; try tauto.
      intros _. destruct H as [|[? ?]]; [by left|].
      destruct (SolutionProfileRef_Validate ref) as [[]|] eqn:E; [right|left]; unfold complete; naive_solver.
  - intros Hno. destruct (named_policy st (ar_CryptoPolicyID req)) as [cp|resp] eqn:E.
    + apply named_policy_ok in E as (Hin & Hid & Ho); [|done]. by rewrite (Hno cp Hin Hid) in Ho.
    + by apply get_policy_err in E as [_ ->].
Qed.

End ReadSpec.

Lemma catalogue_consistent_witness :
  rs_Status (handleGETCryptoPolicyByID sample_catalogue (cp_ID pq_policy)) = StatusOK
  /\ is_ok (named_policy sample_catalogue (cp_ID pq_policy)) = true.
Proof.
  destruct (catalogue_consistent sample_catalogue sample_store_wf) as (_ & H & _).
  assert (Hs : rs_Status (handleGETCryptoPolicyByID sample_catalogue (cp_ID pq_policy)) = StatusOK) by (vm_compute; reflexivity).
  split; [exact Hs|]. by apply H.
Defined.

(** What a client posts to obtain the snapshot of a reference. *)
Definition snapshot_body (id : string) (ref : any) (findings : list string) : body :=
  Document (AMap [("crypto_policy_id", AString id); ("solution_profile_ref", ref);
                  ("accepted_findings", ASlice (AString <$> findings))]).

Definition snapshot_request (id : string) (ref : any) (findings : list string) : Request :=
  mkRequest "POST" "/api/v1/accepted-provider-snapshots" "cpm" [] [] (snapshot_body id ref findings) None.

Lemma snapshot_route_correct_witness :
  rs_Status (handlePOSTAcceptedProviderSnapshots sample_catalogue
    (snapshot_request (cp_ID pq_policy) (solution_ref_any nicetry_ref) ["requires_bundler"])) = StatusOK.
Proof.
  pose proof (snapshot_route_correct sample_catalogue
    (snapshot_request (cp_ID pq_policy) (solution_ref_any nicetry_ref) ["requires_bundler"]) sample_store_wf) as H.
  cbv zeta in H.
  replace (decodeAcceptedProviderSnapshotRequest _) with
    (Ok (mkSnapshotRequest (cp_ID pq_policy) nicetry_ref ["requires_bundler"]) : gores _) in H by (vm_compute; reflexivity).
  cbv beta iota in H. refine (proj2 (proj1 (proj1 H pq_policy _ eq_refl _)) _).
  - vm_compute. left.
  - vm_compute. reflexivity.
  - split; [vm_compute; reflexivity|]. split.
    + split; [exists "nicetry"; split; [vm_compute; left|reflexivity]|]. eexists. split; [vm_compute; reflexivity|].
      vm_compute. congruence.
    + apply Forall_singleton. right. vm_compute. left.
Defined.
