(* ===== verification/ExploreRoute.v ===== *)
(** * The exploration route

    [internal/api/explore_observability.go] and the exploration handler of
    [read_api.go]: the decision for an observed wallet, and the counter and log
    line written when it ranks no candidate. *)

From stdpp Require Import base gmap sets list strings sorting.
From Stdlib Require Import Ascii ZArith NArith.
From S2P Require Import Prelude GoStrings GoUnicode Errors GoTime Manifest Registry Compat CryptoPolicy Explore Sha256 GoAny PayloadHash Snapshot PersistGate WalletTarget OwnerStore Http Metrics Wire ReadStore Upstream Auth ExploreContext ReadApi.
Local Open Scope string_scope.
Local Open Scope list_scope.

Definition exploreNoDeployableEventName : string := "cpm.explore.no_deployable_candidate".
Definition adrSignalNoScanCompatibleProviders : string := "runtime.no_scan_compatible".
Definition rejectionCodeChainScope : string := "incompatible.chain_scope".
Definition exploreBindingDiscovery : string := "discovery".
Definition exploreBindingUnknown : string := "unknown".
Definition exploreLabelUnknown : string := "unknown".

(** ** Rejection codes *)

(** The distinct codes that [keep] lets through, in order of appearance. *)
Definition add_code (keep : AssessmentFinding -> bool) (codes : list string) (f : AssessmentFinding) : list string :=
  if is_empty (af_Code f) then codes
  else if negb (keep f) then codes
  else if existsb (String.eqb (af_Code f)) codes then codes
  else codes ++ [af_Code f].

Definition collect_codes (keep : AssessmentFinding -> bool) (rejected : list RejectedPolicy) : list string :=
  foldl (fun codes candidate => foldl (add_code keep) codes (rj_RejectionReasons candidate)) [] rejected.

Definition blocking (f : AssessmentFinding) : bool :=
  negb (negb (is_empty (af_Severity f)) && negb (String.eqb (af_Severity f) AssessmentFindingSeverityBlocking)).

Definition collectBlockingRejectionCodes (rejected : list RejectedPolicy) : list string :=
  collect_codes blocking rejected.

Definition collectAllRejectionCodes (rejected : list RejectedPolicy) : list string :=
  sort_stable str_lt (collect_codes (fun _ => true) rejected).

Definition dominantExploreRejectionCode (rejected : list RejectedPolicy) : string :=
  let codes := collectBlockingRejectionCodes rejected in
  if Nat.eqb (length codes) 0 then exploreLabelUnknown
  else if existsb (String.eqb rejectionCodeChainScope) codes then rejectionCodeChainScope
  else match sort_stable str_lt codes with
       | code :: _ => code
       | [] => exploreLabelUnknown
       end.

(** ** Missing chains *)

(** The loop over the targets: the positive ones, each once, outside the scope. *)
Fixpoint missing_loop (scopeSet seen : gset Z) (targets : list Z) : list Z :=
  match targets with
  | [] => []
  | id :: targets' =>
      if (id <=? 0)%Z then missing_loop scopeSet seen targets'
      else if decide (id ∈ seen) then missing_loop scopeSet seen targets'
      else if decide (id ∈ scopeSet) then missing_loop scopeSet ({[id]} ∪ seen) targets'
      else id :: missing_loop scopeSet ({[id]} ∪ seen) targets'
  end.

Fixpoint count_loop (scopeSet seen : gset Z) (missing : nat) (targets : list Z) : nat :=
  match targets with
  | [] => missing
  | id :: targets' =>
      if (id <=? 0)%Z then count_loop scopeSet seen missing targets'
      else if decide (id ∈ seen) then count_loop scopeSet seen missing targets'
      else count_loop scopeSet ({[id]} ∪ seen) (if decide (id ∈ scopeSet) then missing else S missing) targets'
  end.

Definition scope_set (scopeChainIDs : list Z) : gset Z :=
  foldl (fun s id => if (0 <? id)%Z then {[id]} ∪ s else s) ∅ scopeChainIDs.

Definition countMissingTargetChains (targetChainIDs scopeChainIDs : list Z) : nat :=
  count_loop (scope_set scopeChainIDs) ∅ 0 targetChainIDs.

Definition missingTargetChains `{GS : GoSort} (targetChainIDs scopeChainIDs : list Z) : list Z :=
  sort_slice Z.ltb (missing_loop (scope_set scopeChainIDs) ∅ targetChainIDs).

Definition rejectedCandidateHasCode (candidate : RejectedPolicy) (code : string) : bool :=
  existsb (fun f => String.eqb (af_Code f) code) (rj_RejectionReasons candidate).

(** The scope of a candidate rejected for its chains; an absent map is empty. *)
Definition rejected_scope (instanceScopes : gmap string (list Z)) (candidate : RejectedPolicy) : option (list Z) :=
  if negb (rejectedCandidateHasCode candidate rejectionCodeChainScope) then None
  else instanceScopes !! rj_CryptoPolicyInstanceID candidate.

Definition min_step (targetChainIDs : list Z) (instanceScopes : gmap string (list Z)) (acc : option nat)
    (candidate : RejectedPolicy) : option nat :=
  match rejected_scope instanceScopes candidate with
  | None => acc
  | Some scope =>
      let missing := countMissingTargetChains targetChainIDs scope in
      match acc with
      | None => Some missing
      | Some minMissing => if Nat.ltb missing minMissing then Some missing else acc
      end
  end.

Definition minMissingChainCountForChainScopeRejections (targetChainIDs : list Z) (rejected : list RejectedPolicy)
    (instanceScopes : gmap string (list Z)) : option nat :=
  if Nat.eqb (length targetChainIDs) 0 || Nat.eqb (size instanceScopes) 0 then None
  else foldl (min_step targetChainIDs instanceScopes) None rejected.

Definition bucketMissingChainCountValue (count : nat) : string :=
  match count with
  | 0 => "0"
  | 1 => "1"
  | 2 => "2"
  | 3 => "3"
  | _ => "4_plus"
  end.

Definition bucketMissingChainCount (targetChainIDs : list Z) (rejected : list RejectedPolicy)
    (instanceScopes : gmap string (list Z)) (dominantCode : string) : string :=
  if negb (String.eqb dominantCode rejectionCodeChainScope) then exploreLabelUnknown
  else match minMissingChainCountForChainScopeRejections targetChainIDs rejected instanceScopes with
       | None => exploreLabelUnknown
       | Some minMissing => bucketMissingChainCountValue minMissing
       end.

Definition closestChainScopeMissingChains `{GS : GoSort} (targetChainIDs : list Z) (rejected : list RejectedPolicy)
    (instanceScopes : gmap string (list Z)) : list Z * list Z :=
  if Nat.eqb (length targetChainIDs) 0 then ([], [])
  else match minMissingChainCountForChainScopeRejections targetChainIDs rejected instanceScopes with
       | None => ([], [])
       | Some minMissing =>
           match find (fun scope => Nat.eqb (countMissingTargetChains targetChainIDs scope) minMissing)
                   (omap (rejected_scope instanceScopes) rejected) with
           | Some scope => (missingTargetChains targetChainIDs scope, scope)
           | None => ([], [])
           end
       end.

Definition formatInt64Slice (ids : list Z) : string :=
  if Nat.eqb (length ids) 0 then EmptyString else Join (FormatInt <$> ids) ",".

(** The first [n] bytes. *)
Definition prefix_of_len (n : nat) (s : string) : string :=
  String.string_of_list_ascii (take n (String.list_ascii_of_string s)).

Section Observability.
Context `{U : Unicode, GS : GoSort, C : WalletContract}.

(** ** Labels *)

Definition exploreBindingLabel (req : option decisionExploreRequest) : string :=
  match req with
  | None => exploreBindingUnknown
  | Some req =>
      if negb (is_empty (TrimSpace (er_ScanID req))) then exploreBindingDiscovery
      else match er_PolicyContext req with
           | Some pc =>
               if negb (is_empty (TrimSpace (wp_ScanID pc))) then exploreBindingDiscovery
               else if negb (is_empty (TrimSpace (wp_Status pc))) then exploreBindingDiscovery
               else exploreBindingUnknown
           | None => exploreBindingUnknown
           end
  end.

Definition exploreWalletTypeLabel (req : option decisionExploreRequest) : string :=
  match req ≫= er_PolicyContext with
  | None => exploreLabelUnknown
  | Some pc =>
      let kind := normalizeWireAccountKind (wp_WalletType pc) in
      if is_empty (TrimSpace kind) then exploreLabelUnknown else kind
  end.

Definition exploreWalletAddressHash (pc : option walletPolicyContextWire) : string :=
  match pc with
  | None => EmptyString
  | Some pc =>
      let raw0 := TrimSpace (wp_TargetAddress pc) in
      let raw := if is_empty raw0 then TrimSpace (wp_WalletAddress pc) else raw0 in
      if is_empty raw then EmptyString
      else match NormalizeWalletTargetAddress raw with
           | Err _ => EmptyString
           | Ok norm => prefix_of_len 16 (sha256_hex norm)
           end
  end.

(** The loop ranges over runes, the bound counts bytes. *)
Definition request_id_rune (ch : N) : bool :=
  ((65 <=? ch) && (ch <=? 90) || (97 <=? ch) && (ch <=? 122) || (48 <=? ch) && (ch <=? 57)
   || (ch =? 46) || (ch =? 95) || (ch =? 58) || (ch =? 45))%N.

Definition sanitizeExploreRequestID (raw : string) : option string :=
  let value := TrimSpace raw in
  if is_empty value || Nat.ltb 128 (len value) then None
  else if forallb request_id_rune (runes value) then Some value
  else None.

(** ** The log line *)

Definition quoted (key value : string) : string := key +:+ "=" +:+ Quote value.

Definition quoted_unless_empty (key value : string) : list string :=
  if is_empty value then [] else [quoted key value].

Definition context_fields_of (req : option decisionExploreRequest) : list string :=
  match req with
  | Some req =>
      match er_PolicyContext req with
      | Some pc =>
          quoted_unless_empty "wallet_address_hash" (exploreWalletAddressHash (Some pc))
          ++ (let scanID := TrimSpace (er_ScanID req) in
              if negb (is_empty scanID) then [quoted "scan_id" scanID]
              else quoted_unless_empty "scan_id" (TrimSpace (wp_ScanID pc)))
      | None => []
      end
  | None => []
  end.

Definition ids_field (key : string) (ids : list Z) : list string :=
  if Nat.ltb 0 (length ids) then [quoted key (formatInt64Slice ids)] else [].

Definition logNoDeployableCandidate (r : option Request) (req : option decisionExploreRequest)
    (decision : PolicyDecision) (dominantCode missingCountLabel walletType binding : string) : string :=
  let targetChainIDs := rs_TargetChainIDs (pd_RequestSummary decision) in
  let rejected := pd_RejectedCandidates decision in
  let '(missingChainIDs, candidateChainIDs) := closestChainScopeMissingChains targetChainIDs rejected ∅ in
  Join ([quoted "event" exploreNoDeployableEventName;
         quoted "adr_signal" adrSignalNoScanCompatibleProviders;
         quoted "dominant_rejection_code" dominantCode;
         quoted "wallet_type" walletType;
         quoted "binding" binding;
         quoted "missing_chain_count_bucket" missingCountLabel;
         "rejected_candidates_count=" +:+ FormatInt (Z.of_nat (length rejected))]
        ++ context_fields_of req
        ++ ids_field "requested_chain_ids" targetChainIDs
        ++ ids_field "observed_chain_ids" (pd_ObservedChainIDs decision)
        ++ ids_field "candidate_chain_ids" candidateChainIDs
        ++ ids_field "missing_chain_ids" missingChainIDs
        ++ (let codes := collectAllRejectionCodes rejected in
            if Nat.ltb 0 (length codes) then [quoted "rejection_codes" (Join codes ",")] else [])
        ++ (rejected ≫= fun c => quoted_unless_empty "candidate_id" (rj_CandidateID c))
        ++ match r with
           | Some r =>
               match sanitizeExploreRequestID (Header_Get r "X-Request-Id") with
               | Some requestID => [quoted "request_id" requestID]
               | None => []
               end
           | None => []
           end) " ".

(** What a recording changes: the counters, and the lines of the log. *)
Record observed := mkObserved {
  ob_Metrics : MetricsRegistry;
  ob_Log : list string
}.

Definition recordNoDeployableCandidate (r : option Request) (req : option decisionExploreRequest)
    (decision : PolicyDecision) (o : observed) : observed :=
  let rejected := pd_RejectedCandidates decision in
  if Nat.ltb 0 (length (pd_RankedCandidates decision)) || Nat.eqb (length rejected) 0 then o
  else
    let dominantCode := dominantExploreRejectionCode rejected in
    let missingCountLabel :=
      bucketMissingChainCount (rs_TargetChainIDs (pd_RequestSummary decision)) rejected ∅ dominantCode in
    let walletType := exploreWalletTypeLabel req in
    let binding := exploreBindingLabel req in
    mkObserved
      (IncExploreNoDeployableCandidate (mkLabels dominantCode walletType binding missingCountLabel) (ob_Metrics o))
      (ob_Log o ++ [logNoDeployableCandidate r req decision dominantCode missingCountLabel walletType binding]).

End Observability.

(** ** The handler *)

Section Handler.
Context `{U : Unicode, F : GoFloat, GS : GoSort, GR : GoRange, JE : JsonErrors, C : WalletContract}.

Definition observationFromDecisionExplore (req : option decisionExploreRequest) : gores Payload :=
  match req with
  | None => Err (errors_New "request is nil")
  | Some req =>
      match er_PolicyContext req with
      | None => Err (errors_New "policy_context is required")
      | Some pc => observationFromWalletPolicyContext (Some pc)
      end
  end.

Definition handlePOSTExplore (st : ReadStore) (r : Request) (o : observed) : Response * observed :=
  match decodeDecisionExploreRequest r with
  | Err e => (error_answer StatusBadRequest (e_text e), o)
  | Ok req =>
      match named_policy st (er_CryptoPolicyID req) with
      | Err resp => (resp, o)
      | Ok cp =>
          match observationFromDecisionExplore (Some req) with
          | Err e => (error_answer StatusBadRequest (e_text e), o)
          | Ok observation =>
              match EvaluateExploreCoucheA (Some (providers st)) observation (Some cp) with
              | Err e => (error_answer StatusBadRequest (e_text e), o)
              | Ok decision =>
                  (writeJSON StatusOK (AMap [("decision", decision_any decision)]),
                   recordNoDeployableCandidate (Some r) (Some req) decision o)
              end
          end
      end
  end.

End Handler.

(** ** Facts about codes *)

Section CodeFacts.
Context (keep : AssessmentFinding -> bool).

Lemma add_code_elem codes f c :
  c ∈ add_code keep codes f <-> c ∈ codes \/ (c <> EmptyString /\ keep f = true /\ c = af_Code f).
Proof.
  unfold add_code. destruct (is_empty (af_Code f)) eqn:E.
  { apply is_empty_spec in E. rewrite E. naive_solver. }
  apply is_empty_false in E. destruct (keep f); cbn [negb]; [|naive_solver].
  destruct (existsb (String.eqb (af_Code f)) codes) eqn:Ex.
  - apply oneOf_spec in Ex. naive_solver.
  - rewrite elem_of_app, list_elem_of_singleton. naive_solver.
Qed.

Lemma add_codes_elem fs codes c :
  c ∈ foldl (add_code keep) codes fs <->
  c ∈ codes \/ exists f, f ∈ fs /\ c <> EmptyString /\ keep f = true /\ c = af_Code f.
Proof.
  revert codes. induction fs as [|f fs IH]; intros codes; simpl; [set_solver|].
  rewrite IH, add_code_elem. set_solver.
Qed.

Lemma collect_codes_elem rejected c :
  c ∈ collect_codes keep rejected <->
  exists r f, r ∈ rejected /\ f ∈ rj_RejectionReasons r /\ keep f = true /\ c = af_Code f /\ c <> EmptyString.
Proof.
  unfold collect_codes.
  assert (forall codes, c ∈ foldl (fun codes r => foldl (add_code keep) codes (rj_RejectionReasons r)) codes rejected
    <-> c ∈ codes \/ exists r f, r ∈ rejected /\ f ∈ rj_RejectionReasons r /\ keep f = true /\ c = af_Code f
        /\ c <> EmptyString) as H.
  { induction rejected as [|r rs IH]; intros codes; simpl; [set_solver|].
    rewrite IH, add_codes_elem. set_solver. }
  rewrite H. set_solver.
Qed.

End CodeFacts.

Lemma sorted_head_least codes c l x :
  sort_stable str_lt codes = c :: l -> x ∈ codes -> str_lt x c = false.
Proof.
  intros E Hx. pose proof (WeakOrder_str id : WeakOrder str_lt) as W.
  pose proof (@sort_stable_sorted _ str_lt W codes) as Hs.
  rewrite E in Hs. apply Sorted_StronglySorted in Hs; [|apply weak_trans].
  rewrite <- (sort_stable_elem str_lt), E in Hx. inversion Hs as [|? ? _ Hall]; subst.
  rewrite elem_of_cons in Hx. destruct Hx as [->|Hx]; [apply str_lt_irrefl|].
  by apply (proj1 (Forall_forall _ _) Hall).
Qed.

Lemma dominant_spec rejected :
  let codes := collectBlockingRejectionCodes rejected in
  let d := dominantExploreRejectionCode rejected in
  (codes = [] -> d = exploreLabelUnknown)
  /\ (rejectionCodeChainScope ∈ codes -> d = rejectionCodeChainScope)
  /\ (codes <> [] -> d ∈ codes /\ (rejectionCodeChainScope ∉ codes -> forall c, c ∈ codes -> str_lt c d = false)).
Proof.
  intros codes d. subst d. unfold dominantExploreRejectionCode. fold codes. clearbody codes.
  destruct (Nat.eqb_spec (length codes) 0) as [E|E].
  { apply length_zero_iff_nil in E as ->. set_solver. }
  destruct (existsb (String.eqb rejectionCodeChainScope) codes) eqn:Ex.
  - apply oneOf_spec in Ex. split_and!; [by intros ->|done|by intros _].
  - assert (rejectionCodeChainScope ∉ codes) as Hno.
    { intros H. assert (existsb (String.eqb rejectionCodeChainScope) codes = true) by (by apply oneOf_spec). congruence. }
    pose proof (sort_stable_perm str_lt codes) as Hp.
    destruct (sort_stable str_lt codes) as [|c l] eqn:Es; [by apply Permutation_nil_l in Hp; subst|].
    split_and!; [by intros ->|done|intros _]. split; [rewrite <- Hp; by left|].
    intros _ x Hx. by eapply sorted_head_least.
Qed.

(** ** Facts about missing chains *)

Lemma missing_loop_elem sc seen targets x :
  x ∈ missing_loop sc seen targets <-> x ∈ targets /\ (0 < x)%Z /\ x ∉ seen /\ x ∉ sc.
Proof.
  revert seen. induction targets as [|id targets IH]; intros seen; simpl; [set_solver|].
  destruct (Z.leb_spec id 0); [rewrite IH, elem_of_cons; split; [naive_solver|]; intros ([->|] & ?); [lia|done]|].
  repeat case_decide; rewrite ?elem_of_cons, IH, ?not_elem_of_union, ?not_elem_of_singleton.
  - naive_solver.
  - split; [naive_solver|]. intros ([->|] & ? & ? & ?); [done|]. destruct (decide (x = id)); naive_solver.
  - split; [naive_solver|]. intros ([->|] & ? & ? & ?); [by left|]. destruct (decide (x = id)); naive_solver.
Qed.

Lemma missing_loop_nodup sc seen targets : NoDup (missing_loop sc seen targets).
Proof.
  revert seen. induction targets as [|id targets IH]; intros seen; simpl; [constructor|].
  repeat case_match; try done. constructor; [|done]. rewrite missing_loop_elem. set_solver.
Qed.

Lemma count_loop_length sc seen n targets :
  count_loop sc seen n targets = n + length (missing_loop sc seen targets).
Proof.
  revert seen n. induction targets as [|id targets IH]; intros seen n; simpl; [lia|].
  repeat case_match; rewrite IH; simpl; lia.
Qed.

Lemma scope_set_elem scope x : x ∈ scope_set scope <-> x ∈ scope /\ (0 < x)%Z.
Proof.
  unfold scope_set.
  assert (forall s, x ∈ foldl (fun (s : gset Z) id => if (0 <? id)%Z then {[id]} ∪ s else s) s scope
    <-> x ∈ s \/ (x ∈ scope /\ (0 < x)%Z)) as H.
  { induction scope as [|id scope IH]; intros s; simpl; [set_solver|]. rewrite IH, elem_of_cons.
    destruct (Z.ltb_spec 0 id); [|split; [naive_solver|intros [?|[[->|?] ?]]; [naive_solver|lia|naive_solver]]].
    rewrite elem_of_union, elem_of_singleton. naive_solver. }
  rewrite H. set_solver.
Qed.

Section MissingChains.
Context `{GS : GoSort}.

Lemma missing_elem targets scope x :
  x ∈ missingTargetChains targets scope <-> x ∈ targets /\ (0 < x)%Z /\ x ∉ scope.
Proof.
  unfold missingTargetChains. rewrite sort_slice_perm, missing_loop_elem, scope_set_elem. set_solver.
Qed.

Lemma missing_count targets scope :
  countMissingTargetChains targets scope = length (missingTargetChains targets scope).
Proof.
  unfold countMissingTargetChains, missingTargetChains. by rewrite sort_slice_perm, count_loop_length.
Qed.

Lemma missing_sorted targets scope : StronglySorted Z.lt (missingTargetChains targets scope).
Proof.
  unfold missingTargetChains. set (l := missing_loop _ _ _). pose proof (missing_loop_nodup (scope_set scope) ∅ targets) as Hnd.
  fold l in Hnd. pose proof (sort_slice_sorted Z.ltb l (WeakOrder_Z id)) as Hs.
  rewrite <- (sort_slice_perm Z.ltb l) in Hnd.
  apply Sorted_StronglySorted in Hs; [|apply (@weak_trans _ Z.ltb (WeakOrder_Z id))].
  induction Hs as [|x l' Hs IH Hall]; [constructor|]. inversion_clear Hnd as [|? ? Hx Hnd'].
  constructor; [by apply IH|]. rewrite Forall_forall in Hall |- *. intros y Hy. specialize (Hall y Hy).
  unfold ge_of in Hall. apply Z.ltb_ge in Hall. assert (x <> y) by naive_solver. lia.
Qed.

Lemma min_fold targets scopes rejected acc :
  let l := omap (rejected_scope scopes) rejected in
  match foldl (min_step targets scopes) acc rejected with
  | None => acc = None /\ l = []
  | Some n => (acc = Some n \/ exists scope, scope ∈ l /\ countMissingTargetChains targets scope = n)
      /\ (forall a, acc = Some a -> n <= a)
      /\ (forall scope, scope ∈ l -> n <= countMissingTargetChains targets scope)
  end.
Proof.
  revert acc. induction rejected as [|c rejected IH]; intros acc l.
  { subst l. simpl. destruct acc; [|done]. set_solver. }
  subst l. simpl. specialize (IH (min_step targets scopes acc c)). cbv zeta in IH.
  destruct (foldl _ _ rejected) as [n|]; unfold min_step in IH;
    destruct (rejected_scope scopes c) as [scope|]; try done.
  - revert IH. destruct acc as [a|]; [|set_solver].
    destruct (Nat.ltb_spec (countMissingTargetChains targets scope) a) as [Hlt|Hge]; intros (H1 & H2 & H3);
      specialize (H2 _ eq_refl); setoid_rewrite elem_of_cons; split_and!.
    + destruct H1 as [[= <-]|(s' & ? & ?)]; right; eauto.
    + intros a' [= <-]. lia.
    + intros s' [->|Hs']; [done|by apply H3].
    + destruct H1 as [?|(s' & ? & ?)]; [by left|right; eauto].
    + by intros a' [= <-].
    + intros s' [->|Hs']; [lia|by apply H3].
  - destruct acc as [a|]; [destruct (Nat.ltb _ a)|]; naive_solver.
Qed.

(** The closest candidate of a chain-scope rejection: when the targets are not
    empty and some rejected candidate has a known scope, the scope reported is
    one of those, the chains reported are exactly its positive missing targets,
    each once in increasing order, no other candidate misses fewer, and the
    bucket of the counter is that of their number. *)
Theorem closest_chains_correct targets rejected scopes :
  let known := omap (rejected_scope scopes) rejected in
  targets <> [] -> known <> [] ->
  let '(missing, scope) := closestChainScopeMissingChains targets rejected scopes in
  scope ∈ known /\ StronglySorted Z.lt missing
  /\ (forall x, x ∈ missing <-> x ∈ targets /\ (0 < x)%Z /\ x ∉ scope)
  /\ (forall scope', scope' ∈ known -> length missing <= countMissingTargetChains targets scope')
  /\ bucketMissingChainCount targets rejected scopes rejectionCodeChainScope
     = bucketMissingChainCountValue (length missing).
Proof.
  intros known Ht Hk. unfold closestChainScopeMissingChains, bucketMissingChainCount.
  apply length_zero_false in Ht as Ht'. rewrite Ht', String.eqb_refl. cbn [negb].
  unfold minMissingChainCountForChainScopeRejections. rewrite Ht'.
  assert (Nat.eqb (size scopes) 0 = false) as ->.
  { apply Nat.eqb_neq. intros ->%map_size_empty_inv. apply Hk. unfold known.
    clear Hk. subst known. induction rejected as [|c l IH]; [done|]. simpl. unfold rejected_scope at 1.
    rewrite lookup_empty. by destruct (negb _). }
  cbn [orb]. pose proof (min_fold targets scopes rejected None) as H. cbv zeta in H. fold known in H.
  destruct (foldl _ _ rejected) as [n|]; [|naive_solver].
  destruct H as ([?|(s & Hs & Hn)] & _ & Hmin); [done|].
  fold known. destruct (find _ known) as [scope|] eqn:Ef.
  - apply find_some in Ef as [Hin%list_elem_of_In Hc%Nat.eqb_eq]. rewrite missing_count in Hc.
    split_and!; [done|apply missing_sorted|intros x; apply missing_elem|by rewrite Hc|by rewrite Hc].
  - eapply find_none in Ef; [|by apply list_elem_of_In]. by apply Nat.eqb_neq in Ef.
Qed.

End MissingChains.

(** ** What the route promises *)

Section RouteSpec.
Context `{U : Unicode, F : GoFloat, GS : GoSort, GR : GoRange, JE : JsonErrors, C : WalletContract}.

(** The request explores policy [cp] for the wallet [obs]. *)
Definition explores (st : ReadStore) (r : Request) (req : decisionExploreRequest) (cp : CryptoPolicy) (obs : Payload) : Prop :=
  decodeDecisionExploreRequest r = Ok req /\ cp ∈ cryptoPolicies st /\ cp_ID cp = er_CryptoPolicyID req
  /\ offered st cp = true /\ observationFromDecisionExplore (Some req) = Ok obs.

Definition rejection (d : PolicyDecision) (f : AssessmentFinding) : Prop :=
  exists c, c ∈ pd_RejectedCandidates d /\ f ∈ rj_RejectionReasons c.

(** The label of the counter: the least code of the rejections. *)
Definition least_code (d : PolicyDecision) (code : string) : Prop :=
  (exists f, rejection d f /\ af_Code f = code) /\ forall f, rejection d f -> str_lt (af_Code f) code = false.

Lemma rejection_reason reg obs cp d f :
  EvaluateExploreCoucheA reg obs (Some cp) = Ok d -> rejection d f -> couche_a_reason f.
Proof.
  intros [= <-] (c & Hc & Hf). cbn [pd_RejectedCandidates] in Hc.
  rewrite sort_stable_elem, rights_elem, list_elem_of_bind in Hc. destruct Hc as (id & Hc & _).
  apply rejected_reasons in Hc as [H _]. by apply (proj1 (Forall_forall _ _) H).
Qed.

Lemma blocking_codes d c : (forall f, rejection d f -> couche_a_reason f) ->
  c ∈ collectBlockingRejectionCodes (pd_RejectedCandidates d) <-> exists f, rejection d f /\ af_Code f = c.
Proof.
  intros H. unfold collectBlockingRejectionCodes. rewrite collect_codes_elem. split.
  - intros (r & f & ? & ? & _ & -> & _). exists f. split; [by exists r|done].
  - intros (f & (r & Hr & Hf) & <-). exists r, f. destruct (H f) as [Hc Hs]; [by exists r|]. split_and!; try done.
    + unfold blocking. by rewrite Hs.
    + intros E. rewrite E in Hc. by apply (bool_decide_pack _) in Hc.
Qed.

Lemma dominant_least reg obs cp d :
  EvaluateExploreCoucheA reg obs (Some cp) = Ok d -> pd_RejectedCandidates d <> [] ->
  least_code d (dominantExploreRejectionCode (pd_RejectedCandidates d))
  /\ dominantExploreRejectionCode (pd_RejectedCandidates d) <> rejectionCodeChainScope.
Proof.
  intros Hd Hne. pose proof (fun f => rejection_reason reg obs cp d f Hd) as Hr.
  pose proof (fun c => blocking_codes d c Hr) as Hb.
  assert (rejectionCodeChainScope ∉ collectBlockingRejectionCodes (pd_RejectedCandidates d)) as Hno.
  { rewrite Hb. intros (f & [Hc _]%Hr & Hs). rewrite Hs in Hc. by apply (bool_decide_pack _) in Hc. }
  destruct (dominant_spec (pd_RejectedCandidates d)) as (_ & _ & Hd3).
  assert (collectBlockingRejectionCodes (pd_RejectedCandidates d) <> []) as Hcodes.
  { destruct (pd_RejectedCandidates d) as [|c l] eqn:E; [done|].
    assert (rj_RejectionReasons c <> []) as Hc.
    { injection Hd as <-. cbn [pd_RejectedCandidates] in E.
      assert (c ∈ sort_stable rejected_less (rights (cp_AllowedProviders cp ≫= explore_provider reg (observation_of obs) cp)))
        as Hin by (rewrite E; by left).
      rewrite sort_stable_elem, rights_elem, list_elem_of_bind in Hin. destruct Hin as (id & Hin & _).
      by apply rejected_reasons in Hin as [_ ?]. }
    destruct (rj_RejectionReasons c) as [|f fs] eqn:Ef; [done|].
    assert (af_Code f ∈ collectBlockingRejectionCodes (c :: l)) as Hin; [|intros En; rewrite En in Hin; set_solver].
    apply Hb. exists f. split; [|done]. exists c. rewrite E, Ef. set_solver. }
  destruct (Hd3 Hcodes) as [Hin Hmin]. split.
  - split; [by apply Hb|]. intros f Hf. apply Hmin; [done|]. apply Hb. by exists f.
  - intros E. rewrite E in Hin. done.
Qed.

Lemma some_candidate reg obs cp d : policy_ok cp ->
  EvaluateExploreCoucheA reg obs (Some cp) = Ok d ->
  pd_RankedCandidates d = [] -> pd_RejectedCandidates d <> [].
Proof.
  intros Hok [= <-]. cbn [pd_RankedCandidates pd_RejectedCandidates]. intros Hl Hr.
  set (app := cp_AllowedProviders cp ≫= _) in *.
  assert (app <> []) as Hne.
  { pose proof (cok_providers cp Hok) as Hp. pose proof (cok_provider cp Hok) as Hall. unfold app.
    destruct (cp_AllowedProviders cp) as [|id ids]; [done|]. apply Forall_cons in Hall as [Hid _]. simpl.
    unfold explore_provider at 1. apply is_empty_false in Hid as ->.
    by destruct (ProfilesForProvider _ _). }
  apply Hne. apply elem_of_nil_inv. intros [c|c] Hc.
  - apply lefts_elem in Hc. rewrite <- (sort_stable_elem ranked_less), Hl in Hc. set_solver.
  - apply rights_elem in Hc. rewrite <- (sort_stable_elem rejected_less), Hr in Hc. set_solver.
Qed.

Lemma record_recorded r req d o reg obs cp : policy_ok cp ->
  EvaluateExploreCoucheA reg obs (Some cp) = Ok d -> pd_RankedCandidates d = [] ->
  exists code line, least_code d code
  /\ recordNoDeployableCandidate r (Some req) d o = mkObserved
       (IncExploreNoDeployableCandidate
          (mkLabels code (exploreWalletTypeLabel (Some req)) (exploreBindingLabel (Some req)) exploreLabelUnknown)
          (ob_Metrics o)) (ob_Log o ++ [line]).
Proof.
  intros Hok Hd Hr. pose proof (some_candidate reg obs cp d Hok Hd Hr) as Hj.
  destruct (dominant_least reg obs cp d Hd Hj) as [Hleast Hno].
  unfold recordNoDeployableCandidate. rewrite Hr. apply length_zero_false in Hj. rewrite Hj. cbn [length Nat.ltb Nat.leb orb].
  exists (dominantExploreRejectionCode (pd_RejectedCandidates d)). eexists. split; [done|].
  unfold bucketMissingChainCount. apply String.eqb_neq in Hno. rewrite Hno. reflexivity.
Qed.

(** C16: The exploration route: a well-formed request for an offered policy is
    answered 200 with a decision that ranks exactly the acceptable profiles of
    the allowed providers; when it ranks none, exactly one event is counted,
    under the least rejection code and never with a number of missing chains,
    and one line is logged; otherwise nothing is recorded.  Every other request
    is answered 400 and records nothing. *)
Theorem explore_route_correct st r o :
  store_wf st ->
  let '(resp, o') := handlePOSTExplore st r o in
  (forall req cp obs, explores st r req cp obs ->
     exists d, resp = writeJSON StatusOK (AMap [("decision", decision_any d)])
       /\ (forall c, c ∈ pd_RankedCandidates d <-> exists rp, considered (providers st) cp rp
             /\ acceptable obs cp (rp_Profile rp) /\ c = ranked_candidate cp rp)
       /\ if decide (pd_RankedCandidates d = [])
          then exists code line, least_code d code
               /\ o' = mkObserved (IncExploreNoDeployableCandidate
                     (mkLabels code (exploreWalletTypeLabel (Some req)) (exploreBindingLabel (Some req)) "unknown")
                     (ob_Metrics o)) (ob_Log o ++ [line])
               /\ explore_events (ob_Metrics o') = (explore_events (ob_Metrics o) + 1)%N
          else o' = o)
  /\ ((forall req cp obs, ~ explores st r req cp obs) -> rs_Status resp = StatusBadRequest /\ o' = o).
Proof.
  intros Hwf. destruct (handlePOSTExplore st r o) as [resp o'] eqn:E. unfold handlePOSTExplore in E. split.
  - intros req cp obs (Hdec & Hin & Hid & Ho & Hobs). rewrite Hdec in E.
    assert (named_policy st (er_CryptoPolicyID req) = Ok cp) as Hn by (by apply named_policy_ok).
    rewrite Hn, Hobs in E. destruct (EvaluateExploreCoucheA _ _ _) as [d|] eqn:Hd; [|done]. injection E as <- <-.
    exists d. split; [done|]. split.
    { intros c. injection Hd as <-. cbn [pd_RankedCandidates]. eapply ranked_elem. apply Hwf. }
    case_decide as Hr.
    + pose proof (proj1 (Forall_forall _ _) (sw_policies st Hwf) cp Hin) as [Hok _].
      destruct (record_recorded (Some r) req d o _ _ _ Hok Hd Hr) as (code & line & Hl & ->). exists code, line.
      split_and!; [done|done|]. cbn [ob_Metrics]. apply explore_events_Inc.
    + unfold recordNoDeployableCandidate. by destruct (pd_RankedCandidates d).
  - intros Hno. destruct (decodeDecisionExploreRequest r) as [req|e] eqn:Hdec; [|by injection E as <- <-].
    destruct (named_policy st (er_CryptoPolicyID req)) as [cp|e] eqn:Hn.
    2:{ apply get_policy_err in Hn as [_ Hs]. by injection E as <- <-. }
    destruct (observationFromDecisionExplore (Some req)) as [obs|e] eqn:Hobs; [|by injection E as <- <-].
    exfalso. apply (Hno req cp obs). apply named_policy_ok in Hn as (? & ? & ?); [|done]. by split_and!.
Qed.

End RouteSpec.

(** ** From a candidate to its snapshot *)

Section CandidateSnapshot.
Context `{U : Unicode, F : GoFloat, GS : GoSort, GR : GoRange, JE : JsonErrors, C : WalletContract}.

(** Text that JSON carries unchanged. *)
Definition utf8_ref (r : SolutionProfileRef) : Prop :=
  Forall (fun s => to_utf8 s = s) [spr_ProviderID r; spr_SolutionProfileID r; spr_ManifestVersion r; spr_VerificationDate r].

Lemma ref_decodes ref : utf8_ref ref ->
  decode_body solution_ref_fields (Document (solution_ref_any ref)) zero_solution_ref = Some ref.
Proof.
  intros H. unfold utf8_ref in H. rewrite !Forall_cons in H. destruct H as (H1 & H2 & H3 & H4 & _).
  destruct ref as [a b c d]. cbn [spr_ProviderID spr_SolutionProfileID spr_ManifestVersion spr_VerificationDate] in *.
  unfold decode_body, dec_document, solution_ref_any, str_member, str_omit.
  cbn [spr_ProviderID spr_SolutionProfileID spr_ManifestVersion spr_VerificationDate app zero_solution_ref foldl].
  decode_member solution_ref_fields. rewrite H1. decode_member solution_ref_fields. rewrite H2.
  decode_member solution_ref_fields. rewrite H3.
  destruct (is_empty d) eqn:Ed.
  - apply is_empty_spec in Ed as ->. done.
  - cbn [foldl]. decode_member solution_ref_fields. by rewrite H4.
Qed.

Lemma snapshot_request_decodes id ref :
  TrimSpace id = id -> id <> EmptyString -> to_utf8 id = id -> utf8_ref ref ->
  decodeAcceptedProviderSnapshotRequest (snapshot_request id (solution_ref_any ref) [])
  = Ok (mkSnapshotRequest id ref []).
Proof.
  intros Ht Hne Hu Hr. unfold decodeAcceptedProviderSnapshotRequest, snapshot_request, snapshot_body.
  cbn [rq_Body Unmarshal_members]. rewrite (proj2 (first_key_None _ _)) by (repeat constructor).
  unfold crypto_policy_id_member, Unmarshal_string.
  change (doc_get _ "crypto_policy_id") with (Some (AString id)).
  change (doc_get _ "solution_profile_ref") with (Some (solution_ref_any ref)).
  change (doc_get _ "accepted_findings") with (Some (ASlice [])). cbn [dec_string]. rewrite Hu, Ht.
  apply is_empty_false in Hne. rewrite Hne. cbn.
  unfold Unmarshal. by rewrite ref_decodes.
Qed.

Lemma explore_id_trimmed r req : decodeDecisionExploreRequest r = Ok req ->
  TrimSpace (er_CryptoPolicyID req) = er_CryptoPolicyID req.
Proof.
  unfold decodeDecisionExploreRequest. repeat case_match; try done. rewrite res_bind_ok.
  intros (pc & _ & Hpc). apply res_bind_ok in Hpc as (id & Hid & [= <-]). cbn [er_CryptoPolicyID].
  unfold crypto_policy_id_member in Hid. repeat case_match; try done. injection Hid as <-.
  apply TrimSpace_idem.
Qed.

Lemma capable_persistable p id caps : Forall chain_support_ok (sp_ChainSupport p) ->
  chain_capable (sp_ChainSupport p) caps id ->
  exists ch, ch ∈ omap persistable_chain (sp_ChainSupport p) /\ scs_ChainID ch = id.
Proof.
  intros Hok (cs & Hf & Hpl & _). apply findChainSupport_some in Hf as [Hin Hid].
  destruct (proj1 (Forall_forall _ _) Hok cs Hin) as (Hpos & _ & Hst).
  assert (is_Some (persistable_chain cs)) as [ch Hch].
  { apply persistable_chain_spec. split; [done|]. revert Hst. unfold chain_statuses.
    rewrite !elem_of_cons, elem_of_nil. intros [->|[->|[->|[]]]]; vm_compute; congruence. }
  exists ch. split; [apply list_elem_of_omap; by exists cs|].
  unfold persistable_chain in Hch. repeat case_match; by simplify_eq.
Qed.

Lemma candidate_ref_ok flag reg cp rp : reg_inv flag reg -> considered reg cp rp ->
  let ref := solution_ref rp in
  trim_ref ref = ref /\ SolutionProfileRef_Validate ref = Ok tt
  /\ (exists a, a ∈ cp_AllowedProviders cp /\ providerKey a = providerKey (spr_ProviderID ref))
  /\ profile_ok (rp_Profile rp).
Proof.
  intros Hinv (a & Ha & _ & Hrp) ref. apply (profiles_elem flag) in Hrp as (m & p & Hg & Hreg & Hwf & Hp & ->); [|done].
  destruct (wf_profile m p Hwf Hp) as [Hn Hok]. subst ref. split_and!.
  - apply (assist_ref_trimmed m p (resolved flag m p) EmptyString); done.
  - pose proof (ok_pid m (proj1 (proj2 Hwf))) as H1. pose proof (ok_pversion m (proj1 (proj2 Hwf))) as H2.
    pose proof (ok_id p Hok) as H3. apply is_empty_false in H1, H2, H3. unfold SolutionProfileRef_Validate, solution_ref. simpl.
    by rewrite H1, H2, H3.
  - exists a. split; [done|]. change (providerKey a = providerKey (pm_ProviderID m)).
    unfold Registry_Get in Hg. apply (inv_manifests _ _ Hinv) in Hg as [E _]. rewrite <- E.
    unfold providerKey. by rewrite TrimSpace_idem.
  - done.
Qed.

(** C17: Every candidate that exploration ranks for a wallet seen on some chain can
    be taken further: posting its reference as it was answered yields 200 and a
    snapshot of the very profile, which pins at least one chain on which the
    wallet was seen. *)
Theorem explore_then_snapshot st r req cp obs d c :
  store_wf st -> explores st r req cp obs ->
  EvaluateExploreCoucheA (Some (providers st)) obs (Some cp) = Ok d -> c ∈ pd_RankedCandidates d ->
  (exists id, id ∈ pl_ChainIDs obs /\ (0 < id)%Z) ->
  to_utf8 (cp_ID cp) = cp_ID cp -> utf8_ref (rk_SolutionProfileRef c) ->
  exists snap,
    handlePOSTAcceptedProviderSnapshots st
      (snapshot_request (cp_ID cp) (solution_ref_any (rk_SolutionProfileRef c)) [])
    = writeJSON StatusOK (AMap [
        ("crypto_policy_id", AString (cp_ID cp));
        ("required_posture", AString (cp_RequiredPosture cp));
        ("solution_profile_ref", solution_ref_any (rk_SolutionProfileRef c));
        ("accepted_provider_snapshot", snapshot_any snap)])
    /\ snap_ResultingPosture snap = rk_ResultingPosture c
    /\ exists ch, ch ∈ snap_ChainSupportUsed snap /\ scs_ChainID ch ∈ pl_ChainIDs obs.
Proof.
  intros Hwf (Hdec & Hin & Hid & Ho & _) Hd Hc Hpos Hu Href. injection Hd as <-. cbn [pd_RankedCandidates] in Hc.
  apply (ranked_elem _ _ _ _ _ (sw_reg st Hwf)) in Hc as (rp & Hcons & [_ Hscan] & ->).
  cbn [rk_SolutionProfileRef ranked_candidate] in *.
  destruct (candidate_ref_ok _ _ _ _ (sw_reg st Hwf) Hcons) as (Htrim & Hval & Hall & Hok).
  pose proof (proj1 (Forall_forall _ _) (sw_policies st Hwf) cp Hin) as [Hcp _].
  unfold handlePOSTAcceptedProviderSnapshots. rewrite snapshot_request_decodes; try done; [|by rewrite Hid; eapply explore_id_trimmed|apply Hcp].
  cbn [ar_CryptoPolicyID ar_SolutionProfileRef ar_AcceptedFindings].
  assert (named_policy st (cp_ID cp) = Ok cp) as -> by (by apply named_policy_ok).
  destruct Hscan as (_ & _ & Hch). setoid_rewrite normalizeChainIDs_elem in Hch.
  destruct (Hch Hpos) as (id & Hidin & _ & Hcap).
  destruct (capable_persistable _ _ _ (ok_chain _ Hok) Hcap) as (ch & Hchin & <-).
  assert (exists res, BuildAcceptedProviderSnapshot (mkSnapshotInput (Some cp) (solution_ref rp) [] (Some (providers st))) = Ok res
    /\ br_SolutionProfileRef res = solution_ref rp
    /\ br_AcceptedProviderSnapshot res = build_snapshot (rp_Profile rp)
         (sort_slice (fun a b => (scs_ChainID a <? scs_ChainID b)%Z) (omap persistable_chain (sp_ChainSupport (rp_Profile rp))))
         (NormalizeAcceptedFindings ([] ++ soft_codes (rp_Profile rp)))) as (res & -> & Hr1 & Hr2).
  { eexists (mkSnapshotResult _ _). split; [|split; reflexivity]. apply build_spec. exists rp. cbn zeta. rewrite Htrim.
    pose proof (f_equal spr_ProviderID Htrim) as T1. pose proof (f_equal spr_SolutionProfileID Htrim) as T2.
    pose proof (f_equal spr_ManifestVersion Htrim) as T3. pose proof (f_equal spr_VerificationDate Htrim) as T4.
    cbn [trim_ref spr_ProviderID spr_SolutionProfileID spr_ManifestVersion spr_VerificationDate] in T1, T2, T3, T4.
    rewrite T1, T2, T3, T4. split_and!; try done.
    - destruct Hcons as (a & _ & _ & Hrp). by apply (lookup_self _ _ _ _ (sw_reg st Hwf) Hrp).
    - intros E. rewrite E in Hchin. set_solver. }
  exists (br_AcceptedProviderSnapshot res). split_and!.
  - by rewrite Hr1.
  - by rewrite Hr2.
  - exists ch. rewrite Hr2. cbn [snap_ChainSupportUsed build_snapshot]. by rewrite sort_slice_perm.
Qed.

End CandidateSnapshot.

(** ** Request ids *)

Lemma request_id_rune_ascii ch : request_id_rune ch = true -> (ch < 128)%N.
Proof.
  unfold request_id_rune. rewrite !orb_true_iff, !andb_true_iff, !N.leb_le, !N.eqb_eq. lia.
Qed.

Lemma request_id_char_rune a : request_id_char a = request_id_rune (N_of_ascii a).
Proof. by destruct a as [[] [] [] [] [] [] [] []]. Qed.

(** The check of a request id by the exploration log, rune by rune, and the one
    of the authentication layer, a pattern on bytes, accept the same ids. *)
Theorem sanitize_request_ids_agree raw : sanitizeExploreRequestID raw = sanitizeRequestID raw.
Proof.
  unfold sanitizeExploreRequestID, sanitizeRequestID, requestIDAllowedPattern_MatchString.
  set (v := TrimSpace raw). clearbody v.
  assert (forallb request_id_rune (runes v) = forallb request_id_char (String.list_ascii_of_string v)) as E.
  { assert (forallb request_id_char (String.list_ascii_of_string v) = forallb request_id_rune (bytes_of v)) as ->.
    { unfold bytes_of. induction (String.list_ascii_of_string v) as [|a l IH]; [done|]. simpl.
      by rewrite request_id_char_rune, IH. }
    apply eq_true_iff_eq. rewrite !forallb_forall. split; intros H; [rewrite <- runes_ascii_bytes|rewrite runes_ascii]; try done.
    - apply Forall_forall. intros x Hx. apply request_id_rune_ascii, H. by apply list_elem_of_In.
    - unfold is_ascii. apply Forall_forall. intros a Ha. apply request_id_rune_ascii, H.
      apply list_elem_of_In. unfold bytes_of. by apply list_elem_of_fmap_2. }
  rewrite E. destruct v as [|a v]; [done|]. cbn [is_empty orb].
  change (Nat.leb 1 (len (String a v))) with true. cbn [andb].
  rewrite (Nat.ltb_antisym (len (String a v)) 128).
  by destruct (Nat.leb (len (String a v)) 128), (forallb request_id_char (String.list_ascii_of_string (String a v))).
Qed.

(** ** Instances *)

(** Two candidates rejected for their chains, scopes [{1}] and [{1, 10}], for
    the targets 1, 10, 137, 10 and -5. *)
Definition scope_rejected (candidate instance : string) : RejectedPolicy :=
  let f := blockingFinding rejectionCodeChainScope "out of scope" in
  mkRejected candidate EmptyString instance EmptyString EmptyString EmptyString zero_solution_ref EmptyString EmptyString
    AssessmentStatusIncompatible [f] [f].

Definition sample_scopes : gmap string (list Z) := {["i1" := [1]; "i2" := [1; 10]]}%Z.

Lemma closest_chains_correct_witness :
  closestChainScopeMissingChains [1; 10; 137; 10; -5]%Z [scope_rejected "a" "i1"; scope_rejected "b" "i2"] sample_scopes
  = ([137]%Z, [1; 10]%Z)
  /\ bucketMissingChainCount [1; 10; 137; 10; -5]%Z [scope_rejected "a" "i1"; scope_rejected "b" "i2"] sample_scopes
       rejectionCodeChainScope = "1".
Proof.
  pose proof (closest_chains_correct [1; 10; 137; 10; -5]%Z [scope_rejected "a" "i1"; scope_rejected "b" "i2"]
    sample_scopes ltac:(discriminate) ltac:(vm_compute; discriminate)) as H.
  assert (E : closestChainScopeMissingChains [1; 10; 137; 10; -5]%Z [scope_rejected "a" "i1"; scope_rejected "b" "i2"]
    sample_scopes = ([137]%Z, [1; 10]%Z)) by (vm_compute; reflexivity).
  rewrite E in H. destruct H as (_ & _ & _ & _ & Hb). split; [exact E|exact Hb].
Defined.

Definition explore_request (id : string) (context : any) : Request :=
  mkRequest "POST" "/api/v1/policies/decisions/explore" "cpm" [("X-Request-Id", "r-1")] []
    (Document (AMap [("crypto_policy_id", AString id); ("policy_context", context)])) None.

(** A wallet on chain 1, and one on a chain no provider supports. *)
Definition mainnet_wallet : any := AMap [("wallet_type", AString "EOA"); ("chain_ids", ASlice [ANumber "1"])].
Definition elsewhere_wallet : any := AMap [("wallet_type", AString "EOA"); ("chain_ids", ASlice [ANumber "999"])].

Definition no_observation : observed := mkObserved NewMetrics [].

Lemma explore_route_correct_witness :
  let '(resp, o') := handlePOSTExplore sample_catalogue (explore_request (cp_ID pq_policy) elsewhere_wallet) no_observation in
  rs_Status resp = StatusOK /\ explore_events (ob_Metrics o') = 1%N.
Proof.
  pose proof (explore_route_correct sample_catalogue (explore_request (cp_ID pq_policy) elsewhere_wallet) no_observation
    sample_store_wf) as H.
  destruct (handlePOSTExplore sample_catalogue (explore_request (cp_ID pq_policy) elsewhere_wallet) no_observation)
    as [resp o'] eqn:E.
  destruct H as [H _].
  destruct (H (mkExploreRequest EmptyString (cp_ID pq_policy) (Some (mkContext EmptyString EmptyString EmptyString "EOA"
      [999%Z] EmptyString EmptyString EmptyString EmptyString false))) pq_policy
      (mkPayload [999%Z] "eoa" "secp256k1_ecrecover" false false zero_time "unknown")) as (d & -> & _ & Hd).
  { split; [vm_compute; reflexivity|]. split; [vm_compute; left|]. split; [vm_compute; reflexivity|].
    split; vm_compute; reflexivity. }
  split; [reflexivity|]. apply (f_equal snd) in E. cbn [snd] in E. rewrite <- E. vm_compute. reflexivity.
Defined.

Definition mainnet_request : decisionExploreRequest :=
  mkExploreRequest EmptyString (cp_ID pq_policy) (Some (mkContext EmptyString EmptyString EmptyString "EOA"
    [1%Z] EmptyString EmptyString EmptyString EmptyString false)).

Lemma mainnet_explores :
  explores sample_catalogue (explore_request (cp_ID pq_policy) mainnet_wallet) mainnet_request pq_policy mainnet_eoa.
Proof.
  split; [vm_compute; reflexivity|]. split; [vm_compute; left|]. split; [vm_compute; reflexivity|].
  split; vm_compute; reflexivity.
Qed.

Lemma explore_then_snapshot_witness : exists c snap,
  rs_Status (handlePOSTAcceptedProviderSnapshots sample_catalogue
    (snapshot_request (cp_ID pq_policy) (solution_ref_any (rk_SolutionProfileRef c)) [])) = StatusOK
  /\ snap_ResultingPosture snap = rk_ResultingPosture c.
Proof.
  destruct (EvaluateExploreCoucheA (Some (providers sample_catalogue)) mainnet_eoa (Some pq_policy)) as [d|e] eqn:Hd;
    [|vm_compute in Hd; discriminate Hd].
  pose proof Hd as Hd'. vm_compute in Hd. destruct d as [a b c0 d0 ranked f g]. injection Hd as _ _ _ _ Hr _ _.
  destruct ranked as [|c ranked]; [discriminate Hr|]. injection Hr as Hc _.
  destruct (explore_then_snapshot sample_catalogue (explore_request (cp_ID pq_policy) mainnet_wallet) mainnet_request
    pq_policy mainnet_eoa _ c sample_store_wf mainnet_explores Hd') as (snap & H & Hp & _).
  - left.
  - exists 1%Z. split; [left|lia].
  - vm_compute. reflexivity.
  - rewrite <- Hc. unfold utf8_ref. repeat constructor.
  - exists c, snap. split; [by rewrite H|exact Hp].
Defined.

(** A null context passes for a given one. *)
Example null_context :
  rs_Status (fst (handlePOSTExplore sample_catalogue (explore_request (cp_ID pq_policy) ANil) no_observation)) = StatusOK.
Proof. vm_compute. reflexivity. Qed.
