(* ===== verification/Assessment.v ===== *)
(** * Assessment requests

    [internal/app/assessment_request.go]: a caller names a wallet scan and a
    crypto policy; the service checks that the caller may read the scan, fetches
    the scan from Discovery, and publishes one command on the message bus.  The
    bus is the list of the messages it has accepted. *)

From stdpp Require Import base gmap sets list strings.
From Stdlib Require Import Ascii ZArith NArith.
From S2P Require Import Prelude GoStrings GoUnicode Errors GoTime Manifest Explore Sha256 GoAny PayloadHash PersistGate WalletTarget OwnerStore Http Upstream Auth ExploreContext ReadApi.
Local Open Scope string_scope.
Local Open Scope list_scope.

Definition errCodeDiscoveryUnavailable : string := "discovery_unavailable".

Definition apiErrorWithDetails (code message : string) (details : list (string * any)) : any :=
  AMap [(jsonKeyError, AString code); (jsonKeyMessage, AString message); (jsonKeyDetails, AMap details)].

(** ** Messages *)

(** [Event] and [PolicyAssessmentRequested] of the contract modules, with the
    fields the service sets. *)
Record Event := mkEvent {
  ev_EventID : string;
  ev_EventType : string;
  ev_EventVersion : string;
  ev_OccurredAt : time;
  ev_CorrelationID : string;
  ev_CausationID : string;
  ev_Producer : string;
  ev_SubjectType : string;
  ev_SubjectID : string;
  ev_Payload : Payload
}.

Record PolicyAssessmentRequested := mkCommand {
  cm_EventID : string;
  cm_EventType : string;
  cm_EventVersion : string;
  cm_OccurredAt : time;
  cm_CorrelationID : string;
  cm_CausationID : string;
  cm_Producer : string;
  cm_SubjectType : string;
  cm_SubjectID : string;
  cm_CryptoPolicyID : string;
  cm_Observation : Event;
  cm_ClientRequestID : string
}.

(** The contract modules: their constants, their [Validate] methods ([None] is
    no error) and the JSON of a command. *)
Class AssessmentContract := {
  walletv01_EventTypeWalletObserved : string;
  walletv01_EventVersion : string;
  walletv01_ProducerCafeDiscovery : string;
  walletv01_SubjectTypeWallet : string;
  cafenatsv01_EventTypePolicyAssessmentRequested : string;
  cafenatsv01_EventVersionV01 : string;
  cafenatsv01_ProducerCafeCryptoBackend : string;
  cafenatsv01_SubjectTypeWallet : string;
  cafenatsv01_NATSSubjectPolicyAssessmentRequestedV01 : string;
  Event_Validate : Event -> option string;
  Command_Validate : PolicyAssessmentRequested -> option string;
  Marshal_command : PolicyAssessmentRequested -> res string string
}.

(** The texts of transport errors. *)
Class TransportErrors := { call_error : string; read_error : string }.

(** What the handler draws from its surroundings: the clock, two reads of
    random bytes, and the publisher if one is configured, which answers an
    error text or accepts the message. *)
Record surroundings := mkSurroundings {
  sr_now : time;
  sr_rand_observation : option (list N);
  sr_rand_command : option (list N);
  sr_AssessmentNATSPublish : option (string -> string -> option string)
}.

(** The messages the bus has accepted: subject and payload. *)
Definition bus : Type := list (string * string).

(** ** Requests *)

Record parsedAssessmentRequest := mkParsed {
  pa_normScanID : string;
  pa_cryptoPolicyID : string;
  pa_clientRequestID : string
}.

Record walletScanAssessmentSource := mkSource {
  so_payload : Payload;
  so_walletSubjectID : string
}.

Definition assessmentHTTPForbiddenKeys : list string :=
  ["selection_request"; "allow_new_wallet"; "address_continuity_required"; "key_rotation_model";
   "target_posture"; "target_chain_ids"; "require_multichain"; "recovery_required"; "minimum_maturity";
   "allow_research"; "allowed_provider_modes"; "preferred_families"; "preferred_providers";
   "require_bundler_available"; "require_paymaster_available"; "approval_mode"].

Definition assessment_known_keys : list string := ["scan_id"; "crypto_policy_id"; "client_request_id"].

(** A 400 with an error code and a message. *)
Definition bad_request (code message : string) : Response := writeJSON StatusBadRequest (apiErrorJSON code message).

Definition unavailable (code message : string) : Response := writeJSON StatusServiceUnavailable (apiErrorJSON code message).

Definition newAssessmentEventID (rand : option (list N)) : option string :=
  (fun b => "evt_pol_req_" +:+ EncodeToString b) <$> rand.

Section Assessment.
Context `{U : Unicode, F : GoFloat, GR : GoRange, JE : JsonErrors, D : Discovery, C : WalletContract,
          AC : AssessmentContract, TE : TransportErrors}.

Definition assessmentRequestPreconditions (cfg : authConfig) (env : surroundings) : res Response (string -> string -> option string) :=
  match sr_AssessmentNATSPublish env with
  | None => Err (unavailable "assessment_transport_unavailable" "policy assessment request publishing is not configured")
  | Some publish =>
      fail_if is_empty (TrimSpace (ac_DiscoveryHTTPBaseURL cfg))
        with unavailable "discovery_upstream_unavailable" "Discovery HTTP base URL is not configured" ;;
      Ok publish
  end.

Definition parseAssessmentRequestBody (b : body) : res Response parsedAssessmentRequest :=
  match Unmarshal_members b with
  | Err e => Err (bad_request "invalid_json" (e_text e))
  | Ok raw =>
      fail_if bool_decide (is_Some (doc_get raw "policy_context"))
        with bad_request "policy_context_forbidden"
               "policy_context must not be present on this route; use Discovery wallet scan detail only" ;;
      match first_key (one_of assessmentHTTPForbiddenKeys) raw with
      | Some k => Err (bad_request "legacy_field_rejected" ("legacy field rejected: " +:+ k))
      | None =>
          match first_key (fun k => negb (one_of assessment_known_keys k)) raw with
          | Some k => Err (bad_request "unknown_field" ("unknown field " +:+ k))
          | None =>
              match doc_get raw "scan_id" with
              | None => Err (bad_request "scan_id_required" "scan_id is required")
              | Some scanRaw =>
                  match Unmarshal_string scanRaw with
                  | Err e => Err (bad_request "scan_id_invalid" (e_text e))
                  | Ok scanID =>
                      match NormalizeDiscoveryScanID scanID with
                      | Err e => Err (bad_request "scan_id_invalid" (e_text e))
                      | Ok normScanID =>
                          match doc_get raw "crypto_policy_id" with
                          | None => Err (bad_request "crypto_policy_id_required" "crypto_policy_id is required")
                          | Some cpRaw =>
                              match Unmarshal_string cpRaw with
                              | Err e => Err (bad_request "crypto_policy_id_invalid" (e_text e))
                              | Ok id0 =>
                                  let cryptoPolicyID := TrimSpace id0 in
                                  fail_if is_empty cryptoPolicyID
                                    with bad_request "crypto_policy_id_required" "crypto_policy_id is required" ;;
                                  Ok (mkParsed normScanID cryptoPolicyID
                                        (match doc_get raw "client_request_id" with
                                         | Some v => Unmarshal_string_quietly v
                                         | None => EmptyString
                                         end))
                              end
                          end
                      end
                  end
              end
          end
      end
  end.

(** [Err] is the text of an error. *)
Definition fetchDiscoveryWalletScanDetail (cfg : authConfig) (authorization requestID scanID : string)
    : res string (body * Z) :=
  match wallet_scan_detail cfg authorization requestID scanID with
  | CallFailed => Err call_error
  | Answer status Unreadable => Err read_error
  | Answer status b => Ok (b, status)
  end.

Definition scan_not_found : Response := writeJSON StatusNotFound (apiErrorJSON errCodeNotFound errMsgScanNotFound).

(** [None]: the status is 200. *)
Definition writeDiscoveryScanDetailStatusOK (st : Z) : option Response :=
  if (st =? StatusNotFound)%Z then Some scan_not_found
  else if (st =? StatusUnauthorized)%Z || (st =? StatusForbidden)%Z
  then Some (unavailable errCodeDiscoveryUnavailable "Discovery rejected the session for scan detail")
  else if (st =? StatusOK)%Z then None
  else if (500 <=? st)%Z
  then Some (unavailable errCodeDiscoveryUnavailable ("Discovery returned " +:+ FormatInt st))
  else Some (unavailable errCodeDiscoveryUnavailable ("unexpected Discovery status " +:+ FormatInt st)).

Definition target_error (detail : body) (e : option sentinel) : string :=
  match e with
  | Some s => e_text (err_of s)
  | None => json_error "struct" detail
  end.

Definition parseWalletScanAssessmentSource (detail : body) : res Response walletScanAssessmentSource :=
  match ObservationPayloadFromDiscoveryWalletScanDetail detail with
  | Err e =>
      if errors_Is e ErrWalletScanDetailTLS || errors_Is e ErrWalletScanDetailNoResult then Err scan_not_found
      else Err (bad_request "wallet_scan_detail_invalid" (e_text e))
  | Ok pl =>
      match targetAddressFromWalletScanDetailJSON detail with
      | Err e => Err (bad_request "wallet_scan_detail_invalid" (target_error detail e))
      | Ok walletAddr =>
          match WalletSubjectIDFromAddress walletAddr with
          | Err e => Err (bad_request "wallet_scan_detail_invalid" (e_text e))
          | Ok subjectID => Ok (mkSource pl (NormalizeWalletSubjectID subjectID))
          end
      end
  end.

Definition fetchWalletScanAssessmentSource (cfg : authConfig) (authorization requestID normScanID : string)
    : res Response walletScanAssessmentSource :=
  match fetchDiscoveryWalletScanDetail cfg authorization requestID normScanID with
  | Err text => Err (unavailable errCodeDiscoveryUnavailable text)
  | Ok (detailJSON, st) =>
      match writeDiscoveryScanDetailStatusOK st with
      | Some resp => Err resp
      | None => parseWalletScanAssessmentSource detailJSON
      end
  end.

Definition no_event_id : Response :=
  writeJSON StatusInternalServerError (apiErrorJSON errCodeInternalError "could not allocate event id").

Definition causation : string := "cpm_post_policies_assessment_request".

Definition buildWalletObservedEvent (normScanID : string) (source : walletScanAssessmentSource) (env : surroundings)
    : res Response Event :=
  match newAssessmentEventID (sr_rand_observation env) with
  | None => Err no_event_id
  | Some obsEventID =>
      let observation := mkEvent (obsEventID +:+ "_obs") walletv01_EventTypeWalletObserved walletv01_EventVersion
        (sr_now env) normScanID causation walletv01_ProducerCafeDiscovery walletv01_SubjectTypeWallet
        (so_walletSubjectID source) (so_payload source) in
      match Event_Validate observation with
      | Some text => Err (bad_request "observation_invalid" text)
      | None => Ok observation
      end
  end.

Definition buildPolicyAssessmentCommand (parsed : parsedAssessmentRequest) (source : walletScanAssessmentSource)
    (observation : Event) (env : surroundings) : res Response PolicyAssessmentRequested :=
  match newAssessmentEventID (sr_rand_command env) with
  | None => Err no_event_id
  | Some cmdEventID =>
      let cmd := mkCommand cmdEventID cafenatsv01_EventTypePolicyAssessmentRequested cafenatsv01_EventVersionV01
        (sr_now env) (pa_normScanID parsed) causation cafenatsv01_ProducerCafeCryptoBackend
        cafenatsv01_SubjectTypeWallet (so_walletSubjectID source) (pa_cryptoPolicyID parsed) observation
        (TrimSpace (pa_clientRequestID parsed)) in
      match Command_Validate cmd with
      | Some text => Err (bad_request "assessment_command_invalid" text)
      | None => Ok cmd
      end
  end.

Definition publishPolicyAssessmentRequest (publish : string -> string -> option string) (parsed : parsedAssessmentRequest)
    (source : walletScanAssessmentSource) (env : surroundings) (sent : bus) : Response * bus :=
  match (observation ← buildWalletObservedEvent (pa_normScanID parsed) source env;
         buildPolicyAssessmentCommand parsed source observation env) with
  | Err resp => (resp, sent)
  | Ok cmd =>
      match Marshal_command cmd with
      | Err text => (writeJSON StatusInternalServerError (apiErrorJSON errCodeInternalError text), sent)
      | Ok payload =>
          match publish cafenatsv01_NATSSubjectPolicyAssessmentRequestedV01 payload with
          | Some text => (unavailable "publish_failed" text, sent)
          | None =>
              (writeJSON StatusAccepted (AMap [("event_id", AString (cm_EventID cmd));
                 ("correlation_id", AString (cm_CorrelationID cmd));
                 ("client_request_id", AString (TrimSpace (pa_clientRequestID parsed)))]),
               sent ++ [(cafenatsv01_NATSSubjectPolicyAssessmentRequestedV01, payload)])
          end
      end
  end.

Definition handlePoliciesAssessmentRequest (generated : string) (cfg : authConfig) (env : surroundings) (r : Request)
    (sent : bus) : Response * bus :=
  let requestID := ensureRequestID generated r in
  match rq_Principal r with
  | None => (writeAuthError requestID StatusUnauthorized authCodePrincipalRequired errMsgAuthenticationRequired
               (reasonDetails authReasonPrincipalMissing), sent)
  | Some principal =>
      match assessmentRequestPreconditions cfg env with
      | Err resp => (resp, sent)
      | Ok publish =>
          match rq_Body r with
          | Unreadable => (bad_request "invalid_request" "could not read body", sent)
          | b =>
              match parseAssessmentRequestBody b with
              | Err resp => (resp, sent)
              | Ok parsed =>
                  match authorizeScanReadForAssessment principal (pa_normScanID parsed) cfg requestID with
                  | Err e => (writeJSON (ae_Status e) (apiErrorWithDetails (ae_Code e) (ae_Message e) (ae_Details e)), sent)
                  | Ok _ =>
                      match fetchWalletScanAssessmentSource cfg (Header_Get r "Authorization") requestID
                              (pa_normScanID parsed) with
                      | Err resp => (resp, sent)
                      | Ok source => publishPolicyAssessmentRequest publish parsed source env sent
                      end
                  end
              end
          end
      end
  end.

End Assessment.

(** ** What is published, and when *)

Section AssessmentSpec.
Context `{U : Unicode, F : GoFloat, GR : GoRange, JE : JsonErrors, D : Discovery, C : WalletContract,
          AC : AssessmentContract, TE : TransportErrors}.

(** The members are the three known ones, and name a scan and a policy. *)
Definition members_ask (raw : list (string * any)) (p : parsedAssessmentRequest) : Prop :=
  Forall (fun kv => fst kv ∈ assessment_known_keys) raw
    /\ (exists v s, doc_get raw "scan_id" = Some v /\ dec_string v EmptyString = Some s
          /\ NormalizeDiscoveryScanID s = Ok (pa_normScanID p))
    /\ (exists v s, doc_get raw "crypto_policy_id" = Some v /\ dec_string v EmptyString = Some s
          /\ TrimSpace s <> EmptyString /\ pa_cryptoPolicyID p = TrimSpace s)
    /\ pa_clientRequestID p = default EmptyString (Unmarshal_string_quietly <$> doc_get raw "client_request_id").

Definition asks (b : body) (p : parsedAssessmentRequest) : Prop :=
  exists raw, Unmarshal_members b = Ok raw /\ members_ask raw p.

Lemma Unmarshal_string_ok v s : Unmarshal_string v = Ok s <-> dec_string v EmptyString = Some s.
Proof. unfold Unmarshal_string. destruct (dec_string v EmptyString); naive_solver. Qed.

Lemma known_keys_pass raw : Forall (fun kv => fst kv ∈ assessment_known_keys) raw <->
  first_key (fun k => negb (one_of assessment_known_keys k)) raw = None.
Proof.
  rewrite first_key_None, !Forall_forall. setoid_rewrite negb_false_iff. unfold one_of.
  split; intros H kv Hkv; apply oneOf_spec; by apply H.
Qed.

Lemma known_not_legacy raw : Forall (fun kv => fst kv ∈ assessment_known_keys) raw ->
  first_key (one_of assessmentHTTPForbiddenKeys) raw = None.
Proof.
  intros H. apply first_key_None. eapply Forall_impl; [exact H|]. intros [k v]. simpl. unfold assessment_known_keys.
  rewrite !elem_of_cons, elem_of_nil. by intros [->|[->|[->|[]]]].
Qed.

Lemma known_no_context raw : Forall (fun kv => fst kv ∈ assessment_known_keys) raw ->
  doc_get raw "policy_context" = None.
Proof.
  intros H. unfold doc_get. apply Forall_rev in H. induction H as [|[k v] l Hk _ IH]; [done|].
  simpl. destruct (String.eqb_spec k "policy_context") as [->|]; [|done].
  by apply (bool_decide_pack _) in Hk.
Qed.

Local Ltac refuse :=
  split; [done|]; intros (_ & (? & ? & ? & ? & ?) & (? & ? & ? & ? & ? & ?) & _); simplify_eq; congruence.

Lemma parse_ok b p : parseAssessmentRequestBody b = Ok p <-> asks b p.
Proof.
  unfold parseAssessmentRequestBody, asks.
  destruct (Unmarshal_members b) as [raw|e]; [|naive_solver].
  transitivity (members_ask raw p); [|naive_solver]. unfold members_ask.
  destruct (decide (Forall (fun kv => fst kv ∈ assessment_known_keys) raw)) as [Hk|Hk].
  - rewrite (known_no_context raw Hk), (known_not_legacy raw Hk). apply known_keys_pass in Hk as Hn. rewrite Hn.
    rewrite bool_decide_eq_false_2 by (by intros [? ?]). cbn [guard_err].
    destruct (doc_get raw "scan_id") as [v1|]; [|refuse]. unfold Unmarshal_string.
    destruct (dec_string v1 EmptyString) as [s1|] eqn:E1; [|refuse].
    destruct (NormalizeDiscoveryScanID s1) as [n|] eqn:En; [|refuse].
    destruct (doc_get raw "crypto_policy_id") as [v2|]; [|refuse].
    destruct (dec_string v2 EmptyString) as [s2|] eqn:E2; [|refuse].
    rewrite fail_if_ok, is_empty_false. split.
    + intros [Hne [= <-]]. split_and!; try done; [by exists v1, s1|by exists v2, s2|].
      by destruct (doc_get raw "client_request_id").
    + intros (_ & (? & ? & [= <-] & Hs1 & Hn1) & (? & ? & [= <-] & Hs2 & Hne & Hp) & Hc).
      rewrite E1 in Hs1. injection Hs1 as <-. rewrite E2 in Hs2. injection Hs2 as <-. rewrite En in Hn1.
      split; [done|]. destruct p as [a b' c]. simpl in *. injection Hn1 as ->. subst.
      by destruct (doc_get raw "client_request_id").
  - split; [|naive_solver]. intros H. exfalso. apply Hk, known_keys_pass.
    destruct (first_key (fun k => negb (one_of assessment_known_keys k)) raw); [|done].
    apply fail_if_ok in H as [_ H]. by destruct (first_key (one_of assessmentHTTPForbiddenKeys) raw).
Qed.

(** Discovery holds the scan, finished, of the wallet at an address. *)
Definition scan_source (cfg : authConfig) (authorization requestID scanID : string) (obs : Payload) (addr : string) : Prop :=
  exists b target, b <> Unreadable
    /\ wallet_scan_detail cfg authorization requestID scanID = Answer StatusOK b
    /\ ObservationPayloadFromDiscoveryWalletScanDetail b = Ok obs
    /\ targetAddressFromWalletScanDetailJSON b = Ok target
    /\ NormalizeWalletTargetAddress target = Ok addr.

Lemma fetch_source_ok cfg authorization requestID scanID source :
  fetchWalletScanAssessmentSource cfg authorization requestID scanID = Ok source <->
  exists addr, scan_source cfg authorization requestID scanID (so_payload source) addr
    /\ so_walletSubjectID source = WalletSubjectPrefix +:+ addr.
Proof.
  unfold fetchWalletScanAssessmentSource, fetchDiscoveryWalletScanDetail, scan_source.
  destruct (wallet_scan_detail _ _ _ _) as [|st b] eqn:Ed; [split; [done|intros (? & (? & ? & _ & ? & _) & _); done]|].
  assert (forall resp : Response, b = Unreadable -> Err resp = Ok source <-> exists addr,
    (exists b' target, b' <> Unreadable /\ Answer st b = Answer StatusOK b'
     /\ ObservationPayloadFromDiscoveryWalletScanDetail b' = Ok (so_payload source)
     /\ targetAddressFromWalletScanDetailJSON b' = Ok target /\ NormalizeWalletTargetAddress target = Ok addr)
    /\ so_walletSubjectID source = WalletSubjectPrefix +:+ addr) as Hun.
  { intros resp ->. split; [done|]. intros (? & (? & ? & Hn & [= _ <-] & _) & _). done. }
  assert (b <> Unreadable -> (match writeDiscoveryScanDetailStatusOK st with
      | Some resp => Err resp | None => parseWalletScanAssessmentSource b end) = Ok source <-> exists addr,
    (exists b' target, b' <> Unreadable /\ Answer st b = Answer StatusOK b'
     /\ ObservationPayloadFromDiscoveryWalletScanDetail b' = Ok (so_payload source)
     /\ targetAddressFromWalletScanDetailJSON b' = Ok target /\ NormalizeWalletTargetAddress target = Ok addr)
    /\ so_walletSubjectID source = WalletSubjectPrefix +:+ addr) as Hrd.
  { intros Hb. unfold writeDiscoveryScanDetailStatusOK.
    destruct (Z.eqb_spec st StatusOK) as [->|Hst].
    - cbn. unfold parseWalletScanAssessmentSource, WalletSubjectIDFromAddress.
      destruct (ObservationPayloadFromDiscoveryWalletScanDetail b) as [pl|e] eqn:Eo.
      2:{ split; [by destruct (_ || _)|]. intros (? & (? & ? & _ & [= <-] & ? & _) & _). congruence. }
      destruct (targetAddressFromWalletScanDetailJSON b) as [target|e] eqn:Et.
      2:{ split; [done|]. intros (? & (? & ? & _ & [= <-] & _ & ? & _) & _). congruence. }
      destruct (NormalizeWalletTargetAddress target) as [addr|e] eqn:En; cbn.
      2:{ split; [done|]. intros (? & (? & ? & _ & [= <-] & _ & ? & ?) & _). congruence. }
      rewrite subject_normal by (by eapply normalize_canonical). split.
      + intros [= <-]. exists addr. split; [|done]. by exists b, target.
      + intros (addr' & (? & target' & _ & [= <-] & H1 & H2 & H3) & H4). destruct source as [pl' sid]. simpl in *.
        rewrite Et in H2. injection H2 as <-. congruence.
    - split; [by repeat case_match|]. intros (? & (? & ? & _ & [= -> _] & _) & _). done. }
  destruct b; try (apply Hrd; done). by apply Hun.
Qed.

(** The command that the service must publish for a request, and the message. *)
Record commanded (cfg : authConfig) (env : surroundings) (generated : string) (r : Request)
    (parsed : parsedAssessmentRequest) (cmd : PolicyAssessmentRequested) (payload : string) : Prop := {
  cd_caller : exists p, rq_Principal r = Some p
    /\ scan_allowed cfg p (ensureRequestID generated r) (pa_normScanID parsed);
  cd_base : TrimSpace (ac_DiscoveryHTTPBaseURL cfg) <> EmptyString;
  cd_asks : rq_Body r <> Unreadable /\ asks (rq_Body r) parsed;
  cd_source : exists obs addr o c,
    scan_source cfg (Header_Get r "Authorization") (ensureRequestID generated r) (pa_normScanID parsed) obs addr
    /\ newAssessmentEventID (sr_rand_observation env) = Some o /\ newAssessmentEventID (sr_rand_command env) = Some c
    /\ let ev := mkEvent (o +:+ "_obs") walletv01_EventTypeWalletObserved walletv01_EventVersion (sr_now env)
          (pa_normScanID parsed) causation walletv01_ProducerCafeDiscovery walletv01_SubjectTypeWallet
          (WalletSubjectPrefix +:+ addr) obs in
       cmd = mkCommand c cafenatsv01_EventTypePolicyAssessmentRequested cafenatsv01_EventVersionV01 (sr_now env)
          (pa_normScanID parsed) causation cafenatsv01_ProducerCafeCryptoBackend cafenatsv01_SubjectTypeWallet
          (WalletSubjectPrefix +:+ addr) (pa_cryptoPolicyID parsed) ev (TrimSpace (pa_clientRequestID parsed))
       /\ Event_Validate ev = None /\ Command_Validate cmd = None;
  cd_payload : Marshal_command cmd = Ok payload;
  cd_publish : exists publish, sr_AssessmentNATSPublish env = Some publish
    /\ publish cafenatsv01_NATSSubjectPolicyAssessmentRequestedV01 payload = None
}.

Lemma publish_outcome publish parsed source env sent resp sent' :
  publishPolicyAssessmentRequest publish parsed source env sent = (resp, sent') ->
  (rs_Status resp <> StatusAccepted /\ sent' = sent) \/ exists o c cmd payload,
    newAssessmentEventID (sr_rand_observation env) = Some o /\ newAssessmentEventID (sr_rand_command env) = Some c
    /\ let ev := mkEvent (o +:+ "_obs") walletv01_EventTypeWalletObserved walletv01_EventVersion (sr_now env)
          (pa_normScanID parsed) causation walletv01_ProducerCafeDiscovery walletv01_SubjectTypeWallet
          (so_walletSubjectID source) (so_payload source) in
       cmd = mkCommand c cafenatsv01_EventTypePolicyAssessmentRequested cafenatsv01_EventVersionV01 (sr_now env)
          (pa_normScanID parsed) causation cafenatsv01_ProducerCafeCryptoBackend cafenatsv01_SubjectTypeWallet
          (so_walletSubjectID source) (pa_cryptoPolicyID parsed) ev (TrimSpace (pa_clientRequestID parsed))
       /\ Event_Validate ev = None /\ Command_Validate cmd = None /\ Marshal_command cmd = Ok payload
       /\ publish cafenatsv01_NATSSubjectPolicyAssessmentRequestedV01 payload = None
       /\ rs_Status resp = StatusAccepted
       /\ sent' = sent ++ [(cafenatsv01_NATSSubjectPolicyAssessmentRequestedV01, payload)].
Proof.
  unfold publishPolicyAssessmentRequest, buildWalletObservedEvent, buildPolicyAssessmentCommand.
  destruct (newAssessmentEventID (sr_rand_observation env)) as [o|]; [|intros [= <- <-]; by left]. cbn zeta.
  destruct (Event_Validate _) eqn:Ev; cbn; [intros [= <- <-]; by left|].
  destruct (newAssessmentEventID (sr_rand_command env)) as [c|]; cbn; [|intros [= <- <-]; by left].
  destruct (Command_Validate _) eqn:Ec; cbn; [intros [= <- <-]; by left|].
  destruct (Marshal_command _) as [payload|] eqn:Em; [|intros [= <- <-]; by left].
  destruct (publish _ payload) eqn:Ep; [intros [= <- <-]; by left|].
  intros [= <- <-]. right. exists o, c. eexists _, payload. split_and!; try done.
Qed.

(** Refusals are never 202. *)
Lemma refusal_status p scanID cfg requestID e :
  authorizeScanReadForAssessment p scanID cfg requestID = Err e -> ae_Status e <> StatusAccepted.
Proof.
  unfold authorizeScanReadForAssessment, scan_access, guard_err. repeat case_match; intros E; simplify_eq; done.
Qed.

Lemma parse_status b resp : parseAssessmentRequestBody b = Err resp -> rs_Status resp = StatusBadRequest.
Proof. unfold parseAssessmentRequestBody, guard_err. repeat case_match; intros E; simplify_eq; done. Qed.

Lemma source_status cfg authorization requestID scanID resp :
  fetchWalletScanAssessmentSource cfg authorization requestID scanID = Err resp -> rs_Status resp <> StatusAccepted.
Proof.
  unfold fetchWalletScanAssessmentSource, writeDiscoveryScanDetailStatusOK, parseWalletScanAssessmentSource.
  repeat case_match; intros E; simplify_eq; done.
Qed.

Lemma handle_authorised generated cfg env r sent p publish parsed source :
  rq_Principal r = Some p -> sr_AssessmentNATSPublish env = Some publish ->
  TrimSpace (ac_DiscoveryHTTPBaseURL cfg) <> EmptyString -> rq_Body r <> Unreadable -> asks (rq_Body r) parsed ->
  scan_allowed cfg p (ensureRequestID generated r) (pa_normScanID parsed) ->
  fetchWalletScanAssessmentSource cfg (Header_Get r "Authorization") (ensureRequestID generated r) (pa_normScanID parsed) = Ok source ->
  handlePoliciesAssessmentRequest generated cfg env r sent = publishPolicyAssessmentRequest publish parsed source env sent.
Proof.
  intros Hp Hpub Hbase%is_empty_false Hb Hask Hs Hf. unfold handlePoliciesAssessmentRequest, assessmentRequestPreconditions.
  rewrite Hp, Hpub, Hbase. cbn [guard_err]. apply parse_ok in Hask.
  assert (authorizeScanReadForAssessment p (pa_normScanID parsed) cfg (ensureRequestID generated r) = Ok tt) as Ha
    by (by apply scan_access_ok).
  destruct (rq_Body r); try done; by rewrite Hask, Ha, Hf.
Qed.

Lemma commanded_published generated cfg env r sent parsed cmd payload :
  commanded cfg env generated r parsed cmd payload ->
  exists resp, handlePoliciesAssessmentRequest generated cfg env r sent
    = (resp, sent ++ [(cafenatsv01_NATSSubjectPolicyAssessmentRequestedV01, payload)])
    /\ rs_Status resp = StatusAccepted.
Proof.
  intros [(p & Hp & Hs) Hbase [Hb Hask] (obs & addr & o & c & Hsrc & Ho & Hc & Hcmd & Hev & Hcv) Hm (publish & Hpub & Hacc)].
  assert (fetchWalletScanAssessmentSource cfg (Header_Get r "Authorization") (ensureRequestID generated r)
    (pa_normScanID parsed) = Ok (mkSource obs (WalletSubjectPrefix +:+ addr))) as Hf by (apply fetch_source_ok; by exists addr).
  rewrite (handle_authorised generated cfg env r sent p publish parsed _ Hp Hpub Hbase Hb Hask Hs Hf).
  unfold publishPolicyAssessmentRequest, buildWalletObservedEvent, buildPolicyAssessmentCommand.
  rewrite Ho. cbn [so_walletSubjectID so_payload]. cbv zeta. rewrite Hev. cbn [mbind res_bind]. rewrite Hc. cbv zeta.
  rewrite <- Hcmd, Hcv, Hm, Hacc. by eexists.
Qed.

Lemma handle_outcome generated cfg env r sent resp sent' :
  handlePoliciesAssessmentRequest generated cfg env r sent = (resp, sent') ->
  (rs_Status resp <> StatusAccepted /\ sent' = sent) \/ exists parsed cmd payload, commanded cfg env generated r parsed cmd payload.
Proof.
  intros E. unfold handlePoliciesAssessmentRequest, assessmentRequestPreconditions in E.
  destruct (rq_Principal r) as [p|] eqn:Hp; [|injection E as <- <-; by left].
  destruct (sr_AssessmentNATSPublish env) as [publish|] eqn:Hpub; [|injection E as <- <-; by left].
  destruct (is_empty (TrimSpace (ac_DiscoveryHTTPBaseURL cfg))) eqn:Hbase; cbn [guard_err] in E;
    [injection E as <- <-; by left|]. apply is_empty_false in Hbase.
  assert (rq_Body r = Unreadable \/ rq_Body r <> Unreadable) as [Hb|Hb] by (destruct (rq_Body r); auto);
    [rewrite Hb in E; injection E as <- <-; by left|].
  assert (E' : match parseAssessmentRequestBody (rq_Body r) with
    | Err resp => (resp, sent)
    | Ok parsed => match authorizeScanReadForAssessment p (pa_normScanID parsed) cfg (ensureRequestID generated r) with
        | Err e => (writeJSON (ae_Status e) (apiErrorWithDetails (ae_Code e) (ae_Message e) (ae_Details e)), sent)
        | Ok _ => match fetchWalletScanAssessmentSource cfg (Header_Get r "Authorization") (ensureRequestID generated r)
                          (pa_normScanID parsed) with
            | Err resp => (resp, sent)
            | Ok source => publishPolicyAssessmentRequest publish parsed source env sent end end end = (resp, sent'))
    by (by destruct (rq_Body r)). clear E.
  destruct (parseAssessmentRequestBody (rq_Body r)) as [parsed|e] eqn:Hparse.
  2:{ injection E' as <- <-. left. by rewrite (parse_status _ _ Hparse). }
  destruct (authorizeScanReadForAssessment _ _ _ _) as [[]|e] eqn:Ha.
  2:{ injection E' as <- <-. left. split; [by eapply refusal_status|done]. }
  destruct (fetchWalletScanAssessmentSource _ _ _ _) as [source|e] eqn:Hf.
  2:{ injection E' as <- <-. left. split; [by eapply source_status|done]. }
  apply publish_outcome in E' as [?|(o & c & cmd & payload & Ho & Hc & Hcmd & Hev & Hcv & Hm & Hacc & _)]; [by left|].
  apply fetch_source_ok in Hf as (addr & Hsrc & Hsid). rewrite Hsid in *. right. exists parsed, cmd, payload.
  apply parse_ok in Hparse. apply scan_access_ok in Ha. split; eauto 10.
Qed.

(** C19: An assessment request is answered 202 exactly when a command is published:
    the caller has a session and may read the scan it names, the body holds
    only the known members, Discovery holds the scan with its result, and the
    contract accepts the observation and the command, whose subject is the
    canonical address of the scanned wallet and whose correlation id is the
    normal form of the scan id.  Exactly that one message is then added to the
    bus; in every other case the bus is left alone. *)
Theorem assessment_correct generated cfg env r sent :
  let '(resp, sent') := handlePoliciesAssessmentRequest generated cfg env r sent in
  (rs_Status resp = StatusAccepted <-> exists parsed cmd payload, commanded cfg env generated r parsed cmd payload)
  /\ (forall parsed cmd payload, commanded cfg env generated r parsed cmd payload ->
        sent' = sent ++ [(cafenatsv01_NATSSubjectPolicyAssessmentRequestedV01, payload)])
  /\ (rs_Status resp <> StatusAccepted -> sent' = sent).
Proof.
  destruct (handlePoliciesAssessmentRequest generated cfg env r sent) as [resp sent'] eqn:E.
  assert (forall parsed cmd payload, commanded cfg env generated r parsed cmd payload ->
    rs_Status resp = StatusAccepted /\ sent' = sent ++ [(cafenatsv01_NATSSubjectPolicyAssessmentRequestedV01, payload)]) as Hc.
  { intros parsed cmd payload H. destruct (commanded_published generated cfg env r sent _ _ _ H) as (resp' & E' & Hs).
    rewrite E in E'. by injection E' as <- <-. }
  apply handle_outcome in E. split_and!.
  - split; [|intros (? & ? & ? & H); by apply Hc in H as [? _]]. intros Hs. by destruct E as [[? _]|?].
  - intros parsed cmd payload H. by apply Hc in H as [_ ?].
  - intros Hs. destruct E as [[_ ?]|(? & ? & ? & H)]; [done|]. by apply Hc in H as [? _].
Qed.

End AssessmentSpec.

(** ** An instance of the contract *)

(** The checks of the contract on the fields that identify a message. *)
Definition filled (l : list string) : option string :=
  if existsb is_empty l then Some "a required field is blank" else None.

#[local] Instance sample_assessment_contract : AssessmentContract := {|
  walletv01_EventTypeWalletObserved := "wallet_observed";
  walletv01_EventVersion := "0.1";
  walletv01_ProducerCafeDiscovery := "cafe-discovery";
  walletv01_SubjectTypeWallet := "wallet";
  cafenatsv01_EventTypePolicyAssessmentRequested := "policy.assessment.requested";
  cafenatsv01_EventVersionV01 := "0.1";
  cafenatsv01_ProducerCafeCryptoBackend := "cafe-crypto-backend";
  cafenatsv01_SubjectTypeWallet := "wallet";
  cafenatsv01_NATSSubjectPolicyAssessmentRequestedV01 := "cafe.policy.assessment.requested.v01";
  Event_Validate := fun e => filled [ev_EventID e; ev_CorrelationID e; ev_SubjectID e];
  Command_Validate := fun c => filled [cm_EventID c; cm_CorrelationID c; cm_SubjectID c; cm_CryptoPolicyID c];
  Marshal_command := fun c => Ok (cm_SubjectID c +:+ " " +:+ cm_CryptoPolicyID c)
|}.

#[local] Instance sample_transport : TransportErrors := {| call_error := "connection refused"; read_error := "unexpected EOF" |}.

#[local] Instance scan_discovery : Discovery := {|
  url_accepted := fun _ => true;
  discovery_call := fun rq =>
    Answer StatusOK
      (if HasSuffix (dq_URL rq) "/can-read" then Document (AMap [("allowed", ABool true)]) else Document sample_detail)
|}.

Definition assessment_env : surroundings :=
  mkSurroundings 1776420000000000000%Z (Some [1; 2]%N) (Some [3; 4]%N) (Some (fun _ _ => None)).

Definition assessment_request : Request :=
  mkRequest "POST" "/api/v1/policies/assessment/request" "cpm" [] []
    (Document (AMap [("scan_id", AString "550E8400-e29b-41d4-a716-446655440000"); ("crypto_policy_id", AString "cp ")]))
    (Some (mkPrincipal "user-1" "user-1" EmptyString None)).

#[local] Existing Instance plain_float.

Lemma assessment_correct_witness :
  (exists parsed cmd payload, commanded sample_config assessment_env "req-2" assessment_request parsed cmd payload)
  /\ snd (handlePoliciesAssessmentRequest "req-2" sample_config assessment_env assessment_request [])
     = [("cafe.policy.assessment.requested.v01", "wallet:0x742d35cc6634c0532925a3b844bc454e4438f44e cp")].
Proof.
  pose proof (assessment_correct "req-2" sample_config assessment_env assessment_request []) as H.
  destruct (handlePoliciesAssessmentRequest "req-2" sample_config assessment_env assessment_request []) as [resp sent'] eqn:E.
  vm_compute in E. injection E as <- <-. destruct H as [[H _] _]. split; [by apply H|reflexivity].
Defined.
