(* ===== verification/RemoteStore.v ===== *)
(** * The remote policy store

    [internal/persistence/cphttp]: the [PolicyStore] of deployed services, an
    HTTP client of cafe-persistence.  The remote service is a parameter: how it
    answers a request, and what the request does to its state.  Requests are
    kept as what the client puts on the wire, answers as their status and text. *)

From stdpp Require Import base gmap sets list strings.
From Stdlib Require Import Ascii ZArith NArith.
From S2P Require Import Prelude GoStrings GoUnicode Url Errors GoAny GoFloat GoTime PersistGate WalletTarget OwnerStore Http Json.
Local Open Scope string_scope.
Local Open Scope list_scope.

(** ** Routes *)

Definition CPV1Base : string := "/internal/cp/v1".
Definition PolicyByIDPrefix : string := "/policies/".   (** [PolicyByID] up to its placeholder *)
Definition CPPolicies : string := "/policies".
Definition ReferenceWallet : string := "/references/wallet".

(** ** Requests and the service *)

Record wire_request := mkWire {
  wq_Method : string;
  wq_URL : string;
  wq_Authorization : string;
  wq_UserID : string;
  wq_TenantID : option string;
  wq_Body : option any
}.

(** What comes back: nothing, or a status and a text ([None]: reading it fails). *)
Inductive remote_answer :=
| RemoteFailed
| RemoteAnswer (status : Z) (raw : option string).

(** The remote service: what a request does to its state, and what comes back;
    a call that fails may have been carried out. *)
Class RemoteService (W : Type) := { serve : wire_request -> W -> W * remote_answer }.

(** The texts of errors. *)
Class RemoteText := {
  url_error : string -> option string;      (** of [http.NewRequest]; [None]: the URL parses *)
  time_error : string -> string
}.

(** What [json.Unmarshal] leaves in its destination when a document does not fit
    it. *)
Class FailedDecode := { leftover : forall {A : Type}, any -> A -> A }.

(** ** Texts *)

(** [strings.TrimRight(s, "/")]. *)
Fixpoint trim_right_slashes (s : string) : string :=
  match s with
  | EmptyString => EmptyString
  | String a s' =>
      let t := trim_right_slashes s' in
      if is_empty t && Ascii.eqb a "/" then EmptyString else String a t
  end.

(** [io.ReadAll(io.LimitReader(r, n))]: the first [n] bytes, the rest unread. *)
Fixpoint limit_text (n : N) (s : string) : string :=
  match s with
  | EmptyString => EmptyString
  | String a s' => if (n =? 0)%N then EmptyString else String a (limit_text (N.pred n) s')
  end.

(** [1<<20]. *)
Definition answer_limit : N := 1048576.

(** ** Wire structs *)

Record policyRowWire := mkRow {
  pw_ID : string;
  pw_UserID : string;
  pw_TenantID : string;
  pw_ScanID : string;
  pw_Payload : option (list (string * any));
  pw_PayloadSHA256 : string;
  pw_WalletAddress : string;
  pw_ChainID : Z;
  pw_CreatedAt : string;
  pw_UpdatedAt : string;
  pw_PersistedAt : string
}.

Record createPolicyResponseWire := mkCreated {
  cw_PolicyID : string;
  cw_ScanID : string;
  cw_WalletAddress : string;
  cw_ChainID : Z;
  cw_PayloadSHA256 : string;
  cw_PersistedAt : string
}.

Record walletReferenceWire := mkReference { rw_Exists : bool; rw_PolicyCount : Z }.

Definition zero_row : policyRowWire :=
  mkRow EmptyString EmptyString EmptyString EmptyString None EmptyString EmptyString 0 EmptyString EmptyString EmptyString.

Definition zero_created : createPolicyResponseWire :=
  mkCreated EmptyString EmptyString EmptyString 0 EmptyString EmptyString.

(** ** The client *)

Record Client := mkClient { cl_baseURL : string; cl_token : string }.

Definition NewClient (baseURL token : string) : Client :=
  mkClient (trim_right_slashes (TrimSpace baseURL)) (TrimSpace token).

Definition policyURL (c : Client) (policyID : string) : string :=
  cl_baseURL c +:+ CPV1Base +:+ PolicyByIDPrefix +:+ policyID.

Definition mapHTTPError (status : Z) : goerror :=
  if (status =? StatusNotFound)%Z then err_of ErrPolicyNotFound
  else if (status =? StatusForbidden)%Z then err_of ErrForbidden
  else if (status =? StatusConflict)%Z then err_of ErrPolicyAlreadyExists
  else err_of ErrPersistenceUnavailable.

Definition unavailable_error : goerror := err_of ErrPersistenceUnavailable.

Definition payload_any (payload : option (list (string * any))) : any :=
  match payload with Some m => AMap m | None => ANilMap end.

Section Remote.
Context `{U : Unicode, F : GoFloat, RT : RemoteText, FD : FailedDecode}.

Definition row_fields : list (string * decoder policyRowWire) :=
  [("id", field pw_ID (fun x '(mkRow a b c d e f g h i j k) => mkRow x b c d e f g h i j k) dec_string);
   ("user_id", field pw_UserID (fun x '(mkRow a b c d e f g h i j k) => mkRow a x c d e f g h i j k) dec_string);
   ("tenant_id", field pw_TenantID (fun x '(mkRow a b c d e f g h i j k) => mkRow a b x d e f g h i j k) dec_string);
   ("scan_id", field pw_ScanID (fun x '(mkRow a b c d e f g h i j k) => mkRow a b c x e f g h i j k) dec_string);
   ("payload", field pw_Payload (fun x '(mkRow a b c d e f g h i j k) => mkRow a b c d x f g h i j k) dec_map);
   ("payload_sha256", field pw_PayloadSHA256 (fun x '(mkRow a b c d e f g h i j k) => mkRow a b c d e x g h i j k) dec_string);
   ("wallet_address", field pw_WalletAddress (fun x '(mkRow a b c d e f g h i j k) => mkRow a b c d e f x h i j k) dec_string);
   ("chain_id", field pw_ChainID (fun x '(mkRow a b c d e f g h i j k) => mkRow a b c d e f g x i j k) dec_int64);
   ("created_at", field pw_CreatedAt (fun x '(mkRow a b c d e f g h i j k) => mkRow a b c d e f g h x j k) dec_string);
   ("updated_at", field pw_UpdatedAt (fun x '(mkRow a b c d e f g h i j k) => mkRow a b c d e f g h i x k) dec_string);
   ("persisted_at", field pw_PersistedAt (fun x '(mkRow a b c d e f g h i j k) => mkRow a b c d e f g h i j x) dec_string)].

Definition created_fields : list (string * decoder createPolicyResponseWire) :=
  [("policy_id", field cw_PolicyID (fun x '(mkCreated a b c d e f) => mkCreated x b c d e f) dec_string);
   ("scan_id", field cw_ScanID (fun x '(mkCreated a b c d e f) => mkCreated a x c d e f) dec_string);
   ("wallet_address", field cw_WalletAddress (fun x '(mkCreated a b c d e f) => mkCreated a b x d e f) dec_string);
   ("chain_id", field cw_ChainID (fun x '(mkCreated a b c d e f) => mkCreated a b c x e f) dec_int64);
   ("payload_sha256", field cw_PayloadSHA256 (fun x '(mkCreated a b c d e f) => mkCreated a b c d x f) dec_string);
   ("persisted_at", field cw_PersistedAt (fun x '(mkCreated a b c d e f) => mkCreated a b c d e x) dec_string)].

(** [listPoliciesWire] is its one field. *)
Definition list_fields : list (string * decoder (list policyRowWire)) :=
  [("items", dec_list (dec_document row_fields) zero_row)].

Definition wallet_reference_fields : list (string * decoder walletReferenceWire) :=
  [("exists", field rw_Exists (fun x '(mkReference a b) => mkReference x b) dec_bool);
   ("policy_count", field rw_PolicyCount (fun x '(mkReference a b) => mkReference a x) dec_int64)].

(** Both layouts read the same texts. *)
Definition parseTime (value0 : string) : gores time :=
  let value := TrimSpace value0 in
  if is_empty value then Ok zero_time
  else match ParseRFC3339 value with
       | Some t => Ok t
       | None =>
           match ParseRFC3339 value with
           | Some t => Ok t
           | None => Err (errors_New (time_error value))
           end
       end.

Definition toRecord (w : policyRowWire) : gores PolicyRecord :=
  createdAt ← parseTime (pw_CreatedAt w);
  updatedAt ← parseTime (pw_UpdatedAt w);
  Ok (mkPolicyRecord (TrimSpace (pw_ID w)) (TrimSpace (pw_UserID w)) (TrimSpace (pw_TenantID w)) (TrimSpace (pw_ScanID w))
        (Some (default [] (pw_Payload w))) (TrimSpace (pw_PayloadSHA256 w)) (TrimSpace (pw_WalletAddress w))
        (pw_ChainID w) createdAt updatedAt).

Fixpoint to_records (items : list policyRowWire) : gores (list PolicyRecord) :=
  match items with
  | [] => Ok []
  | item :: items' =>
      rec ← toRecord item;
      out ← to_records items';
      Ok (rec :: out)
  end.

Definition wire (c : Client) (method url : string) (p : Principal) (b : option any) : wire_request :=
  mkWire method url ("Bearer " +:+ cl_token c) (pr_UserID p)
    (let tenant := TrimSpace (pr_TenantID p) in if is_empty tenant then None else Some tenant) b.

Context {W : Type} `{RS : RemoteService W}.

(** [json.Unmarshal(raw, dst)]: a text that is not one JSON value leaves [dst]
    alone. *)
Definition unmarshal_into {A} (fields : list (string * decoder A)) (raw : string) (dst : A) : A * bool :=
  match body_of_text raw with
  | Document v =>
      match dec_document fields v dst with
      | Some dst' => (dst', true)
      | None => (leftover v dst, false)
      end
  | _ => (dst, false)
  end.

(** One attempt: the state of the service, the destination and the error.  A
    destination without fields is a nil [dst]. *)
Definition doJSONOnce {A} (c : Client) (method url : string) (p : Principal) (b : option any)
    (fields : option (list (string * decoder A))) (dst : A) (w : W) : W * A * gores unit :=
  match url_error url with
  | Some text => (w, dst, Err (errors_New text))
  | None =>
      let '(w', answer) := serve (wire c method url p b) w in
      match answer with
      | RemoteFailed | RemoteAnswer _ None => (w', dst, Err unavailable_error)
      | RemoteAnswer status (Some text) =>
          let raw := limit_text answer_limit text in
          if (status =? StatusNoContent)%Z then (w', dst, Ok tt)
          else if ((200 <=? status) && (status <? 300))%Z then
            match fields with
            | None => (w', dst, Ok tt)
            | Some fields =>
                if is_empty raw then (w', dst, Ok tt)
                else
                  let '(dst', ok) := unmarshal_into fields raw dst in
                  (w', dst', if ok then Ok tt else Err unavailable_error)
            end
          else (w', dst, Err (mapHTTPError status))
      end
  end.

(** The loop, with the attempts left and the last error. *)
Fixpoint attempts {A} (n : nat) (idempotent : bool) (c : Client) (method url : string) (p : Principal) (b : option any)
    (fields : option (list (string * decoder A))) (dst : A) (lastErr : goerror) (w : W) : W * gores A :=
  match n with
  | O => (w, Err lastErr)
  | S n' =>
      let '(w', dst', r) := doJSONOnce c method url p b fields dst w in
      match r with
      | Ok _ => (w', Ok dst')
      | Err e =>
          if negb idempotent || negb (errors_Is e ErrPersistenceUnavailable) then (w', Err e)
          else attempts n' idempotent c method url p b fields dst' e w'
      end
  end.

Definition doJSON {A} (c : Client) (method url : string) (p : Principal) (b : option any) (idempotent : bool)
    (fields : option (list (string * decoder A))) (dst : A) (w : W) : W * gores A :=
  attempts (if idempotent then 2 else 1) idempotent c method url p b fields dst unavailable_error w.

(** ** Operations *)

Definition Remote_SavePolicy (c : Client) (e : Env) (p : Principal) (id scanID : string)
    (payload : option (list (string * any))) (w : W) : W * gores PolicyRecord :=
  (w, Err (err_of ErrUnsupportedStoreOperation)).

Definition time_member (key : string) (t : option time) : list (string * any) :=
  match t with
  | Some t => if IsZero t then [] else [(key, AString (FormatRFC3339Nano t))]
  | None => []
  end.

Definition create_body (e : Env) (i : CreatePolicyInput) : any :=
  let verifiedAt := if IsZero (ci_WalletControlVerifiedAt i) then env_now e else ci_WalletControlVerifiedAt i in
  let method := TrimSpace (ci_WalletControlMethod i) in
  AMap ([("scan_id", AString (TrimSpace (ci_ScanID i)));
         ("wallet_address", AString (TrimSpace (ci_WalletAddress i)));
         ("chain_id", AInt64 (ci_ChainID i));
         ("payload", payload_any (ci_Payload i));
         ("payload_sha256", AString (TrimSpace (ci_PayloadSHA256 i)));
         ("signed_message_hash", AString (TrimSpace (ci_SignedMessageHash i)));
         ("wallet_control_method", AString (if is_empty method then "eoa_signature" else method));
         ("wallet_control_verified_at", AString (FormatRFC3339Nano verifiedAt))]
        ++ time_member "challenge_issued_at" (ci_ChallengeIssuedAt i)
        ++ time_member "challenge_expires_at" (ci_ChallengeExpiresAt i)).

Definition Remote_CreatePolicy (c : Client) (e : Env) (p : Principal) (i : CreatePolicyInput) (w : W)
    : W * gores CreatePolicyResult :=
  match Principal_Validate p with
  | Err _ => (w, Err (err_of ErrPrincipalRequired))
  | Ok _ =>
      let '(w', r) := doJSON c "POST" (cl_baseURL c +:+ CPV1Base +:+ CPPolicies) p (Some (create_body e i)) false
                        (Some created_fields) zero_created w in
      (w', wire ← r;
           persistedAt ← parseTime (cw_PersistedAt wire);
           Ok (mkCreatePolicyResult (TrimSpace (cw_PolicyID wire)) (TrimSpace (cw_ScanID wire))
                 (TrimSpace (cw_WalletAddress wire)) (cw_ChainID wire) (TrimSpace (cw_PayloadSHA256 wire)) persistedAt))
  end.

Definition Remote_ListPersistedPoliciesForScan (c : Client) (p : Principal) (scanID0 : string) (w : W)
    : W * gores (list PolicyRecord) :=
  match Principal_Validate p with
  | Err _ => (w, Err (err_of ErrPrincipalRequired))
  | Ok _ =>
      let scanID := TrimSpace scanID0 in
      if is_empty scanID then (w, Err (errors_New "scan_id is required"))
      else
        let '(w', r) := doJSON c "GET" (cl_baseURL c +:+ CPV1Base +:+ CPPolicies +:+ "?scan_id=" +:+ QueryEscape scanID) p None
                          true (Some list_fields) [] w in
        (w', items ← r; to_records items)
  end.

Definition Remote_DeletePolicy (c : Client) (p : Principal) (id : string) (w : W) : W * gores unit :=
  match Principal_Validate p with
  | Err _ => (w, Err (err_of ErrPrincipalRequired))
  | Ok _ => doJSON c "DELETE" (policyURL c (TrimSpace id)) p None true None tt w
  end.

Definition Remote_GetPolicy (c : Client) (p : Principal) (id : string) (w : W) : W * gores PolicyRecord :=
  match Principal_Validate p with
  | Err _ => (w, Err (err_of ErrPrincipalRequired))
  | Ok _ =>
      let '(w', r) := doJSON c "GET" (policyURL c (TrimSpace id)) p None true (Some row_fields) zero_row w in
      (w', row ← r; toRecord row)
  end.

Definition Remote_CountActiveWalletCPMContext (c : Client) (p : Principal) (address : string) (w : W)
    : W * gores WalletTargetContextCounts :=
  match Principal_Validate p with
  | Err _ => (w, Err (err_of ErrPrincipalRequired))
  | Ok _ =>
      match NormalizeWalletTargetAddress address with
      | Err e => (w, Err e)
      | Ok wallet =>
          let '(w', r) := doJSON c "GET" (cl_baseURL c +:+ CPV1Base +:+ ReferenceWallet +:+ "?wallet_address=" +:+ QueryEscape wallet)
                            p None true (Some wallet_reference_fields) (mkReference false 0) w in
          (w', wire ← r; Ok (mkCounts (rw_Exists wire) (rw_PolicyCount wire)))
      end
  end.

(** The client is a [PolicyStore] whose state is that of the service. *)
Definition Client_PolicyStore (c : Client) : PolicyStore W := {|
  st_SavePolicy := Remote_SavePolicy c;
  st_CreatePolicy := Remote_CreatePolicy c;
  st_ListPersistedPoliciesForScan := Remote_ListPersistedPoliciesForScan c;
  st_DeletePolicy := Remote_DeletePolicy c;
  st_GetPolicy := Remote_GetPolicy c;
  st_CountActiveWalletCPMContext := Remote_CountActiveWalletCPMContext c
|}.

End Remote.

(** ** Requests on the wire *)

(** The same service, with the requests it received. *)
Definition recording {W} `{RS : RemoteService W} : RemoteService (W * list wire_request) := {|
  serve := fun q '(w, log) => let '(w', a) := serve q w in ((w', log ++ [q]), a)
|}.

Section Bounds.
Context `{U : Unicode, F : GoFloat, RT : RemoteText, FD : FailedDecode} {W : Type} `{RS : RemoteService W}.

Lemma once_recorded {A} c method url p b fields (dst : A) w log :
  exists n, n <= 1
  /\ doJSONOnce (RS := recording) c method url p b fields dst (w, log)
     = let '(w', dst', r) := doJSONOnce c method url p b fields dst w in
       ((w', log ++ repeat (wire c method url p b) n), dst', r).
Proof.
  unfold doJSONOnce. destruct (url_error url); [exists 0; split; [lia|]; cbn [repeat]; by rewrite app_nil_r|].
  exists 1. split; [done|]. cbn [serve recording repeat]. destruct (serve _ w) as [w' [|status [text|]]]; try done.
  cbv zeta. destruct (status =? StatusNoContent)%Z; [done|]. destruct ((200 <=? status) && (status <? 300))%Z; [|done].
  destruct fields; [|done]. destruct (is_empty _); [done|]. by destruct (unmarshal_into _ _ _).
Qed.

Lemma attempts_recorded {A} n idempotent c method url p b fields (dst : A) e w log :
  exists k, k <= n
  /\ attempts (RS := recording) n idempotent c method url p b fields dst e (w, log)
     = let '(w', r) := attempts n idempotent c method url p b fields dst e w in
       ((w', log ++ repeat (wire c method url p b) k), r).
Proof.
  revert dst e w log. induction n as [|n IH]; intros dst e w log; [exists 0; split; [lia|]; cbn [repeat]; by rewrite app_nil_r|].
  cbn [attempts]. destruct (once_recorded c method url p b fields dst w log) as (k & Hk & ->).
  destruct (doJSONOnce c method url p b fields dst w) as [[w' dst'] r].
  destruct r as [[]|e']; [exists k; split; [lia|done]|].
  destruct (negb idempotent || negb (errors_Is e' ErrPersistenceUnavailable)); [exists k; split; [lia|done]|].
  destruct (IH dst' e' w' (log ++ repeat (wire c method url p b) k)) as (k' & Hk' & ->).
  exists (k + k'). split; [lia|]. rewrite repeat_app, app_assoc. done.
Qed.

(** An operation sends at most [k] requests, all of them [q]. *)
Definition sends_at_most {R} (k : nat) (q : wire_request)
    (recorded : W * list wire_request -> (W * list wire_request) * R) (plain : W -> W * R) : Prop :=
  forall w, exists n, n <= k /\ recorded (w, []) = let '(w', r) := plain w in ((w', repeat q n), r).

Lemma doJSON_sends {A} c method url p b (idempotent : bool) fields (dst : A) :
  sends_at_most (if idempotent then 2 else 1) (wire c method url p b)
    (doJSON (RS := recording) c method url p b idempotent fields dst) (doJSON c method url p b idempotent fields dst).
Proof. intros w. unfold doJSON. apply attempts_recorded. Qed.

(** Post-processing the result sends nothing. *)
Lemma sends_after {R R'} k q (rec : W * list wire_request -> (W * list wire_request) * R) plain (f : R -> R') :
  sends_at_most k q rec plain ->
  sends_at_most k q (fun w => let '(w', r) := rec w in (w', f r)) (fun w => let '(w', r) := plain w in (w', f r)).
Proof. intros H w. destruct (H w) as (n & Hn & ->). exists n. split; [done|]. by destruct (plain w). Qed.

Lemma sends_nothing {R} k q (r : R) : sends_at_most k q (fun w => (w, r)) (fun w => (w, r)).
Proof. intros w. exists 0. split; [lia|done]. Qed.

(** C24: Every operation ends after a bounded number of requests: creating a policy
    sends at most one, so that it is never carried out twice; reading and
    deleting send at most two, the second a copy of the first; saving, which
    the remote store does not offer, sends none. *)
Theorem requests_bounded (c : Client) (p : Principal) :
  (forall e i, sends_at_most 1 (wire c "POST" (cl_baseURL c +:+ CPV1Base +:+ CPPolicies) p (Some (create_body e i)))
     (Remote_CreatePolicy (RS := recording) c e p i) (Remote_CreatePolicy c e p i))
  /\ (forall id, sends_at_most 2 (wire c "DELETE" (policyURL c (TrimSpace id)) p None)
        (Remote_DeletePolicy (RS := recording) c p id) (Remote_DeletePolicy c p id))
  /\ (forall id, sends_at_most 2 (wire c "GET" (policyURL c (TrimSpace id)) p None)
        (Remote_GetPolicy (RS := recording) c p id) (Remote_GetPolicy c p id))
  /\ (forall scanID, sends_at_most 2
        (wire c "GET" (cl_baseURL c +:+ CPV1Base +:+ CPPolicies +:+ "?scan_id=" +:+ QueryEscape (TrimSpace scanID)) p None)
        (Remote_ListPersistedPoliciesForScan (RS := recording) c p scanID) (Remote_ListPersistedPoliciesForScan c p scanID))
  /\ (forall address wallet, NormalizeWalletTargetAddress address = Ok wallet -> sends_at_most 2
        (wire c "GET" (cl_baseURL c +:+ CPV1Base +:+ ReferenceWallet +:+ "?wallet_address=" +:+ QueryEscape wallet) p None)
        (Remote_CountActiveWalletCPMContext (RS := recording) c p address) (Remote_CountActiveWalletCPMContext c p address))
  /\ (forall e id scanID payload q, sends_at_most 0 q
        (Remote_SavePolicy c e p id scanID payload) (Remote_SavePolicy c e p id scanID payload)).
Proof.
  split_and!; intros; unfold Remote_CreatePolicy, Remote_DeletePolicy, Remote_GetPolicy, Remote_ListPersistedPoliciesForScan,
    Remote_CountActiveWalletCPMContext, Remote_SavePolicy; try (destruct (Principal_Validate p); [|apply sends_nothing]).
  - refine (sends_after 1 _ _ _ _ (doJSON_sends c _ _ p _ false _ _)).
  - apply (doJSON_sends c _ _ p _ true).
  - refine (sends_after 2 _ _ _ _ (doJSON_sends c _ _ p _ true _ _)).
  - cbv zeta. destruct (is_empty (TrimSpace scanID)); [apply sends_nothing|].
    refine (sends_after 2 _ _ _ _ (doJSON_sends c _ _ p _ true _ _)).
  - rewrite H. refine (sends_after 2 _ _ _ _ (doJSON_sends c _ _ p _ true _ _)).
  - apply sends_nothing.
Qed.

End Bounds.
