(* ===== verification/RemoteContract.v ===== *)
(** * What the remote store promises

    The client of [internal/persistence/cphttp] against the contract of
    cafe-persistence ([docs/PERS_D3B_SPEC_REVIEW.md]): the service keeps an
    owner-scoped store, answers as its operations do, and requests and answers
    may be lost.  The client then performs the operations of that store, and says
    so when it does not know.  The last part is a service that loses messages. *)

From stdpp Require Import base gmap sets list strings sorting.
From Stdlib Require Import Ascii ZArith NArith.
From S2P Require Import Prelude GoStrings GoUnicode Url Errors GoAny GoFloat GoTime PayloadHash PersistGate WalletTarget OwnerStore Http Json RemoteStore.
Local Open Scope string_scope.
Local Open Scope list_scope.

(** ** Members in any order

    A document decodes to the same struct whatever the order of its members, when
    no two of them reach the same field; members of other names are skipped. *)

Lemma foldl_reverse {A B} (f : A -> B -> A) a l : foldl f a (reverse l) = foldr (fun x acc => f acc x) a l.
Proof. induction l as [|x l IH]; [done|]. rewrite reverse_cons, foldl_snoc. cbn [foldr]. by rewrite IH. Qed.

Section AnyOrder.
Context `{U : Unicode}.

(** Decoders of different parts of a struct. *)
Definition apart {A} (d d' : decoder A) : Prop := forall v v' a, d v a ≫= d' v' = d' v' a ≫= d v.

Definition fields_apart {A} (fields : list (string * decoder A)) : Prop :=
  forall f f', f ∈ fields -> f' ∈ fields -> fst f <> fst f' -> apart (snd f) (snd f').

Lemma field_apart {A B C} (get : A -> B) set d (get' : A -> C) set' d' :
  (forall x a, get' (set x a) = get' a) -> (forall y a, get (set' y a) = get a) ->
  (forall x y a, set' y (set x a) = set x (set' y a)) ->
  apart (field get set d) (field get' set' d').
Proof.
  intros H1 H2 H3 v v' a. unfold field.
  destruct (d v (get a)) as [x|] eqn:E; destruct (d' v' (get' a)) as [y|] eqn:E';
    cbn [fmap option_fmap option_map mbind option_bind]; rewrite ?H1, ?H2, ?E, ?E';
    cbn [fmap option_fmap option_map]; by rewrite ?H3.
Qed.

(** The member names a field by its own name, all in ASCII. *)
Definition named {A} (fields : list (string * decoder A)) (k : string) : bool :=
  ascii_text k && match find (fun f => ascii_EqualFold k (fst f)) fields with
                  | Some f => String.eqb (fst f) k
                  | None => false
                  end.

(** The member reaches no field of these names. *)
Definition foreign (names : list string) (kx : string * any) : Prop :=
  Forall (fun k => EqualFold (to_utf8 (fst kx)) k = false) names.

Lemma foreign_skipped {A} (fields : list (string * decoder A)) acc kx :
  foreign (fst <$> fields) kx -> assign_member fields acc kx = acc.
Proof.
  intros H. unfold assign_member, find_field. destruct (find _ fields) as [f|] eqn:E; [|by destruct acc].
  apply find_some in E as [Hf E]. unfold foreign in H. rewrite Forall_fmap, Forall_forall in H. apply list_elem_of_In in Hf. specialize (H f Hf). cbn in H. by rewrite H in E.
Qed.

Lemma foreign_members {A} (fields : list (string * decoder A)) acc l :
  Forall (foreign (fst <$> fields)) l -> foldl (assign_member fields) acc l = acc.
Proof. induction 1 as [|kx l H _ IH]; [done|]. cbn [foldl]. by rewrite foreign_skipped. Qed.

Lemma named_field {A} (fields : list (string * decoder A)) k :
  ascii_fields fields = true -> named fields k = true ->
  exists f, f ∈ fields /\ fst f = k /\ find_field fields (to_utf8 k) = Some (snd f).
Proof.
  intros Hf. unfold named. rewrite andb_true_iff. intros [Hk H].
  rewrite to_utf8_ascii, find_field_ascii by (done || by apply ascii_text_is). unfold ascii_field.
  destruct (find _ fields) as [f|] eqn:E; [|done]. apply find_some in E as [Hin _]. apply list_elem_of_In in Hin.
  apply String.eqb_eq in H. by exists f.
Qed.

Lemma assign_swap {A} (fields : list (string * decoder A)) acc kx ky :
  ascii_fields fields = true -> fields_apart fields ->
  named fields (fst kx) = true -> named fields (fst ky) = true -> fst kx <> fst ky ->
  assign_member fields (assign_member fields acc kx) ky = assign_member fields (assign_member fields acc ky) kx.
Proof.
  intros Hf Ha Hx Hy Hne. destruct (named_field _ _ Hf Hx) as (f & Hfx & Ex & Fx).
  destruct (named_field _ _ Hf Hy) as (g & Hgy & Ey & Gy). unfold assign_member. rewrite Fx, Gy.
  destruct acc as [a|]; [|done]. cbn [mbind option_bind]. apply (Ha f g); congruence.
Qed.

Lemma named_not_foreign {A} (fields : list (string * decoder A)) kx :
  ascii_fields fields = true -> named fields (fst kx) = true -> ~ foreign (fst <$> fields) kx.
Proof.
  intros Hf Hz Hfz. destruct (named_field _ _ Hf Hz) as (f & _ & _ & E). unfold find_field in E.
  destruct (find _ fields) as [g|] eqn:G; [|done]. apply find_some in G as [Hg E']. apply list_elem_of_In in Hg.
  unfold foreign in Hfz. rewrite Forall_fmap, Forall_forall in Hfz. specialize (Hfz g Hg). cbn in Hfz. by rewrite Hfz in E'.
Qed.

(** The members that fill the fields, in some order, among others. *)
Lemma any_order {A} (fields : list (string * decoder A)) acc m known extra :
  ascii_fields fields = true -> fields_apart fields -> NoDup (fst <$> known) ->
  Forall (fun kx => named fields (fst kx) = true) known -> Forall (foreign (fst <$> fields)) extra -> m ≡ₚ known ++ extra ->
  foldl (assign_member fields) acc m = foldl (assign_member fields) acc known.
Proof.
  intros Hf Ha Hn Hk He Hm. transitivity (foldl (assign_member fields) acc (extra ++ known)).
  2:{ rewrite foldl_app. by rewrite (foreign_members _ _ extra). }
  rewrite <- (reverse_involutive m), <- (reverse_involutive (extra ++ known)), !foldl_reverse, !reverse_app.
  symmetry. apply (foldr_permutation (=) _ acc (reverse known ++ reverse extra)); [|by rewrite !reverse_Permutation, Hm].
  intros i kx j ky b Hij Hi Hj.
  assert (forall n kz, (reverse known ++ reverse extra) !! n = Some kz -> reverse known !! n = Some kz \/ foreign (fst <$> fields) kz) as Hin.
  { intros n kz [Hz|[_ Hz]]%lookup_app_Some; [by left|right]. apply list_elem_of_lookup_2 in Hz. rewrite elem_of_reverse in Hz.
    rewrite Forall_forall in He. by apply He. }
  destruct (Hin _ _ Hi) as [Hx|Hx]; [|by rewrite !(foreign_skipped _ _ kx)].
  destruct (Hin _ _ Hj) as [Hy|Hy]; [|by rewrite !(foreign_skipped _ _ ky)].
  rewrite Forall_forall in Hk.
  apply assign_swap; try done; [apply Hk; rewrite <- elem_of_reverse; by eapply list_elem_of_lookup_2..|].
  intros E. destruct Hij. apply (NoDup_lookup (reverse (fst <$> known)) i j (fst kx)); [by rewrite reverse_Permutation|..];
    rewrite <- fmap_reverse, list_lookup_fmap, ?Hx, ?Hy; cbn; congruence.
Qed.

End AnyOrder.

(** ** Documents of the service *)

Definition row_names : list string :=
  ["id"; "user_id"; "tenant_id"; "scan_id"; "payload"; "payload_sha256"; "wallet_address"; "chain_id"; "created_at";
   "updated_at"; "persisted_at"].
Definition created_names : list string :=
  ["policy_id"; "scan_id"; "wallet_address"; "chain_id"; "payload_sha256"; "persisted_at"].
Definition list_names : list string := ["items"].
Definition reference_names : list string := ["exists"; "policy_count"].

(** The members of the row of a record, with the time of its persistence where
    the service sends it. *)
Definition row_members (r : PolicyRecord) (persistedAt : option string) : list (string * any) :=
  [("id", AString (rec_ID r)); ("user_id", AString (rec_OwnerUserID r)); ("tenant_id", AString (rec_TenantID r));
   ("scan_id", AString (rec_ScanID r)); ("payload", AMap (default [] (rec_Payload r)));
   ("payload_sha256", AString (rec_PayloadSHA256 r)); ("wallet_address", AString (rec_WalletAddress r));
   ("chain_id", AInt64 (rec_ChainID r)); ("created_at", AString (FormatRFC3339Nano (rec_CreatedAt r)));
   ("updated_at", AString (FormatRFC3339Nano (rec_UpdatedAt r)))]
  ++ match persistedAt with Some t => [("persisted_at", AString t)] | None => [] end.

Definition created_members (r : CreatePolicyResult) : list (string * any) :=
  [("policy_id", AString (cr_PolicyID r)); ("scan_id", AString (cr_ScanID r));
   ("wallet_address", AString (cr_WalletAddress r)); ("chain_id", AInt64 (cr_ChainID r));
   ("payload_sha256", AString (cr_PayloadSHA256 r)); ("persisted_at", AString (FormatRFC3339Nano (cr_PersistedAt r)))].

Definition reference_members (n : WalletTargetContextCounts) : list (string * any) :=
  [("exists", ABool (wc_Exists n)); ("policy_count", AInt64 (wc_PolicyCount n))].

Definition wire_time (t : time) : Prop := (0 <= year_of t <= 9999)%Z.

Section Documents.
Context `{U : Unicode, F : GoFloat, RT : RemoteText, FD : FailedDecode}.

(** An object with these members as JSON writes them, in any order, and members
    of other names. *)
Definition object_with (names : list string) (known : list (string * any)) (v : any) : Prop :=
  exists m extra, v = AMap m /\ m ≡ₚ (member_doc <$> known) ++ extra /\ Forall (foreign names) extra.

(** Text that survives JSON and trimming. *)
Definition wire_text (s : string) : Prop := to_utf8 s = s /\ TrimSpace s = s.

(** The members of a payload as its text gives them. *)
Definition payload_doc (payload : option (list (string * any))) : list (string * any) :=
  member_doc <$> sort_stable member_less (default [] payload).

Record wire_record (r : PolicyRecord) : Prop := {
  wf_texts : Forall wire_text [rec_ID r; rec_OwnerUserID r; rec_TenantID r; rec_ScanID r; rec_PayloadSHA256 r; rec_WalletAddress r];
  wf_chain : in_int64 (rec_ChainID r) = true;
  wf_payload : is_ok (mapM interface_member (payload_doc (rec_Payload r))) = true;
  wf_created : wire_time (rec_CreatedAt r);
  wf_updated : wire_time (rec_UpdatedAt r)
}.

Record wire_result (r : CreatePolicyResult) : Prop := {
  wr_texts : Forall wire_text [cr_PolicyID r; cr_ScanID r; cr_WalletAddress r; cr_PayloadSHA256 r];
  wr_chain : in_int64 (cr_ChainID r) = true;
  wr_time : wire_time (cr_PersistedAt r)
}.

(** The documents of a record, of a listing, of a creation and of a count. *)
Definition row_doc (r : PolicyRecord) (v : any) : Prop :=
  wire_record r /\ exists persistedAt, object_with row_names (row_members r persistedAt) v.

Definition list_doc (l : list PolicyRecord) (v : any) : Prop :=
  exists items m extra, v = AMap m /\ m ≡ₚ ("items", ASlice items) :: extra /\ Forall (foreign list_names) extra
    /\ Forall2 row_doc l items.

Definition created_doc (r : CreatePolicyResult) (v : any) : Prop :=
  wire_result r /\ object_with created_names (created_members r) v.

Definition reference_doc (n : WalletTargetContextCounts) (v : any) : Prop :=
  in_int64 (wc_PolicyCount n) = true /\ object_with reference_names (reference_members n) v.

(** The record as the client sees it: a nil payload is empty, and the values of
    the payload are those of its text, numbers as float64. *)
Definition payload_seen (payload : option (list (string * any))) : list (string * any) :=
  match mapM interface_member (payload_doc payload) with
  | Ok m => foldl set_member [] m
  | Err _ => []
  end.

Definition seen (r : PolicyRecord) : PolicyRecord :=
  mkPolicyRecord (rec_ID r) (rec_OwnerUserID r) (rec_TenantID r) (rec_ScanID r) (Some (payload_seen (rec_Payload r)))
    (rec_PayloadSHA256 r) (rec_WalletAddress r) (rec_ChainID r) (rec_CreatedAt r) (rec_UpdatedAt r).

Definition seen_all (l : list PolicyRecord) : list PolicyRecord := seen <$> l.

Lemma time_text t : to_utf8 (FormatRFC3339Nano t) = FormatRFC3339Nano t.
Proof. apply to_utf8_ascii, all_solid_ascii, FormatRFC3339Nano_all_solid. Qed.

Lemma parseTime_Format t : wire_time t -> parseTime (FormatRFC3339Nano t) = Ok t.
Proof.
  intros Ht. unfold parseTime. rewrite (all_solid_trimmed _ (FormatRFC3339Nano_all_solid t)).
  rewrite (proj2 (is_empty_false _) (FormatRFC3339Nano_nonempty t)). by rewrite ParseRFC3339_FormatRFC3339Nano.
Qed.

(** *** The tables of the client *)

(** The fields of the table are different parts of the struct. *)
Ltac apart_table :=
  intros f f' Hf Hf' Hne;
  repeat match goal with
  | H : _ ∈ _ :: _ |- _ => apply elem_of_cons in H as [->|H]
  | H : _ ∈ [] |- _ => by apply elem_of_nil in H
  end; try done;
  (apply field_apart; intros; repeat match goal with a : policyRowWire |- _ => destruct a | a : createPolicyResponseWire |- _ => destruct a
     | a : walletReferenceWire |- _ => destruct a end; reflexivity).

Lemma row_apart : fields_apart row_fields.
Proof. unfold row_fields. apart_table. Qed.

Lemma created_apart : fields_apart created_fields.
Proof. unfold created_fields. apart_table. Qed.

Lemma reference_apart : fields_apart wallet_reference_fields.
Proof. unfold wallet_reference_fields. apart_table. Qed.

Lemma list_apart : fields_apart list_fields.
Proof. unfold list_fields. apart_table. Qed.

(** *** Reading documents *)

Lemma named_docs {A} (fields : list (string * decoder A)) known : forallb (named fields) (fst <$> known) = true ->
  fst <$> (member_doc <$> known) = fst <$> known.
Proof.
  intros H. rewrite <- list_fmap_compose. apply list_fmap_ext. intros i kx Hi. cbn. apply to_utf8_ascii, ascii_text_is.
  rewrite forallb_forall in H. specialize (H (fst kx)). unfold named in H. rewrite andb_true_iff in H. apply H.
  apply list_elem_of_In, list_elem_of_fmap. exists kx. split; [done|]. by eapply list_elem_of_lookup_2.
Qed.

Lemma object_decodes {A} (fields : list (string * decoder A)) known v zero :
  ascii_fields fields = true -> fields_apart fields -> NoDup (fst <$> known) -> forallb (named fields) (fst <$> known) = true ->
  object_with (fst <$> fields) known v ->
  dec_document fields v zero = foldl (assign_member fields) (Some zero) (member_doc <$> known).
Proof.
  intros Hf Ha Hn Hk (m & extra & -> & Hm & He). pose proof (named_docs _ _ Hk) as Hd. unfold dec_document.
  eapply any_order; [done|done|by rewrite Hd| |exact He|exact Hm].
  rewrite <- (Forall_fmap fst (fun k => named fields k = true)), Hd. apply Forall_forall. intros k Hin.
  rewrite forallb_forall in Hk. by apply Hk, list_elem_of_In.
Qed.

Lemma ascii_member k x : ascii_text k = true -> member_doc (k, x) = (k, doc_of x).
Proof. intros H. unfold member_doc. cbn [fst snd]. by rewrite to_utf8_ascii by (by apply ascii_text_is). Qed.

Lemma row_decodes r v : row_doc r v ->
  exists persistedAt, dec_document row_fields v zero_row
  = Some (mkRow (rec_ID r) (rec_OwnerUserID r) (rec_TenantID r) (rec_ScanID r) (Some (payload_seen (rec_Payload r)))
            (rec_PayloadSHA256 r) (rec_WalletAddress r) (rec_ChainID r) (FormatRFC3339Nano (rec_CreatedAt r))
            (FormatRFC3339Nano (rec_UpdatedAt r)) persistedAt).
Proof.
  intros ([Htx Hch Hpl _ _] & at_ & Hv). rewrite !Forall_cons in Htx.
  destruct Htx as ([T1 _] & [T2 _] & [T3 _] & [T4 _] & [T5 _] & [T6 _] & _).
  exists (match at_ with Some t => to_utf8 t | None => EmptyString end).
  rewrite (object_decodes row_fields (row_members r at_)); [|reflexivity|apply row_apart| | |exact Hv].
  2:{ destruct at_; apply (bool_decide_unpack _); vm_compute; exact I. }
  2:{ destruct at_; reflexivity. }
  unfold row_members. rewrite fmap_app, foldl_app. unfold zero_row.
  assert (E : doc_of (AMap (default [] (rec_Payload r))) = AMap (payload_doc (rec_Payload r))) by apply doc_of_map.
  apply is_ok_true in Hpl as [m Hm]. unfold payload_seen. rewrite Hm.
  cbn [fmap list_fmap foldl]. rewrite !ascii_member, E by reflexivity. cbn [doc_of]. rewrite T1, T2, T3, T4, T5, T6, !time_text.
  decode_member row_fields. rewrite T1. decode_member row_fields. rewrite T2. decode_member row_fields. rewrite T3.
  decode_member row_fields. rewrite T4. decode_member row_fields.
  cbn [field dec_map fmap option_fmap option_map pw_Payload]. rewrite Hm. cbn [fmap option_fmap option_map default].
  decode_member row_fields. rewrite T5. decode_member row_fields. rewrite T6.
  decode_member row_fields. unfold field at 1. cbn [dec_int64]. rewrite ParseInt_FormatInt by done. cbn [fmap option_fmap option_map].
  decode_member row_fields. rewrite time_text. decode_member row_fields. rewrite time_text.
  destruct at_ as [t|]; [|done]. cbn [fmap list_fmap foldl]. rewrite ascii_member by reflexivity. cbn [doc_of].
  decode_member row_fields. by rewrite to_utf8_idem.
Qed.

(** Reading back a row gives the record, to the nanosecond. *)
Lemma row_record r v : row_doc r v ->
  exists w, dec_document row_fields v zero_row = Some w /\ toRecord w = Ok (seen r).
Proof.
  intros H. destruct (row_decodes r v H) as [at_ E]. eexists. split; [exact E|].
  destruct H as [[Htx _ _ Hc Hu] _]. rewrite !Forall_cons in Htx.
  destruct Htx as ([_ T1] & [_ T2] & [_ T3] & [_ T4] & [_ T5] & [_ T6] & _).
  unfold toRecord. cbn [pw_ID pw_UserID pw_TenantID pw_ScanID pw_Payload pw_PayloadSHA256 pw_WalletAddress pw_ChainID
    pw_CreatedAt pw_UpdatedAt]. rewrite !parseTime_Format by done. cbn [mbind res_bind default].
  rewrite T1, T2, T3, T4, T5, T6. done.
Qed.

Lemma list_records l v : list_doc l v ->
  exists rows, dec_document list_fields v [] = Some rows /\ to_records rows = Ok (seen_all l).
Proof.
  intros (items & m & extra & -> & Hm & He & Hl). unfold dec_document.
  rewrite (any_order list_fields _ m [("items", ASlice items)] extra); [|reflexivity|apply list_apart| | |exact He|exact Hm].
  2:{ apply NoDup_singleton. }
  2:{ by repeat constructor. }
  cbn [foldl]. decode_member list_fields. cbn [dec_list]. rewrite dec_elements_fresh. clear Hm.
  induction Hl as [|r x l items Hr _ IH]; [by exists []|]. cbn [mapM].
  destruct (row_record r x Hr) as (row & Ex & Er). destruct IH as (rows & El & Es).
  eexists (row :: rows). rewrite Ex. cbn. cbn in El. rewrite El. cbn. rewrite Er. cbn. rewrite Es. done.
Qed.

Lemma created_decodes r v : created_doc r v ->
  dec_document created_fields v zero_created
  = Some (mkCreated (cr_PolicyID r) (cr_ScanID r) (cr_WalletAddress r) (cr_ChainID r) (cr_PayloadSHA256 r)
            (FormatRFC3339Nano (cr_PersistedAt r))).
Proof.
  intros [[Htx Hch _] Hv]. rewrite !Forall_cons in Htx. destruct Htx as ([T1 _] & [T2 _] & [T3 _] & [T4 _] & _).
  rewrite (object_decodes created_fields (created_members r)); [|reflexivity|apply created_apart| | |exact Hv].
  2:{ apply (bool_decide_unpack _). vm_compute. exact I. }
  2:{ reflexivity. }
  unfold created_members, zero_created. cbn [fmap list_fmap foldl]. rewrite !ascii_member by reflexivity. cbn [doc_of].
  rewrite T1, T2, T3, T4, time_text.
  decode_member created_fields. rewrite T1. decode_member created_fields. rewrite T2. decode_member created_fields. rewrite T3.
  decode_member created_fields. unfold field at 1. cbn [dec_int64]. rewrite ParseInt_FormatInt by done.
  cbn [fmap option_fmap option_map]. decode_member created_fields. rewrite T4. decode_member created_fields.
  by rewrite time_text.
Qed.

Lemma reference_decodes n v : reference_doc n v ->
  dec_document wallet_reference_fields v (mkReference false 0) = Some (mkReference (wc_Exists n) (wc_PolicyCount n)).
Proof.
  intros [Hn Hv].
  rewrite (object_decodes wallet_reference_fields (reference_members n)); [|reflexivity|apply reference_apart| | |exact Hv].
  2:{ apply (bool_decide_unpack _). vm_compute. exact I. }
  2:{ reflexivity. }
  unfold reference_members. cbn [fmap list_fmap foldl]. rewrite !ascii_member by reflexivity. cbn [doc_of].
  decode_member wallet_reference_fields. unfold field at 1. cbn [dec_bool fmap option_fmap option_map].
  decode_member wallet_reference_fields. unfold field at 1. cbn [dec_int64]. by rewrite ParseInt_FormatInt.
Qed.

End Documents.

(** ** The contract of cafe-persistence *)

(** No news of the request: no answer, an answer that cannot be read, or one that
    says so. *)
Inductive lost : remote_answer -> Prop :=
| lost_failed : lost RemoteFailed
| lost_unread status : lost (RemoteAnswer status None)
| lost_unavailable raw : lost (RemoteAnswer StatusServiceUnavailable raw).

(** Refusals that have a status of their own. *)
Definition definite (e : goerror) : Prop :=
  e ∈ [err_of ErrPolicyNotFound; err_of ErrForbidden; err_of ErrPolicyAlreadyExists].

(** The status of a refusal. *)
Inductive refusal_status : goerror -> Z -> Prop :=
| not_found_status : refusal_status (err_of ErrPolicyNotFound) StatusNotFound
| forbidden_status : refusal_status (err_of ErrForbidden) StatusForbidden
| conflict_status : refusal_status (err_of ErrPolicyAlreadyExists) StatusConflict
| other_status e status : ~ definite e -> (400 <= status)%Z ->
    status <> StatusNotFound -> status <> StatusForbidden -> status <> StatusConflict -> refusal_status e status.

Definition refused (e : goerror) (a : remote_answer) : Prop :=
  exists status text, a = RemoteAnswer status (Some text) /\ refusal_status e status.

(** The text of the answer is a document that [says] something. *)
Definition answered (status : Z) (says : any -> Prop) (a : remote_answer) : Prop :=
  exists text v, a = RemoteAnswer status (Some text) /\ body_of_text text = Document v /\ says v.

Definition acknowledged (a : remote_answer) : Prop := exists text, a = RemoteAnswer StatusNoContent (Some text).

(** The client learns what the answer says: it arrives, in a text within the limit
    of the client. *)
Definition heard (a : remote_answer) : Prop :=
  exists status text, a = RemoteAnswer status (Some text) /\ status <> StatusServiceUnavailable
    /\ (N.of_nat (len text) <= answer_limit)%N.

(** A request for an operation of the store: it is carried out or it is not, and
    the answer is lost or tells the result of carrying it out. *)
Definition served {R} (op : OwnerScopedStore -> OwnerScopedStore * gores R) (reply : R -> remote_answer -> Prop)
    (s s' : OwnerScopedStore) (a : remote_answer) : Prop :=
  (s' = s \/ s' = fst (op s))
  /\ (lost a \/ s' = fst (op s) /\ match snd (op s) with Ok x => reply x a | Err e => refused e a end).

(** An operation that only reads. *)
Definition reading {R} (f : OwnerScopedStore -> gores R) (s : OwnerScopedStore) : OwnerScopedStore * gores R := (s, f s).

(** An id that is one segment of a path as it is. *)
Definition plain_id (id : string) : Prop :=
  id <> EmptyString /\ Forall (fun a => unreserved a = true) (String.list_ascii_of_string id).

(** The input with the time that the client fills in. *)
Definition timed (e : Env) (i : CreatePolicyInput) : CreatePolicyInput :=
  mkCreatePolicyInput (ci_ScanID i) (ci_WalletAddress i) (ci_ChainID i) (ci_Payload i) (ci_PayloadSHA256 i)
    (ci_SignedMessageHash i) (ci_WalletControlMethod i)
    (if IsZero (ci_WalletControlVerifiedAt i) then env_now e else ci_WalletControlVerifiedAt i)
    (ci_ChallengeIssuedAt i) (ci_ChallengeExpiresAt i).

(** The id that the store would give is new. *)
Definition fresh_id (e : Env) (s : OwnerScopedStore) : Prop := forall id, env_id e = Ok id -> s !! id = None.

Definition scan_url (c : Client) (scanID : string) : string :=
  cl_baseURL c +:+ CPV1Base +:+ CPPolicies +:+ "?scan_id=" +:+ QueryEscape scanID.

Definition wallet_url (c : Client) (wallet : string) : string :=
  cl_baseURL c +:+ CPV1Base +:+ ReferenceWallet +:+ "?wallet_address=" +:+ QueryEscape wallet.

Section Contract.
Context `{U : Unicode, GS : GoSort, F : GoFloat, RT : RemoteText, FD : FailedDecode}.

(** A principal whose tenant reaches the service as it is. *)
Definition wire_caller (p : Principal) : Prop := Principal_Validate p = Ok tt /\ TrimSpace (pr_TenantID p) = pr_TenantID p.

(** What cafe-persistence promises the client: its state is an owner-scoped store,
    and each of the five requests is served as the operation it asks for. *)
Class CafePersistence (W : Type) `{RS : RemoteService W} (c : Client) := {
  contents : W -> OwnerScopedStore;
  service_env : W -> Env;       (** the service's own clock and next id *)
  ids_fresh : forall w, fresh_id (service_env w) (contents w);
  url_by_id : forall id, plain_id id -> url_error (policyURL c id) = None;
  url_policies : url_error (cl_baseURL c +:+ CPV1Base +:+ CPPolicies) = None;
  url_scan : forall scanID, url_error (scan_url c scanID) = None;
  url_wallet : forall wallet, url_error (wallet_url c wallet) = None;
  served_get : forall p id w, wire_caller p -> plain_id id ->
    let '(w', a) := serve (wire c "GET" (policyURL c id) p None) w in
    served (reading (GetPolicy p id)) (fun r => answered StatusOK (row_doc r)) (contents w) (contents w') a;
  served_list : forall p scanID w, wire_caller p -> TrimSpace scanID = scanID -> scanID <> EmptyString ->
    let '(w', a) := serve (wire c "GET" (scan_url c scanID) p None) w in
    served (reading (ListPersistedPoliciesForScan p scanID)) (fun l => answered StatusOK (list_doc l)) (contents w) (contents w') a;
  served_count : forall p wallet w, wire_caller p -> NormalizeWalletTargetAddress wallet = Ok wallet ->
    let '(w', a) := serve (wire c "GET" (wallet_url c wallet) p None) w in
    served (reading (CountActiveWalletCPMContext p wallet)) (fun n => answered StatusOK (reference_doc n)) (contents w) (contents w') a;
  served_delete : forall p id w, wire_caller p -> plain_id id ->
    let '(w', a) := serve (wire c "DELETE" (policyURL c id) p None) w in
    served (DeletePolicy p id) (fun _ => acknowledged) (contents w) (contents w') a;
  served_create : forall e p i w, wire_caller p -> wire_time (ci_WalletControlVerifiedAt (timed e i)) ->
    let '(w', a) := serve (wire c "POST" (cl_baseURL c +:+ CPV1Base +:+ CPPolicies) p (Some (create_body e i))) w in
    served (CreatePolicy (service_env w) p (timed e i)) (fun r => answered 201%Z (created_doc r)) (contents w) (contents w') a
}.

End Contract.

(** ** Refinement *)

(** What the caller of the client learns of an operation: it was carried out at
    most once, and its result is the true one unless the store is said to be
    unavailable. *)
Definition performs {R} (op : OwnerScopedStore -> OwnerScopedStore * gores R) (s s' : OwnerScopedStore) (r : gores R) : Prop :=
  (s' = s \/ s' = fst (op s)) /\ (r = Err unavailable_error \/ s' = fst (op s) /\ r = snd (op s)).

(** Carried out, and the result is the true one. *)
Definition done_as {R} (op : OwnerScopedStore -> OwnerScopedStore * gores R) (s s' : OwnerScopedStore) (r : gores R) : Prop :=
  op s = (s', r).

Section Answers.
Context `{U : Unicode, F : GoFloat, RT : RemoteText, FD : FailedDecode} {W : Type} `{RS : RemoteService W} (c : Client).

Lemma limit_text_prefix n s : exists x, s = limit_text n s +:+ x.
Proof.
  revert n. induction s as [|a s IH]; intros n; [by exists EmptyString|]. cbn [limit_text].
  destruct (n =? 0)%N; [by exists (String a s)|]. destruct (IH (N.pred n)) as [x Hx]. exists x. by rewrite Hx at 1.
Qed.

Lemma limit_text_empty n s : n <> 0%N -> limit_text n s = EmptyString -> s = EmptyString.
Proof. intros Hn. destruct s as [|a s]; [done|]. cbn [limit_text]. by apply N.eqb_neq in Hn as ->. Qed.

Lemma limit_text_short n s : (N.of_nat (len s) <= n)%N -> limit_text n s = s.
Proof.
  unfold len. revert n. induction s as [|a s IH]; intros n H; [done|]. cbn [limit_text]. cbn [String.length] in H.
  destruct (N.eqb_spec n 0); [lia|]. f_equal. apply IH. lia.
Qed.

Lemma heard_not_lost a : heard a -> ~ lost a.
Proof. intros (status & text & -> & Hs & _) Hl. inversion Hl; congruence. Qed.

(** An answer that is one object is read as that object, or, when it was cut, not
    read at all. *)
Lemma unmarshal_answer {A} (fields : list (string * decoder A)) text m dst dst' :
  body_of_text text = Document (AMap m) -> dec_document fields (AMap m) dst = Some dst' ->
  is_empty (limit_text answer_limit text) = false
  /\ (unmarshal_into fields (limit_text answer_limit text) dst = (dst', true)
      \/ unmarshal_into fields (limit_text answer_limit text) dst = (dst, false)
         /\ ~ (N.of_nat (len text) <= answer_limit)%N).
Proof.
  intros Ht Hd. assert (Hne : is_empty (limit_text answer_limit text) = false).
  { apply is_empty_false. intros E%limit_text_empty; [|done]. by rewrite E in Ht. }
  split; [done|]. unfold unmarshal_into.
  destruct (decide (N.of_nat (len text) <= answer_limit)%N) as [Hl|Hl]; [left; by rewrite limit_text_short, Ht, Hd|].
  destruct (limit_text_prefix answer_limit text) as [x Hx]. rewrite Hx in Ht. apply cut_object in Ht.
  destruct Ht as [Ht|[Ht|Ht]]; rewrite Ht; [|by right..]. rewrite Hd. by left.
Qed.

(** One attempt, by what comes back. *)
Lemma once_lost {A} method url p b fields (dst : A) w w' a :
  url_error url = None -> serve (wire c method url p b) w = (w', a) -> lost a ->
  doJSONOnce c method url p b fields dst w = (w', dst, Err unavailable_error).
Proof. intros Hu Hs Hl. unfold doJSONOnce. rewrite Hu, Hs. by destruct Hl as [|status|[raw|]]. Qed.

Lemma mapped_status e status : refusal_status e status ->
  (400 <= status)%Z /\ (definite e /\ mapHTTPError status = e /\ errors_Is e ErrPersistenceUnavailable = false
    \/ ~ definite e /\ mapHTTPError status = unavailable_error).
Proof.
  intros H. destruct H as [| | |e status Hd Hs H1 H2 H3].
  1-3: split; [done|]; left; split; [unfold definite; rewrite !elem_of_cons; auto|by split].
  split; [done|]. right. split; [done|]. unfold mapHTTPError. by apply Z.eqb_neq in H1 as ->, H2 as ->, H3 as ->.
Qed.

Lemma once_refused {A} method url p b fields (dst : A) w w' a e :
  url_error url = None -> serve (wire c method url p b) w = (w', a) -> refused e a ->
  exists e', doJSONOnce c method url p b fields dst w = (w', dst, Err e')
    /\ (definite e /\ e' = e /\ errors_Is e ErrPersistenceUnavailable = false \/ ~ definite e /\ e' = unavailable_error).
Proof.
  intros Hu Hs (status & text & -> & Hst). apply mapped_status in Hst as [H400 Hst]. exists (mapHTTPError status).
  split; [|done]. unfold doJSONOnce. rewrite Hu, Hs. cbv zeta.
  replace (status =? StatusNoContent)%Z with false by (symmetry; apply Z.eqb_neq; unfold StatusNoContent; lia).
  replace ((200 <=? status) && (status <? 300))%Z with false by (symmetry; apply andb_false_iff; lia). done.
Qed.

Lemma once_answered {A} method url p b fields (dst : A) w w' status text m dst' :
  url_error url = None -> serve (wire c method url p b) w = (w', RemoteAnswer status (Some text)) ->
  (200 <= status < 300)%Z -> status <> StatusNoContent ->
  body_of_text text = Document (AMap m) -> dec_document fields (AMap m) dst = Some dst' ->
  doJSONOnce c method url p b (Some fields) dst w = (w', dst', Ok tt)
  \/ doJSONOnce c method url p b (Some fields) dst w = (w', dst, Err unavailable_error)
     /\ ~ heard (RemoteAnswer status (Some text)).
Proof.
  intros Hu Hs Hr Hn Ht Hd. unfold doJSONOnce. rewrite Hu, Hs. cbv zeta. apply Z.eqb_neq in Hn as ->.
  replace ((200 <=? status) && (status <? 300))%Z with true by (symmetry; apply andb_true_iff; lia).
  destruct (unmarshal_answer fields text m dst dst' Ht Hd) as [-> [->|[-> Hl]]]; [auto|]. right. split; [done|].
  intros (status' & text' & [= <- <-] & _ & Hl'). done.
Qed.

End Answers.

Section Refinement.
Context `{U : Unicode, GS : GoSort, F : GoFloat, RT : RemoteText, FD : FailedDecode} {W : Type}
  `{RS : RemoteService W} (c : Client) `{CP : !CafePersistence W c}.

(** *** Reading *)

Section Reading.
(** The store is asked for [f]; the answer is a document that [says] the result,
    of which the client makes [g] of the result. *)
Context {A R R' : Type} (url : string) (p : Principal) (fields : list (string * decoder A)) (dst : A)
  (post : A -> gores R') (f : OwnerScopedStore -> gores R) (says : R -> any -> Prop) (g : R -> R').
Hypothesis Hurl : url_error url = None.
Hypothesis Hserved : forall w, let '(w', a) := serve (wire c "GET" url p None) w in
  served (reading f) (fun x => answered StatusOK (says x)) (contents w) (contents w') a.
Hypothesis Hsays : forall x v, says x v -> exists m dst', v = AMap m /\ dec_document fields v dst = Some dst' /\ post dst' = Ok (g x).

Hypothesis Hdefinite : forall s e, f s = Err e -> definite e.

Lemma read_attempt w :
  exists w' dst' r, doJSONOnce c "GET" url p None (Some fields) dst w = (w', dst', r)
    /\ contents w' = contents w
    /\ match r with
       | Ok _ => post dst' = g <$> f (contents w)
       | Err e => dst' = dst /\ (e = unavailable_error /\ ~ heard (snd (serve (wire c "GET" url p None) w))
           \/ Err e = g <$> f (contents w) /\ errors_Is e ErrPersistenceUnavailable = false)
       end.
Proof.
  pose proof (Hserved w) as H. destruct (serve (wire c "GET" url p None) w) as [w' a] eqn:Hs.
  destruct H as [Hc H]. assert (contents w' = contents w) as Hc' by (by destruct Hc). clear Hc.
  destruct H as [Hl|[_ Ha]].
  { eexists w', dst, _. rewrite (once_lost _ _ _ _ _ _ _ _ _ _ Hurl Hs Hl). split; [done|]. split; [done|]. split; [done|].
    left. split; [done|]. cbn. intros Hh. by apply heard_not_lost in Hh. }
  cbn [reading snd] in Ha |- *. destruct (f (contents w)) as [x|e] eqn:Ef.
  - destruct Ha as (text & v & -> & Ht & Hv). destruct (Hsays x v Hv) as (m & dst' & -> & Hd & Hp).
    destruct (once_answered c "GET" url p None fields dst w w' StatusOK text m dst' Hurl Hs) as [->|[-> Hh]];
      [unfold StatusOK; lia|done|done|done|by eexists _, _, _|].
    eexists w', dst, _. auto 6.
  - destruct (once_refused c "GET" url p None (Some fields) dst w w' a e Hurl Hs Ha) as (e' & -> & [(_ & -> & He)|[Hn _]]);
      [|by apply Hdefinite in Ef].
    eexists w', dst, _. auto 6.
Qed.

Lemma doJSON_reads w :
  let '(w', r) := doJSON c "GET" url p None true (Some fields) dst w in
  performs (reading (fun s => g <$> f s)) (contents w) (contents w') (r ≫= post)
  /\ (heard (snd (serve (wire c "GET" url p None) w)) ->
      done_as (reading (fun s => g <$> f s)) (contents w) (contents w') (r ≫= post)).
Proof.
  unfold doJSON. cbn [attempts]. unfold performs, done_as, reading. cbn [fst snd].
  destruct (read_attempt w) as (w1 & dst1 & [[]|e1] & -> & Hc1 & H1); [rewrite Hc1; cbn; rewrite H1; auto|].
  destruct H1 as [-> [[-> Hh]|[H1 He]]].
  2:{ rewrite He. cbn. rewrite Hc1, H1. auto. }
  change (errors_Is unavailable_error ErrPersistenceUnavailable) with true. cbn [negb orb].
  destruct (read_attempt w1) as (w2 & dst2 & [[]|e2] & -> & Hc2 & H2); rewrite Hc1 in *; [cbn; rewrite Hc2, H2; auto|].
  destruct H2 as [-> H2]. destruct (negb (errors_Is e2 _)); cbv iota; (split; [split; [by left|]|done]);
    destruct H2 as [[-> _]|[H2 _]]; cbn; auto.
Qed.

End Reading.

Lemma plain_id_trimmed id : plain_id id -> TrimSpace id = id.
Proof.
  intros [_ H]. apply all_solid_trimmed. unfold all_solid. eapply Forall_impl; [exact H|]. intros a.
  by destruct a as [[] [] [] [] [] [] [] []].
Qed.

(** The two promises on an operation that [q] asks for. *)
Definition asks {R} (q : wire_request) (op : OwnerScopedStore -> OwnerScopedStore * gores R) (w w' : W) (r : gores R) : Prop :=
  performs op (contents w) (contents w') r
  /\ (heard (snd (serve q w)) -> done_as op (contents w) (contents w') r).

(** Without a valid principal nothing is asked. *)
Lemma asks_nothing {R} q (op : OwnerScopedStore -> OwnerScopedStore * gores R) w r : op (contents w) = (contents w, r) -> asks q op w w r.
Proof. intros E. unfold asks, performs, done_as. rewrite E. auto. Qed.

Lemma row_says r v : row_doc r v ->
  exists m row, v = AMap m /\ dec_document row_fields v zero_row = Some row /\ toRecord row = Ok (seen r).
Proof.
  intros H. destruct (row_record r v H) as (row & Hd & Hr). destruct H as (_ & ? & m & _ & -> & _). by exists m, row.
Qed.

Lemma remote_get p id w : TrimSpace (pr_TenantID p) = pr_TenantID p -> plain_id id ->
  let '(w', r) := Remote_GetPolicy c p id w in
  asks (wire c "GET" (policyURL c id) p None) (reading (fun s => seen <$> GetPolicy p id s)) w w' r.
Proof.
  intros Ht Hid. unfold Remote_GetPolicy. destruct (Principal_Validate p) as [[]|] eqn:Hp.
  2:{ apply asks_nothing. unfold reading, GetPolicy. by rewrite Hp. }
  rewrite (plain_id_trimmed id Hid).
  pose proof (doJSON_reads (policyURL c id) p row_fields zero_row toRecord (GetPolicy p id) row_doc seen (url_by_id id Hid)
    (fun w => served_get p id w (conj Hp Ht) Hid) row_says) as H.
  specialize (fun HD => H HD w). destruct (doJSON _ _ _ _ _ _ _ _ w) as [w' r]. apply H.
  intros s e. unfold GetPolicy, definite. rewrite Hp, !elem_of_cons. destruct (s !! id) as [rec|]; [|intros [= <-]; auto].
  destruct (negb (owns p rec)); [intros [= <-]; auto|done].
Qed.

Lemma remote_list p scanID w : TrimSpace (pr_TenantID p) = pr_TenantID p ->
  let '(w', r) := Remote_ListPersistedPoliciesForScan c p scanID w in
  asks (wire c "GET" (scan_url c (TrimSpace scanID)) p None)
    (reading (fun s => seen_all <$> ListPersistedPoliciesForScan p scanID s)) w w' r.
Proof.
  intros Ht. unfold Remote_ListPersistedPoliciesForScan. destruct (Principal_Validate p) as [[]|] eqn:Hp.
  2:{ apply asks_nothing. unfold reading, ListPersistedPoliciesForScan. by rewrite Hp. }
  cbv zeta. destruct (is_empty (TrimSpace scanID)) eqn:Hs.
  { apply asks_nothing. unfold reading, ListPersistedPoliciesForScan. rewrite Hp. cbv zeta. by rewrite Hs. }
  apply is_empty_false in Hs.
  assert (E : forall s, ListPersistedPoliciesForScan p (TrimSpace scanID) s = ListPersistedPoliciesForScan p scanID s).
  { intros s. unfold ListPersistedPoliciesForScan. by rewrite TrimSpace_idem. }
  pose proof (doJSON_reads (scan_url c (TrimSpace scanID)) p list_fields [] to_records
    (ListPersistedPoliciesForScan p (TrimSpace scanID)) list_doc seen_all (url_scan _)
    (fun w => served_list p _ w (conj Hp Ht) (TrimSpace_idem scanID) Hs)) as H.
  specialize (fun HS HD => H HS HD w). unfold asks, scan_url in *.
  destruct (doJSON _ _ _ _ _ _ _ _ w) as [w' r]. unfold performs, done_as, reading in *. cbn [fst snd] in *. rewrite E in H. apply H.
  - intros l v Hv. destruct (list_records l v Hv) as (rows & Hd & Hr). destruct Hv as (items & m & _ & -> & _). by exists m, rows.
  - intros s e. unfold ListPersistedPoliciesForScan. rewrite Hp, TrimSpace_idem. cbv zeta.
    by rewrite (proj2 (is_empty_false _) Hs).
Qed.

(** The wallet that a count is asked for. *)
Definition normal_wallet (address : string) : string :=
  match NormalizeWalletTargetAddress address with Ok wallet => wallet | Err _ => EmptyString end.

Lemma remote_count p address w : TrimSpace (pr_TenantID p) = pr_TenantID p ->
  let '(w', r) := Remote_CountActiveWalletCPMContext c p address w in
  asks (wire c "GET" (wallet_url c (normal_wallet address)) p None) (reading (CountActiveWalletCPMContext p address)) w w' r.
Proof.
  intros Ht. unfold Remote_CountActiveWalletCPMContext, normal_wallet. destruct (Principal_Validate p) as [[]|] eqn:Hp.
  2:{ apply asks_nothing. unfold reading, CountActiveWalletCPMContext, lookupActiveWalletCPMContext. by rewrite Hp. }
  destruct (NormalizeWalletTargetAddress address) as [wallet|e] eqn:Hn.
  2:{ apply asks_nothing. unfold reading, CountActiveWalletCPMContext, lookupActiveWalletCPMContext. by rewrite Hp, Hn. }
  assert (Hw : NormalizeWalletTargetAddress wallet = Ok wallet) by (by eapply canonical_normalize, normalize_canonical).
  assert (E : forall s, CountActiveWalletCPMContext p wallet s = CountActiveWalletCPMContext p address s).
  { intros s. unfold CountActiveWalletCPMContext, lookupActiveWalletCPMContext. by rewrite Hn, Hw. }
  pose proof (doJSON_reads (wallet_url c wallet) p wallet_reference_fields (mkReference false 0)
    (fun wire => Ok (mkCounts (rw_Exists wire) (rw_PolicyCount wire)))
    (CountActiveWalletCPMContext p wallet) reference_doc id (url_wallet _)
    (fun w => served_count p _ w (conj Hp Ht) Hw)) as H.
  specialize (fun HS HD => H HS HD w). unfold asks, wallet_url in *.
  destruct (doJSON _ _ _ _ _ _ _ _ w) as [w' r]. unfold performs, done_as, reading in *. cbn [fst snd] in *. rewrite E in H.
  assert (Hid : forall x : gores WalletTargetContextCounts, id <$> x = x) by (by intros []). rewrite Hid in H. apply H.
  - intros n v Hv. pose proof (reference_decodes n v Hv) as Hd. destruct Hv as (_ & m & _ & -> & _). destruct n.
    by eexists m, _.
  - intros s e. unfold CountActiveWalletCPMContext, lookupActiveWalletCPMContext. by rewrite Hp, Hw.
Qed.

(** *** Deleting *)

Lemma delete_attempt p id w : wire_caller p -> plain_id id ->
  exists w' r, doJSONOnce c "DELETE" (policyURL c id) p None (None : option (list (string * decoder unit))) tt w = (w', tt, r)
    /\ performs (DeletePolicy p id) (contents w) (contents w') r
    /\ (r = Err unavailable_error /\ ~ heard (snd (serve (wire c "DELETE" (policyURL c id) p None) w))
        \/ DeletePolicy p id (contents w) = (contents w', r)
           /\ forall e, r = Err e -> errors_Is e ErrPersistenceUnavailable = false).
Proof.
  intros Hp Hid. pose proof (served_delete p id w Hp Hid) as H. pose proof (url_by_id id Hid) as Hu.
  destruct (serve (wire c "DELETE" (policyURL c id) p None) w) as [w' a] eqn:Hs. destruct H as [Hc [Hl|[Hc' Ha]]].
  { eexists w', _. rewrite (once_lost c _ _ _ _ _ _ _ _ _ Hu Hs Hl). split; [done|]. split; [by split; auto|].
    left. split; [done|]. cbn. intros Hh. by apply heard_not_lost in Hh. }
  unfold performs. destruct (DeletePolicy p id (contents w)) as [s' [[]|e]] eqn:Hr; cbn [fst snd] in *; subst s'.
  - destruct Ha as [text ->]. eexists w', (Ok tt). unfold doJSONOnce. rewrite Hu, Hs. split; [done|].
    split; [split; auto|]. by right.
  - assert (definite e) as Hd.
    { unfold DeletePolicy in Hr. rewrite (proj1 Hp) in Hr. unfold definite. rewrite !elem_of_cons.
      destruct (contents w !! id) as [rec|]; [destruct (negb (owns p rec)); [|done]|]; injection Hr as _ <-; auto. }
    destruct (once_refused c "DELETE" (policyURL c id) p None (None : option (list (string * decoder unit))) tt w w' a e Hu Hs Ha)
      as (e' & -> & [(_ & -> & He)|[Hn _]]); [|done]. exists w', (Err e). split; [done|]. split; [auto|]. right. split; [done|].
    by intros ? [= <-].
Qed.

Lemma delete_after p id s : DeletePolicy p id (fst (DeletePolicy p id s))
  = match snd (DeletePolicy p id s) with
    | Ok _ => (fst (DeletePolicy p id s), Err (err_of ErrPolicyNotFound))
    | Err _ => DeletePolicy p id s
    end.
Proof.
  unfold DeletePolicy. destruct (Principal_Validate p); [|done]. destruct (s !! id) as [rec|] eqn:E; cbn [fst snd]; [|by rewrite E].
  destruct (owns p rec) eqn:Eo; cbn [negb fst snd]; [by rewrite lookup_delete_eq|by rewrite E, Eo].
Qed.

(** The operation, or, when its answer was lost, what the second request finds. *)
Definition deletes (p : Principal) (id : string) (s s' : OwnerScopedStore) (r : gores unit) : Prop :=
  performs (DeletePolicy p id) s s' r
  \/ DeletePolicy p id s = (s', Ok tt) /\ r = Err (err_of ErrPolicyNotFound).

Lemma deletes_again p id s s1 s' r :
  s1 = s \/ s1 = fst (DeletePolicy p id s) -> performs (DeletePolicy p id) s1 s' r -> deletes p id s s' r.
Proof.
  intros H1 [Hs Hr]. destruct H1 as [->| ->]; [by left|]. unfold deletes, performs. rewrite delete_after in Hs, Hr.
  destruct (DeletePolicy p id s) as [s2 [[]|e]] eqn:E; cbn [fst snd] in *.
  - assert (s' = s2) as -> by (by destruct Hs). destruct Hr as [->|[_ ->]]; auto.
  - left. cbn [fst snd] in *. split; [by destruct Hs; auto|done].
Qed.

Lemma remote_delete p id w : TrimSpace (pr_TenantID p) = pr_TenantID p -> plain_id id ->
  let '(w', r) := Remote_DeletePolicy c p id w in
  deletes p id (contents w) (contents w') r
  /\ (heard (snd (serve (wire c "DELETE" (policyURL c id) p None) w)) ->
      done_as (DeletePolicy p id) (contents w) (contents w') r).
Proof.
  intros Ht Hid. unfold Remote_DeletePolicy. destruct (Principal_Validate p) as [[]|] eqn:Hp.
  2:{ unfold deletes, performs, done_as, DeletePolicy. rewrite Hp. cbn. auto 6. }
  rewrite (plain_id_trimmed id Hid). unfold doJSON. cbn [attempts].
  destruct (delete_attempt p id w (conj Hp Ht) Hid) as (w1 & r1 & -> & H1 & [[-> Hh]|[Hd He]]).
  2:{ destruct r1 as [[]|e1]; [|rewrite (He e1 eq_refl)]; by split; [left|]. }
  change (errors_Is unavailable_error ErrPersistenceUnavailable) with true. cbn [negb orb].
  destruct (delete_attempt p id w1 (conj Hp Ht) Hid) as (w2 & [[]|e2] & -> & H2 & _).
  - split; [|done]. by apply (deletes_again p id (contents w) (contents w1)); [apply H1|].
  - destruct (negb (errors_Is e2 ErrPersistenceUnavailable)); (split; [|done]);
      by apply (deletes_again p id (contents w) (contents w1)); [apply H1|].
Qed.

(** *** Creating *)

(** A creation, and what is told of it: a refusal other than the conflict has no
    status of its own. *)
Definition creates (p : Principal) (i : CreatePolicyInput) (q : wire_request) (w w' : W) (r : gores CreatePolicyResult) : Prop :=
  let op := CreatePolicy (service_env w) p i in
  performs op (contents w) (contents w') r
  /\ (heard (snd (serve q w)) ->
      done_as op (contents w) (contents w') r
      \/ r = Err unavailable_error /\ exists err, op (contents w) = (contents w', Err err) /\ err <> err_of ErrPolicyAlreadyExists).

Definition create_wire (e : Env) (p : Principal) (i : CreatePolicyInput) : wire_request :=
  wire c "POST" (cl_baseURL c +:+ CPV1Base +:+ CPPolicies) p (Some (create_body e i)).

Lemma remote_create e p i w : TrimSpace (pr_TenantID p) = pr_TenantID p -> wire_time (ci_WalletControlVerifiedAt (timed e i)) ->
  let '(w', r) := Remote_CreatePolicy c e p i w in creates p (timed e i) (create_wire e p i) w w' r.
Proof.
  intros Ht Htm. unfold Remote_CreatePolicy, creates, create_wire. destruct (Principal_Validate p) as [[]|] eqn:Hp.
  2:{ unfold performs, done_as, CreatePolicy. rewrite Hp. cbn. auto 6. }
  pose proof (served_create e p i w (conj Hp Ht) Htm) as H. pose proof url_policies as Hu.
  unfold doJSON. cbn [attempts]. destruct (serve _ w) as [w' a] eqn:Hs. destruct H as (Hc & [Hl|[Hc' Ha]]).
  { rewrite (once_lost c _ _ _ _ _ _ _ _ _ Hu Hs Hl). split; [split; auto|]. intros Hh. by apply heard_not_lost in Hh. }
  unfold performs, done_as. destruct (CreatePolicy (service_env w) p (timed e i) (contents w)) as [s' [res|err]] eqn:Hr;
    cbn [fst snd] in *; subst s'.
  - destruct Ha as (text & v & -> & Hb & Hv). pose proof (created_decodes res v Hv) as Hd.
    destruct Hv as [[Htx _ Hpt] (m & _ & -> & _)].
    destruct (once_answered c "POST" _ p _ created_fields zero_created w w' 201%Z text m _ Hu Hs ltac:(lia) ltac:(done) Hb Hd) as [->|[-> Hh]];
      [|by split; [split; auto|]; intros ?; destruct Hh].
    cbn [mbind res_bind cw_PolicyID cw_ScanID cw_WalletAddress cw_ChainID cw_PayloadSHA256 cw_PersistedAt].
    rewrite parseTime_Format by done. rewrite !Forall_cons in Htx. destruct Htx as ([_ T1] & [_ T2] & [_ T3] & [_ T4] & _).
    cbn. rewrite T1, T2, T3, T4. destruct res. split; [split; auto|]. by left.
  - destruct (once_refused c "POST" _ p _ (Some created_fields) zero_created w w' a err Hu Hs Ha)
      as (err' & -> & [(_ & -> & _)|[Hn ->]]); cbn; (split; [auto|]); intros _; [by left|].
    right. split; [done|]. exists err. split; [done|]. intros ->. apply Hn. unfold definite. rewrite !elem_of_cons. auto.
Qed.

(** C5: The client refines the owner-scoped store.  Whatever requests and answers
    are lost or cut, every operation of the routes is performed on the store of
    the service at most once; reading a policy, listing the policies of a scan and
    counting those of a wallet leave the store alone and return what the store
    returns, as the client sees it, or say that the store is unavailable; creating
    returns the result of the creation that took place, or unavailable; deleting
    does too, except that the client may say "not found" of the policy it has
    just deleted, when the answer to its first request was lost.  When the answer
    to the first request is heard, the operation took place and its own result is
    returned; only a creation refused for another reason than the conflict is
    reported as unavailable. *)
Theorem remote_refines p :
  TrimSpace (pr_TenantID p) = pr_TenantID p ->
  (forall id w, plain_id id ->
     let '(w', r) := Remote_GetPolicy c p id w in
     asks (wire c "GET" (policyURL c id) p None) (reading (fun s => seen <$> GetPolicy p id s)) w w' r)
  /\ (forall scanID w,
     let '(w', r) := Remote_ListPersistedPoliciesForScan c p scanID w in
     asks (wire c "GET" (scan_url c (TrimSpace scanID)) p None)
       (reading (fun s => seen_all <$> ListPersistedPoliciesForScan p scanID s)) w w' r)
  /\ (forall address w,
     let '(w', r) := Remote_CountActiveWalletCPMContext c p address w in
     asks (wire c "GET" (wallet_url c (normal_wallet address)) p None) (reading (CountActiveWalletCPMContext p address)) w w' r)
  /\ (forall e i w, wire_time (ci_WalletControlVerifiedAt (timed e i)) ->
     let '(w', r) := Remote_CreatePolicy c e p i w in creates p (timed e i) (create_wire e p i) w w' r)
  /\ (forall id w, plain_id id ->
     let '(w', r) := Remote_DeletePolicy c p id w in
     (performs (DeletePolicy p id) (contents w) (contents w') r
      \/ DeletePolicy p id (contents w) = (contents w', Ok tt) /\ r = Err (err_of ErrPolicyNotFound))
     /\ (heard (snd (serve (wire c "DELETE" (policyURL c id) p None) w)) ->
         done_as (DeletePolicy p id) (contents w) (contents w') r)).
Proof.
  intros Ht. split_and!; intros;
    [by apply remote_get|by apply remote_list|by apply remote_count|by apply remote_create|by apply remote_delete].
Qed.

End Refinement.

(** ** A service that loses messages

    An instance of the contract: the store in memory, the caller and the operation
    read off the request, and messages lost as foretold. *)

#[local] Instance goerror_eq_dec : EqDecision goerror.
Proof. solve_decision. Defined.

(** [url.QueryUnescape] of an escaped text. *)
Definition QueryUnescape (s : string) : string :=
  String.string_of_list_ascii
    (unescape_bytes ((fun a => if Ascii.eqb a "+" then " "%char else a) <$> String.list_ascii_of_string s)).

Lemma query_escape_cases a :
  let l := (fun a => if Ascii.eqb a "+" then " "%char else a) <$> String.list_ascii_of_string (escape_char a) in
  (l = [a] /\ a <> "%"%char)
  \/ exists h k, l = ["%"%char; h; k] /\ exists x y, unhex h = Some x /\ unhex k = Some y /\ ascii_of_N (16 * x + y) = a.
Proof.
  destruct a as [[] [] [] [] [] [] [] []]; cbv zeta;
    first [left; split; [reflexivity|discriminate]
          |right; eexists _, _; split; [vm_compute; reflexivity|]; eexists _, _; split_and!; vm_compute; reflexivity].
Qed.

Lemma list_ascii_app s t : String.list_ascii_of_string (s +:+ t) = String.list_ascii_of_string s ++ String.list_ascii_of_string t.
Proof. induction s as [|a s IH]; [done|]. change (String a s +:+ t) with (String a (s +:+ t)). cbn. by rewrite IH. Qed.

Lemma QueryUnescape_QueryEscape s : QueryUnescape (QueryEscape s) = s.
Proof.
  unfold QueryUnescape. rewrite <- (String.string_of_list_ascii_of_string s) at 2. f_equal.
  induction s as [|a s IH]; [done|]. cbn [QueryEscape String.list_ascii_of_string]. rewrite list_ascii_app, fmap_app.
  destruct (query_escape_cases a) as [(-> & Hp)|(h & k & -> & x & y & Hx & Hy & <-)].
  - rewrite <- IH. cbn [app]. generalize ((fun a => if Ascii.eqb a "+" then " "%char else a) <$> String.list_ascii_of_string (QueryEscape s)).
    intros [|b [|d t]]; try done. apply Ascii.eqb_neq in Hp. cbn [unescape_bytes]. by rewrite Hp.
  - cbn [app unescape_bytes]. change (Ascii.eqb "%" "%") with true. cbv iota. by rewrite Hx, Hy, IH.
Qed.

(** How the next request fares. *)
Inductive fate := Delivered | RequestLost | AnswerLost.

Record server := mkServer { sv_store : OwnerScopedStore; sv_fates : list fate }.

Definition policies_base : string := "http://persistence/internal/cp/v1/policies".
Definition by_id_prefix : string := policies_base +:+ "/".
Definition scan_prefix : string := policies_base +:+ "?scan_id=".
Definition wallet_prefix : string := "http://persistence/internal/cp/v1/references/wallet?wallet_address=".

Definition caller_of (q : wire_request) : Principal :=
  mkPrincipal (wq_UserID q) (wq_UserID q) (default EmptyString (wq_TenantID q)) None.

Definition refusal_answer (e : goerror) : remote_answer :=
  RemoteAnswer (if decide (e = err_of ErrPolicyNotFound) then StatusNotFound
                else if decide (e = err_of ErrForbidden) then StatusForbidden
                else if decide (e = err_of ErrPolicyAlreadyExists) then StatusConflict
                else StatusBadRequest) (Some EmptyString).

Lemma refusal_refused e : refused e (refusal_answer e).
Proof.
  unfold refusal_answer. eexists _, _. split; [reflexivity|].
  destruct (decide (e = err_of ErrPolicyNotFound)) as [->|]; [constructor|].
  destruct (decide (e = err_of ErrForbidden)) as [->|]; [constructor|].
  destruct (decide (e = err_of ErrPolicyAlreadyExists)) as [->|]; [constructor|].
  constructor; try done. unfold definite. rewrite !elem_of_cons, elem_of_nil. tauto.
Qed.

Definition unavailable_answer : remote_answer := RemoteAnswer StatusServiceUnavailable (Some EmptyString).

Definition text_of (l : list (string * any)) (k : string) : string :=
  match map_get l k with Some (AString s) => s | _ => EmptyString end.

(** The input that a creation carries. *)
Definition input_of (b : option any) : option CreatePolicyInput :=
  match b with
  | Some (AMap l) =>
      t ← ParseRFC3339 (text_of l "wallet_control_verified_at");
      Some (mkCreatePolicyInput (text_of l "scan_id") (text_of l "wallet_address")
              (match map_get l "chain_id" with Some (AInt64 z) => z | _ => 0%Z end)
              (match map_get l "payload" with Some (AMap m) => Some m | _ => None end)
              (text_of l "payload_sha256") EmptyString EmptyString t None None)
  | _ => None
  end.

Definition next_env (s : OwnerScopedStore) : Env :=
  mkEnv zero_time (match s !! "policy-1" with None => Ok "policy-1" | Some _ => Err (errors_New "no id left") end).

Section Server.
Context `{U : Unicode, GS : GoSort, F : GoFloat, RT : RemoteText}.

Fixpoint writable_b (d : nat) (v : any) : bool :=
  match v with
  | ANil | ANilMap | ABool _ | AString _ | AInt64 _ | AInt _ => true
  | AFloat64 f => bool_decide (number_text (float_json f))
  | ANumber s => bool_decide (number_text s)
  | AInt64s _ => match d with O => false | S _ => true end
  | AMap l => match d with O => false | S d' => forallb (fun kx => writable_b d' (snd kx)) l end
  | ASlice l => match d with O => false | S d' => forallb (writable_b d') l end
  end.

Lemma forallb_Forall {A} (f : A -> bool) (P : A -> Prop) l :
  Forall (fun x => f x = true -> P x) l -> forallb f l = true -> Forall P l.
Proof. induction 1 as [|x l Hx _ IH]; [constructor|]. cbn [forallb]. rewrite andb_true_iff. intros [? ?]. constructor; auto. Qed.

Lemma writable_b_ok v : forall d, writable_b d v = true -> writable d v.
Proof.
  induction v as [| | | | | | |l| |l IH|l IH] using any_rect'; intros [|d] H; cbn in H |- *;
    try done; try (by apply bool_decide_eq_true in H); try apply Nat.lt_0_succ;
    revert H; apply forallb_Forall; (eapply Forall_impl; [exact IH|]); auto.
Qed.

(** The document as a text, when it can be told. *)
Definition told (status : Z) (ok : bool) (v : any) : remote_answer :=
  if ok && writable_b (N.to_nat max_nesting_depth) v then RemoteAnswer status (Some (json_marshal v)) else unavailable_answer.

Lemma told_answered status ok v says : (ok = true -> says (doc_of v)) ->
  lost (told status ok v) \/ answered status says (told status ok v).
Proof.
  intros H. unfold told. destruct (ok && writable_b _ v) eqn:E; [right|left; constructor].
  apply andb_true_iff in E as [Ho Hw]. exists (json_marshal v), (doc_of v).
  split_and!; [done|by apply body_of_text_marshal, writable_b_ok|auto].
Qed.

Lemma doc_object names known : object_with names known (doc_of (AMap known)).
Proof.
  rewrite doc_of_map. eexists _, []. split_and!; [done| |constructor]. rewrite app_nil_r, sort_stable_perm. done.
Qed.

Definition wire_text_b (s : string) : bool := String.eqb (to_utf8 s) s && String.eqb (TrimSpace s) s.
Definition wire_time_b (t : time) : bool := ((0 <=? year_of t) && (year_of t <=? 9999))%Z.

Definition wire_record_b (r : PolicyRecord) : bool :=
  forallb wire_text_b [rec_ID r; rec_OwnerUserID r; rec_TenantID r; rec_ScanID r; rec_PayloadSHA256 r; rec_WalletAddress r]
  && in_int64 (rec_ChainID r) && is_ok (mapM interface_member (payload_doc (rec_Payload r)))
  && wire_time_b (rec_CreatedAt r) && wire_time_b (rec_UpdatedAt r).

Definition wire_result_b (r : CreatePolicyResult) : bool :=
  forallb wire_text_b [cr_PolicyID r; cr_ScanID r; cr_WalletAddress r; cr_PayloadSHA256 r]
  && in_int64 (cr_ChainID r) && wire_time_b (cr_PersistedAt r).

Lemma wire_texts_b l : forallb wire_text_b l = true -> Forall wire_text l.
Proof.
  apply forallb_Forall, Forall_true. intros s. unfold wire_text_b. by intros [?%String.eqb_eq ?%String.eqb_eq]%andb_true_iff.
Qed.

Lemma wire_time_b_ok t : wire_time_b t = true -> wire_time t.
Proof. unfold wire_time_b, wire_time. rewrite andb_true_iff, !Z.leb_le. done. Qed.

Lemma wire_record_b_ok r : wire_record_b r = true -> wire_record r.
Proof.
  unfold wire_record_b. rewrite !andb_true_iff. intros [[[[H1 H2] H3] H4] H5].
  split; [by apply wire_texts_b|done|done|by apply wire_time_b_ok|by apply wire_time_b_ok].
Qed.

Lemma wire_result_b_ok r : wire_result_b r = true -> wire_result r.
Proof.
  unfold wire_result_b. rewrite !andb_true_iff. intros [[H1 H2] H3].
  split; [by apply wire_texts_b|done|by apply wire_time_b_ok].
Qed.

Definition row_any (r : PolicyRecord) : any := AMap (row_members r None).

Definition listing_any (l : list PolicyRecord) : any :=
  AMap [("items", ASlice (row_any <$> l)); ("total", AInt64 (Z.of_nat (length l)))].

(** The answer to the result of an operation. *)
Definition reply_to {R} (told_as : R -> remote_answer) (r : gores R) : remote_answer :=
  match r with Ok x => told_as x | Err e => refusal_answer e end.

Definition tell_row (r : PolicyRecord) : remote_answer := told StatusOK (wire_record_b r) (row_any r).
Definition tell_list (l : list PolicyRecord) : remote_answer := told StatusOK (forallb wire_record_b l) (listing_any l).
Definition tell_count (n : WalletTargetContextCounts) : remote_answer :=
  told StatusOK (in_int64 (wc_PolicyCount n)) (AMap (reference_members n)).
Definition tell_created (r : CreatePolicyResult) : remote_answer := told 201%Z (wire_result_b r) (AMap (created_members r)).

Definition carry_out (q : wire_request) (s : OwnerScopedStore) : OwnerScopedStore * remote_answer :=
  let p := caller_of q in
  let id := drop_bytes (len by_id_prefix) (wq_URL q) in
  if String.eqb (wq_Method q) "GET" then
    (s, if HasPrefix (wq_URL q) by_id_prefix then reply_to tell_row (GetPolicy p id s)
        else if HasPrefix (wq_URL q) scan_prefix then
          reply_to tell_list (ListPersistedPoliciesForScan p (QueryUnescape (drop_bytes (len scan_prefix) (wq_URL q))) s)
        else reply_to tell_count (CountActiveWalletCPMContext p (QueryUnescape (drop_bytes (len wallet_prefix) (wq_URL q))) s))
  else if String.eqb (wq_Method q) "DELETE" then
    let '(s', r) := DeletePolicy p id s in
    (s', reply_to (fun _ => RemoteAnswer StatusNoContent (Some EmptyString)) r)
  else
    match input_of (wq_Body q) with
    | None => (s, unavailable_answer)
    | Some i => let '(s', r) := CreatePolicy (next_env s) p i s in (s', reply_to tell_created r)
    end.

#[local] Instance lossy_service : RemoteService server := {|
  serve := fun q w =>
    match sv_fates w with
    | RequestLost :: rest => (mkServer (sv_store w) rest, RemoteFailed)
    | AnswerLost :: rest => (mkServer (fst (carry_out q (sv_store w))) rest, RemoteFailed)
    | Delivered :: rest => let '(s', a) := carry_out q (sv_store w) in (mkServer s' rest, a)
    | [] => let '(s', a) := carry_out q (sv_store w) in (mkServer s' [], a)
    end
|}.

(** Losing messages keeps the contract. *)
Lemma lossy_served {R} (op : OwnerScopedStore -> OwnerScopedStore * gores R) reply q w :
  (let '(s', a) := carry_out q (sv_store w) in served op reply (sv_store w) s' a) ->
  let '(w', a) := serve q w in served op reply (sv_store w) (sv_store w') a.
Proof.
  cbn [serve lossy_service]. destruct (carry_out q (sv_store w)) as [s' a]. intros H.
  destruct (sv_fates w) as [|[] rest]; cbn [sv_store fst]; [done|done|split; [auto|left; constructor]|].
  destruct H as [H _]. split; [done|left; constructor].
Qed.

(** The result told as it is. *)
Lemma told_served {R} (op : OwnerScopedStore -> OwnerScopedStore * gores R) reply told_as s :
  (forall x, lost (told_as x) \/ reply x (told_as x)) ->
  served op reply s (fst (op s)) (reply_to told_as (snd (op s))).
Proof.
  intros H. split; [auto|]. destruct (snd (op s)) as [x|e]; cbn [reply_to].
  - destruct (H x); auto.
  - right. split; [done|apply refusal_refused].
Qed.

Lemma tell_row_ok r : lost (tell_row r) \/ answered StatusOK (row_doc r) (tell_row r).
Proof. apply told_answered. intros Hr. split; [by apply wire_record_b_ok|]. exists None. apply doc_object. Qed.

Lemma tell_count_ok n : lost (tell_count n) \/ answered StatusOK (reference_doc n) (tell_count n).
Proof. apply told_answered. intros Hr. split; [done|]. apply doc_object. Qed.

Lemma tell_created_ok r : lost (tell_created r) \/ answered 201%Z (created_doc r) (tell_created r).
Proof. apply told_answered. intros Hr. split; [by apply wire_result_b_ok|]. apply doc_object. Qed.

Lemma tell_list_ok l : lost (tell_list l) \/ answered StatusOK (list_doc l) (tell_list l).
Proof.
  apply told_answered. intros Hl. unfold listing_any.
  exists (doc_of <$> (row_any <$> l)), [("items", ASlice (doc_of <$> (row_any <$> l))); ("total", doc_of (AInt64 (Z.of_nat (length l))))],
    [("total", doc_of (AInt64 (Z.of_nat (length l))))].
  split_and!; [|done| |].
  - rewrite doc_of_map. change (sort_stable member_less ?x) with x. cbn [fmap list_fmap fst snd].
    rewrite doc_of_slice. by rewrite !to_utf8_ascii by (apply ascii_text_is; reflexivity).
  - repeat constructor. cbn [fst]. rewrite to_utf8_ascii by (apply ascii_text_is; reflexivity).
    by rewrite EqualFold_ascii by (apply ascii_text_is; reflexivity).
  - induction l as [|r l IH]; [constructor|]. cbn [forallb] in Hl. apply andb_true_iff in Hl as [Hr Hl]. rewrite !fmap_cons.
    constructor; [|by apply IH]. split; [by apply wire_record_b_ok|]. exists None. apply doc_object.
Qed.

Definition sample_client : Client := NewClient "http://persistence/" "token".

Definition same_caller (p p' : Principal) : Prop :=
  Principal_Validate p = Ok tt /\ Principal_Validate p' = Ok tt
  /\ pr_UserID p' = pr_UserID p /\ pr_TenantID p' = pr_TenantID p.

Lemma caller_same p method url b : wire_caller p -> same_caller p (caller_of (wire sample_client method url p b)).
Proof.
  intros [Hp Ht]. split; [done|]. unfold caller_of, wire. cbn [wq_UserID wq_TenantID pr_UserID pr_TenantID]. split_and!; [|done|].
  - unfold Principal_Validate in *. cbn [pr_UserID pr_Subject]. by destruct (is_empty (TrimSpace (pr_UserID p))).
  - rewrite Ht. destruct (is_empty (pr_TenantID p)) eqn:E; [|done]. by apply is_empty_spec in E as ->.
Qed.

Lemma same_owns p p' r : same_caller p p' -> owns p' r = owns p r.
Proof. intros (_ & _ & Hu & Ht). unfold owns. by rewrite Hu, Ht. Qed.

Lemma same_get p p' id s : same_caller p p' -> GetPolicy p' id s = GetPolicy p id s.
Proof.
  intros H. pose proof H as (H1 & H2 & _). unfold GetPolicy. rewrite H1, H2.
  destruct (s !! id) as [r|]; [|done]. by rewrite (same_owns p p').
Qed.

Lemma same_delete p p' id s : same_caller p p' -> DeletePolicy p' id s = DeletePolicy p id s.
Proof.
  intros H. pose proof H as (H1 & H2 & _). unfold DeletePolicy. rewrite H1, H2.
  destruct (s !! id) as [r|]; [|done]. by rewrite (same_owns p p').
Qed.

Lemma same_list p p' scanID s : same_caller p p' -> ListPersistedPoliciesForScan p' scanID s = ListPersistedPoliciesForScan p scanID s.
Proof.
  intros H. pose proof H as (H1 & H2 & _). unfold ListPersistedPoliciesForScan. rewrite H1, H2. cbv zeta.
  destruct (is_empty (TrimSpace scanID)); [done|]. do 2 f_equal. apply list_omap_ext, Forall_Forall2_diag, Forall_true.
  intros [id r]. unfold on_scan. by rewrite (same_owns p p').
Qed.

Lemma same_count p p' a s : same_caller p p' -> CountActiveWalletCPMContext p' a s = CountActiveWalletCPMContext p a s.
Proof.
  intros H. pose proof H as (H1 & H2 & _). unfold CountActiveWalletCPMContext, lookupActiveWalletCPMContext. rewrite H1, H2.
  destruct (NormalizeWalletTargetAddress a) as [n|]; [|done]. cbn [mbind res_bind]. cbv zeta.
  rewrite (list_filter_iff _ (fun kv => owns p (snd kv) && String.eqb (walletTargetFromPayload (rec_Payload (snd kv))) n) (range s)); [done|].
  intros kv. by rewrite (same_owns p p').
Qed.

(** A creation depends on these parts of its arguments only. *)
Lemma same_create e p p' i i' s : same_caller p p' ->
  TrimSpace (ci_ScanID i') = TrimSpace (ci_ScanID i) -> TrimSpace (ci_PayloadSHA256 i') = TrimSpace (ci_PayloadSHA256 i) ->
  NormalizeWalletTargetAddress (ci_WalletAddress i') = NormalizeWalletTargetAddress (ci_WalletAddress i) ->
  ci_Payload i' = ci_Payload i -> ci_ChainID i' = ci_ChainID i ->
  ci_WalletControlVerifiedAt i' = ci_WalletControlVerifiedAt i ->
  CreatePolicy e p' i' s = CreatePolicy e p i s.
Proof.
  intros H E1 E2 E3 E4 E5 E6. pose proof H as (H1 & H2 & Hu & Ht).
  assert (create_checks i' = create_checks i) as Hc by (unfold create_checks; by rewrite E1, E2, E3, E4, E5).
  unfold CreatePolicy. rewrite H1, H2, Hc, E6. destruct (create_checks i) as [[[[scanID sha] payload] w]|]; [|done].
  assert (existsb (fun kv => holds_wallet p' w (snd kv)) (range s) = existsb (fun kv => holds_wallet p w (snd kv)) (range s)) as ->.
  { induction (range s) as [|kv l IH]; [done|]. simpl. rewrite IH. unfold holds_wallet. by rewrite (same_owns p p'). }
  destruct (existsb _ (range s)); [done|]. unfold created_record. by rewrite Hu, Ht, E5.
Qed.

Lemma input_of_create e i : wire_time (ci_WalletControlVerifiedAt (timed e i)) ->
  exists i', input_of (Some (create_body e i)) = Some i'
    /\ forall env p p' s, same_caller p p' -> CreatePolicy env p' i' s = CreatePolicy env p (timed e i) s.
Proof.
  intros Ht. unfold input_of, create_body. cbn [app].
  change (text_of _ "wallet_control_verified_at") with (FormatRFC3339Nano (ci_WalletControlVerifiedAt (timed e i))).
  rewrite ParseRFC3339_FormatRFC3339Nano by done. cbn [mbind option_bind]. eexists. split; [reflexivity|].
  intros env p p' s Hs. apply same_create; cbn [ci_ScanID ci_PayloadSHA256 ci_WalletAddress ci_Payload ci_ChainID
    ci_WalletControlVerifiedAt timed]; try done.
  - apply TrimSpace_idem.
  - apply TrimSpace_idem.
  - change (text_of _ "wallet_address") with (TrimSpace (ci_WalletAddress i)).
    unfold NormalizeWalletTargetAddress. by rewrite TrimSpace_idem.
  - change (map_get _ "payload") with (Some (payload_any (ci_Payload i))). by destruct (ci_Payload i).
Qed.

Lemma lossy_get p id w : wire_caller p -> plain_id id ->
  let '(w', a) := serve (wire sample_client "GET" (policyURL sample_client id) p None) w in
  served (reading (GetPolicy p id)) (fun r => answered StatusOK (row_doc r)) (sv_store w) (sv_store w') a.
Proof.
  intros Hp _. apply lossy_served. unfold carry_out. cbn [wq_Method wire]. cbv zeta. change (String.eqb "GET" "GET") with true.
  cbn [wq_URL wire]. change (policyURL sample_client id) with (by_id_prefix +:+ id). rewrite HasPrefix_app, drop_bytes_app.
  rewrite (same_get p) by (by apply caller_same). apply (told_served (reading (GetPolicy p id))), tell_row_ok.
Qed.

Lemma lossy_list p scanID w : wire_caller p -> TrimSpace scanID = scanID -> scanID <> EmptyString ->
  let '(w', a) := serve (wire sample_client "GET" (scan_url sample_client scanID) p None) w in
  served (reading (ListPersistedPoliciesForScan p scanID)) (fun l => answered StatusOK (list_doc l)) (sv_store w) (sv_store w') a.
Proof.
  intros Hp _ _. apply lossy_served. unfold carry_out. cbn [wq_Method wire]. cbv zeta. change (String.eqb "GET" "GET") with true.
  cbn [wq_URL wire]. change (scan_url sample_client scanID) with (scan_prefix +:+ QueryEscape scanID).
  change (HasPrefix (scan_prefix +:+ QueryEscape scanID) by_id_prefix) with false. cbv iota.
  rewrite HasPrefix_app, drop_bytes_app, QueryUnescape_QueryEscape.
  rewrite (same_list p) by (by apply caller_same). apply (told_served (reading (ListPersistedPoliciesForScan p scanID))), tell_list_ok.
Qed.

Lemma lossy_count p wallet w : wire_caller p -> NormalizeWalletTargetAddress wallet = Ok wallet ->
  let '(w', a) := serve (wire sample_client "GET" (wallet_url sample_client wallet) p None) w in
  served (reading (CountActiveWalletCPMContext p wallet)) (fun n => answered StatusOK (reference_doc n)) (sv_store w) (sv_store w') a.
Proof.
  intros Hp _. apply lossy_served. unfold carry_out. cbn [wq_Method wire]. cbv zeta. change (String.eqb "GET" "GET") with true.
  cbn [wq_URL wire]. change (wallet_url sample_client wallet) with (wallet_prefix +:+ QueryEscape wallet).
  change (HasPrefix (wallet_prefix +:+ QueryEscape wallet) by_id_prefix) with false.
  change (HasPrefix (wallet_prefix +:+ QueryEscape wallet) scan_prefix) with false. cbv iota.
  rewrite drop_bytes_app, QueryUnescape_QueryEscape.
  rewrite (same_count p) by (by apply caller_same). apply (told_served (reading (CountActiveWalletCPMContext p wallet))), tell_count_ok.
Qed.

Lemma lossy_delete p id w : wire_caller p -> plain_id id ->
  let '(w', a) := serve (wire sample_client "DELETE" (policyURL sample_client id) p None) w in
  served (DeletePolicy p id) (fun _ => acknowledged) (sv_store w) (sv_store w') a.
Proof.
  intros Hp _. apply lossy_served. unfold carry_out. cbn [wq_Method wire]. cbv zeta.
  change (String.eqb "DELETE" "GET") with false. change (String.eqb "DELETE" "DELETE") with true. cbv iota.
  cbn [wq_URL wire]. change (policyURL sample_client id) with (by_id_prefix +:+ id). rewrite drop_bytes_app.
  rewrite (same_delete p) by (by apply caller_same).
  pose proof (told_served (DeletePolicy p id) (fun _ => acknowledged) (fun _ => RemoteAnswer StatusNoContent (Some EmptyString))
    (sv_store w)) as H. destruct (DeletePolicy p id (sv_store w)) as [s' r]. apply H. intros _. right. by exists EmptyString.
Qed.

Lemma next_fresh s : fresh_id (next_env s) s.
Proof. intros id. unfold next_env. cbn [env_id]. by destruct (s !! "policy-1") eqn:E1; intros [= <-]. Qed.

Lemma lossy_create e p i w : wire_caller p -> wire_time (ci_WalletControlVerifiedAt (timed e i)) ->
  let '(w', a) := serve (wire sample_client "POST" (cl_baseURL sample_client +:+ CPV1Base +:+ CPPolicies) p
    (Some (create_body e i))) w in
  served (CreatePolicy (next_env (sv_store w)) p (timed e i)) (fun r => answered 201%Z (created_doc r)) (sv_store w) (sv_store w') a.
Proof.
  intros Hp Ht. apply lossy_served. unfold carry_out. cbn [wq_Method wire]. cbv zeta.
  change (String.eqb "POST" "GET") with false. change (String.eqb "POST" "DELETE") with false. cbv iota. cbn [wq_Body wire].
  destruct (input_of_create e i Ht) as (i' & -> & Hsame). rewrite (Hsame _ p) by (by apply caller_same).
  pose proof (told_served (CreatePolicy (next_env (sv_store w)) p (timed e i)) (fun r => answered 201%Z (created_doc r)) tell_created
    (sv_store w) tell_created_ok) as H. by destruct (CreatePolicy _ p (timed e i) (sv_store w)).
Qed.

End Server.

#[local] Instance plain_remote_text : RemoteText :=
  {| url_error := fun _ => None; time_error := fun s => "cannot parse " +:+ s |}.
#[local] Instance keep_destination : FailedDecode := {| leftover := fun A _ dst => dst |}.
#[local] Existing Instance lossy_service.

#[local] Instance lossy_CafePersistence `{U : Unicode, GS : GoSort, F : GoFloat} : CafePersistence server sample_client := {|
  contents := sv_store;
  service_env := fun w => next_env (sv_store w);
  ids_fresh := fun w => next_fresh (sv_store w);
  url_by_id := fun _ _ => eq_refl;
  url_policies := eq_refl;
  url_scan := fun _ => eq_refl;
  url_wallet := fun _ => eq_refl;
  served_get := lossy_get;
  served_list := lossy_list;
  served_count := lossy_count;
  served_delete := lossy_delete;
  served_create := lossy_create
|}.


Lemma alice_tenant : TrimSpace (pr_TenantID alice) = pr_TenantID alice.
Proof. vm_compute. reflexivity. Qed.

Lemma policy_1_plain : plain_id "policy-1".
Proof. split; [discriminate|]. by repeat constructor. Qed.

Definition one_policy (fates : list fate) : server :=
  mkServer (fst (CreatePolicy (mkEnv 1000%Z (Ok "policy-1")) alice sample_create ∅)) fates.

(** A policy is read at once; a listing is answered on the second attempt.  The answer to a deletion is
    lost: the client repeats the request, is told that there is no such policy,
    and the policy is gone. *)
Lemma remote_refines_witness :
  Remote_GetPolicy sample_client alice "policy-1" (one_policy [])
    = (one_policy [], seen <$> GetPolicy alice "policy-1" (sv_store (one_policy [])))
  /\ (exists r, snd (Remote_ListPersistedPoliciesForScan sample_client alice (ci_ScanID sample_create) (one_policy [RequestLost]))
     = Ok [seen r] /\ sv_store (one_policy []) !! rec_ID r = Some r)
  /\ let '(w', r) := Remote_DeletePolicy sample_client alice "policy-1" (one_policy [AnswerLost]) in
     r = Err (err_of ErrPolicyNotFound) /\ contents w' = delete "policy-1" (sv_store (one_policy [])).
Proof.
  destruct (remote_refines sample_client alice alice_tenant) as (HG & HL & _ & _ & HD). split_and!.
  - specialize (HG "policy-1" (one_policy []) policy_1_plain).
    destruct (Remote_GetPolicy sample_client alice "policy-1" (one_policy [])) as [w' r] eqn:E. destruct HG as [_ HG].
    assert (Hw : w' = one_policy []) by (apply (f_equal fst) in E; cbn [fst] in E; rewrite <- E; vm_compute; reflexivity).
    rewrite Hw. f_equal. apply (f_equal snd) in HG; [symmetry; exact HG|].
    eexists _, _. split; [vm_compute; reflexivity|]. split; [discriminate|vm_compute; discriminate].
  - specialize (HL (ci_ScanID sample_create) (one_policy [RequestLost])).
    destruct (Remote_ListPersistedPoliciesForScan sample_client alice _ (one_policy [RequestLost])) as [w' r] eqn:E.
    cbn [snd]. destruct HL as [[_ [HL|[_ HL]]] _].
    + exfalso. apply (f_equal (fun x => is_ok (snd x))) in E. cbn [snd] in E. rewrite HL in E. vm_compute in E. discriminate.
    + eexists. split; [rewrite HL; reflexivity|]. vm_compute. reflexivity.
  - specialize (HD "policy-1" (one_policy [AnswerLost]) policy_1_plain).
    destruct (Remote_DeletePolicy sample_client alice "policy-1" (one_policy [AnswerLost])) as [w' r] eqn:E.
    assert (Hr : r = Err (err_of ErrPolicyNotFound)).
    { apply (f_equal snd) in E. cbn [snd] in E. rewrite <- E. vm_compute. reflexivity. }
    split; [exact Hr|]. rewrite Hr in HD. destruct HD as [[[_ [HD|[_ HD]]]|[HD _]] _]; [discriminate|vm_compute in HD; discriminate|].
    change (contents w') with (sv_store w') in *. apply (f_equal fst) in HD. cbn [fst] in HD. symmetry. exact HD.
Defined.

(** A creation whose request is lost is not repeated. *)
Example lost_create_not_repeated :
  sv_store (fst (Remote_CreatePolicy sample_client (mkEnv 1000%Z (Ok EmptyString)) alice sample_create (mkServer ∅ [RequestLost]))) = ∅.
Proof. vm_compute. reflexivity. Qed.
