(* ===== verification/Handlers.v ===== *)
(** * Wallet and owner handlers

    [internal/app]: the wallet challenge, the signed persist, and the owner's
    read and delete routes, composed from the payload hash, the wallet
    authorisation, the persist gate and the policy store.

    A handler is a function of the request (with the principal the middleware
    put in its context), the configuration, the store and what it takes from
    outside: the clock at each of its readings, the next request id and the next
    policy id.  Log lines and metrics are not modelled. *)

From stdpp Require Import base gmap sets list strings.
From Stdlib Require Import Ascii ZArith NArith Lia.
From S2P Require Import Prelude GoStrings GoUnicode Errors GoAny GoFloat GoTime Manifest Registry Compat CryptoPolicy Sha256 PayloadHash Snapshot PersistGate WalletTarget WalletAuth OwnerStore Routes Http Upstream Auth.
Local Open Scope string_scope.
Local Open Scope list_scope.

(** [t.Truncate(time.Second)]. *)
Definition truncate_second (t : time) : time := (t / second_ns * second_ns)%Z.

(** ** Codes *)

Definition walletAuthCodeAddressRequired : string := "WALLET_ADDRESS_REQUIRED".
Definition walletAuthCodeInvalidAddress : string := "INVALID_WALLET_ADDRESS".
Definition walletAuthCodeChainIDRequired : string := "CHAIN_ID_REQUIRED".
Definition walletAuthCodeScanNotFound : string := "SCAN_NOT_FOUND".
Definition walletAuthCodeActionRequired : string := "WALLET_AUTHORIZATION_ACTION_MISMATCH".
Definition walletAuthCodeControlProofRequired : string := "WALLET_CONTROL_PROOF_REQUIRED".
Definition walletAuthCodePolicyAlreadyExists : string := "POLICY_ALREADY_EXISTS".

Definition mapWalletAuthorizationVerificationError (e : VerificationError) : Z * string * string :=
  let code := ve_Code e in
  let message := VerificationError_Error (Some e) in
  if is_empty code then (StatusBadRequest, walletAuthCodeControlProofRequired, message)
  else
    let status :=
      if existsb (String.eqb code) [CodeWalletControlProofRequired; CodeWalletAuthorizationNotYetValid;
           CodeWalletAuthorizationValidityLong; CodePayloadSHA256Mismatch] then StatusBadRequest
      else if existsb (String.eqb code) [CodeInvalidWalletSignature; CodeWalletSignatureAddressMismatch]
      then StatusUnauthorized
      else if String.eqb code CodeWalletAuthorizationExpired then StatusGone
      else if existsb (String.eqb code) [CodeWalletAuthorizationScanMismatch; CodeWalletAuthorizationWalletMismatch;
           CodeWalletAuthorizationChainMismatch; CodeWalletAuthorizationActionMismatch] then StatusConflict
      else StatusBadRequest in
    (status, code, message).

(** ** Requests *)

Record walletChallengeRequest := mkChallengeRequest {
  wcr_WalletAddress : string;
  wcr_ChainID : Z;
  wcr_ScanID : string;
  wcr_Action : string;
  wcr_Payload : option any       (** the raw member, when there is one *)
}.

Record policyPersistRequest := mkPersistRequest {
  ppr_WalletAddress : string;
  ppr_ChainID : Z;
  ppr_ScanID : string;
  ppr_SignedMessage : string;
  ppr_Signature : string;
  ppr_Payload : option any;
  ppr_PayloadSHA256 : string
}.

Record walletChallengeDecodeError := mkChallengeError { wde_code : string; wde_message : string }.
Record policyPersistDecodeError := mkPersistError { pde_code : string; pde_message : string; pde_status : Z }.

(** What a handler takes from outside. *)
Record HandlerEnv := mkHandlerEnv {
  he_generated : string;     (** the next request id *)
  he_now : time;             (** the first reading of the clock *)
  he_later : time;           (** the second *)
  he_policyID : gores string
}.

(** [hex.EncodeToString(accounts.TextHash(message))] of go-ethereum. *)
Class EthText := { text_hash_hex : string -> string }.

Definition missing_payload (p : option any) : bool :=
  match p with None | Some ANil => true | _ => false end.

Section Handlers.
Context `{U : Unicode, GS : GoSort, F : GoFloat, JT : JCS, GJ : GoJson, E : EthCrypto, ET : EthText, D : Discovery}.

Definition challenge_fields : list (string * decoder walletChallengeRequest) :=
  [("wallet_address", field wcr_WalletAddress (fun x '(mkChallengeRequest a b c d e) => mkChallengeRequest x b c d e) dec_string);
   ("chain_id", field wcr_ChainID (fun x '(mkChallengeRequest a b c d e) => mkChallengeRequest a x c d e) dec_int64);
   ("scan_id", field wcr_ScanID (fun x '(mkChallengeRequest a b c d e) => mkChallengeRequest a b x d e) dec_string);
   ("action", field wcr_Action (fun x '(mkChallengeRequest a b c d e) => mkChallengeRequest a b c x e) dec_string);
   ("payload", field wcr_Payload (fun x '(mkChallengeRequest a b c d e) => mkChallengeRequest a b c d x) dec_raw)].

Definition persist_fields : list (string * decoder policyPersistRequest) :=
  [("wallet_address", field ppr_WalletAddress (fun x '(mkPersistRequest a b c d e f g) => mkPersistRequest x b c d e f g) dec_string);
   ("chain_id", field ppr_ChainID (fun x '(mkPersistRequest a b c d e f g) => mkPersistRequest a x c d e f g) dec_int64);
   ("scan_id", field ppr_ScanID (fun x '(mkPersistRequest a b c d e f g) => mkPersistRequest a b x d e f g) dec_string);
   ("signed_message", field ppr_SignedMessage (fun x '(mkPersistRequest a b c d e f g) => mkPersistRequest a b c x e f g) dec_string);
   ("signature", field ppr_Signature (fun x '(mkPersistRequest a b c d e f g) => mkPersistRequest a b c d x f g) dec_string);
   ("payload", field ppr_Payload (fun x '(mkPersistRequest a b c d e f g) => mkPersistRequest a b c d e x g) dec_raw);
   ("payload_sha256", field ppr_PayloadSHA256 (fun x '(mkPersistRequest a b c d e f g) => mkPersistRequest a b c d e f x) dec_string)].

Definition zero_challenge : walletChallengeRequest := mkChallengeRequest EmptyString 0 EmptyString EmptyString None.
Definition zero_persist : policyPersistRequest :=
  mkPersistRequest EmptyString 0 EmptyString EmptyString EmptyString None EmptyString.

Definition decodeWalletChallengeRequest (r : Request) : res walletChallengeDecodeError walletChallengeRequest :=
  match decode_stream challenge_fields (rq_Body r) zero_challenge with
  | None => Err (mkChallengeError walletAuthCodeAddressRequired "request body must be a JSON object")
  | Some req =>
      fail_if is_empty (TrimSpace (wcr_WalletAddress req))
        with mkChallengeError walletAuthCodeAddressRequired "wallet_address is required" ;;
      fail_if (wcr_ChainID req <? 1)%Z with mkChallengeError walletAuthCodeChainIDRequired "chain_id is required" ;;
      fail_if is_empty (TrimSpace (wcr_ScanID req))
        with mkChallengeError walletAuthCodeScanNotFound "scan_id is required" ;;
      fail_if missing_payload (wcr_Payload req)
        with mkChallengeError persistCodeCryptoPolicyPayloadInvalid "payload is required" ;;
      let action := TrimSpace (wcr_Action req) in
      fail_if is_empty action with mkChallengeError walletAuthCodeActionRequired "action is required" ;;
      fail_if negb (String.eqb action ActionPersistCryptoPolicy)
        with mkChallengeError walletAuthCodeActionRequired "unsupported authorization action" ;;
      Ok req
  end.

Definition decodePolicyPersistRequest (r : Request) : res policyPersistDecodeError policyPersistRequest :=
  match decode_stream persist_fields (rq_Body r) zero_persist with
  | None => Err (mkPersistError walletAuthCodeControlProofRequired "request body must be a JSON object" StatusBadRequest)
  | Some req =>
      fail_if is_empty (TrimSpace (ppr_WalletAddress req))
        with mkPersistError walletAuthCodeAddressRequired "wallet_address is required" StatusBadRequest ;;
      fail_if (ppr_ChainID req <? 1)%Z
        with mkPersistError walletAuthCodeChainIDRequired "chain_id is required" StatusBadRequest ;;
      fail_if is_empty (TrimSpace (ppr_ScanID req))
        with mkPersistError walletAuthCodeScanNotFound "scan_id is required" StatusBadRequest ;;
      fail_if missing_payload (ppr_Payload req)
        with mkPersistError persistCodeCryptoPolicyPayloadInvalid "payload is required" StatusBadRequest ;;
      Ok req
  end.

Definition cryptoPolicyPayloadInvalidMessage (e : HashError) : string :=
  if negb (is_empty (he_Message e)) then he_Message e
  else if negb (is_empty (HashError_Error (Some e))) then HashError_Error (Some e)
  else "crypto policy payload is invalid".

Definition walletAuthDomain (r : Request) (cfg : authConfig) : string :=
  let domain := TrimSpace (ac_WalletAuthDomain cfg) in
  if negb (is_empty domain) then domain
  else
    let host := TrimSpace (rq_Host r) in
    if negb (is_empty host) then
      match Index host ":" with
      | Some i => if Nat.ltb 0 i then take_bytes i host else host
      | None => host
      end
    else "localhost".

(** The value of a payload member. *)
Definition payload_value (p : option any) : any := default ANil p.

Definition principal_missing (requestID : string) : Response :=
  writeAuthError requestID StatusUnauthorized authCodePrincipalRequired errMsgAuthenticationRequired
    (reasonDetails authReasonPrincipalMissing).

(** ** Wallet challenges *)

Definition handleWalletChallenge (env : HandlerEnv) (r : Request) (cfg : authConfig) : Response :=
  let requestID := ensureRequestID (he_generated env) r in
  let fail := writeWalletAuthorizationError requestID in
  match rq_Principal r with
  | None => principal_missing requestID
  | Some _ =>
      match decodeWalletChallengeRequest r with
      | Err e => fail StatusBadRequest (wde_code e) (wde_message e)
      | Ok req =>
          match NormalizeWalletTargetAddress (wcr_WalletAddress req) with
          | Err _ => fail StatusBadRequest walletAuthCodeInvalidAddress "wallet address is invalid"
          | Ok normWallet =>
              match NormalizeDiscoveryScanID (wcr_ScanID req) with
              | Err _ => fail StatusBadRequest walletAuthCodeScanNotFound errMsgScanNotFound
              | Ok normScanID =>
                  match ensureOwnerScopedW2 r cfg requestID normWallet normScanID with
                  | Err e => fail (w2_status e) (w2_code e) (w2_message e)
                  | Ok _ =>
                      match DigestCanonicalJSON (payload_value (wcr_Payload req)) with
                      | Err e => fail StatusBadRequest persistCodeCryptoPolicyPayloadInvalid
                                   (cryptoPolicyPayloadInvalidMessage e)
                      | Ok (digest, _) =>
                          let issuedAt := truncate_second (he_now env) in
                          let expiresAt := (issuedAt + MaxValidityWindow)%Z in
                          let message := BuildMessage (mkFields (walletAuthDomain r cfg)
                            ActionPersistCryptoPolicy normWallet (wcr_ChainID req) normScanID digest
                            issuedAt expiresAt) in
                          writeJSON StatusOK (AMap [
                            ("message", AString message);
                            ("wallet_address", AString normWallet);
                            ("chain_id", AInt64 (wcr_ChainID req));
                            ("scan_id", AString normScanID);
                            ("action", AString ActionPersistCryptoPolicy);
                            ("payload_sha256", AString digest);
                            ("issued_at", AString (FormatRFC3339 issuedAt));
                            ("expires_at", AString (FormatRFC3339 expiresAt))])
                      end
                  end
              end
          end
      end
  end.

(** ** Signed persist *)

Context {S : Type} `{PS : PolicyStore S}.

(** The clock skew a persist request is granted. *)
Definition persist_skew (cfg : authConfig) : Z :=
  let skew := wrap64 (ac_ClockSkewSec cfg * second_ns) in
  if (skew <=? 0)%Z then DefaultClockSkew else skew.

(** The expected bindings of a persist request. *)
Definition persist_verify_input (env : HandlerEnv) (r : Request) (cfg : authConfig) (req : policyPersistRequest)
    (normWallet normScanID digest : string) : VerifyInput :=
  mkVerifyInput (walletAuthDomain r cfg) normWallet (ppr_ChainID req) normScanID digest
    (ppr_SignedMessage req) (ppr_Signature req) (he_now env) (persist_skew cfg).

Definition persist_create_input (env : HandlerEnv) (req : policyPersistRequest) (parsed : Fields)
    (normWallet normScanID digest : string) (canonical : list (string * any)) : CreatePolicyInput :=
  mkCreatePolicyInput normScanID normWallet (ppr_ChainID req) (Some canonical) digest
    (text_hash_hex (ppr_SignedMessage req)) "eoa_signature" (he_later env)
    (Some (fd_IssuedAt parsed)) (Some (fd_ExpiresAt parsed)).

(** The answer to what the store said. *)
Definition persist_answer (requestID : string) (r : gores CreatePolicyResult) : Response :=
  let fail := writeWalletAuthorizationError requestID in
  match r with
  | Err e =>
      if errors_Is e ErrPolicyAlreadyExists
      then fail StatusConflict walletAuthCodePolicyAlreadyExists
             "an active crypto policy already exists for this wallet"
      else if errors_Is e ErrPersistenceUnavailable
      then fail StatusServiceUnavailable errCodePersistenceUnavailable "persistence is temporarily unavailable"
      else fail StatusInternalServerError errCodeInternalError errMsgInternalServerError
  | Ok result =>
      writeJSON StatusOK (AMap [
        ("policy_id", AString (cr_PolicyID result));
        ("scan_id", AString (cr_ScanID result));
        ("wallet_address", AString (cr_WalletAddress result));
        ("chain_id", AInt64 (cr_ChainID result));
        ("status", AString "persisted");
        ("ownership_status", AString "verified");
        ("wallet_control_method", AString "eoa_signature");
        ("payload_sha256", AString (cr_PayloadSHA256 result));
        ("persisted_at", AString (FormatRFC3339 (cr_PersistedAt result)))])
  end.

(** The checks up to the wallet's signature: who asks for what, or the answer. *)
Definition persist_authorised (env : HandlerEnv) (r : Request) (cfg : authConfig)
    : res Response (Principal * policyPersistRequest * string * string * string * list (string * any)) :=
  let requestID := ensureRequestID (he_generated env) r in
  let fail status code message := Err (writeWalletAuthorizationError requestID status code message) in
  match rq_Principal r with
  | None => Err (principal_missing requestID)
  | Some principal =>
      match decodePolicyPersistRequest r with
      | Err e => fail (pde_status e) (pde_code e) (pde_message e)
      | Ok req =>
          if is_empty (TrimSpace (ppr_SignedMessage req)) || is_empty (TrimSpace (ppr_Signature req))
          then fail StatusForbidden walletAuthCodeControlProofRequired errMsgWalletControlProofRequired
          else
          match NormalizeWalletTargetAddress (ppr_WalletAddress req) with
          | Err _ => fail StatusBadRequest walletAuthCodeInvalidAddress "wallet address is invalid"
          | Ok normWallet =>
          match NormalizeDiscoveryScanID (ppr_ScanID req) with
          | Err _ => fail StatusBadRequest walletAuthCodeScanNotFound errMsgScanNotFound
          | Ok normScanID =>
          match ensureOwnerScopedW2 r cfg requestID normWallet normScanID with
          | Err e => fail (w2_status e) (w2_code e) (w2_message e)
          | Ok _ =>
          match DigestCanonicalJSON (payload_value (ppr_Payload req)) with
          | Err e => fail StatusBadRequest persistCodeCryptoPolicyPayloadInvalid
                       (cryptoPolicyPayloadInvalidMessage e)
          | Ok (digest, canonical) =>
          match VerifyAuthorization (he_now env)
                  (persist_verify_input env r cfg req normWallet normScanID digest) with
          | Err e => let '(status, code, message) := mapWalletAuthorizationVerificationError e in
                     fail status code message
          | Ok _ => Ok (principal, req, normWallet, normScanID, digest, canonical)
          end end end end end
      end
  end.

(** Every check before the store is touched: the create input, or the answer. *)
Definition persist_checks (env : HandlerEnv) (r : Request) (cfg : authConfig)
    : res Response (Principal * CreatePolicyInput) :=
  let requestID := ensureRequestID (he_generated env) r in
  let fail status code message := Err (writeWalletAuthorizationError requestID status code message) in
  match persist_authorised env r cfg with
  | Err resp => Err resp
  | Ok (principal, req, normWallet, normScanID, digest, canonical) =>
      match ValidatePayloadForPersist (Some canonical) with
      | Err e => let '(status, code, message) := mapPersistProviderGateError e in
                 fail (Z.of_nat status) code message
      | Ok _ =>
      match ParseMessage (ppr_SignedMessage req) with
      | Err _ => fail StatusBadRequest walletAuthCodeControlProofRequired errMsgWalletControlProofRequired
      | Ok parsed => Ok (principal, persist_create_input env req parsed normWallet normScanID digest canonical)
      end end
  end.

Definition handlePolicyPersist (env : HandlerEnv) (r : Request) (cfg : authConfig) (s : S) : S * Response :=
  match persist_checks env r cfg with
  | Err resp => (s, resp)
  | Ok (principal, input) =>
      let '(s', result) := st_CreatePolicy (mkEnv (he_later env) (he_policyID env)) principal input s in
      (s', persist_answer (ensureRequestID (he_generated env) r) result)
  end.

(** ** The owner's routes *)

(** The public form of a record; empty optional fields are left out. *)
Definition policyRecordResponseFromStore (record : PolicyRecord) : any :=
  let scan := TrimSpace (rec_ScanID record) in
  let sha := TrimSpace (rec_PayloadSHA256 record) in
  AMap ([("id", AString (rec_ID record))]
    ++ (if is_empty scan then [] else [("scan_id", AString scan)])
    ++ [("payload", match rec_Payload record with Some m => AMap m | None => ANilMap end)]
    ++ (if is_empty sha then [] else [("payload_sha256", AString sha)])
    ++ [("created_at", AString (FormatRFC3339Nano (rec_CreatedAt record)));
        ("updated_at", AString (FormatRFC3339Nano (rec_UpdatedAt record)))]).

Definition policyRecordResponsesFromStore (list : list PolicyRecord) : any :=
  ASlice (policyRecordResponseFromStore <$> list).

Definition error_json (text : string) : any := AMap [(jsonKeyError, AString text)].

Definition mapPersistenceError (requestID : string) (err : goerror) : Response :=
  if errors_Is err ErrForbidden
  then writeAuthError requestID StatusForbidden authCodeOwnerForbidden "owner access denied"
         (reasonDetails "owner_forbidden")
  else if errors_Is err ErrPolicyNotFound then writeJSON StatusNotFound (error_json errMsgNotFound)
  else if errors_Is err ErrPersistenceUnavailable
  then writeJSON StatusServiceUnavailable
         (apiErrorJSON errCodePersistenceUnavailable "persistence is temporarily unavailable")
  else if errors_Is err ErrUnsupportedStoreOperation
  then writeJSON StatusUnprocessableEntity
         (apiErrorJSON errCodeInternalError "operation is not supported when CPM_STORE=persistence")
  else if errors_Is err ErrPrincipalRequired then principal_missing requestID
  else writeJSON StatusInternalServerError (error_json errMsgInternalServerError).

(** What the routes answer once the store has. *)
Definition get_answer (requestID : string) (result : gores PolicyRecord) : Response :=
  match result with
  | Err err => mapPersistenceError requestID err
  | Ok record => writeJSON StatusOK (policyRecordResponseFromStore record)
  end.

Definition list_answer (result : gores (list PolicyRecord)) : Response :=
  match result with
  | Err err =>
      if errors_Is err ErrPrincipalRequired
      then writeJSON StatusBadRequest (error_json (e_text err))
      else writeJSON StatusInternalServerError (error_json errMsgInternalServerError)
  | Ok list =>
      let total := Z.of_nat (length list) in
      let limit := if (total <? 1)%Z then 1%Z else total in
      writeJSON StatusOK (AMap [("items", policyRecordResponsesFromStore list);
        ("total", AInt total); ("limit", AInt limit); ("offset", AInt 0)])
  end.

Definition delete_answer (requestID : string) (result : gores unit) : Response :=
  match result with
  | Ok _ => mkResponse StatusNoContent None
  | Err err =>
      if errors_Is err ErrPolicyNotFound || errors_Is err ErrForbidden
      then writeJSON StatusNotFound (error_json errMsgNotFound)
      else if errors_Is err ErrPrincipalRequired then principal_missing requestID
      else writeJSON StatusInternalServerError (error_json errMsgInternalServerError)
  end.

Definition wallet_answer (norm : string) (result : gores WalletTargetContextCounts) : Response :=
  match result with
  | Err err =>
      if errors_Is err ErrPersistenceUnavailable
      then writeJSON StatusServiceUnavailable
             (apiErrorJSON errCodePersistenceUnavailable "persistence is temporarily unavailable")
      else writeJSON StatusInternalServerError (error_json errMsgInternalServerError)
  | Ok counts =>
      writeJSON StatusOK (AMap [("exists", ABool (wc_Exists counts));
        ("policy_count", AInt (wc_PolicyCount counts)); ("target_address", AString norm)])
  end.

Definition handleOwnerGETPolicies (env : HandlerEnv) (r : Request) (s : S) : S * Response :=
  let requestID := ensureRequestID (he_generated env) r in
  match rq_Principal r with
  | None => (s, principal_missing requestID)
  | Some principal =>
      let id := TrimSpace (Query_Get r "id") in
      let scanID := TrimSpace (Query_Get r "scan_id") in
      if negb (is_empty id) && negb (is_empty scanID)
      then (s, writeJSON StatusBadRequest (error_json "id and scan_id are mutually exclusive"))
      else if is_empty id && is_empty scanID
      then (s, writeJSON StatusBadRequest (error_json "exactly one of id or scan_id is required"))
      else if negb (is_empty id) then
        let '(s', result) := st_GetPolicy principal id s in
        (s', get_answer requestID result)
      else
        match NormalizeDiscoveryScanID scanID with
        | Err _ => (s, writeJSON StatusBadRequest (error_json "scan_id must be a valid UUID"))
        | Ok norm =>
            let '(s', result) := st_ListPersistedPoliciesForScan principal norm s in
            (s', list_answer result)
        end
  end.

Definition handleOwnerDELETEPolicies (env : HandlerEnv) (r : Request) (s : S) : S * Response :=
  let requestID := ensureRequestID (he_generated env) r in
  match rq_Principal r with
  | None => (s, principal_missing requestID)
  | Some principal =>
      let id := TrimSpace (Query_Get r "id") in
      if is_empty id then (s, writeJSON StatusBadRequest (error_json errMsgIDRequired))
      else
        let '(s', result) := st_DeletePolicy principal id s in
        (s', delete_answer requestID result)
  end.

Definition handleOwnerGETWalletTargetContext (env : HandlerEnv) (r : Request) (s : S) : S * Response :=
  let requestID := ensureRequestID (he_generated env) r in
  match rq_Principal r with
  | None => (s, principal_missing requestID)
  | Some principal =>
      let raw := TrimSpace (Query_Get r "target_address") in
      if is_empty raw
      then (s, writeJSON StatusBadRequest
             (apiErrorJSON "TARGET_ADDRESS_REQUIRED" "target_address query parameter is required"))
      else
        match NormalizeWalletTargetAddress raw with
        | Err normErr => (s, writeJSON StatusBadRequest (apiErrorJSON "TARGET_ADDRESS_INVALID" (e_text normErr)))
        | Ok norm =>
            let '(s', result) := st_CountActiveWalletCPMContext principal norm s in
            (s', wallet_answer norm result)
        end
  end.

End Handlers.

(** ** Facts *)

Section HandlerSpec.
Context `{U : Unicode, GS : GoSort, F : GoFloat, JT : JCS, GJ : GoJson, E : EthCrypto, ET : EthText, D : Discovery}.

(** The checks a persist request passes before the store is asked. *)
Record persist_passed (env : HandlerEnv) (r : Request) (cfg : authConfig) (p : Principal)
    (req : policyPersistRequest) (w scan digest : string) (canonical : list (string * any)) (parsed : Fields) : Prop := {
  pp_principal : rq_Principal r = Some p;
  pp_decoded : decodePolicyPersistRequest r = Ok req;
  pp_wallet : NormalizeWalletTargetAddress (ppr_WalletAddress req) = Ok w;
  pp_scan : NormalizeDiscoveryScanID (ppr_ScanID req) = Ok scan;
  pp_latest : ensureOwnerScopedW2 r cfg (ensureRequestID (he_generated env) r) w scan = Ok tt;
  pp_digest : DigestCanonicalJSON (payload_value (ppr_Payload req)) = Ok (digest, canonical);
  pp_signed : VerifyAuthorization (he_now env) (persist_verify_input env r cfg req w scan digest) = Ok tt;
  pp_gate : ValidatePayloadForPersist (Some canonical) = Ok tt;
  pp_parsed : ParseMessage (ppr_SignedMessage req) = Ok parsed
}.

Lemma VerifyAuthorization_proof clock i : VerifyAuthorization clock i = Ok tt ->
  is_empty (TrimSpace (vi_SignedMessage i)) || is_empty (TrimSpace (vi_Signature i)) = false.
Proof. unfold VerifyAuthorization. by intros [H _]%fail_if_ok. Qed.

(** The part of it that precedes the gate. *)
Lemma persist_authorised_ok env r cfg p req w scan digest canonical :
  persist_authorised env r cfg = Ok (p, req, w, scan, digest, canonical) <->
  rq_Principal r = Some p /\ decodePolicyPersistRequest r = Ok req
  /\ NormalizeWalletTargetAddress (ppr_WalletAddress req) = Ok w
  /\ NormalizeDiscoveryScanID (ppr_ScanID req) = Ok scan
  /\ ensureOwnerScopedW2 r cfg (ensureRequestID (he_generated env) r) w scan = Ok tt
  /\ DigestCanonicalJSON (payload_value (ppr_Payload req)) = Ok (digest, canonical)
  /\ VerifyAuthorization (he_now env) (persist_verify_input env r cfg req w scan digest) = Ok tt.
Proof.
  unfold persist_authorised. split.
  - destruct (rq_Principal r) as [p'|]; [|done].
    destruct (decodePolicyPersistRequest r) as [req'|]; [|done].
    destruct (_ || _); [done|].
    destruct (NormalizeWalletTargetAddress _) as [w'|] eqn:Hw; [|done].
    destruct (NormalizeDiscoveryScanID _) as [scan'|] eqn:Hs; [|done].
    destruct (ensureOwnerScopedW2 _ _ _ _ _) as [[]|] eqn:H2; [|done].
    destruct (DigestCanonicalJSON _) as [[digest' canonical']|] eqn:Hd; [|done].
    destruct (VerifyAuthorization _ _) as [[]|e] eqn:Hv.
    2:{ by destruct (mapWalletAuthorizationVerificationError e) as [[? ?] ?]. }
    intros [= <- <- <- <- <- <-]. by split_and!.
  - intros (Hp & Hreq & Hw & Hs & H2 & Hd & Hv).
    pose proof (VerifyAuthorization_proof _ _ Hv) as Hne. cbn [persist_verify_input vi_SignedMessage vi_Signature] in Hne.
    by rewrite Hp, Hreq, Hne, Hw, Hs, H2, Hd, Hv.
Qed.

Lemma persist_checks_ok env r cfg p i : persist_checks env r cfg = Ok (p, i) <->
  exists req w scan digest canonical parsed, persist_passed env r cfg p req w scan digest canonical parsed
    /\ i = persist_create_input env req parsed w scan digest canonical.
Proof.
  unfold persist_checks. split.
  - destruct (persist_authorised env r cfg) as [[[[[[p' req] w] scan] digest] canonical]|] eqn:Ha; [|done].
    apply persist_authorised_ok in Ha as (Hp & Hreq & Hw & Hs & H2 & Hd & Hv).
    destruct (ValidatePayloadForPersist _) as [[]|e] eqn:Hg.
    2:{ by destruct (mapPersistProviderGateError e) as [[? ?] ?]. }
    destruct (ParseMessage _) as [parsed|] eqn:Hm; [|done]. intros [= <- <-].
    exists req, w, scan, digest, canonical, parsed. by split.
  - intros (req & w & scan & digest & canonical & parsed & [Hp Hreq Hw Hs H2 Hd Hv Hg Hm] & ->).
    assert (persist_authorised env r cfg = Ok (p, req, w, scan, digest, canonical)) as ->
      by (apply persist_authorised_ok; by split_and!).
    by rewrite Hg, Hm.
Qed.

Lemma persist_create_checks env req parsed w scan digest canonical :
  canonical_address w -> TrimSpace scan = scan -> scan <> EmptyString ->
  TrimSpace digest = digest -> digest <> EmptyString -> (1 <= ppr_ChainID req)%Z ->
  create_checks (persist_create_input env req parsed w scan digest canonical) = Ok (scan, digest, canonical, w).
Proof.
  intros Hw Hs1 Hs2 Hd1 Hd2 Hc. apply create_checks_ok. cbn [persist_create_input ci_ScanID ci_PayloadSHA256 ci_Payload ci_ChainID ci_WalletAddress].
  split_and!; try done. by apply canonical_normalize.
Qed.

Lemma hex64_solid d : is_hex64 d -> all_solid d /\ d <> EmptyString.
Proof.
  intros [Hl H]. split; [|by intros ->]. unfold all_solid. eapply Forall_impl; [exact H|].
  intros a (n & Hn & ->). rewrite <- (N2Z.id n). assert (0 <= Z.of_N n < 16)%Z as Hz by lia. revert Hz.
  generalize (Z.of_N n). apply (Z_below_ind 16). by repeat constructor.
Qed.

Lemma digest_solid raw d c : DigestCanonicalJSON raw = Ok (d, c) -> all_solid d /\ d <> EmptyString.
Proof. intros (root & _ & H)%DigestCanonicalJSON_ok. apply DigestCanonical_ok in H as (? & ? & ? & _ & _ & _ & _ & ->). apply hex64_solid, sha256_hex_is_hex. Qed.

Lemma all_solid_newline_free s : all_solid s -> newline_free s.
Proof.
  intros H. unfold newline_free. rewrite (all_solid_trimmed _ H). by apply all_solid_no_byte.
Qed.

Lemma decoded_chain r req : decodePolicyPersistRequest r = Ok req -> (1 <= ppr_ChainID req)%Z.
Proof.
  unfold decodePolicyPersistRequest. destruct (decode_stream _ _ _); [|done].
  rewrite !fail_if_ok, Z.ltb_ge. intros (_ & H & _ & _ & [= <-]). done.
Qed.

(** What the checks leave for the store. *)
Lemma persist_passed_create env r cfg p req w scan digest canonical parsed :
  persist_passed env r cfg p req w scan digest canonical parsed ->
  create_checks (persist_create_input env req parsed w scan digest canonical) = Ok (scan, digest, canonical, w).
Proof.
  intros [_ Hr Hw%normalize_canonical [Hs1 Hs2]%normal_scan_id _ [Hd1 Hd2]%digest_solid _ _ _].
  apply persist_create_checks; try done.
  - by apply all_solid_trimmed.
  - by apply all_solid_trimmed.
  - by eapply decoded_chain.
Qed.

Lemma persist_skew_positive cfg : (0 < persist_skew cfg)%Z.
Proof. unfold persist_skew. by destruct (Z.leb_spec (wrap64 (ac_ClockSkewSec cfg * second_ns)) 0). Qed.

Lemma skew_of_persist env r cfg q w scan digest :
  skew_of (persist_verify_input env r cfg q w scan digest) = persist_skew cfg.
Proof.
  unfold skew_of, persist_verify_input. cbn [vi_ClockSkew].
  pose proof (persist_skew_positive cfg). by destruct (Z.leb_spec (persist_skew cfg) 0); [lia|].
Qed.

(** ** Refusals are never 200 *)

Lemma w2_status_error r cfg rid w scan e : ensureOwnerScopedW2 r cfg rid w scan = Err e -> w2_status e <> StatusOK.
Proof.
  unfold ensureOwnerScopedW2. intros [[_ <-]|[_ H]]%fail_if_err; [done|].
  destruct (fetchWalletLatestCompletedScanID _ _ _ _); [|by injection H as <-].
  apply fail_if_err in H as [[_ <-]|[_ H]]; [done|].
  destruct (NormalizeDiscoveryScanID _); [|by injection H as <-].
  by apply fail_if_err in H as [[_ <-]|[_ H]].
Qed.

Lemma verification_status e : fst (fst (mapWalletAuthorizationVerificationError e)) <> StatusOK.
Proof. unfold mapWalletAuthorizationVerificationError. repeat case_match; done. Qed.

Lemma persist_authorised_err env r cfg resp : persist_authorised env r cfg = Err resp -> rs_Status resp <> StatusOK.
Proof.
  unfold persist_authorised. destruct (rq_Principal r) as [p|]; [|by intros [= <-]].
  destruct (decodePolicyPersistRequest r) as [req|e] eqn:Hreq.
  2:{ intros [= <-]. unfold decodePolicyPersistRequest in Hreq.
      destruct (decode_stream _ _ _); [|by injection Hreq as <-].
      repeat (apply fail_if_err in Hreq as [[_ <-]|[_ Hreq]]; [done|]). done. }
  destruct (_ || _); [by intros [= <-]|].
  destruct (NormalizeWalletTargetAddress _) as [w|]; [|by intros [= <-]].
  destruct (NormalizeDiscoveryScanID _) as [scan|]; [|by intros [= <-]].
  destruct (ensureOwnerScopedW2 _ _ _ _ _) as [[]|e] eqn:H2.
  2:{ intros [= <-]. cbn [rs_Status writeWalletAuthorizationError writeAuthError]. by eapply w2_status_error. }
  destruct (DigestCanonicalJSON _) as [[digest canonical]|]; [|by intros [= <-]].
  destruct (VerifyAuthorization _ _) as [[]|e].
  - done.
  - pose proof (verification_status e) as Hs.
    destruct (mapWalletAuthorizationVerificationError e) as [[? ?] ?]. intros [= <-]. exact Hs.
Qed.

Lemma persist_checks_err env r cfg resp : persist_checks env r cfg = Err resp -> rs_Status resp <> StatusOK.
Proof.
  unfold persist_checks.
  destruct (persist_authorised env r cfg) as [[[[[[p req] w] scan] digest] canonical]|resp'] eqn:Ha;
    [|intros [= <-]; by eapply persist_authorised_err].
  destruct (ValidatePayloadForPersist _) as [[]|e]; [|by intros [= <-]].
  destruct (ParseMessage _); [done|by intros [= <-]].
Qed.

Lemma persist_answer_ok rid res : rs_Status (persist_answer rid res) = StatusOK <-> exists x, res = Ok x.
Proof.
  unfold persist_answer. destruct res as [x|e]; [naive_solver|].
  split; [|naive_solver]. by repeat case_match.
Qed.

(** ** The signed persist *)

Definition persist_env (env : HandlerEnv) : Env := mkEnv (he_later env) (he_policyID env).

Lemma handlePolicyPersist_checked env r cfg s p req w scan digest canonical parsed :
  persist_passed env r cfg p req w scan digest canonical parsed ->
  handlePolicyPersist env r cfg s
  = (fst (CreatePolicy (persist_env env) p (persist_create_input env req parsed w scan digest canonical) s),
     persist_answer (ensureRequestID (he_generated env) r)
       (snd (CreatePolicy (persist_env env) p (persist_create_input env req parsed w scan digest canonical) s))).
Proof.
  intros H. unfold handlePolicyPersist, persist_env.
  rewrite (proj2 (persist_checks_ok env r cfg p (persist_create_input env req parsed w scan digest canonical)))
    by (by exists req, w, scan, digest, canonical, parsed).
  cbn [st_CreatePolicy OwnerScopedStore_PolicyStore]. by destruct (CreatePolicy _ _ _ _).
Qed.

(** What is known of a policy that was persisted. *)
Record persisted (env : HandlerEnv) (r : Request) (cfg : authConfig) (s s' : OwnerScopedStore)
    (p : Principal) (id w scan digest : string) (canonical : list (string * any)) (rec : PolicyRecord) : Prop := {
  ps_principal : rq_Principal r = Some p;
  ps_store : he_policyID env = Ok id /\ s' = <[id := rec]> s;
  ps_owner : owns p rec = true /\ rec_WalletAddress rec = w /\ rec_ScanID rec = scan /\ rec_PayloadSHA256 rec = digest;
  ps_unique : forall other, ~ holds p w s other;
  ps_latest : ensureOwnerScopedW2 r cfg (ensureRequestID (he_generated env) r) w scan = Ok tt;
  ps_digest : DigestCanonical (AMap canonical) = Ok (digest, canonical);
  ps_payload : exists m, rec_Payload rec = Some m /\ forall k, k ∈ closedFields -> map_get m k = map_get canonical k;
  ps_gate : ValidatePayloadForPersist (Some canonical) = Ok tt;
  ps_signature : exists message signature issued expires chain,
      message = BuildMessage (mkFields (walletAuthDomain r cfg) ActionPersistCryptoPolicy w chain scan digest issued expires)
      /\ rec_ChainID rec = chain /\ RecoverSignerAddress message signature = Ok w
      /\ fresh issued expires (he_now env) (persist_skew cfg)
}.

Lemma closed_untouched k : k ∈ closedFields -> k ∉ server_fields /\ k ∉ removed_fields.
Proof.
  assert (Forall (fun k => k ∉ server_fields /\ k ∉ removed_fields) closedFields) as H
    by (by apply (bool_decide_unpack _)).
  rewrite Forall_forall in H. apply H.
Qed.

Lemma persisted_closed scanID w c t m k : k ∈ closedFields ->
  map_get (persisted_payload scanID w c t m) k = map_get m k.
Proof.
  intros [H1 H2]%closed_untouched. rewrite persisted_payload_get, bool_decide_false by done.
  by apply untouched_field.
Qed.

Lemma canonical_digest raw d c : DigestCanonicalJSON raw = Ok (d, c) -> DigestCanonical (AMap c) = Ok (d, c).
Proof. intros (root & _ & H)%DigestCanonicalJSON_ok. by eapply DigestCanonical_again. Qed.

(** Whatever the request, a failure leaves the store alone, and a success stores
    one policy that passed every check. *)
Lemma persist_sound env r cfg s :
  store_ok s -> IsZero (he_now env) = false ->
  let '(s', resp) := handlePolicyPersist env r cfg s in
  (rs_Status resp <> StatusOK /\ s' = s)
  \/ (rs_Status resp = StatusOK
     /\ exists p id w scan digest canonical rec, persisted env r cfg s s' p id w scan digest canonical rec).
Proof.
  intros Hs Hnow. destruct (persist_checks env r cfg) as [[p i]|resp] eqn:Hc.
  2:{ unfold handlePolicyPersist. rewrite Hc. left. split; [by eapply persist_checks_err|done]. }
  apply persist_checks_ok in Hc as (req & w & scan & digest & canonical & parsed & Hp & ->).
  rewrite (handlePolicyPersist_checked _ _ _ _ _ _ _ _ _ _ _ Hp).
  pose proof (persist_passed_create _ _ _ _ _ _ _ _ _ _ Hp) as Hcc.
  destruct (persist_failed_create (persist_env env) p _ s _ _ _ _ Hs Hcc) as [Hfail|(id & Hid & Hval & Hno & E')].
  { destruct Hfail as (e & ->). left. cbn [fst snd]. split; [|done].
    rewrite persist_answer_ok. naive_solver. }
  rewrite E'. right. cbn [fst snd]. split; [by apply persist_answer_ok; eauto|].
  destruct Hp as [Hpr Hreq Hw Hsc H2 Hd Hv Hg Hm].
  exists p, id, w, scan, digest, canonical. eexists. constructor; try done.
  - by split_and!; [apply owns_spec|..].
  - by eapply canonical_digest.
  - eexists. split; [reflexivity|]. intros k Hk. by apply persisted_closed.
  - apply VerifyAuthorization_ok in Hv as (q & w' & (_ & Hw' & Hmsg & Hf & Hrec) & _).
    cbn [persist_verify_input vi_WalletAddress vi_SignedMessage vi_Signature] in *.
    rewrite (canonical_normalize w) in Hw' by (by eapply normalize_canonical). injection Hw' as <-.
    exists (ppr_SignedMessage req), (ppr_Signature req), (fd_IssuedAt q), (fd_ExpiresAt q), (ppr_ChainID req).
    split_and!; [|done|done|].
    + rewrite Hmsg. unfold expected_message. cbn [persist_verify_input vi_Domain vi_ChainID vi_ScanID vi_PayloadSHA256].
      apply normal_scan_id in Hsc as [Hsc _]. apply digest_solid in Hd as [Hd _].
      by rewrite (all_solid_trimmed _ Hsc), (all_solid_trimmed _ Hd).
    + unfold now_of in Hf. cbn [persist_verify_input vi_Now] in Hf. by rewrite Hnow, skew_of_persist in Hf.
Qed.

(** C1: a persist request either fails and leaves the store as it was, or
    succeeds with 200 and stores one policy, the principal's only one for the
    wallet: the scan is the wallet's latest, the payload passes the gate, its
    digest recomputes from what is stored, and the wallet's key signed, within
    the validity window, the canonical message that binds domain, wallet,
    chain, scan and that digest. *)
Theorem handlePolicyPersist_sound env r cfg s :
  store_ok s -> IsZero (he_now env) = false ->
  let '(s', resp) := handlePolicyPersist env r cfg s in
  (rs_Status resp <> StatusOK /\ s' = s)
  \/ (rs_Status resp = StatusOK
     /\ exists p id w scan digest canonical rec, persisted env r cfg s s' p id w scan digest canonical rec).
Proof. exact (persist_sound env r cfg s). Qed.

End HandlerSpec.

(** ** From challenge to persist *)

(** The message in the answer to a challenge. *)
Definition challenge_message (resp : Response) : option string :=
  match rs_Body resp with
  | Some (AMap l) => as_string (map_get l "message")
  | _ => None
  end.

Section RoundTrip.
Context `{U : Unicode, GS : GoSort, F : GoFloat, JT : JCS, GJ : GoJson, E : EthCrypto, ET : EthText, D : Discovery}.

(** A property of a struct that each of its decoders keeps holds of what is
    decoded. *)
Lemma decode_stream_inv {A} (P : A -> Prop) (fields : list (string * decoder A)) b zero a :
  P zero -> Forall (fun f => forall v x y, P x -> snd f v x = Some y -> P y) fields ->
  decode_stream fields b zero = Some a -> P a.
Proof.
  intros Hz Hf.
  assert (Hd : forall v, dec_document fields v zero = Some a -> P a);
    [|destruct b as [| | | |v|v]; try done; apply Hd].
  intros v. unfold dec_document. destruct v; try done; [by intros [= <-]|]. revert zero Hz.
  induction l as [|kv l IH]; intros zero Hz; cbn [foldl]; [by intros [= <-]|].
  assert (Hnone : forall l, foldl (assign_member fields) None l = None) by (by induction l0).
  destruct (assign_member fields (Some zero) kv) as [x|] eqn:Ex; [|by rewrite Hnone].
  apply IH. revert Ex. unfold assign_member. cbn [mbind option_bind]. unfold find_field.
  destruct (find _ fields) as [f|] eqn:Hfind; cbn [fmap option_fmap option_map]; [|by intros [= <-]].
  apply find_some in Hfind as [Hin _]. rewrite Forall_forall in Hf. intros H.
  eapply Hf; [by apply list_elem_of_In|exact Hz|exact H].
Qed.

Lemma dec_int64_range v x y : (x <= int64_max)%Z -> dec_int64 v x = Some y -> (y <= int64_max)%Z.
Proof.
  intros Hx. unfold dec_int64. destruct v; try done; [by intros [= <-]|]. intros H%ParseInt_range. lia.
Qed.

Lemma challenge_chain_range r c : decodeWalletChallengeRequest r = Ok c -> (1 <= wcr_ChainID c <= int64_max)%Z.
Proof.
  unfold decodeWalletChallengeRequest. destruct (decode_stream _ _ _) as [c'|] eqn:Hd; [|done].
  rewrite !fail_if_ok, Z.ltb_ge. intros (_ & H & _ & _ & _ & _ & [= <-]). split; [done|].
  eapply (decode_stream_inv (fun c => (wcr_ChainID c <= int64_max)%Z)); [|..|exact Hd]; [by vm_compute|].
  repeat (apply Forall_cons; split); [..|constructor]; cbn [snd]; intros v [] y Hx; unfold field;
    (destruct (_ v _) eqn:Ev; [|done]); cbn [fmap option_fmap option_map]; intros [= <-];
    cbn [wcr_ChainID] in *; try done. by eapply dec_int64_range.
Qed.

(** What a challenge that succeeds has established. *)
Lemma handleWalletChallenge_ok env r cfg m :
  rs_Status (handleWalletChallenge env r cfg) = StatusOK ->
  challenge_message (handleWalletChallenge env r cfg) = Some m ->
  exists c w scan digest canonical,
    decodeWalletChallengeRequest r = Ok c
    /\ NormalizeWalletTargetAddress (wcr_WalletAddress c) = Ok w
    /\ NormalizeDiscoveryScanID (wcr_ScanID c) = Ok scan
    /\ DigestCanonicalJSON (payload_value (wcr_Payload c)) = Ok (digest, canonical)
    /\ m = BuildMessage (mkFields (walletAuthDomain r cfg) ActionPersistCryptoPolicy w (wcr_ChainID c) scan digest
             (truncate_second (he_now env)) (truncate_second (he_now env) + MaxValidityWindow)%Z).
Proof.
  unfold handleWalletChallenge. destruct (rq_Principal r); [|done].
  destruct (decodeWalletChallengeRequest r) as [c|] eqn:Hc; [|done].
  destruct (NormalizeWalletTargetAddress _) as [w|] eqn:Hw; [|done].
  destruct (NormalizeDiscoveryScanID _) as [scan|] eqn:Hs; [|done].
  destruct (ensureOwnerScopedW2 _ _ _ _ _) as [|e] eqn:H2.
  2:{ cbn [rs_Status writeWalletAuthorizationError writeAuthError]. intros Hst. by apply w2_status_error in H2. }
  destruct (DigestCanonicalJSON _) as [[digest canonical]|] eqn:Hd; [|done].
  intros _. cbn [challenge_message writeJSON rs_Body]. intros [= <-].
  exists c, w, scan, digest, canonical. done.
Qed.

(** The persist request that answers a challenge: the same request, from the
    same domain, with the challenge's message signed by the wallet, sent before
    the message expires by a clock that has not gone back. *)
Record signed_reply (env1 : HandlerEnv) (r1 : Request) (env2 : HandlerEnv) (r2 : Request) (cfg : authConfig)
    (c : walletChallengeRequest) (q : policyPersistRequest) (w m : string) : Prop := {
  sr_challenge : decodeWalletChallengeRequest r1 = Ok c;
  sr_request : decodePolicyPersistRequest r2 = Ok q;
  sr_same : ppr_WalletAddress q = wcr_WalletAddress c /\ ppr_ChainID q = wcr_ChainID c
            /\ ppr_ScanID q = wcr_ScanID c /\ ppr_Payload q = wcr_Payload c;
  sr_domain : walletAuthDomain r2 cfg = walletAuthDomain r1 cfg /\ newline_free (walletAuthDomain r1 cfg);
  sr_signed : ppr_SignedMessage q = m /\ NormalizeWalletTargetAddress (wcr_WalletAddress c) = Ok w
              /\ RecoverSignerAddress m (ppr_Signature q) = Ok w;
  sr_time : (he_now env1 <= he_now env2 <= truncate_second (he_now env1) + MaxValidityWindow)%Z
            /\ IsZero (he_now env2) = false;
  sr_years : (0 <= year_of (truncate_second (he_now env1)) <= 9999)%Z
             /\ (0 <= year_of (truncate_second (he_now env1) + MaxValidityWindow) <= 9999)%Z
}.

Lemma truncate_le t : (truncate_second t <= t)%Z.
Proof. unfold truncate_second, second_ns. pose proof (Z.div_mod t 1000000000 ltac:(lia)).
  pose proof (Z.mod_pos_bound t 1000000000 ltac:(lia)). lia. Qed.

Lemma truncate_idem t : (truncate_second t / second_ns * second_ns = truncate_second t)%Z.
Proof. unfold truncate_second. rewrite Z.div_mul; [done|]. unfold second_ns. lia. Qed.

Lemma truncate_window t : ((truncate_second t + MaxValidityWindow) / second_ns * second_ns
  = truncate_second t + MaxValidityWindow)%Z.
Proof.
  change MaxValidityWindow with (600 * second_ns)%Z. unfold truncate_second.
  rewrite <- Z.mul_add_distr_r, Z.div_mul; [done|]. unfold second_ns. lia.
Qed.

Lemma skew_positive env r cfg q w scan digest : (0 < skew_of (persist_verify_input env r cfg q w scan digest))%Z.
Proof.
  rewrite skew_of_persist. apply persist_skew_positive.
Qed.

(** A reply to a challenge passes the authorisation. *)
Lemma signed_reply_verifies env1 r1 env2 r2 cfg c q w m scan digest canonical :
  signed_reply env1 r1 env2 r2 cfg c q w m ->
  NormalizeDiscoveryScanID (wcr_ScanID c) = Ok scan ->
  DigestCanonicalJSON (payload_value (wcr_Payload c)) = Ok (digest, canonical) ->
  m = BuildMessage (mkFields (walletAuthDomain r1 cfg) ActionPersistCryptoPolicy w (wcr_ChainID c) scan digest
        (truncate_second (he_now env1)) (truncate_second (he_now env1) + MaxValidityWindow)%Z) ->
  exists parsed, ParseMessage m = Ok parsed
    /\ VerifyAuthorization (he_now env2) (persist_verify_input env2 r2 cfg q w scan digest) = Ok tt.
Proof.
  intros [Hc Hq (Ew & Ech & Es & Ep) [Ed Hdom] (Em & Hw & Hrec) [Htime Hz] [Hy1 Hy2]] Hscan Hdig Hm.
  pose proof (normalize_canonical _ _ Hw) as Hcan. apply normal_scan_id in Hscan as [Hs1 Hs2].
  apply digest_solid in Hdig as [Hd1 Hd2]. pose proof (challenge_chain_range _ _ Hc) as Hch.
  set (f := mkFields _ _ _ _ _ _ _ _) in Hm.
  assert (message_ok f) as Hok.
  { constructor; cbn [f fd_Domain fd_Action fd_WalletAddress fd_ScanID fd_PayloadSHA256 fd_ChainID fd_IssuedAt fd_ExpiresAt]; try done.
    - by apply canonical_newline_free.
    - by apply all_solid_newline_free.
    - split; [by apply all_solid_newline_free|]. by rewrite (all_solid_trimmed _ Hd1). }
  pose proof (parse_build f Hok) as Hparse. rewrite <- Hm in Hparse. exists (carried f). split; [done|].
  set (i := persist_verify_input env2 r2 cfg q w scan digest).
  assert (authorised (he_now env2) i (carried f) w) as Hauth.
  { unfold authorised. cbn [i persist_verify_input vi_SignedMessage vi_WalletAddress vi_Signature].
    rewrite Em. split; [done|]. split; [by apply canonical_normalize|]. split; [|split; [|done]].
    - rewrite Hm. unfold expected_message, f.
      cbn [i carried persist_verify_input vi_Domain vi_ChainID vi_ScanID vi_PayloadSHA256 fd_IssuedAt fd_ExpiresAt].
      by rewrite truncate_idem, truncate_window, (all_solid_trimmed _ Hs1), (all_solid_trimmed _ Hd1), Ed, Ech.
    - unfold fresh, f, now_of. cbn [i carried persist_verify_input vi_Now fd_IssuedAt fd_ExpiresAt].
      rewrite Hz, truncate_idem, truncate_window. pose proof (truncate_le (he_now env1)).
      pose proof (skew_positive env2 r2 cfg q w scan digest) as Hsk. fold i in Hsk. lia. }
  apply VerifyAuthorization_ok. exists (carried f), w. split; [done|].
  apply (authorised_bound (he_now env2)); [|done].
  unfold input_ok. cbn [i persist_verify_input vi_Domain vi_ScanID vi_PayloadSHA256]. rewrite Ed.
  split_and!; [done|by apply all_solid_newline_free..].
Qed.

(** C4: the protocol completes: when a challenge succeeds, the wallet signs its
    message, and the same request comes back signed in time, with the scan
    still the latest, a payload the gate accepts and no policy yet for the
    wallet, the persist request answers 200 and its owner reads the policy
    back, stored for that wallet with the digest that was signed. *)
Theorem challenge_then_persist env1 r1 env2 r2 cfg c q w m p id s :
  rs_Status (handleWalletChallenge env1 r1 cfg) = StatusOK ->
  challenge_message (handleWalletChallenge env1 r1 cfg) = Some m ->
  signed_reply env1 r1 env2 r2 cfg c q w m ->
  rq_Principal r2 = Some p -> Principal_Validate p = Ok tt ->
  (forall scan, NormalizeDiscoveryScanID (wcr_ScanID c) = Ok scan ->
     ensureOwnerScopedW2 r2 cfg (ensureRequestID (he_generated env2) r2) w scan = Ok tt) ->
  (forall digest canonical, DigestCanonicalJSON (payload_value (wcr_Payload c)) = Ok (digest, canonical) ->
     ValidatePayloadForPersist (Some canonical) = Ok tt) ->
  store_ok s -> (forall other, ~ holds p w s other) -> he_policyID env2 = Ok id ->
  exists s' resp rec digest canonical,
    handlePolicyPersist env2 r2 cfg s = (s', resp) /\ rs_Status resp = StatusOK
    /\ DigestCanonicalJSON (payload_value (wcr_Payload c)) = Ok (digest, canonical)
    /\ GetPolicy p id s' = Ok rec /\ rec_WalletAddress rec = w /\ rec_PayloadSHA256 rec = digest
    /\ rec_ChainID rec = wcr_ChainID c.
Proof.
  intros Hst Hmsg Hr Hp Hval H2 Hgate Hs Hno Hid.
  destruct (handleWalletChallenge_ok _ _ _ _ Hst Hmsg) as (c' & w' & scan & digest & canonical & Hc & Hw & Hsc & Hd & Hm).
  pose proof (sr_challenge _ _ _ _ _ _ _ _ _ Hr) as Hc'. rewrite Hc in Hc'. injection Hc' as <-.
  destruct (sr_signed _ _ _ _ _ _ _ _ _ Hr) as (Em & Hw' & _). rewrite Hw in Hw'. injection Hw' as <-.
  destruct (sr_same _ _ _ _ _ _ _ _ _ Hr) as (Ew & Ech & Es & Ep).
  destruct (signed_reply_verifies _ _ _ _ _ _ _ _ _ _ _ _ Hr Hsc Hd Hm) as (parsed & Hparse & Hv).
  assert (persist_passed env2 r2 cfg p q w' scan digest canonical parsed) as Hpass.
  { constructor; try done; rewrite ?Ew, ?Es, ?Ep, ?Em; try done.
    - by apply (sr_request _ _ _ _ _ _ _ _ _ Hr).
    - by apply H2.
    - by eapply Hgate. }
  rewrite (handlePolicyPersist_checked _ _ _ _ _ _ _ _ _ _ _ Hpass).
  pose proof (persist_passed_create _ _ _ _ _ _ _ _ _ _ Hpass) as Hcc.
  destruct (CreatePolicy_cases (persist_env env2) p _ s id _ _ _ _ Hs Hval Hcc Hid) as [[(o & Ho) _]|[_ ->]].
  { by apply Hno in Ho. }
  cbn [fst snd]. set (rec := created_record _ _ _ _ _ _ _ _). do 2 eexists. exists rec, digest, canonical.
  split; [reflexivity|]. split; [by apply persist_answer_ok; eauto|]. split; [done|].
  assert (owns p rec = true) as Ho by (by apply owns_spec).
  split_and!; [|done|done|done]. unfold GetPolicy. by rewrite Hval, lookup_insert_eq, Ho.
Qed.

End RoundTrip.

(** ** Deleting *)

Section OwnerSpec.
Context `{U : Unicode, GS : GoSort}.

(** The delete route removes a policy exactly when the principal owns it,
    and answers 204; for a policy of another owner, as for one that does not
    exist, the store stays as it is and the answer is the same 404, so the route
    does not tell whether other owners' policies exist. *)
Theorem handleOwnerDELETEPolicies_correct env r s p id :
  rq_Principal r = Some p -> Principal_Validate p = Ok tt ->
  TrimSpace (Query_Get r "id") = id -> id <> EmptyString ->
  (exists rec, s !! id = Some rec /\ owns p rec = true
     /\ handleOwnerDELETEPolicies env r s = (delete id s, mkResponse StatusNoContent None))
  \/ ((forall rec, s !! id = Some rec -> owns p rec = false)
     /\ handleOwnerDELETEPolicies env r s = (s, writeJSON StatusNotFound (error_json errMsgNotFound))).
Proof.
  intros Hp Hval Hid Hne. unfold handleOwnerDELETEPolicies. rewrite Hp, Hid. apply is_empty_false in Hne as ->.
  cbn [st_DeletePolicy OwnerScopedStore_PolicyStore]. unfold DeletePolicy. rewrite Hval.
  destruct (s !! id) as [rec|] eqn:Hs.
  - destruct (owns p rec) eqn:Ho; cbn [negb]; [left; by exists rec|]. right.
    split; [|by vm_compute]. by intros ? [= <-].
  - right. split; [done|by vm_compute].
Qed.

End OwnerSpec.

(** ** Witnesses *)

Section Witnesses.
#[local] Existing Instances plain_float identity_JCS sample_eth.
#[local] Instance sample_text : EthText := {| text_hash_hex := fun _ => EmptyString |}.
#[local] Instance sample_disc : Discovery := sample_discovery EmptyBody.

Definition request_members : list (string * any) :=
  [("wallet_address", AString "0xABCDEF0123456789abcdef0123456789abcdef01"); ("chain_id", ANumber "1");
   ("scan_id", AString "00112233-4455-6677-8899-AABBCCDDEEFF");
   ("payload", AMap (golden_nested "per_userop"))].

Definition challenge_request : Request :=
  with_principal (sample_request WalletChallenges (request_members ++ [("action", AString ActionPersistCryptoPolicy)])) alice.

Definition env_at (now : time) (id : string) : HandlerEnv := mkHandlerEnv "req-9" now (now + 1)%Z (Ok id).

Definition challenge_env : HandlerEnv := env_at (sample_now + 5)%Z EmptyString.

Definition challenge_text : string :=
  default EmptyString (challenge_message (handleWalletChallenge challenge_env challenge_request sample_config)).

Definition signed_persist_request : Request :=
  with_principal (sample_request Policies (request_members ++
    [("signed_message", AString challenge_text); ("signature", AString ("0x" +:+ repeat_text 65 "1b"))])) alice.

Definition persist_env1 : HandlerEnv := env_at (sample_now + minute_ns)%Z "id-7".

Definition decoded_challenge : walletChallengeRequest :=
  match decodeWalletChallengeRequest challenge_request with Ok c => c | Err _ => zero_challenge end.
Definition decoded_persist : policyPersistRequest :=
  match decodePolicyPersistRequest signed_persist_request with Ok q => q | Err _ => zero_persist end.

Lemma sample_reply : signed_reply challenge_env challenge_request persist_env1 signed_persist_request sample_config
  decoded_challenge decoded_persist sample_wallet challenge_text.
Proof.
  constructor; try (vm_compute; reflexivity).
  - split_and!; vm_compute; reflexivity.
  - split_and!; vm_compute; reflexivity.
  - split_and!; vm_compute; reflexivity.
  - split; [split|]; vm_compute; congruence.
  - split; split; vm_compute; congruence.
Qed.

Lemma empty_store_ok : store_ok (∅ : OwnerScopedStore).
Proof. constructor; intros *; by rewrite lookup_empty. Qed.

Lemma challenge_then_persist_witness :
  exists s' resp, handlePolicyPersist persist_env1 signed_persist_request sample_config ∅ = (s', resp)
    /\ rs_Status resp = StatusOK.
Proof.
  destruct (challenge_then_persist challenge_env challenge_request persist_env1 signed_persist_request sample_config
    decoded_challenge decoded_persist sample_wallet challenge_text alice "id-7" ∅) as (s' & resp & rec & d & c & H1 & H2 & _).
  - vm_compute. reflexivity.
  - vm_compute. reflexivity.
  - exact sample_reply.
  - reflexivity.
  - vm_compute. reflexivity.
  - intros scan Hscan. assert (scan = sample_scan) as -> by (vm_compute in Hscan; injection Hscan as <-; reflexivity). vm_compute. reflexivity.
  - intros d c Hd.
    assert (match DigestCanonicalJSON (payload_value (wcr_Payload decoded_challenge)) with
            | Ok (_, c) => ValidatePayloadForPersist (Some c) = Ok tt | Err _ => True end) as H
      by (vm_compute; reflexivity).
    rewrite Hd in H. exact H.
  - exact empty_store_ok.
  - intros other (j & Hj & _). rewrite lookup_empty in Hj. discriminate Hj.
  - reflexivity.
  - exists s', resp. split; [exact H1|exact H2].
Defined.

Lemma handlePolicyPersist_sound_witness :
  let '(s', resp) := handlePolicyPersist persist_env1 signed_persist_request sample_config ∅ in
  rs_Status resp <> StatusOK /\ s' = ∅
  \/ rs_Status resp = StatusOK
     /\ exists p id w scan digest canonical rec,
          persisted persist_env1 signed_persist_request sample_config ∅ s' p id w scan digest canonical rec.
Proof.
  apply (handlePolicyPersist_sound persist_env1 signed_persist_request sample_config ∅ empty_store_ok).
  vm_compute. reflexivity.
Defined.

Definition delete_request (p : Principal) : Request :=
  mkRequest MethodDelete Policies "cpm.local" [] [("id", " id-1")] NoBody (Some p).

Lemma handleOwnerDELETEPolicies_correct_witness :
  handleOwnerDELETEPolicies challenge_env (delete_request bob) sample_store
  = (sample_store, writeJSON StatusNotFound (error_json errMsgNotFound)).
Proof.
  destruct (handleOwnerDELETEPolicies_correct challenge_env (delete_request bob) sample_store bob "id-1")
    as [(rec & H1 & H2 & _)|[_ H]].
  - reflexivity.
  - vm_compute. reflexivity.
  - vm_compute. reflexivity.
  - discriminate.
  - exfalso. assert (match sample_store !! "id-1" with Some rec => owns bob rec = false | None => True end) as H
      by (vm_compute; reflexivity).
    rewrite H1 in H. congruence.
  - exact H.
Defined.

(** The scan id of the body is matched without regard to case by the handler but
    not by the middleware: under another spelling it is never authorised. *)
Lemma scan_binding_spelling :
  let r := sample_request Policies
    [("wallet_address", AString sample_wallet); ("chain_id", ANumber "1"); ("Scan_ID", AString sample_scan);
     ("payload", AMap (golden_nested "per_userop"))] in
  extractScanIDsForAuthorization r = Ok []
  /\ ppr_ScanID <$> decodePolicyPersistRequest r = Ok sample_scan.
Proof. split; vm_compute; reflexivity. Qed.

End Witnesses.
