(* ===== verification/RemoteRoutes.v ===== *)
(** * Persisting on the remote store

    The signed persist route of [policy_persist_routes.go] on the client of
    cafe-persistence, the store of deployed services: the answer of the route
    against what happened to the store of the service, whatever is lost between
    the two. *)

From stdpp Require Import base gmap sets list strings.
From Stdlib Require Import Ascii ZArith NArith.
From S2P Require Import Prelude GoStrings GoUnicode Errors GoTime GoAny PayloadHash PersistGate WalletTarget WalletAuth OwnerStore Http Upstream Auth RemoteStore RemoteContract Handlers.
Local Open Scope string_scope.
Local Open Scope list_scope.

(** The handler with another policy id. *)
Definition with_policyID (id : gores string) (env : HandlerEnv) : HandlerEnv :=
  mkHandlerEnv (he_generated env) (he_now env) (he_later env) id.

Section RemotePersist.
Context `{U : Unicode, GS : GoSort, F : GoFloat, JT : JCS, GJ : GoJson, E : EthCrypto, ET : EthText, D : Discovery}
  `{RT : RemoteText, FD : FailedDecode} {W : Type} `{RS : RemoteService W} (c : Client) `{CP : !CafePersistence W c}.

(** The id plays no part before the store is asked. *)
Lemma checks_with_policyID id env r cfg : persist_checks (with_policyID id env) r cfg = persist_checks env r cfg.
Proof. reflexivity. Qed.

(** The time of the creation is the handler's. *)
Lemma timed_input e p env r cfg i : persist_checks env r cfg = Ok (p, i) -> IsZero (he_later env) = false ->
  timed e i = i /\ ci_WalletControlVerifiedAt i = he_later env.
Proof.
  intros (req & w & scan & digest & canonical & parsed & _ & ->)%persist_checks_ok Hl.
  unfold timed, persist_create_input. cbn [ci_WalletControlVerifiedAt ci_ScanID ci_WalletAddress ci_ChainID ci_Payload ci_PayloadSHA256
    ci_SignedMessageHash ci_WalletControlMethod ci_ChallengeIssuedAt ci_ChallengeExpiresAt]. by rewrite Hl.
Qed.

(** The route on the store of the service, with the id that the service gives. *)
Lemma store_route env r cfg p i e s : persist_checks env r cfg = Ok (p, i) -> IsZero (he_later env) = false ->
  handlePolicyPersist (with_policyID (env_id e) env) r cfg s
  = (fst (CreatePolicy e p i s), persist_answer (ensureRequestID (he_generated env) r) (snd (CreatePolicy e p i s))).
Proof.
  intros Hc Hl. destruct (timed_input e p env r cfg i Hc Hl) as [_ Ht]. unfold handlePolicyPersist.
  rewrite checks_with_policyID, Hc. cbn [st_CreatePolicy OwnerScopedStore_PolicyStore].
  assert (CreatePolicy (mkEnv (he_later (with_policyID (env_id e) env)) (he_policyID (with_policyID (env_id e) env))) p i s
          = CreatePolicy e p i s) as -> by (unfold CreatePolicy; by rewrite Ht, Hl).
  by destruct (CreatePolicy e p i s).
Qed.

(** The request that the route sends. *)
Definition persist_wire (env : HandlerEnv) (p : Principal) (i : CreatePolicyInput) : wire_request :=
  create_wire c (mkEnv (he_later env) (he_policyID env)) p i.

Lemma remote_persist env r cfg p i w : persist_checks env r cfg = Ok (p, i) -> IsZero (he_later env) = false ->
  wire_time (he_later env) -> TrimSpace (pr_TenantID p) = pr_TenantID p ->
  let '(w', resp) := handlePolicyPersist (PS := Client_PolicyStore c) env r cfg w in
  let '(s', resp') := handlePolicyPersist (with_policyID (env_id (service_env w)) env) r cfg (contents w) in
  (contents w' = contents w \/ contents w' = s')
  /\ (rs_Status resp = StatusServiceUnavailable \/ contents w' = s' /\ resp = resp')
  /\ (heard (snd (serve (persist_wire env p i) w)) -> is_ok (env_id (service_env w)) = true -> contents w' = s' /\ resp = resp').
Proof.
  intros Hc Hl Hw Ht. rewrite (store_route env r cfg p i (service_env w) (contents w) Hc Hl).
  unfold handlePolicyPersist. rewrite Hc. cbn [st_CreatePolicy Client_PolicyStore].
  set (e := mkEnv (he_later env) (he_policyID env)). destruct (timed_input e p env r cfg i Hc Hl) as [Hi Hv].
  pose proof (remote_create c e p i w Ht) as H. rewrite Hi, Hv in H. specialize (H Hw).
  destruct (Principal_Validate p) as [[]|] eqn:Hp.
  2:{ unfold Remote_CreatePolicy, CreatePolicy. rewrite Hp. cbn [fst snd]. auto 6. }
  destruct (Remote_CreatePolicy c e p i w) as [w' res]. destruct H as [[H1 H2] H3]. split_and!.
  - exact H1.
  - destruct H2 as [->|[H2 ->]]; [by left|by right].
  - intros Hh Hid. apply H3 in Hh as [Hd|(-> & err & He & Hne)]; [unfold done_as in Hd; by rewrite Hd|]. exfalso.
    apply is_ok_true in Hid as [id Hid]. unfold CreatePolicy in He. rewrite Hp in He.
    apply persist_checks_ok in Hc as (req & wl & scan & digest & canonical & parsed & Hpass & ->).
    rewrite (persist_passed_create _ _ _ _ _ _ _ _ _ _ Hpass), Hid in He. destruct (existsb _ _); congruence.
Qed.

(** C23: On the remote store, a persist request that is answered 200 has stored one
    policy that passed every check (session, latest scan, gate, digest, signature)
    and is the principal's only one for the wallet; any other answer leaves the
    store as it was, except that 503 may also follow a creation whose answer was
    lost.  The store keeps one policy per owner and wallet.  When the service is
    heard and has an id to give, the route answers and stores exactly as it does
    on the service's own store. *)
Theorem remote_persist_sound env r cfg w :
  store_ok (contents w) -> IsZero (he_now env) = false -> IsZero (he_later env) = false -> wire_time (he_later env) ->
  (forall p, rq_Principal r = Some p -> TrimSpace (pr_TenantID p) = pr_TenantID p) ->
  let env' := with_policyID (env_id (service_env w)) env in
  let '(w', resp) := handlePolicyPersist (PS := Client_PolicyStore c) env r cfg w in
  store_ok (contents w')
  /\ (contents w' = contents w /\ rs_Status resp <> StatusOK
      \/ (rs_Status resp = StatusOK \/ rs_Status resp = StatusServiceUnavailable)
         /\ exists p id wallet scan digest canonical rec,
              persisted env' r cfg (contents w) (contents w') p id wallet scan digest canonical rec)
  /\ (forall p i, persist_checks env r cfg = Ok (p, i) ->
      heard (snd (serve (persist_wire env p i) w)) -> is_ok (env_id (service_env w)) = true ->
      handlePolicyPersist env' r cfg (contents w) = (contents w', resp)).
Proof.
  intros Hs Hn Hl Hw Ht. cbv zeta. destruct (persist_checks env r cfg) as [[p i]|resp] eqn:Hc.
  2:{ unfold handlePolicyPersist. rewrite Hc. split; [done|]. split; [|done]. left. split; [done|]. by eapply persist_checks_err. }
  assert (TrimSpace (pr_TenantID p) = pr_TenantID p) as Htp.
  { apply Ht. pose proof Hc as (req & ? & ? & ? & ? & ? & [? _ _ _ _ _ _ _ _] & _)%persist_checks_ok. done. }
  pose proof (remote_persist env r cfg p i w Hc Hl Hw Htp) as H.
  pose proof (persist_sound (with_policyID (env_id (service_env w)) env) r cfg (contents w) Hs Hn) as Hsound.
  assert (store_ok (fst (handlePolicyPersist (with_policyID (env_id (service_env w)) env) r cfg (contents w)))) as Hok.
  { rewrite (store_route env r cfg p i (service_env w) (contents w) Hc Hl). apply CreatePolicy_state, ids_fresh. done. }
  destruct (handlePolicyPersist (PS := Client_PolicyStore c) env r cfg w) as [w' resp].
  destruct (handlePolicyPersist _ r cfg (contents w)) as [s' resp']. cbn [fst] in Hok. destruct H as (H1 & H2 & H3). split_and!.
  - by destruct H1 as [->| ->].
  - destruct H2 as [H2|[-> ->]].
    + destruct H1 as [->| ->]; [left; by rewrite H2|]. destruct Hsound as [[_ ->]|[_ Hp]]; [left; by rewrite H2|right; auto].
    + destruct Hsound as [[? ->]|[? Hp]]; [by left|right; auto].
  - intros p' i' [= <- <-] Hh Hid. by destruct (H3 Hh Hid) as [-> ->].
Qed.

End RemotePersist.

(** ** The deployed route *)

#[local] Existing Instances plain_float identity_JCS sample_eth sample_text sample_disc.
#[local] Existing Instances plain_remote_text keep_destination lossy_service lossy_CafePersistence.

Lemma empty_service_ok fates : store_ok (contents (mkServer ∅ fates)).
Proof. exact empty_store_ok. Qed.

(** The answer to the creation is lost: 503, although the policy is stored. *)
Lemma remote_persist_sound_witness :
  let '(w', resp) := handlePolicyPersist (PS := Client_PolicyStore sample_client) persist_env1 signed_persist_request sample_config
                       (mkServer ∅ [AnswerLost]) in
  rs_Status resp = StatusServiceUnavailable
  /\ exists p id wallet scan digest canonical rec,
       persisted (with_policyID (Ok "policy-1") persist_env1) signed_persist_request sample_config ∅ (sv_store w')
         p id wallet scan digest canonical rec.
Proof.
  pose proof (remote_persist_sound sample_client persist_env1 signed_persist_request sample_config (mkServer ∅ [AnswerLost])
    (empty_service_ok _)) as H.
  specialize (H ltac:(vm_compute; reflexivity) ltac:(vm_compute; reflexivity) ltac:(vm_compute; split; discriminate)).
  specialize (H ltac:(intros p [= <-]; vm_compute; reflexivity)). cbv zeta in H.
  destruct (handlePolicyPersist (PS := Client_PolicyStore sample_client) persist_env1 signed_persist_request sample_config
    (mkServer ∅ [AnswerLost])) as [w' resp] eqn:E.
  assert (Hr : rs_Status resp = StatusServiceUnavailable).
  { apply (f_equal (fun x => rs_Status (snd x))) in E. cbn [snd] in E. rewrite <- E. vm_compute. reflexivity. }
  split; [exact Hr|]. destruct H as (_ & [[Hw _]|[_ Hp]] & _); [|exact Hp]. exfalso.
  apply (f_equal (fun x => size (sv_store (fst x)))) in E. cbn [fst] in E. change (contents w') with (sv_store w') in Hw.
  rewrite Hw in E. vm_compute in E. discriminate.
Defined.
