(* ===== verification/Texts.v ===== *)
(** * Requests and tokens as texts

    The parts of the service that read text, put together with the grammar of
    JSON: session tokens (base64 of JSON, of which parts are again base64 of
    JSON), and the bodies of the routes that challenge and persist.  The
    encoders are those a client or the issuer uses. *)

From stdpp Require Import base gmap sets list strings.
From Stdlib Require Import Ascii ZArith Lia.
From S2P Require Import Prelude GoStrings GoUnicode Errors GoAny GoFloat PayloadHash PersistGate WalletTarget WalletAuth OwnerStore Routes Http Json Upstream Auth Handlers.
Local Open Scope string_scope.
Local Open Scope list_scope.

(** ** base64.RawURLEncoding *)

Section Base64.
Local Open Scope N_scope.

Fixpoint base64_digits (l : list N) : list N :=
  match l with
  | a :: b :: c :: l' => a / 4 :: (a mod 4) * 16 + b / 16 :: (b mod 16) * 4 + c / 64 :: c mod 64 :: base64_digits l'
  | [a; b] => [a / 4; (a mod 4) * 16 + b / 16; (b mod 16) * 4]
  | [a] => [a / 4; (a mod 4) * 16]
  | [] => []
  end.

Definition base64_char (d : N) : ascii :=
  ascii_of_N (if d <? 26 then 65 + d else if d <? 52 then 71 + d else if d <? 62 then d - 4
              else if d =? 62 then 45 else 95).

Definition base64_RawURL_EncodeToString (s : string) : string :=
  String.string_of_list_ascii (base64_char <$> base64_digits (bytes_of s)).

Lemma base64_induction (P : list N -> Prop) :
  P [] -> (forall a, P [a]) -> (forall a b, P [a; b]) -> (forall a b c l, P l -> P (a :: b :: c :: l)) -> forall l, P l.
Proof.
  intros H0 H1 H2 H3. fix IH 1. intros [|a [|b [|c l]]]; [exact H0|exact (H1 a)|exact (H2 a b)|exact (H3 a b c l (IH l))].
Qed.

Lemma base64_group a b c : a < 256 -> b < 256 -> c < 256 ->
  (a / 4) * 4 + ((a mod 4) * 16 + b / 16) / 16 = a
  /\ ((a mod 4) * 16 + b / 16) mod 16 = b / 16
  /\ (b / 16) * 16 + ((b mod 16) * 4 + c / 64) / 4 = b
  /\ ((b mod 16) * 4 + c / 64) mod 4 = c / 64
  /\ (c / 64) * 64 + c mod 64 = c
  /\ a / 4 < 64 /\ (a mod 4) * 16 + b / 16 < 64 /\ (b mod 16) * 4 + c / 64 < 64 /\ c mod 64 < 64.
Proof.
  intros Ha Hb Hc.
  assert (Hb' : b / 16 < 16) by (apply N.Div0.div_lt_upper_bound; lia).
  assert (Hc' : c / 64 < 4) by (apply N.Div0.div_lt_upper_bound; lia).
  assert (Ha' : a / 4 < 64) by (apply N.Div0.div_lt_upper_bound; lia).
  pose proof (N.div_mod' a 4). pose proof (N.div_mod' b 16). pose proof (N.div_mod' c 64).
  pose proof (N.mod_lt a 4 ltac:(lia)). pose proof (N.mod_lt b 16 ltac:(lia)). pose proof (N.mod_lt c 64 ltac:(lia)).
  rewrite (N.add_comm ((a mod 4) * 16)), (N.add_comm ((b mod 16) * 4)).
  rewrite !N.div_add, !N.Div0.mod_add, (N.div_small (b / 16)), (N.div_small (c / 64)), (N.mod_small (b / 16)),
    (N.mod_small (c / 64)) by (done || lia).
  split_and!; lia.
Qed.

Lemma base64_groups_digits l : Forall (fun b => b < 256) l ->
  base64_groups (base64_digits l) = Some l /\ Forall (fun d => d < 64) (base64_digits l).
Proof.
  induction l as [|a|a b|a b c l IH] using base64_induction; intros Hl; rewrite ?Forall_cons in Hl.
  - done.
  - destruct Hl as [Ha _]. destruct (base64_group a 0 0 Ha) as (H1 & _ & _ & _ & _ & B1 & B2 & _); [done..|].
    change (0 / 16) with 0 in *. rewrite N.add_0_r in *. cbn [base64_digits base64_groups]. rewrite H1.
    split; [done|]. repeat (apply Forall_cons_2; [done|]). apply Forall_nil_2.
  - destruct Hl as (Ha & Hb & _). destruct (base64_group a b 0 Ha Hb) as (H1 & H2 & H3 & _ & _ & B1 & B2 & B3 & _); [done|].
    change (0 / 64) with 0 in *. rewrite (N.add_0_r ((b mod 16) * 4)) in *. cbn [base64_digits base64_groups]. rewrite H1, H2, H3.
    split; [done|]. repeat (apply Forall_cons_2; [done|]). apply Forall_nil_2.
  - destruct Hl as (Ha & Hb & Hc & Hl). destruct (IH Hl) as [IH1 IH2].
    destruct (base64_group a b c Ha Hb Hc) as (H1 & H2 & H3 & H4 & H5 & B1 & B2 & B3 & B4).
    cbn [base64_digits base64_groups]. rewrite IH1. cbn [mbind option_bind]. rewrite H1, H2, H3, H4, H5.
    split; [done|]. repeat (apply Forall_cons_2; [done|]). exact IH2.
Qed.

Lemma base64_value_char d : d < 64 ->
  base64_value (base64_char d) = Some d /\ is_line_break (base64_char d) = false /\ N_of_ascii (base64_char d) < 128.
Proof.
  intros Hd. assert (E : forallb (fun n => let d := N.of_nat n in
    match base64_value (base64_char d) with Some x => x =? d | None => false end
    && negb (is_line_break (base64_char d)) && (N_of_ascii (base64_char d) <? 128)) (seq 0 64) = true) by reflexivity.
  rewrite forallb_forall in E. specialize (E (N.to_nat d)). rewrite N2Nat.id in E. cbv zeta in E.
  rewrite !andb_true_iff, negb_true_iff, N.ltb_lt in E. destruct E as [[E1 E2] E3]; [apply in_seq; lia|].
  destruct (base64_value _); [|done]. apply N.eqb_eq in E1 as ->. done.
Qed.

Lemma bytes_of_bound s : Forall (fun b => b < 256) (bytes_of s).
Proof. unfold bytes_of. apply Forall_fmap, Forall_forall. intros a _. apply N_ascii_bounded. Qed.

(** Decoding what was encoded. *)
Lemma base64_roundtrip s : base64_RawURL_DecodeString (base64_RawURL_EncodeToString s) = Some s.
Proof.
  unfold base64_RawURL_DecodeString, base64_RawURL_EncodeToString.
  rewrite String.list_ascii_of_string_of_list_ascii.
  destruct (base64_groups_digits _ (bytes_of_bound s)) as [Hg Hd].
  assert (Hm : mapM base64_value (base.filter (fun a => is_line_break a = false) (base64_char <$> base64_digits (bytes_of s)))
               = Some (base64_digits (bytes_of s))).
  { clear Hg. induction Hd as [|d l H _ IH]; [done|]. destruct (base64_value_char d H) as (H1 & H2 & _).
    rewrite fmap_cons, filter_cons_True by done. cbn [mapM]. rewrite H1. cbn [mbind option_bind]. by rewrite IH. }
  rewrite Hm. cbn [mbind option_bind]. rewrite Hg. cbn [mbind option_bind]. by rewrite string_of_bytes_of.
Qed.

Lemma base64_ascii s : is_ascii (base64_RawURL_EncodeToString s).
Proof.
  unfold is_ascii, base64_RawURL_EncodeToString. rewrite String.list_ascii_of_string_of_list_ascii.
  destruct (base64_groups_digits _ (bytes_of_bound s)) as [_ Hd]. apply Forall_fmap.
  eapply Forall_impl; [exact Hd|]. intros d H. by apply base64_value_char.
Qed.

Lemma base64_nonempty s : s <> EmptyString -> base64_RawURL_EncodeToString s <> EmptyString.
Proof.
  intros Hs E. apply Hs. assert (H := base64_roundtrip s). rewrite E in H. by injection H.
Qed.

End Base64.

(** ** Session tokens *)

Section Tokens.
Context `{U : Unicode, F : GoFloat}.

(** One signature of a token: the algorithm its header names, and its text. *)
Definition protected_header (alg : string) : string :=
  base64_RawURL_EncodeToString (json_marshal (AMap [("alg", AString alg)])).

Definition signature_entry (s : string * string) : any :=
  AMap [("protected", AString (protected_header (fst s))); ("signature", AString (snd s))].

(** A token as its issuer writes it. *)
Definition issue (claims : list (string * any)) (signatures : list (string * string)) : string :=
  base64_RawURL_EncodeToString (json_marshal (AMap
    [("payload", AString (base64_RawURL_EncodeToString (json_marshal (AMap claims))));
     ("signatures", ASlice (signature_entry <$> signatures))])).

(** The claims as the reader holds them; [None]: a number out of range. *)
Definition claims_read (claims : list (string * any)) : option (list (string * any)) :=
  decoded ← dec_map (doc_of (AMap claims)) (Some []); decoded.

Definition signature_ok (s : string * string) : Prop :=
  to_utf8 (fst s) = fst s /\ to_utf8 (snd s) = snd s /\ snd s <> EmptyString.

Lemma to_utf8_base64 s : to_utf8 (base64_RawURL_EncodeToString s) = base64_RawURL_EncodeToString s.
Proof. apply to_utf8_ascii, base64_ascii. Qed.

Lemma marshal_nonempty d v : writable d v -> json_marshal v <> EmptyString.
Proof. intros H%marshal_start E. by rewrite E in H. Qed.

(** A deeper limit admits more. *)
Lemma writable_mono d d' v : (d <= d')%nat -> writable d v -> writable d' v.
Proof.
  revert d'. revert v. induction d as [|d IH]; intros v d' Hle Hw.
  - destruct v; try done; try (by destruct d'). cbn in Hw. lia.
  - destruct d' as [|d']; [lia|]. destruct v as [| | | | | | |l| |l|l]; try done; simpl in *; [lia|..];
      (eapply Forall_impl; [exact Hw|]; intros x Hx; apply IH; [lia|exact Hx]).
Qed.

Lemma limit_large : (10 <= N.to_nat max_nesting_depth)%nat.
Proof. unfold max_nesting_depth. lia. Qed.

Lemma token_part d v : writable d v -> (d <= 10)%nat -> text_value (json_marshal v) = Some (doc_of v).
Proof. intros H Hd. apply text_value_marshal. eapply writable_mono; [|exact H]. pose proof limit_large. lia. Qed.

(** The algorithm of an entry of an issued token. *)
Lemma signature_alg_issued s : signature_ok s ->
  signature_alg (mkTokenSignature (protected_header (fst s)) (snd s)) = Some (fst s).
Proof.
  intros (H1 & H2 & H3). unfold signature_alg. cbn [ts_Protected ts_Signature].
  assert (Hw : writable 1 (AMap [("alg", AString (fst s))])) by (repeat constructor).
  assert (Hp : protected_header (fst s) <> EmptyString)
    by (apply base64_nonempty; eapply marshal_nonempty; exact Hw).
  apply is_empty_false in Hp, H3. rewrite Hp, H3. cbn [orb]. unfold protected_header.
  rewrite base64_roundtrip. cbn [mbind option_bind]. rewrite (token_part 1) by (done || lia). cbn [mbind option_bind].
  rewrite doc_of_map. cbn [sort_stable foldr insert_stable fmap list_fmap fst snd doc_of dec_map mapM].
  unfold interface_member. cbn [fst snd interface_value mbind res_bind mret res_ret foldl set_member].
  rewrite !H1. by vm_compute.
Qed.

Definition token_entry (s : string * string) : token_signature :=
  mkTokenSignature (protected_header (fst s)) (snd s).

Lemma entry_decodes s : signature_ok s ->
  dec_document token_signature_fields (doc_of (signature_entry s)) (mkTokenSignature EmptyString EmptyString)
  = Some (token_entry s).
Proof.
  intros (_ & H2 & _). unfold signature_entry. rewrite doc_of_map.
  change (sort_stable member_less _) with [("protected", AString (protected_header (fst s))); ("signature", AString (snd s))].
  cbn [fmap list_fmap fst snd doc_of dec_document foldl]. rewrite !to_utf8_ascii with (s := "protected"), !to_utf8_ascii with (s := "signature")
    by (apply ascii_text_is; reflexivity).
  unfold protected_header at 1. rewrite to_utf8_base64, H2.
  decode_member token_signature_fields. rewrite to_utf8_base64. decode_member token_signature_fields. rewrite H2. done.
Qed.

Lemma entries_decode l : Forall signature_ok l ->
  mapM (fun x => dec_document token_signature_fields x (mkTokenSignature EmptyString EmptyString))
    (doc_of <$> (signature_entry <$> l)) = Some (token_entry <$> l).
Proof.
  induction 1 as [|s l Hs _ IH]; [done|]. rewrite !fmap_cons. cbn [mapM]. rewrite entry_decodes by done.
  cbn [mbind option_bind]. rewrite IH. done.
Qed.

Lemma envelope_decodes payload l : to_utf8 payload = payload -> Forall signature_ok l ->
  dec_document token_envelope_fields
    (doc_of (AMap [("payload", AString payload); ("signatures", ASlice (signature_entry <$> l))])) (mkEnvelope EmptyString [])
  = Some (mkEnvelope payload (token_entry <$> l)).
Proof.
  intros Hp Hl. rewrite doc_of_map.
  change (sort_stable member_less _) with [("payload", AString payload); ("signatures", ASlice (signature_entry <$> l))].
  cbn [fmap list_fmap fst snd dec_document foldl]. rewrite doc_of_slice. cbn [doc_of].
  rewrite !to_utf8_ascii with (s := "payload"), !to_utf8_ascii with (s := "signatures") by (apply ascii_text_is; reflexivity).
  rewrite Hp. decode_member token_envelope_fields. rewrite Hp. decode_member token_envelope_fields.
  unfold field at 1. cbn [dec_list te_Signatures]. rewrite dec_elements_fresh, entries_decode by done. done.
Qed.

Lemma algs_issued l : Forall signature_ok l -> mapM signature_alg (token_entry <$> l) = Some (fst <$> l).
Proof.
  induction 1 as [|s l Hs _ IH]; [done|]. rewrite !fmap_cons. cbn [mapM].
  rewrite (signature_alg_issued s Hs : signature_alg (token_entry s) = _). cbn [mbind option_bind]. by rewrite IH.
Qed.

Lemma signatures_writable l : writable 3 (ASlice (signature_entry <$> l)).
Proof. simpl. apply Forall_fmap, Forall_forall. intros s _. repeat constructor. Qed.

(** C15: What the service makes of a token as it is issued, through both layers of
    base64 and of JSON: it is accepted exactly when it carries at least two
    signatures that name both algorithms, has not expired within the skew, and
    names an email, and then yields the claims that were written. *)
Theorem issued_token now claims signatures skew read :
  writable (N.to_nat max_nesting_depth) (AMap claims) -> claims_read claims = Some read ->
  Forall signature_ok signatures ->
  parseAndValidateDiscoveryToken now (issue claims signatures) skew
  = if Nat.ltb (length signatures) 2 || negb (hybrid (fst <$> signatures))
       || negb (validateDiscoveryClaims now read skew)
       || negb (bool_decide (is_Some (as_string (doc_get read "email"))))
    then None else Some read.
Proof.
  intros Hw Hr Hs. unfold parseAndValidateDiscoveryToken, issue. rewrite base64_roundtrip. cbn [mbind option_bind].
  set (payload := base64_RawURL_EncodeToString (json_marshal (AMap claims))).
  rewrite (token_part 4) by (lia || (apply Forall_cons_2; [done|apply Forall_cons_2; [apply signatures_writable|done]])).
  cbn [mbind option_bind]. rewrite envelope_decodes by (done || apply to_utf8_base64). cbn [mbind option_bind te_Payload te_Signatures].
  replace (is_empty payload) with false.
  2:{ symmetry. apply is_empty_false, base64_nonempty. by eapply marshal_nonempty. }
  rewrite length_fmap. cbn [orb]. destruct (Nat.ltb (length signatures) 2); [done|].
  rewrite algs_issued by done. cbn [mbind option_bind]. destruct (hybrid (fst <$> signatures)); cbn [negb orb]; [|done].
  unfold payload. rewrite base64_roundtrip. cbn [mbind option_bind]. rewrite text_value_marshal by done. cbn [mbind option_bind].
  unfold claims_read in Hr. destruct (dec_map (doc_of (AMap claims)) (Some [])) as [decoded|]; [|done].
  cbn [mbind option_bind] in Hr |- *. subst decoded. cbn [default]. unfold from_option, id.
  destruct (validateDiscoveryClaims now read skew); cbn [negb orb]; [|done].
  by destruct (as_string (doc_get read "email")).
Qed.

End Tokens.

(** ** Payloads through their text *)

(** Objects, arrays, strings and booleans with UTF-8 texts: what the closed
    payload may hold. *)
Fixpoint plain (v : any) : Prop :=
  match v with
  | ABool _ => True
  | AString s => to_utf8 s = s
  | AMap l => (fix go l := match l with [] => True | (k, x) :: l' => (to_utf8 k = k /\ plain x) /\ go l' end) l
  | ASlice l => (fix go l := match l with [] => True | x :: l' => plain x /\ go l' end) l
  | _ => False
  end.

Lemma plain_map l : plain (AMap l) <-> Forall (fun kx => to_utf8 (fst kx) = fst kx /\ plain (snd kx)) l.
Proof. cbn [plain]. induction l as [|[k x] l IH]; [naive_solver|]. rewrite Forall_cons, <- IH. done. Qed.

Lemma plain_slice l : plain (ASlice l) <-> Forall plain l.
Proof. cbn [plain]. induction l as [|x l IH]; [naive_solver|]. rewrite Forall_cons, <- IH. done. Qed.

Lemma set_members_rev l : NoDup (fst <$> l) -> foldl set_member [] l = rev l.
Proof.
  assert (H : forall acc, NoDup (fst <$> l) -> (forall k, k ∈ fst <$> l -> k ∉ fst <$> acc) ->
    foldl set_member acc l = rev l ++ acc).
  { induction l as [|[k x] l IH]; intros acc Hnd Hfr; [done|]. cbn [foldl rev]. rewrite fmap_cons, NoDup_cons in Hnd.
    destruct Hnd as [Hk Hnd]. rewrite <- app_assoc. cbn [app].
    assert (E : set_member acc (k, x) = (k, x) :: acc).
    { unfold set_member, map_set. cbn [fst snd]. rewrite map_delete_fresh; [done|]. apply Hfr. by left. }
    rewrite E, IH; [done|done|]. intros k' Hk'. rewrite fmap_cons, not_elem_of_cons. cbn [fst].
    split; [by intros ->|]. apply Hfr. by right. }
  intros Hnd. rewrite H; [by rewrite app_nil_r|done|]. intros k _. by apply not_elem_of_nil.
Qed.

Section PayloadText.
Context `{F : GoFloat}.

Lemma interface_members_plain (l : list (string * any)) :
  Forall (fun kx => to_utf8 (fst kx) = fst kx
                    /\ exists v', interface_value (doc_of (snd kx)) = Ok v' /\ any_eqv (snd kx) v') l ->
  exists m, mapM interface_member ((fun kx => (to_utf8 (fst kx), doc_of (snd kx))) <$> l) = Ok m
    /\ Forall2 (fun a b => fst a = fst b /\ any_eqv (snd a) (snd b)) l m.
Proof.
  induction 1 as [|[k x] l (Hk & x' & Ex & Hx) _ (m & Em & Hm)]; [by exists []|]. cbn [fst snd] in *.
  exists ((k, x') :: m). rewrite fmap_cons. cbn [mapM fst snd].
  assert (E : interface_member (to_utf8 k, doc_of x) = Ok (k, x')).
  { unfold interface_member. cbn [fst snd]. rewrite Ex, !Hk. done. }
  rewrite E. cbn [mbind res_bind]. rewrite Em. split; [done|by constructor].
Qed.

(** A plain value comes back from its text as itself, up to the order of
    members. *)
Lemma interface_doc_plain v : plain v -> any_wf v -> exists v', interface_value (doc_of v) = Ok v' /\ any_eqv v v'.
Proof.
  induction v as [|b|s|f|s|z|z|l| |l IH|l IH] using any_rect'; intros Hp Hw; try done.
  - eexists. split; [done|constructor].
  - eexists. cbn [doc_of interface_value]. cbn in Hp. rewrite !Hp. split; [done|constructor].
  - apply plain_map in Hp. apply any_wf_map in Hw as [Hnd Hw].
    rewrite <- (sort_stable_perm member_less l) in IH, Hp, Hw.
    destruct (interface_members_plain (sort_stable member_less l)) as (m & Em & Hm).
    { rewrite Forall_forall in *. intros kx Hin. specialize (Hp kx Hin). split; [apply Hp|].
      apply IH; [done|apply Hp|by apply Hw]. }
    assert (Hkeys : fst <$> m = fst <$> sort_stable member_less l).
    { clear - Hm. induction Hm as [|a b ? ? [E _] _ IH]; [done|]. rewrite !fmap_cons. by rewrite E, IH. }
    exists (AMap (rev m)). rewrite doc_of_map, interface_value_map, Em. cbn [fmap res_fmap]. split.
    + do 2 f_equal. apply set_members_rev. rewrite Hkeys. by rewrite sort_stable_perm.
    + apply (eqv_map _ (rev (sort_stable member_less l))).
      * rewrite <- Permutation_rev. by rewrite sort_stable_perm.
      * rewrite !rev_alt. by apply (Forall2_reverse _ (sort_stable member_less l) m).
  - apply plain_slice in Hp. apply any_wf_slice in Hw. rewrite doc_of_slice, interface_value_slice.
    assert (H : exists m, mapM interface_value (doc_of <$> l) = Ok m /\ Forall2 any_eqv l m).
    { induction IH as [|x l IHx _ IHl]; [by exists []|]. apply Forall_cons in Hp as [Hx Hp]. apply Forall_cons in Hw as [Hwx Hw].
      destruct (IHx Hx Hwx) as (x' & Ex & Hxx). destruct (IHl Hp Hw) as (m & Em & Hm).
      exists (x' :: m). rewrite fmap_cons. cbn [mapM]. rewrite Ex. cbn [mbind res_bind]. rewrite Em.
      split; [done|by constructor]. }
    destruct H as (m & -> & Hm). eexists. split; [done|by constructor].
Qed.

Context `{JT : JCS}.

(** The digest of the payload a client holds is the digest the service computes
    from the text it receives: writing the payload as JSON, reading the text
    and decoding the document lose nothing the digest depends on. *)
Theorem digest_through_text obj d closed :
  plain (AMap obj) -> any_wf (AMap obj) -> writable (N.to_nat max_nesting_depth) (AMap obj) ->
  DigestCanonical (AMap obj) = Ok (d, closed) ->
  exists doc closed', text_value (json_marshal (AMap obj)) = Some doc
    /\ DigestCanonicalJSON doc = Ok (d, closed') /\ any_eqv (AMap closed) (AMap closed').
Proof.
  intros Hp Hw Hd E. destruct (interface_doc_plain _ Hp Hw) as (v' & Ev & Hv).
  destruct (DigestCanonical_eqv _ _ _ _ Hw Hv E) as (closed' & Ec & Hc).
  exists (doc_of (AMap obj)), closed'. split_and!; [by apply text_value_marshal| |done].
  apply DigestCanonicalJSON_ok. by exists v'.
Qed.

End PayloadText.

(** ** Bodies *)

Definition with_text (raw : string) (r : Request) : Request :=
  mkRequest (rq_Method r) (rq_Path r) (rq_Host r) (rq_Header r) (rq_Query r) (body_of_text raw) (rq_Principal r).

Section Bodies.
Context `{U : Unicode, F : GoFloat}.

(** Reading the body of a persist request ends for every text: the fuel for its
    length is enough and more changes nothing, and what does not start with a
    JSON value is refused as a bad request. *)
Lemma body_reading_ends raw r fuel : (text_fuel (bytes_of raw) <= fuel)%nat ->
  parse_value fuel 0 (bytes_of raw) = read_value raw /\ read_value raw <> OutOfFuel
  /\ ((exists v, body_of_text raw = Document v \/ body_of_text raw = Prefixed v)
      \/ exists e, decodePolicyPersistRequest (with_text raw r) = Err e /\ pde_status e = StatusBadRequest).
Proof.
  intros Hf. destruct (parse_ends fuel raw Hf) as [H1 H2]. split_and!; [done|done|].
  unfold decodePolicyPersistRequest, with_text. cbn [rq_Body]. unfold body_of_text.
  destruct (is_empty raw); [right; by eexists|].
  destruct (read_value raw) as [v l| |]; [left; exists v; destruct (skip_ws l); auto|right; by eexists|done].
Qed.

(** A document followed by more text. *)
Lemma body_of_text_trailing v t :
  writable (N.to_nat max_nesting_depth) v -> number_end (bytes_of t) -> skip_ws (bytes_of t) <> [] ->
  body_of_text (json_marshal v +:+ t) = Prefixed (doc_of v).
Proof.
  intros Hw Hn Ht. assert (Hs := marshal_start _ _ Hw). unfold body_of_text.
  destruct (is_empty (json_marshal v +:+ t)) eqn:E.
  { apply is_empty_spec in E. apply (f_equal bytes_of) in E. rewrite bytes_of_app in E.
    by destruct (bytes_of (json_marshal v)). }
  destruct (writable_reads_back v _ 0 Hw) with (rest := bytes_of t) as [f Hf]; [by rewrite N2Nat.id|done|].
  unfold read_value. rewrite <- bytes_of_app in Hf. rewrite (parse_at_text_fuel _ _ _ _ _ Hf).
  by destruct (skip_ws (bytes_of t)).
Qed.

(** C13: Text after the document of a body hides its scan ids from the middleware,
    which asks for the whole body to be one document, while the handlers of
    the challenge and persist routes read the document and leave the rest: they
    see the request they would see without that text, and no scan is authorised. *)
Theorem trailing_text_unauthorised v t r :
  writable (N.to_nat max_nesting_depth) v -> number_end (bytes_of t) -> skip_ws (bytes_of t) <> [] ->
  rq_Method r = MethodPost ->
  let bare := with_text (json_marshal v) r in
  let padded := with_text (json_marshal v +:+ t) r in
  extractScanIDsForAuthorization padded = Ok []
  /\ decodePolicyPersistRequest padded = decodePolicyPersistRequest bare
  /\ decodeWalletChallengeRequest padded = decodeWalletChallengeRequest bare.
Proof.
  intros Hw Hn Ht Hm. cbv zeta. unfold with_text. rewrite body_of_text_trailing, body_of_text_marshal by done.
  split_and!; [|done|done]. unfold extractScanIDsForAuthorization. cbn [rq_Method rq_Path rq_Body].
  rewrite Hm. destruct (String.eqb (rq_Path r) PoliciesAssessmentRequest); done.
Qed.

(** A persist request as a client writes it. *)
Definition persist_any (q : policyPersistRequest) : any :=
  AMap [("wallet_address", AString (ppr_WalletAddress q)); ("chain_id", AInt64 (ppr_ChainID q));
        ("scan_id", AString (ppr_ScanID q)); ("signed_message", AString (ppr_SignedMessage q));
        ("signature", AString (ppr_Signature q)); ("payload", default ANil (ppr_Payload q));
        ("payload_sha256", AString (ppr_PayloadSHA256 q))].

(** The same request with the payload as the document of its text. *)
Definition received (q : policyPersistRequest) : policyPersistRequest :=
  mkPersistRequest (ppr_WalletAddress q) (ppr_ChainID q) (ppr_ScanID q) (ppr_SignedMessage q) (ppr_Signature q)
    (doc_of <$> ppr_Payload q) (ppr_PayloadSHA256 q).

Record sendable (q : policyPersistRequest) (obj : list (string * any)) : Prop := {
  sq_utf8 : Forall (fun s => to_utf8 s = s)
    [ppr_WalletAddress q; ppr_ScanID q; ppr_SignedMessage q; ppr_Signature q; ppr_PayloadSHA256 q];
  sq_wallet : TrimSpace (ppr_WalletAddress q) <> EmptyString;
  sq_scan : TrimSpace (ppr_ScanID q) <> EmptyString;
  sq_chain : (1 <= ppr_ChainID q <= int64_max)%Z;
  sq_payload : ppr_Payload q = Some (AMap obj);
  sq_depth : writable (pred (N.to_nat max_nesting_depth)) (AMap obj)
}.

Lemma persist_any_writable q obj : sendable q obj -> writable (N.to_nat max_nesting_depth) (persist_any q).
Proof.
  intros [_ _ _ _ Hp Hd]. pose proof limit_large. destruct (N.to_nat max_nesting_depth) as [|m]; [lia|].
  unfold persist_any. rewrite Hp. cbn [pred] in Hd. cbn [default writable]. unfold from_option, id.
  assert (Hm : forall s, writable m (AString s)) by (by destruct m).
  assert (Hi : forall z, writable m (AInt64 z)) by (by destruct m).
  repeat (apply Forall_cons_2; [first [apply Hm|apply Hi|exact Hd]|]). apply Forall_nil_2.
Qed.

Lemma persist_doc q obj : sendable q obj -> doc_of (persist_any q) =
  AMap [("chain_id", ANumber (FormatInt (ppr_ChainID q))); ("payload", doc_of (AMap obj));
        ("payload_sha256", AString (ppr_PayloadSHA256 q)); ("scan_id", AString (ppr_ScanID q));
        ("signature", AString (ppr_Signature q)); ("signed_message", AString (ppr_SignedMessage q));
        ("wallet_address", AString (ppr_WalletAddress q))].
Proof.
  intros [Hu _ _ _ Hp _]. rewrite !Forall_cons in Hu. destruct Hu as (U1 & U2 & U3 & U4 & U5 & _).
  unfold persist_any. rewrite Hp, doc_of_map.
  match goal with |- context [sort_stable member_less ?l] =>
    change (sort_stable member_less l) with
      [("chain_id", AInt64 (ppr_ChainID q)); ("payload", AMap obj); ("payload_sha256", AString (ppr_PayloadSHA256 q));
       ("scan_id", AString (ppr_ScanID q)); ("signature", AString (ppr_Signature q));
       ("signed_message", AString (ppr_SignedMessage q)); ("wallet_address", AString (ppr_WalletAddress q))] end.
  rewrite !fmap_cons. cbn [fst snd fmap list_fmap]. rewrite (doc_of_map obj) at 1. rewrite <- doc_of_map.
  cbn [doc_of]. rewrite U1, U2, U3, U4, U5. repeat f_equal; by apply to_utf8_ascii, ascii_text_is.
Qed.

Context `{JT : JCS}.

(** C14: A persist request survives its text: the handler decodes the fields the
    client wrote, and the digest it computes of the payload is the one the
    client has of its own. *)
Theorem persist_request_text q obj r d closed : sendable q obj ->
  plain (AMap obj) -> any_wf (AMap obj) -> DigestCanonical (AMap obj) = Ok (d, closed) ->
  decodePolicyPersistRequest (with_text (json_marshal (persist_any q)) r) = Ok (received q)
  /\ exists closed', DigestCanonicalJSON (payload_value (ppr_Payload (received q))) = Ok (d, closed')
       /\ any_eqv (AMap closed) (AMap closed').
Proof.
  intros Hq Hpl Hwf Hdig. pose proof (persist_any_writable q obj Hq) as Hw.
  unfold with_text. rewrite body_of_text_marshal by done. rewrite (persist_doc q obj) by done.
  destruct Hq as [Hu Hwa Hsc Hch Hp _]. rewrite !Forall_cons in Hu. destruct Hu as (U1 & U2 & U3 & U4 & U5 & _).
  split.
  - unfold decodePolicyPersistRequest. cbn [rq_Body decode_stream dec_document foldl]. unfold zero_persist.
    decode_member persist_fields. unfold field at 1. cbn [dec_int64].
    rewrite ParseInt_FormatInt by (unfold in_int64; rewrite andb_true_iff, !Z.leb_le; unfold int64_min; lia).
    cbn [fmap option_fmap option_map].
    decode_member persist_fields. unfold field at 1. cbn [dec_raw fmap option_fmap option_map].
    decode_member persist_fields. rewrite U5. decode_member persist_fields. rewrite U2.
    decode_member persist_fields. rewrite U4. decode_member persist_fields. rewrite U3.
    decode_member persist_fields. rewrite U1.
    unfold received. rewrite Hp. cbn [fmap option_fmap option_map ppr_WalletAddress ppr_ChainID ppr_ScanID ppr_Payload].
    apply is_empty_false in Hwa, Hsc. rewrite Hwa, Hsc.
    replace (ppr_ChainID q <? 1)%Z with false by (symmetry; apply Z.ltb_ge; lia).
    rewrite doc_of_map. done.
  - unfold received, payload_value. cbn [ppr_Payload]. rewrite Hp. cbn [fmap option_fmap option_map default]. unfold from_option, id.
    destruct (interface_doc_plain _ Hpl Hwf) as (v' & Ev & Hv).
    destruct (DigestCanonical_eqv _ _ _ _ Hwf Hv Hdig) as (closed' & Ec & Hc).
    exists closed'. split; [|done]. apply DigestCanonicalJSON_ok. by exists v'.
Qed.

End Bodies.

(** ** Witnesses *)

Section Witnesses.
#[local] Existing Instances plain_float identity_JCS.

Definition issued_claims : list (string * any) :=
  [("exp", ANumber "1000"); ("email", AString "a@b.c"); ("user_id", AString "user-1")].

Definition issued_read : list (string * any) :=
  [("user_id", AString "user-1"); ("exp", AFloat64 (mkFloat 8796093022208000 (-43))); ("email", AString "a@b.c")].

Lemma issued_token_witness :
  parseAndValidateDiscoveryToken 1000 (issue issued_claims [(jwtAlgEdDSA, "s"); (jwtAlgMLDSA65, "t")]) 0
  = Some issued_read.
Proof.
  rewrite (issued_token 1000 issued_claims [(jwtAlgEdDSA, "s"); (jwtAlgMLDSA65, "t")] 0 issued_read).
  - vm_compute. reflexivity.
  - apply (writable_mono 1); [pose proof limit_large; lia|]. repeat (apply Forall_cons_2; [vm_compute; done|]). apply Forall_nil_2.
  - vm_compute. reflexivity.
  - repeat (apply Forall_cons_2; [split; [vm_compute; reflexivity|split; [vm_compute; reflexivity|discriminate]]|]). apply Forall_nil_2.
Defined.

Definition golden_obj : list (string * any) := match golden_minimal with AMap l => l | _ => [] end.

Lemma golden_plain : plain (AMap golden_obj).
Proof. vm_compute. repeat split. Qed.

Lemma golden_wf : any_wf (AMap golden_obj).
Proof. vm_compute. repeat split; by apply (bool_decide_unpack _). Qed.

Lemma golden_writable d : (5 <= d)%nat -> writable d (AMap golden_obj).
Proof. intros Hd. apply (writable_mono 5); [done|]. repeat (hnf; first [exact I|apply Forall_nil_2|apply Forall_cons_2]). Qed.

Lemma digest_through_text_witness : exists doc closed, text_value (json_marshal (AMap golden_obj)) = Some doc
  /\ DigestCanonicalJSON doc = Ok ("2f54b2fbf6c519ad147a1840def48d3684d66d23f306c85fa19a88d756721e3d", closed).
Proof.
  destruct (DigestCanonical (AMap golden_obj)) as [[d closed]|] eqn:E; [|vm_compute in E; discriminate].
  destruct (digest_through_text golden_obj d closed) as (doc & closed' & H1 & H2 & _).
  - exact golden_plain.
  - exact golden_wf.
  - apply golden_writable. pose proof limit_large. lia.
  - exact E.
  - exists doc, closed'. split; [exact H1|]. rewrite H2. do 2 f_equal. vm_compute in E. by injection E as <- _.
Defined.

Lemma trailing_text_unauthorised_witness :
  extractScanIDsForAuthorization
    (with_text (json_marshal (AMap [("scan_id", AString sample_scan)]) +:+ " x") (sample_request Policies [])) = Ok [].
Proof.
  apply (trailing_text_unauthorised (AMap [("scan_id", AString sample_scan)]) " x" (sample_request Policies [])).
  - apply (writable_mono 1); [pose proof limit_large; lia|]. repeat constructor.
  - vm_compute. repeat split; discriminate.
  - discriminate.
  - reflexivity.
Defined.

Definition client_request : policyPersistRequest :=
  mkPersistRequest sample_wallet 1 sample_scan "m" "s" (Some (AMap golden_obj)) "d".

Lemma persist_request_text_witness :
  decodePolicyPersistRequest (with_text (json_marshal (persist_any client_request)) (sample_request Policies []))
  = Ok (received client_request).
Proof.
  destruct (DigestCanonical (AMap golden_obj)) as [[d closed]|] eqn:E; [|vm_compute in E; discriminate].
  apply (persist_request_text client_request golden_obj (sample_request Policies []) d closed).
  - split.
    + repeat (apply Forall_cons_2; [vm_compute; reflexivity|]). apply Forall_nil_2.
    + vm_compute. discriminate.
    + vm_compute. discriminate.
    + vm_compute. split; discriminate.
    + reflexivity.
    + apply golden_writable. pose proof limit_large. lia.
  - exact golden_plain.
  - exact golden_wf.
  - exact E.
Defined.

End Witnesses.
