(* ===== verification/Concurrent.v ===== *)
(** * Requests in flight

    Requests are served concurrently; the store of [owner_scoped_store_dev.go]
    is shared under a read-write mutex.  Here a route is what it does before it
    takes the lock, and the reads and writes it performs while it holds it; any
    number of requests interleave these steps.  Every execution has the outcome
    of serving the requests one after the other, in the order in which they
    release the lock. *)

From stdpp Require Import base gmap sets list strings relations.
From Stdlib Require Import Ascii ZArith Lia.
From S2P Require Import Prelude GoStrings GoUnicode Errors GoAny GoTime PayloadHash PersistGate WalletTarget WalletAuth OwnerStore Routes Http Json Upstream Auth Handlers.
Local Open Scope string_scope.
Local Open Scope list_scope.

(** ** Critical sections *)

(** What a goroutine does between taking the lock and releasing it. *)
Inductive prog (S R : Type) : Type :=
| Ret (r : R)
| Read (k : S -> prog S R)
| Write (f : S -> S) (k : prog S R).
Arguments Ret {S R} r.
Arguments Read {S R} k.
Arguments Write {S R} f k.

Fixpoint run_prog {S R} (p : prog S R) (s : S) : S * R :=
  match p with
  | Ret r => (s, r)
  | Read k => run_prog (k s) s
  | Write f k => run_prog k (f s)
  end.

Fixpoint prog_map {S R Q} (g : R -> Q) (p : prog S R) : prog S Q :=
  match p with
  | Ret r => Ret (g r)
  | Read k => Read (fun s => prog_map g (k s))
  | Write f k => Write f (prog_map g k)
  end.

Lemma run_prog_map {S R Q} (g : R -> Q) (p : prog S R) s :
  run_prog (prog_map g p) s = let '(s', r) := run_prog p s in (s', g r).
Proof. revert s. induction p as [r|k IH|f k IH]; intros s; cbn; [done|apply IH|apply IH]. Qed.

(** A section under the read lock does not write. *)
Inductive read_only {S R} : prog S R -> Prop :=
| ro_ret r : read_only (Ret r)
| ro_read k : (forall s, read_only (k s)) -> read_only (Read k).

Lemma read_only_run {S R} (p : prog S R) s : read_only p -> fst (run_prog p s) = s.
Proof. induction 1 as [|k _ IH]; cbn; [done|apply IH]. Qed.

Lemma read_only_map {S R Q} (g : R -> Q) (p : prog S R) : read_only p -> read_only (prog_map g p).
Proof. induction 1; cbn; constructor; done. Qed.

(** A route: answered without the store, or a section under the write lock
    ([true]) or the read lock. *)
Inductive plan (S R : Type) : Type :=
| Answered (r : R)
| Locked (w : bool) (p : prog S R).
Arguments Answered {S R} r.
Arguments Locked {S R} w p.

Definition plan_map {S R Q} (g : R -> Q) (p : plan S R) : plan S Q :=
  match p with Answered r => Answered (g r) | Locked w p => Locked w (prog_map g p) end.

Definition run_plan {S R} (p : plan S R) (s : S) : S * R :=
  match p with Answered r => (s, r) | Locked _ p => run_prog p s end.

Definition plan_ok {S R} (p : plan S R) : Prop :=
  match p with Locked false p => read_only p | _ => True end.

Lemma run_plan_map {S R Q} (g : R -> Q) (p : plan S R) s :
  run_plan (plan_map g p) s = let '(s', r) := run_plan p s in (s', g r).
Proof. destruct p; [done|apply run_prog_map]. Qed.

Lemma plan_map_ok {S R Q} (g : R -> Q) (p : plan S R) : plan_ok p -> plan_ok (plan_map g p).
Proof. destruct p as [|[]]; try done. apply read_only_map. Qed.

(** ** Executions *)

(** A request has one entry in a log. *)
Lemma NoDup_fst_unique {A B} (l : list (A * B)) a b c : NoDup (fst <$> l) -> (a, b) ∈ l -> (a, c) ∈ l -> b = c.
Proof.
  induction l as [|[x y] l IH]; [by intros _ ?%not_elem_of_nil|]. rewrite fmap_cons, NoDup_cons. intros [Hx Hl].
  rewrite !elem_of_cons. intros [[= <- <-]|Hb] [[= <-]|Hc]; [done| | |by apply IH].
  - destruct Hx. by apply (list_elem_of_fmap_2 fst _ (a, c)).
  - subst. destruct Hx. by apply (list_elem_of_fmap_2 fst _ (a, b)).
Qed.

Section Interleaving.
Context {S R : Type}.

Inductive thread :=
| Waiting (w : bool) (p : prog S R)
| Holding (w : bool) (p0 p : prog S R)     (** the section, and what is left of it *)
| Finished (r : R).

Definition holding (t : thread) : Prop := match t with Holding _ _ _ => True | _ => False end.
Definition writing (t : thread) : Prop := match t with Holding true _ _ => True | _ => False end.

#[global] Instance holding_dec t : Decision (holding t).
Proof. destruct t; apply _. Defined.

Definition system : Type := S * list thread.

(** The mutex: a writer waits until nobody holds it, a reader until no writer
    does. *)
Definition may_enter (w : bool) (ts : list thread) : Prop :=
  if w then Forall (fun t => ~ holding t) ts else Forall (fun t => ~ writing t) ts.

Inductive system_step : system -> system -> Prop :=
| step_acquire s ts i w p : ts !! i = Some (Waiting w p) -> may_enter w ts ->
    system_step (s, ts) (s, <[i := Holding w p p]> ts)
| step_read s ts i w p0 k : ts !! i = Some (Holding w p0 (Read k)) ->
    system_step (s, ts) (s, <[i := Holding w p0 (k s)]> ts)
| step_write s ts i w p0 f k : ts !! i = Some (Holding w p0 (Write f k)) ->
    system_step (s, ts) (f s, <[i := Holding w p0 k]> ts)
| step_release s ts i w p0 r : ts !! i = Some (Holding w p0 (Ret r)) ->
    system_step (s, ts) (s, <[i := Finished r]> ts).

Definition thread_of (p : plan S R) : thread :=
  match p with Answered r => Finished r | Locked w p => Waiting w p end.

(** Sections one after the other, with the request each belongs to. *)
Inductive sequential (plans : list (plan S R)) : S -> list (nat * R) -> S -> Prop :=
| seq_nil s : sequential plans s [] s
| seq_snoc s log s1 i w p s2 r : sequential plans s log s1 ->
    plans !! i = Some (Locked w p) -> run_prog p s1 = (s2, r) ->
    sequential plans s (log ++ [(i, r)]) s2.

(** What holds at any time of an execution that started with [plans] in store
    [s0]: the requests that have released the lock ran one after the other up
    to the store [base], those inside are on their way from there. *)
Definition consistent_thread (base s : S) (p : option (plan S R)) (log : list (nat * R)) (i : nat) (t : thread) : Prop :=
  match t with
  | Waiting w q => p = Some (Locked w q) /\ i ∉ fst <$> log
  | Holding w q q' => p = Some (Locked w q) /\ i ∉ fst <$> log /\ run_prog q base = run_prog q' s
                      /\ (w = false -> read_only q')
  | Finished r => p = Some (Answered r) /\ i ∉ fst <$> log \/ (exists w q, p = Some (Locked w q)) /\ (i, r) ∈ log
  end.

Record consistent (plans : list (plan S R)) (s0 base s : S) (ts : list thread) (log : list (nat * R)) : Prop := {
  co_seq : sequential plans s0 log base;
  co_len : length ts = length plans;
  co_nodup : NoDup (fst <$> log);
  co_thread : forall i t, ts !! i = Some t -> consistent_thread base s (plans !! i) log i t;
  co_alone : forall i j t u, ts !! i = Some t -> ts !! j = Some u -> writing t -> holding u -> i = j;
  co_base : Forall (fun t => ~ writing t) ts -> s = base
}.

Lemma initial_consistent plans s0 : consistent plans s0 s0 s0 (thread_of <$> plans) [].
Proof.
  split.
  - constructor.
  - by rewrite length_fmap.
  - constructor.
  - intros i t H. rewrite list_lookup_fmap in H. destruct (plans !! i) as [p|]; [|done]. injection H as <-.
    destruct p as [r|w q]; cbn; [left|]; split; try done; apply not_elem_of_nil.
  - intros i j t u Hi _ Hw _. rewrite list_lookup_fmap in Hi. destruct (plans !! i) as [[]|]; [..|done];
      injection Hi as <-; done.
  - done.
Qed.

(** A thread that stays inside, or leaves, makes nobody else hold the lock. *)
Lemma alone_insert (ts : list thread) i t t' :
  ts !! i = Some t -> (holding t' -> holding t) -> (writing t' -> writing t) ->
  (forall i j t u, ts !! i = Some t -> ts !! j = Some u -> writing t -> holding u -> i = j) ->
  forall a b u v, <[i := t']> ts !! a = Some u -> <[i := t']> ts !! b = Some v -> writing u -> holding v -> a = b.
Proof.
  intros Hi Hh Hw H a b u v Ha Hb Wu Hv.
  rewrite list_lookup_insert_Some in Ha, Hb.
  destruct Ha as [(<- & <- & _)|[Hai Ha]], Hb as [(<- & <- & _)|[Hbi Hb]]; [done|..].
  - exact (H i b t v Hi Hb (Hw Wu) Hv).
  - exact (H a i u t Ha Hi Wu (Hh Hv)).
  - by eapply H.
Qed.

Lemma quiet_insert (ts : list thread) i t t' : ts !! i = Some t -> (writing t -> writing t') ->
  Forall (fun t => ~ writing t) (<[i := t']> ts) -> Forall (fun t => ~ writing t) ts.
Proof.
  intros Hi Hw H. rewrite Forall_lookup in *. intros j u Hj. destruct (decide (j = i)) as [->|Hne].
  - rewrite Hi in Hj. injection Hj as <-. intros Hu. apply (H i t'); [|by apply Hw].
    apply list_lookup_insert_eq. by eapply lookup_lt_Some.
  - apply (H j). by rewrite list_lookup_insert_ne.
Qed.

(** A thread outside the lock does not see what happens to the store. *)
Lemma outside_thread base base' s s' p log i t : ~ holding t ->
  consistent_thread base s p log i t -> consistent_thread base' s' p log i t.
Proof. by destruct t. Qed.

Lemma logged_thread base s p log i t j r : i <> j ->
  consistent_thread base s p log i t -> consistent_thread base s p (log ++ [(j, r)]) i t.
Proof.
  intros Hne. assert (Hn : i ∉ fst <$> log -> i ∉ fst <$> (log ++ [(j, r)])).
  { intros H. rewrite fmap_app, not_elem_of_app. split; [done|]. cbn. by apply not_elem_of_cons; split; [|apply not_elem_of_nil]. }
  destruct t as [w q|w q q'|r']; cbn; [naive_solver|naive_solver|].
  intros [[? ?]|[? ?]]; [left; naive_solver|right; split; [done|]]. apply elem_of_app. by left.
Qed.

Lemma logged_plan plans s log s' i r : sequential plans s log s' -> (i, r) ∈ log -> exists p, plans !! i = Some p.
Proof.
  induction 1 as [|s log s1 j w p s2 b _ IH Hp _]; [by intros ?%not_elem_of_nil|].
  rewrite elem_of_app, list_elem_of_singleton. intros [?|[= -> ->]]; [by apply IH|by eexists].
Qed.

(** *** Progress *)

Lemma holder_finishes w p0 (p : prog S R) s ts i : ts !! i = Some (Holding w p0 p) ->
  exists s' r, rtc system_step (s, ts) (s', <[i := Finished r]> ts).
Proof.
  assert (Hins : forall t t' (ts : list thread), <[i := t']> (<[i := t]> ts) = <[i := t']> ts)
    by (intros; apply list_insert_insert_eq).
  revert s ts. induction p as [r|k IH|f k IH]; intros s ts Hi.
  - exists s, r. apply rtc_once. by eapply step_release.
  - destruct (IH s s (<[i := Holding w p0 (k s)]> ts)) as (s' & r & H).
    { apply list_lookup_insert_eq. by eapply lookup_lt_Some. }
    exists s', r. rewrite Hins in H. eapply rtc_l; [|exact H]. by apply step_read.
  - destruct (IH (f s) (<[i := Holding w p0 k]> ts)) as (s' & r & H).
    { apply list_lookup_insert_eq. by eapply lookup_lt_Some. }
    exists s', r. rewrite Hins in H. eapply rtc_l; [|exact H]. by eapply step_write.
Qed.

Definition unfinished (t : thread) : bool := match t with Finished _ => false | _ => true end.

Lemma unfinished_insert (ts : list thread) i t r : ts !! i = Some t -> unfinished t = true ->
  length (List.filter unfinished ts) = Datatypes.S (length (List.filter unfinished (<[i := Finished r]> ts))).
Proof.
  revert i. induction ts as [|u ts IH]; intros [|i] Hi Ht; try done; cbn in *.
  - injection Hi as ->. by rewrite Ht.
  - destruct (unfinished u); cbn; by rewrite (IH i Hi Ht).
Qed.

(** Some goroutine can always go on: one that holds the lock, or else one that
    waits for it. *)
Lemma one_more_finishes s ts : existsb unfinished ts = true ->
  exists s' i t r, ts !! i = Some t /\ unfinished t = true /\ rtc system_step (s, ts) (s', <[i := Finished r]> ts).
Proof.
  intros Hu. destruct (decide (Exists holding ts)) as [He|He].
  - apply Exists_exists in He as (t & Hin & Ht). apply list_elem_of_lookup in Hin as [i Hi].
    destruct t as [|w p0 p|]; [done| |done]. destruct (holder_finishes w p0 p s ts i Hi) as (s' & r & H).
    by exists s', i, (Holding w p0 p), r.
  - apply not_Exists_Forall in He; [|intros t; apply _]. apply existsb_exists in Hu as (t & Hin & Ht).
    apply list_elem_of_In, list_elem_of_lookup in Hin as [i Hi]. rewrite Forall_lookup in He.
    destruct t as [w p|w p0 p|]; [|by destruct (He i _ Hi)|done].
    destruct (holder_finishes w p p s (<[i := Holding w p p]> ts) i) as (s' & r & H).
    { apply list_lookup_insert_eq. by eapply lookup_lt_Some. }
    exists s', i, (Waiting w p), r. split_and!; [done|done|]. rewrite list_insert_insert_eq in H.
    eapply rtc_l; [|exact H]. apply step_acquire; [done|].
    destruct w; apply Forall_lookup; intros j u Hj; [by apply (He j)|]. intros Hw. apply (He j u Hj). by destruct u as [|[]|].
Qed.

Lemma completes s ts : exists s' answers, rtc system_step (s, ts) (s', Finished <$> answers).
Proof.
  remember (length (List.filter unfinished ts)) as n eqn:Hn. revert s ts Hn.
  induction n as [|n IH]; intros s ts Hn.
  - exists s. assert (exists answers, ts = Finished <$> answers) as [answers ->]; [|by exists answers].
    clear s. induction ts as [|t ts IHt]; [by exists []|]. destruct t as [| |r]; [done|done|].
    destruct (IHt Hn) as [answers ->]. by exists (r :: answers).
  - destruct (one_more_finishes s ts) as (s' & i & t & r & Hi & Ht & H).
    { destruct (List.filter unfinished ts) as [|t l] eqn:E; [done|]. apply existsb_exists. exists t.
      apply List.filter_In. rewrite E. by left. }
    rewrite (unfinished_insert ts i t r Hi Ht) in Hn. injection Hn as Hn.
    destruct (IH s' _ Hn) as (s2 & answers & H2). exists s2, answers. by transitivity (s', <[i := Finished r]> ts).
Qed.

(** *** Termination *)

(** What a step does to the goroutine that takes it. *)
Inductive thread_step : thread -> thread -> Prop :=
| ts_acquire w p : thread_step (Waiting w p) (Holding w p p)
| ts_read w p0 k s : thread_step (Holding w p0 (Read k)) (Holding w p0 (k s))
| ts_write w p0 f k : thread_step (Holding w p0 (Write f k)) (Holding w p0 k)
| ts_release w p0 r : thread_step (Holding w p0 (Ret r)) (Finished r).

Lemma thread_ends t : Acc (flip thread_step) t.
Proof.
  assert (Hf : forall r, Acc (flip thread_step) (Finished r)) by (intros r; constructor; intros t' H; inversion H).
  assert (Hh : forall w p0 p, Acc (flip thread_step) (Holding w p0 p)).
  { intros w p0 p. induction p as [r|k IH|f k IH]; constructor; intros t' H; inversion H; subst; [apply Hf|apply IH|exact IH]. }
  destruct t as [w p| |]; [|done|done]. constructor. intros t' H. inversion H. apply Hh.
Qed.

(** A step of one of a list of goroutines. *)
Definition some_step (ts ts' : list thread) : Prop :=
  exists i t t', ts !! i = Some t /\ thread_step t t' /\ ts' = <[i := t']> ts.

Lemma threads_end ts : Acc (flip some_step) ts.
Proof.
  induction ts as [|t ts IHts]; [constructor; intros ts' (i & t & t' & Hi & _); by destruct i|].
  revert ts IHts. induction (thread_ends t) as [t _ IHt]. intros ts Hts. induction Hts as [ts Hts IH].
  constructor. intros ts' ([|i] & u & u' & Hi & Hu & ->); cbn in *.
  - injection Hi as <-. apply IHt; [exact Hu|by constructor].
  - apply IH. by exists i, u, u'.
Qed.

Lemma step_some s ts s' ts' : system_step (s, ts) (s', ts') -> some_step ts ts'.
Proof. intros H. inversion H; subst; eexists _, _, _; (split; [eassumption|split; [constructor|reflexivity]]). Qed.

(** No execution goes on for ever. *)
Lemma executions_end x : Acc (flip system_step) x.
Proof.
  destruct x as [s ts]. revert s. induction (threads_end ts) as [ts _ IH]. intros s. constructor.
  intros [s' ts'] H. apply IH. by eapply step_some.
Qed.

Section Preservation.
Context (plans : list (plan S R)) (Hplans : Forall plan_ok plans).

Lemma acquire_consistent s0 base s ts log i w p : consistent plans s0 base s ts log ->
  ts !! i = Some (Waiting w p) -> may_enter w ts -> consistent plans s0 base s (<[i := Holding w p p]> ts) log.
Proof.
  intros [C1 C2 C3 C4 C5 C6] Hi Hm. destruct (C4 i _ Hi) as [Hp Hl].
  assert (Hq : Forall (fun t => ~ writing t) ts).
  { destruct w; [|done]. eapply Forall_impl; [exact Hm|]. by intros [|[]|]. }
  assert (s = base) as -> by (by apply C6). split; [done|by rewrite length_insert|done| | |done].
  - intros j t. rewrite list_lookup_insert_Some. intros [(<- & <- & _)|[Hne Hj]]; [|by apply C4].
    cbn. split_and!; try done. intros ->. rewrite Forall_lookup in Hplans. exact (Hplans i _ Hp).
  - intros a b t u. rewrite !list_lookup_insert_Some. rewrite Forall_lookup in Hq.
    intros [(<- & <- & _)|[Hai Ha]] [(<- & <- & _)|[Hbi Hb]] Wt Hu; [done| |by destruct (Hq a t Ha)|by destruct (Hq a t Ha)].
    destruct w; [|done]. cbn in Hm. rewrite Forall_lookup in Hm. by destruct (Hm b u Hb).
Qed.

Lemma read_consistent s0 base s ts log i w p0 k : consistent plans s0 base s ts log ->
  ts !! i = Some (Holding w p0 (Read k)) -> consistent plans s0 base s (<[i := Holding w p0 (k s)]> ts) log.
Proof.
  intros [C1 C2 C3 C4 C5 C6] Hi. destruct (C4 i _ Hi) as (Hp & Hl & Hr & Ho). split; [done|by rewrite length_insert|done|..].
  - intros j t. rewrite list_lookup_insert_Some. intros [(<- & <- & _)|[Hne Hj]]; [|by apply C4].
    cbn. split_and!; try done. intros E. specialize (Ho E). by inversion Ho.
  - eapply alone_insert; [exact Hi|by destruct w|by destruct w|exact C5].
  - intros H. apply C6. eapply quiet_insert; [exact Hi| |exact H]. by destruct w.
Qed.

Lemma write_consistent s0 base s ts log i w p0 f k : consistent plans s0 base s ts log ->
  ts !! i = Some (Holding w p0 (Write f k)) -> consistent plans s0 base (f s) (<[i := Holding w p0 k]> ts) log.
Proof.
  intros [C1 C2 C3 C4 C5 C6] Hi. destruct (C4 i _ Hi) as (Hp & Hl & Hr & Ho).
  destruct w; [|specialize (Ho eq_refl); inversion Ho]. split; [done|by rewrite length_insert|done|..].
  - intros j t. rewrite list_lookup_insert_Some. intros [(<- & <- & _)|[Hne Hj]]; [by cbn|].
    eapply outside_thread; [|by apply C4]. intros Ht. apply Hne. by eapply C5.
  - eapply alone_insert; [exact Hi|done|done|exact C5].
  - intros H. exfalso. rewrite Forall_lookup in H. apply (H i (Holding true p0 k)); [|done].
    apply list_lookup_insert_eq. by eapply lookup_lt_Some.
Qed.

Lemma release_consistent s0 base s ts log i w p0 r : consistent plans s0 base s ts log ->
  ts !! i = Some (Holding w p0 (Ret r)) -> consistent plans s0 s s (<[i := Finished r]> ts) (log ++ [(i, r)]).
Proof.
  intros [C1 C2 C3 C4 C5 C6] Hi. destruct (C4 i _ Hi) as (Hp & Hl & Hr & Ho). split; [|by rewrite length_insert|..].
  - by eapply seq_snoc.
  - rewrite fmap_app. apply NoDup_app. split_and!; [done| |apply NoDup_singleton].
    intros j Hj Hj'. cbn in Hj'. apply list_elem_of_singleton in Hj' as ->. done.
  - intros j t. rewrite list_lookup_insert_Some. intros [(<- & <- & _)|[Hne Hj]].
    { right. split; [by eexists _, _|]. apply elem_of_app. right. by apply list_elem_of_singleton. }
    apply logged_thread; [done|]. destruct w.
    + eapply outside_thread; [|by apply C4]. intros Ht. apply Hne. by eapply C5.
    + assert (s = base) as ->; [|by apply C4]. apply C6. apply Forall_lookup. intros a u Ha Wu.
      assert (a = i) as -> by (by eapply C5). rewrite Hi in Ha. by injection Ha as <-.
  - eapply alone_insert; [exact Hi|done|done|exact C5].
  - done.
Qed.

Lemma step_consistent s0 base s ts log s' ts' : consistent plans s0 base s ts log ->
  system_step (s, ts) (s', ts') -> exists base' log', consistent plans s0 base' s' ts' log'.
Proof.
  intros C H. inversion H; subst; eexists _, _;
    [by eapply acquire_consistent|by eapply read_consistent|by eapply write_consistent|by eapply release_consistent].
Qed.

Lemma execution_consistent s0 x : rtc system_step (s0, thread_of <$> plans) x ->
  exists base log, consistent plans s0 base (fst x) (snd x) log.
Proof.
  intros H. refine (rtc_ind_r (fun x => exists base log, consistent plans s0 base (fst x) (snd x) log) _ _ _ _ H).
  - eexists _, _. apply initial_consistent.
  - intros [s1 t1] [s2 t2] _ Hs (base & log & C). by eapply step_consistent.
Qed.

(** Every execution that serves all the requests ends as if they had been
    served one after the other: each that takes the lock appears once, with the
    answer it gave. *)
Lemma linearizable s0 s answers :
  rtc system_step (s0, thread_of <$> plans) (s, Finished <$> answers) ->
  exists log, sequential plans s0 log s /\ NoDup (fst <$> log) /\ length answers = length plans
    /\ (forall ia, ia ∈ log -> answers !! (fst ia) = Some (snd ia))
    /\ forall i p, plans !! i = Some p ->
         match p with
         | Answered r => answers !! i = Some r /\ i ∉ fst <$> log
         | Locked _ _ => exists r, answers !! i = Some r /\ (i, r) ∈ log
         end.
Proof.
  intros H. destruct (execution_consistent _ _ H) as (base & log & [C1 C2 C3 C4 C5 C6]). cbn [fst snd] in *.
  rewrite length_fmap in C2. assert (Hp : forall i p, plans !! i = Some p -> exists r, answers !! i = Some r
    /\ (p = Answered r /\ i ∉ fst <$> log \/ (exists w q, p = Locked w q) /\ (i, r) ∈ log)).
  { intros i p Hp. destruct (answers !! i) as [r|] eqn:Ha.
    2:{ apply lookup_ge_None in Ha. apply lookup_lt_Some in Hp. lia. }
    specialize (C4 i (Finished r)). rewrite list_lookup_fmap, Ha in C4. specialize (C4 eq_refl). cbn in C4.
    rewrite Hp in C4. exists r. naive_solver. }
  exists log. rewrite C6; [split_and!; [done|done|done|..]|].
  - intros [i r] Hin. destruct (logged_plan _ _ _ _ _ _ C1 Hin) as [p Hi]. destruct (Hp i _ Hi) as (r' & Ha & Hc).
    cbn [fst snd]. rewrite Ha. f_equal. destruct Hc as [[_ Hn]|[_ Hin']]; [destruct Hn; by apply (list_elem_of_fmap_2 fst _ (i, r))|].
    by eapply (NoDup_fst_unique log).
  - intros i p Hi. destruct (Hp i p Hi) as (r & Ha & [[-> Hn]|[(w & q & ->) Hin]]); [done|by exists r].
  - apply Forall_fmap, Forall_forall. by intros r _ [].
Qed.

End Preservation.

End Interleaving.

(** ** The store's operations *)

Section StorePlans.
Context `{U : Unicode, GS : GoSort}.

Notation store_plan A := (plan OwnerScopedStore (gores A)).

(** The checks come before the lock; under it the map is searched, then
    written. *)
Definition create_plan (e : Env) (p : Principal) (i : CreatePolicyInput) : store_plan CreatePolicyResult :=
  match Principal_Validate p with
  | Err _ => Answered (Err (err_of ErrPrincipalRequired))
  | Ok _ =>
      match create_checks i with
      | Err err => Answered (Err err)
      | Ok (scanID, sha, payload, normWallet) =>
          let verifiedAt := if IsZero (ci_WalletControlVerifiedAt i) then env_now e
                            else ci_WalletControlVerifiedAt i in
          Locked true (Read (fun s =>
            if existsb (fun kv => holds_wallet p normWallet (snd kv)) (range s)
            then Ret (Err (err_of ErrPolicyAlreadyExists))
            else
              match env_id e with
              | Err err => Ret (Err err)
              | Ok policyID =>
                  Write (fun s => <[policyID := created_record policyID p i scanID sha normWallet payload verifiedAt]> s)
                    (Ret (Ok (mkCreatePolicyResult policyID scanID normWallet (ci_ChainID i) sha verifiedAt)))
              end))
      end
  end.

Definition delete_plan (p : Principal) (id : string) : store_plan unit :=
  match Principal_Validate p with
  | Err _ => Answered (Err (err_of ErrPrincipalRequired))
  | Ok _ =>
      Locked true (Read (fun s =>
        match s !! id with
        | None => Ret (Err (err_of ErrPolicyNotFound))
        | Some record =>
            if negb (owns p record) then Ret (Err (err_of ErrForbidden))
            else Write (fun s => delete id s) (Ret (Ok tt))
        end))
  end.

Definition get_plan (p : Principal) (id : string) : store_plan PolicyRecord :=
  match Principal_Validate p with
  | Err _ => Answered (Err (err_of ErrPrincipalRequired))
  | Ok _ =>
      Locked false (Read (fun s =>
        match s !! id with
        | None => Ret (Err (err_of ErrPolicyNotFound))
        | Some record => Ret (if negb (owns p record) then Err (err_of ErrForbidden) else Ok record)
        end))
  end.

Definition list_plan (p : Principal) (scanID : string) : store_plan (list PolicyRecord) :=
  match Principal_Validate p with
  | Err _ => Answered (Err (err_of ErrPrincipalRequired))
  | Ok _ =>
      let needle := TrimSpace scanID in
      if is_empty needle then Answered (Err (errors_New "scan_id is required"))
      else Locked false (Read (fun s =>
        Ret (Ok (sort_slice record_less
          (omap (fun '(id, rec) => if on_scan p needle rec then Some (with_id id rec) else None) (range s))))))
  end.

Definition count_plan (p : Principal) (address : string) : store_plan WalletTargetContextCounts :=
  match Principal_Validate p with
  | Err _ => Answered (Err (err_of ErrPrincipalRequired))
  | Ok _ =>
      match NormalizeWalletTargetAddress address with
      | Err err => Answered (Err err)
      | Ok needle =>
          Locked false (Read (fun s =>
            let policyCount :=
              length (base.filter (fun kv => owns p (snd kv)
                                && String.eqb (walletTargetFromPayload (rec_Payload (snd kv))) needle)
                        (range s)) in
            Ret (Ok (mkCounts (Nat.ltb 0 policyCount) (Z.of_nat policyCount)))))
      end
  end.

Ltac plan_cases := repeat (case_match; simplify_eq/=); done.

Lemma create_plan_run e p i s : run_plan (create_plan e p i) s = CreatePolicy e p i s.
Proof. unfold create_plan, CreatePolicy. plan_cases. Qed.

Lemma delete_plan_run p id s : run_plan (delete_plan p id) s = DeletePolicy p id s.
Proof. unfold delete_plan, DeletePolicy. plan_cases. Qed.

Lemma get_plan_run p id s : run_plan (get_plan p id) s = (s, GetPolicy p id s).
Proof. unfold get_plan, GetPolicy. plan_cases. Qed.

Lemma list_plan_run p scanID s : run_plan (list_plan p scanID) s = (s, ListPersistedPoliciesForScan p scanID s).
Proof.
  unfold list_plan, ListPersistedPoliciesForScan. destruct (Principal_Validate p); [|done].
  cbn zeta. by destruct (is_empty (TrimSpace scanID)).
Qed.

Lemma count_plan_run p address s : run_plan (count_plan p address) s = (s, CountActiveWalletCPMContext p address s).
Proof.
  unfold count_plan, CountActiveWalletCPMContext, lookupActiveWalletCPMContext.
  destruct (Principal_Validate p); [|done]. by destruct (NormalizeWalletTargetAddress address).
Qed.

Lemma create_plan_ok e p i : plan_ok (create_plan e p i).
Proof. unfold create_plan. destruct (Principal_Validate p); [|done]. by destruct (create_checks i) as [[[[]]]|]. Qed.

Lemma delete_plan_ok p id : plan_ok (delete_plan p id).
Proof. unfold delete_plan. by destruct (Principal_Validate p). Qed.

Lemma get_plan_ok p id : plan_ok (get_plan p id).
Proof. unfold get_plan. destruct (Principal_Validate p); [|done]. constructor. intros s. destruct (s !! id); constructor. Qed.

Lemma list_plan_ok p scanID : plan_ok (list_plan p scanID).
Proof.
  unfold list_plan. destruct (Principal_Validate p); [|done]. cbn zeta.
  destruct (is_empty _); [done|]. constructor. intros s. constructor.
Qed.

Lemma count_plan_ok p address : plan_ok (count_plan p address).
Proof.
  unfold count_plan. destruct (Principal_Validate p); [|done].
  destruct (NormalizeWalletTargetAddress address); [|done]. constructor. intros s. constructor.
Qed.

End StorePlans.

(** ** The routes *)

Section RoutePlans.
Context `{U : Unicode, GS : GoSort, F : GoFloat, JT : JCS, GJ : GoJson, E : EthCrypto, ET : EthText, D : Discovery}.

(** A request to one of the routes that use the store, past the middleware,
    with the clock readings and the random id it will use. *)
Inductive store_request :=
| RPersist (env : HandlerEnv) (r : Request) (cfg : authConfig)
| RList (env : HandlerEnv) (r : Request)
| RDelete (env : HandlerEnv) (r : Request)
| RWallet (env : HandlerEnv) (r : Request).

(** Its handler, run alone. *)
Definition handle (q : store_request) (s : OwnerScopedStore) : OwnerScopedStore * Response :=
  match q with
  | RPersist env r cfg => handlePolicyPersist env r cfg s
  | RList env r => handleOwnerGETPolicies env r s
  | RDelete env r => handleOwnerDELETEPolicies env r s
  | RWallet env r => handleOwnerGETWalletTargetContext env r s
  end.

(** Its handler as a plan: what comes before the lock, the section, and the
    answer made of the result after it. *)
Definition persist_plan (env : HandlerEnv) (r : Request) (cfg : authConfig) : plan OwnerScopedStore Response :=
  match persist_checks env r cfg with
  | Err resp => Answered resp
  | Ok (principal, input) =>
      plan_map (persist_answer (ensureRequestID (he_generated env) r))
        (create_plan (mkEnv (he_later env) (he_policyID env)) principal input)
  end.

Definition list_route_plan (env : HandlerEnv) (r : Request) : plan OwnerScopedStore Response :=
  let requestID := ensureRequestID (he_generated env) r in
  match rq_Principal r with
  | None => Answered (principal_missing requestID)
  | Some principal =>
      let id := TrimSpace (Query_Get r "id") in
      let scanID := TrimSpace (Query_Get r "scan_id") in
      if negb (is_empty id) && negb (is_empty scanID)
      then Answered (writeJSON StatusBadRequest (error_json "id and scan_id are mutually exclusive"))
      else if is_empty id && is_empty scanID
      then Answered (writeJSON StatusBadRequest (error_json "exactly one of id or scan_id is required"))
      else if negb (is_empty id) then plan_map (get_answer requestID) (get_plan principal id)
      else
        match NormalizeDiscoveryScanID scanID with
        | Err _ => Answered (writeJSON StatusBadRequest (error_json "scan_id must be a valid UUID"))
        | Ok norm => plan_map list_answer (list_plan principal norm)
        end
  end.

Definition delete_route_plan (env : HandlerEnv) (r : Request) : plan OwnerScopedStore Response :=
  let requestID := ensureRequestID (he_generated env) r in
  match rq_Principal r with
  | None => Answered (principal_missing requestID)
  | Some principal =>
      let id := TrimSpace (Query_Get r "id") in
      if is_empty id then Answered (writeJSON StatusBadRequest (error_json errMsgIDRequired))
      else plan_map (delete_answer requestID) (delete_plan principal id)
  end.

Definition wallet_route_plan (env : HandlerEnv) (r : Request) : plan OwnerScopedStore Response :=
  let requestID := ensureRequestID (he_generated env) r in
  match rq_Principal r with
  | None => Answered (principal_missing requestID)
  | Some principal =>
      let raw := TrimSpace (Query_Get r "target_address") in
      if is_empty raw
      then Answered (writeJSON StatusBadRequest
             (apiErrorJSON "TARGET_ADDRESS_REQUIRED" "target_address query parameter is required"))
      else
        match NormalizeWalletTargetAddress raw with
        | Err normErr => Answered (writeJSON StatusBadRequest (apiErrorJSON "TARGET_ADDRESS_INVALID" (e_text normErr)))
        | Ok norm => plan_map (wallet_answer norm) (count_plan principal norm)
        end
  end.

Definition route_plan (q : store_request) : plan OwnerScopedStore Response :=
  match q with
  | RPersist env r cfg => persist_plan env r cfg
  | RList env r => list_route_plan env r
  | RDelete env r => delete_route_plan env r
  | RWallet env r => wallet_route_plan env r
  end.

(** Alone, the plan is the handler. *)
Lemma route_plan_run q s : run_plan (route_plan q) s = handle q s.
Proof.
  destruct q as [env r cfg|env r|env r|env r]; cbn [route_plan handle].
  - unfold persist_plan, handlePolicyPersist. destruct (persist_checks env r cfg) as [[p i]|]; [|done].
    by rewrite run_plan_map, create_plan_run.
  - unfold list_route_plan, handleOwnerGETPolicies. destruct (rq_Principal r) as [p|]; [|done]. cbn zeta.
    destruct (_ && _); [done|]. destruct (_ && _); [done|]. destruct (negb _); [by rewrite run_plan_map, get_plan_run|].
    destruct (NormalizeDiscoveryScanID _); [|done]. by rewrite run_plan_map, list_plan_run.
  - unfold delete_route_plan, handleOwnerDELETEPolicies. destruct (rq_Principal r) as [p|]; [|done]. cbn zeta.
    destruct (is_empty _); [done|]. by rewrite run_plan_map, delete_plan_run.
  - unfold wallet_route_plan, handleOwnerGETWalletTargetContext. destruct (rq_Principal r) as [p|]; [|done]. cbn zeta.
    destruct (is_empty _); [done|]. destruct (NormalizeWalletTargetAddress _); [|done]. by rewrite run_plan_map, count_plan_run.
Qed.

Lemma route_plan_ok q : plan_ok (route_plan q).
Proof.
  destruct q; cbn [route_plan]; unfold persist_plan, list_route_plan, delete_route_plan, wallet_route_plan; cbn zeta;
    repeat case_match; try done; apply plan_map_ok;
    first [apply create_plan_ok|apply delete_plan_ok|apply get_plan_ok|apply list_plan_ok|apply count_plan_ok].
Qed.

Lemma route_plans_ok reqs : Forall plan_ok (route_plan <$> reqs).
Proof. apply Forall_fmap, Forall_forall. intros q _. apply route_plan_ok. Qed.

(** The requests served alone, one after the other. *)
Inductive one_by_one (reqs : list store_request) : OwnerScopedStore -> list (nat * Response) -> OwnerScopedStore -> Prop :=
| one_nil s : one_by_one reqs s [] s
| one_snoc s log s1 i q s2 a : one_by_one reqs s log s1 -> reqs !! i = Some q -> handle q s1 = (s2, a) ->
    one_by_one reqs s (log ++ [(i, a)]) s2.

Lemma one_of_sequential reqs s log s' : sequential (route_plan <$> reqs) s log s' -> one_by_one reqs s log s'.
Proof.
  induction 1 as [s|s log s1 i w p s2 a _ IH Hp Hr]; [constructor|].
  rewrite list_lookup_fmap in Hp. destruct (reqs !! i) as [q|] eqn:Hq; [|done]. injection Hp as Hp.
  eapply one_snoc; [exact IH|exact Hq|]. by rewrite <- route_plan_run, Hp.
Qed.

(** Requests that are answered without the lock can be served at any time. *)
Lemma one_answered reqs s log s' (rest : list (nat * Response)) :
  one_by_one reqs s log s' ->
  Forall (fun ia => exists q, reqs !! (fst ia) = Some q /\ route_plan q = Answered (snd ia)) rest ->
  one_by_one reqs s (log ++ rest) s'.
Proof.
  intros H Hr. revert log H. induction Hr as [|[i a] rest (q & Hq & Hp) _ IH]; intros log H; [by rewrite app_nil_r|].
  replace (log ++ (i, a) :: rest) with ((log ++ [(i, a)]) ++ rest) by (by rewrite <- app_assoc).
  apply IH. eapply one_snoc; [exact H|exact Hq|]. by rewrite <- route_plan_run, Hp.
Qed.

(** The id a request draws for a policy it creates. *)
Definition drawn (q : store_request) : option string :=
  match q with
  | RPersist env _ _ => match he_policyID env with Ok id => Some id | Err _ => None end
  | _ => None
  end.

(** Random ids: no two requests draw the same, and none is in use. *)
Definition distinct_ids (reqs : list store_request) (s : OwnerScopedStore) : Prop :=
  (forall i j q q' id, reqs !! i = Some q -> reqs !! j = Some q' -> drawn q = Some id -> drawn q' = Some id -> i = j)
  /\ (forall i q id, reqs !! i = Some q -> drawn q = Some id -> s !! id = None).

Lemma create_keys e p i s id r : fst (CreatePolicy e p i s) !! id = Some r -> s !! id = Some r \/ env_id e = Ok id.
Proof.
  unfold CreatePolicy. destruct (Principal_Validate p); [|by left].
  destruct (create_checks i) as [[[[scanID sha] payload] wallet]|]; [|by left]. cbn zeta.
  destruct (existsb _ _); [by left|]. destruct (env_id e) as [policyID|]; [|by left]. cbn [fst].
  rewrite lookup_insert_Some. intros [[<- _]|[_ ?]]; [by right|by left].
Qed.

Lemma delete_keys p id0 s id r : fst (DeletePolicy p id0 s) !! id = Some r -> s !! id = Some r.
Proof.
  unfold DeletePolicy. repeat (case_match; simplify_eq/=; try done). rewrite lookup_delete_Some. naive_solver.
Qed.

(** One request keeps the store well-formed and adds at most the id it draws. *)
Lemma handle_keeps q s : store_ok s -> (forall id, drawn q = Some id -> s !! id = None) ->
  store_ok (fst (handle q s)) /\ forall id r, fst (handle q s) !! id = Some r -> s !! id = Some r \/ drawn q = Some id.
Proof.
  intros Hs Hf. destruct q as [env r cfg|env r|env r|env r]; cbn [handle drawn] in *.
  - unfold handlePolicyPersist. destruct (persist_checks env r cfg) as [[p i]|]; [|naive_solver].
    cbn [st_CreatePolicy OwnerScopedStore_PolicyStore].
    pose proof (CreatePolicy_state (mkEnv (he_later env) (he_policyID env)) p i s Hs) as H1.
    pose proof (fun id r => create_keys (mkEnv (he_later env) (he_policyID env)) p i s id r) as H2.
    destruct (CreatePolicy _ p i s) as [s' res]. cbn [fst env_id] in *. split.
    + apply H1. intros id E'. apply Hf. by rewrite E'.
    + intros id rec Hr. destruct (H2 id rec Hr) as [?| ->]; [by left|by right].
  - unfold handleOwnerGETPolicies. cbn [st_GetPolicy st_ListPersistedPoliciesForScan OwnerScopedStore_PolicyStore].
    repeat (case_match; simplify_eq/=); split; try done; by left.
  - unfold handleOwnerDELETEPolicies. destruct (rq_Principal r) as [p|]; [|naive_solver].
    cbn zeta. destruct (is_empty _); [naive_solver|]. cbn [st_DeletePolicy OwnerScopedStore_PolicyStore].
    pose proof (DeletePolicy_state p (TrimSpace (Query_Get r "id")) s Hs) as H1.
    pose proof (fun id rec => delete_keys p (TrimSpace (Query_Get r "id")) s id rec) as H2.
    destruct (DeletePolicy _ _ s) as [s' res]. cbn [fst] in *. naive_solver.
  - unfold handleOwnerGETWalletTargetContext. cbn [st_CountActiveWalletCPMContext OwnerScopedStore_PolicyStore].
    repeat (case_match; simplify_eq/=); split; try done; by left.
Qed.

Lemma one_by_one_ok reqs s log s' : one_by_one reqs s log s' -> NoDup (fst <$> log) -> store_ok s -> distinct_ids reqs s ->
  store_ok s' /\ forall i q id, reqs !! i = Some q -> i ∉ fst <$> log -> drawn q = Some id -> s' !! id = None.
Proof.
  intros H Hnd Hs [Hd Hu]. induction H as [s|s log s1 i q s2 a _ IH Hq Hh]; [naive_solver|].
  rewrite fmap_app, NoDup_app in Hnd. destruct Hnd as (Hnd & Hni & _). destruct (IH Hnd Hs Hu) as [IH1 IH2].
  assert (Hi : i ∉ fst <$> log).
  { intros Hin. apply (Hni i Hin). by apply list_elem_of_singleton. }
  destruct (handle_keeps q s1 IH1) as [K1 K2]; [by intros id; apply (IH2 i)|]. rewrite Hh in K1, K2. cbn [fst] in K1, K2.
  split; [done|]. intros j q' id Hj Hnj Hdj. rewrite fmap_app, not_elem_of_app in Hnj. destruct Hnj as [Hnj Hji].
  destruct (s2 !! id) as [rec|] eqn:E'; [|done]. exfalso. destruct (K2 id rec E') as [Hk|Hk].
  - by rewrite (IH2 j q' id Hj Hnj Hdj) in Hk.
  - apply Hji. apply list_elem_of_singleton. symmetry. by eapply Hd.
Qed.

(** The answers given without the lock complete the order. *)
Lemma complete_order reqs log (answers : list Response) : NoDup (fst <$> log) -> length answers = length reqs ->
  (forall ia, ia ∈ log -> answers !! (fst ia) = Some (snd ia)) ->
  (forall i p, (route_plan <$> reqs) !! i = Some p ->
     match p with
     | Answered r => answers !! i = Some r /\ i ∉ fst <$> log
     | Locked _ _ => exists r, answers !! i = Some r /\ (i, r) ∈ log
     end) ->
  exists rest, Forall (fun ia => exists q, reqs !! (fst ia) = Some q /\ route_plan q = Answered (snd ia)) rest
    /\ log ++ rest ≡ₚ imap pair answers.
Proof.
  intros Hnd Hlen Hlog Hp. exists (base.filter (fun ia : nat * Response => fst ia ∉ fst <$> log) (imap pair answers)).
  assert (Hnp : NoDup (imap pair answers)).
  { apply (NoDup_fmap_1 fst). rewrite fmap_imap. change (NoDup (imap (fun j (_ : Response) => id j) answers)).
    rewrite imap_seq_0, list_fmap_id. apply NoDup_seq. }
  split.
  - apply Forall_forall. intros [i a] Hin. rewrite list_elem_of_filter in Hin. destruct Hin as [Hn Hin]. cbn [fst snd] in *.
    rewrite elem_of_lookup_imap in Hin. destruct Hin as (j & a' & [= <- <-] & Ha).
    destruct (reqs !! i) as [q|] eqn:Hq.
    2:{ apply lookup_ge_None in Hq. apply lookup_lt_Some in Ha. lia. }
    exists q. split; [done|]. specialize (Hp i (route_plan q)). rewrite list_lookup_fmap, Hq in Hp. specialize (Hp eq_refl).
    destruct (route_plan q) as [r|w pr]; [naive_solver congruence|]. destruct Hp as (r & _ & Hr). destruct Hn.
    by apply (list_elem_of_fmap_2 fst log (i, r)).
  - apply NoDup_Permutation; [|done|].
    + apply NoDup_app. split_and!; [by apply (NoDup_fmap_1 fst)| |by apply NoDup_filter].
      intros ia Hin Hf. rewrite list_elem_of_filter in Hf. apply Hf. by apply list_elem_of_fmap_2.
    + intros [i a]. rewrite elem_of_app, list_elem_of_filter, elem_of_lookup_imap. cbn [fst]. split.
      * intros [Hin|[_ ?]]; [|done]. exists i, a. split; [done|exact (Hlog _ Hin)].
      * intros (j & a' & [= <- <-] & Ha). destruct (decide (i ∈ fst <$> log)) as [Hi|Hi]; [left|right; split; [done|by eexists _, _]].
        apply list_elem_of_fmap in Hi as ([j b] & -> & Hin). cbn [fst] in *. pose proof (Hlog _ Hin) as Hb. cbn in Hb.
        by replace a with b by congruence.
Qed.

(** C12: However requests to the store interleave, all of them are answered: no
    execution goes on for ever, and where one stands it can be continued until
    every request has its answer.  And the outcome is that of serving them one
    after the other in some order, each once and with the answer it got; when
    the random ids are distinct and unused, the store they leave still holds at
    most one policy of an owner for a wallet. *)
Theorem requests_linearizable reqs s0 :
  (forall x, rtc system_step (s0, thread_of <$> (route_plan <$> reqs)) x ->
     Acc (flip system_step) x /\ exists s answers, rtc system_step x (s, Finished <$> answers))
  /\ (forall s answers, rtc system_step (s0, thread_of <$> (route_plan <$> reqs)) (s, Finished <$> answers) ->
     (exists log, one_by_one reqs s0 log s /\ log ≡ₚ imap pair answers)
     /\ (store_ok s0 -> distinct_ids reqs s0 -> store_ok s)).
Proof.
  split; [by intros [s ts] _; split; [apply executions_end|apply completes]|]. intros s answers H.
  destruct (linearizable (route_plan <$> reqs) (route_plans_ok reqs) s0 s answers H) as (log & Hseq & Hnd & Hlen & Hlog & Ha).
  rewrite length_fmap in Hlen. destruct (complete_order reqs log answers Hnd Hlen Hlog Ha) as (rest & Hr & Hperm).
  split.
  - exists (log ++ rest). split; [|done]. apply one_answered; [by apply one_of_sequential|done].
  - intros Hs Hd. by eapply one_by_one_ok; [apply one_of_sequential, Hseq|..].
Qed.

End RoutePlans.

(** ** Witnesses *)

Section Witnesses.
#[local] Existing Instances plain_float identity_JCS sample_eth sample_text sample_disc.

(** The same signed request sent twice at the same time. *)
Definition racing : list store_request :=
  [RPersist persist_env1 signed_persist_request sample_config;
   RPersist (env_at (sample_now + minute_ns)%Z "id-8") signed_persist_request sample_config].

Lemma racing_distinct : distinct_ids racing ∅.
Proof.
  split; [|intros; apply lookup_empty].
  intros [|[|i]] [|[|j]] q q' id Hi Hj; cbn in Hi, Hj; try discriminate; try reflexivity;
    injection Hi as <-; injection Hj as <-; cbn; congruence.
Qed.

(** Both are answered, and one policy at most is stored. *)
Lemma requests_linearizable_witness : exists s answers,
  rtc system_step (∅, thread_of <$> (route_plan <$> racing)) (s, Finished <$> answers) /\ store_ok s.
Proof.
  destruct (requests_linearizable racing ∅) as [H1 H2].
  destruct (H1 _ (rtc_refl _ _)) as (_ & s & answers & H). exists s, answers. split; [exact H|].
  exact (proj2 (H2 s answers H) empty_store_ok racing_distinct).
Defined.

End Witnesses.
