(* ===== verification/Observability.v ===== *)
(** * The trail of decisions, and the signals of a persist

    [internal/app/auth_observability.go], [internal/app/persist_observability.go]
    and the calls of them in [withAuthentication] and [handlePolicyPersist]: the
    decisions the middleware writes to the log in order, the audit events it
    hands to the sink, and the counter and log line of a payload that the gate
    refuses for its user constraints. *)

From stdpp Require Import base gmap sets list strings.
From Stdlib Require Import Ascii ZArith NArith.
From S2P Require Import Prelude GoStrings GoUnicode Errors GoAny GoTime PayloadHash PersistGate WalletTarget WalletAuth OwnerStore Routes Http Metrics Upstream Auth ExploreRoute Handlers.
Local Open Scope string_scope.
Local Open Scope list_scope.

(** ** Decisions *)

Definition authCodeOK : string := "OK".
Definition authCategoryAuthn : string := "authn".
Definition authCategoryScanAuth : string := "scan_authz".
Definition authOutcomeDenied : string := "denied".
Definition authOutcomeUnavailable : string := "unavailable".

(** What [recordDecision] is told, besides the request. *)
Record decision := mkDecision {
  dc_category : string;
  dc_outcome : string;
  dc_code : string;
  dc_reason : string;
  dc_userID : string;
  dc_tenantID : string
}.

Record authAuditEvent := mkAudit {
  au_Category : string;
  au_Outcome : string;
  au_Code : string;
  au_RequestID : string;
  au_Route : string;
  au_Method : string;
  au_UserID : string;
  au_TenantID : string
}.

Inductive trail_entry :=
| Decided (d : decision)
| Audited (e : authAuditEvent).

Section Lines.
Context `{U : Unicode}.

(** The line that a decision adds to the log. *)
Definition recordDecision (r : Request) (requestID : string) (d : decision) : string :=
  let route := classifyRoute (rq_Method r) (rq_Path r) in
  Join (["event=auth_decision";
         quoted "request_id" requestID;
         quoted "method" (rq_Method r);
         quoted "route" route;
         quoted "category" (dc_category d);
         quoted "outcome" (dc_outcome d);
         quoted "code" (dc_code d);
         quoted "reason" (dc_reason d)]
        ++ (if negb (is_empty (TrimSpace (dc_userID d))) then [quoted "user_id" (dc_userID d)] else [])
        ++ (if negb (is_empty (TrimSpace (dc_tenantID d))) then [quoted "tenant_id" (dc_tenantID d)] else [])) " ".

End Lines.

(** ** The middleware's trail *)

Section Trail.
Context `{U : Unicode, F : GoFloat, D : Discovery}.

(** The reason a refusal carries; the functions return it beside the error. *)
Definition reason_of (e : APIError) : string :=
  default EmptyString (as_string (map_get (ae_Details e) jsonKeyReason)).

Definition refused_outcome (e : APIError) : string :=
  if (ae_Status e =? StatusServiceUnavailable)%Z then authOutcomeUnavailable else authOutcomeDenied.

Definition scan_allowed_entry (p : Principal) : trail_entry :=
  Decided (mkDecision authCategoryScanAuth "allowed" authCodeOK "scan_access_allowed" (pr_UserID p) (pr_TenantID p)).

Definition session_entry (p : Principal) : trail_entry :=
  Decided (mkDecision authCategoryAuthn "allowed" authCodeOK "session_validated" (pr_UserID p) (pr_TenantID p)).

Definition scan_refused_entries (r : Request) (requestID : string) (p : Principal) (e : APIError) : list trail_entry :=
  Decided (mkDecision authCategoryScanAuth (refused_outcome e) (ae_Code e) (reason_of e) (pr_UserID p) (pr_TenantID p))
  :: (if String.eqb (ae_Code e) authCodeScanForbidden
      then [Audited (mkAudit authCategoryScanAuth authOutcomeDenied authCodeScanForbidden requestID
                       (classifyRoute (rq_Method r) (rq_Path r)) (rq_Method r) (pr_UserID p) (pr_TenantID p))]
      else []).

(** The loop over the scan ids: what it records, and whether it went through. *)
Fixpoint scan_trail (r : Request) (p : Principal) (ids : list string) (cfg : authConfig) (requestID : string)
    : list trail_entry * bool :=
  match ids with
  | [] => ([], true)
  | id :: ids' =>
      match authorizeScanAccess p id cfg requestID with
      | Err e => (scan_refused_entries r requestID p e, false)
      | Ok _ => let '(l, ok) := scan_trail r p ids' cfg requestID in (scan_allowed_entry p :: l, ok)
      end
  end.

(** What the middleware records for a request, in order. *)
Definition admission_trail (now : Z) (generated : string) (cfg : authConfig) (r : Request) : list trail_entry :=
  let requestID := ensureRequestID generated r in
  let class := classifyRoute (rq_Method r) (rq_Path r) in
  if String.eqb class RouteClassPublicHealth then []
  else if String.eqb class RouteClassDeprecatedDisabled then []
  else
    match authenticateBearerToken now r cfg requestID with
    | Err e => [Decided (mkDecision authCategoryAuthn (refused_outcome e) (ae_Code e) (reason_of e) "" "")]
    | Ok principal =>
        match extractScanIDsForAuthorization r with
        | Err e => [Decided (mkDecision authCategoryScanAuth "malformed" (ae_Code e) authReasonScanIDMalformed
                               (pr_UserID principal) (pr_TenantID principal))]
        | Ok routeScanIDs =>
            let '(entries, through) := scan_trail r principal routeScanIDs cfg requestID in
            if negb through then entries
            else match enforceScanImmutabilityGuards r cfg requestID with
                 | Err _ => entries
                 | Ok _ => entries ++ [session_entry principal]
                 end
        end
    end.

End Trail.

(** ** The trail of the owner's routes *)

Definition authCategoryOwner : string := "owner_authz".

Definition owner_denied (code reason userID tenantID : string) : trail_entry :=
  Decided (mkDecision authCategoryOwner authOutcomeDenied code reason userID tenantID).

Definition principal_missing_entry : trail_entry :=
  owner_denied authCodePrincipalRequired authReasonPrincipalMissing "" "".

(** What every handler records that finds no principal. *)
Definition principal_trail (r : Request) : list trail_entry :=
  match rq_Principal r with None => [principal_missing_entry] | Some _ => [] end.

(** What [mapPersistenceError] records: a foreign policy is audited. *)
Definition persistence_error_trail (r : Request) (requestID : string) (p : Principal) (err : goerror) : list trail_entry :=
  if errors_Is err ErrForbidden
  then [owner_denied authCodeOwnerForbidden "owner_forbidden" (pr_UserID p) (pr_TenantID p);
        Audited (mkAudit authCategoryOwner authOutcomeDenied authCodeOwnerForbidden requestID
                   (classifyRoute (rq_Method r) (rq_Path r)) (rq_Method r) (pr_UserID p) (pr_TenantID p))]
  else if errors_Is err ErrPolicyNotFound || errors_Is err ErrPersistenceUnavailable
          || errors_Is err ErrUnsupportedStoreOperation then []
  else if errors_Is err ErrPrincipalRequired then [principal_missing_entry]
  else [].

Section OwnerTrail.
Context `{U : Unicode}.
Context {S : Type} `{PS : PolicyStore S}.

Definition owner_get_trail (requestID : string) (r : Request) (s : S) : list trail_entry :=
  match rq_Principal r with
  | None => [principal_missing_entry]
  | Some principal =>
      let id := TrimSpace (Query_Get r "id") in
      if is_empty id || negb (is_empty (TrimSpace (Query_Get r "scan_id"))) then []
      else match snd (st_GetPolicy principal id s) with
           | Err err => persistence_error_trail r requestID principal err
           | Ok _ => []
           end
  end.

Definition owner_delete_trail (r : Request) (s : S) : list trail_entry :=
  match rq_Principal r with
  | None => [principal_missing_entry]
  | Some principal =>
      let id := TrimSpace (Query_Get r "id") in
      if is_empty id then []
      else match snd (st_DeletePolicy principal id s) with
           | Ok _ => []
           | Err err =>
               if errors_Is err ErrPolicyNotFound || errors_Is err ErrForbidden then []
               else if errors_Is err ErrPrincipalRequired then [principal_missing_entry] else []
           end
  end.

Definition logDeleteReasonBestEffort (reason policyID userID : string) : list string :=
  let reason := TrimSpace reason in
  if is_empty reason then []
  else ["cpm: policy delete reason policy_id=" +:+ TrimSpace policyID +:+ " user_id=" +:+ TrimSpace userID
        +:+ " reason=" +:+ Quote reason].

(** The line of a deletion that gives its reason. *)
Definition delete_reason_line (r : Request) : list string :=
  match rq_Principal r with
  | None => []
  | Some principal =>
      let id := TrimSpace (Query_Get r "id") in
      if is_empty id then [] else logDeleteReasonBestEffort (Query_Get r "reason") id (pr_UserID principal)
  end.

End OwnerTrail.

(** ** User constraints that no provider meets *)

Definition persistUserConstraintsIncompatibleEvent : string := "cpm.persist.user_constraints_incompatible".
Definition adrSignalNoProviderAfterUserConstraints : string := "runtime.no_provider_after_user_constraints".

Section PersistSignal.
Context `{U : Unicode}.

Definition recordUserConstraintsIncompatible (r : option Request) (cryptoPolicyID findingCode : string) (o : observed)
    : observed :=
  let findingCode := if is_empty findingCode then "unknown" else findingCode in
  let cryptoPolicyID := TrimSpace cryptoPolicyID in
  mkObserved (IncPersistUserConstraintsIncompatible (ob_Metrics o))
    (ob_Log o ++ [Join ([quoted "event" persistUserConstraintsIncompatibleEvent;
                         quoted "adr_signal" adrSignalNoProviderAfterUserConstraints;
                         quoted "finding_code" findingCode]
       ++ quoted_unless_empty "crypto_policy_id" cryptoPolicyID
       ++ match r with
          | Some r => quoted_unless_empty "request_id" (TrimSpace (Header_Get r "X-Request-Id"))
          | None => []
          end) " "]).

End PersistSignal.

Section PersistObserved.
Context `{U : Unicode, GS : GoSort, F : GoFloat, JT : JCS, GJ : GoJson, E : EthCrypto, ET : EthText, D : Discovery}.

(** What a persist request leaves in the counters and the log. *)
Definition persist_observed (env : HandlerEnv) (r : Request) (cfg : authConfig) (o : observed) : observed :=
  match persist_authorised env r cfg with
  | Err _ => o
  | Ok (_, _, _, _, _, canonical) =>
      match ValidatePayloadForPersist (Some canonical) with
      | Ok _ => o
      | Err gateErr =>
          if errors_Is gateErr ErrProviderUserConstraintsIncompatible
          then recordUserConstraintsIncompatible (Some r) (cryptoPolicyIDFromPayload (Some canonical))
                 (UserConstraintsIncompatibleFindingCode (Some gateErr)) o
          else o
      end
  end.

End PersistObserved.

(** ** The trail tells what was decided *)

Section TrailSpec.
Context `{U : Unicode, F : GoFloat, D : Discovery}.

(** Nothing says that the session was accepted. *)
Definition no_session (l : list trail_entry) : Prop := forall p, session_entry p ∉ l.

(** The trail of a refusal: the scans that were allowed, then the refusal with
    the code of the answer; a scan that may not be read is audited too. *)
Definition refused_trail (p : Principal) (e : APIError) (l : list trail_entry) : Prop :=
  exists n d audits, l = repeat (scan_allowed_entry p) n ++ Decided d :: audits
    /\ dc_code d = ae_Code e /\ dc_outcome d <> "allowed"
    /\ (dc_outcome d = authOutcomeUnavailable <-> ae_Status e = StatusServiceUnavailable)
    /\ (ae_Code e <> authCodeScanForbidden -> audits = [])
    /\ (ae_Code e = authCodeScanForbidden ->
          exists a, audits = [Audited a] /\ au_Code a = ae_Code e /\ au_UserID a = dc_userID d).

Lemma no_session_allowed p n : no_session (repeat (scan_allowed_entry p) n).
Proof. intros q H. apply list_elem_of_In, repeat_spec in H. done. Qed.

Lemma refused_no_session p e l : refused_trail p e l -> no_session l.
Proof.
  intros (n & d & audits & -> & _ & Hd & _ & H1 & H2) q. rewrite elem_of_app, elem_of_cons.
  intros [H|[H|H]].
  - by apply (no_session_allowed p n q).
  - by injection H as <-.
  - destruct (decide (ae_Code e = authCodeScanForbidden)) as [E|E].
    + destruct (H2 E) as (a & -> & _). by apply list_elem_of_singleton in H.
    + rewrite (H1 E) in H. by apply elem_of_nil in H.
Qed.

Lemma refused_outcome_spec e : refused_outcome e <> "allowed"
  /\ (refused_outcome e = authOutcomeUnavailable <-> ae_Status e = StatusServiceUnavailable).
Proof. unfold refused_outcome. destruct (Z.eqb_spec (ae_Status e) StatusServiceUnavailable); done. Qed.

Lemma authenticate_code now r cfg rid e :
  authenticateBearerToken now r cfg rid = Err e -> ae_Code e <> authCodeScanForbidden.
Proof.
  unfold authenticateBearerToken. intros H.
  walk_refusal H.
Qed.

Lemma extract_code r e : extractScanIDsForAuthorization r = Err e ->
  ae_Code e <> authCodeScanForbidden /\ ae_Status e <> StatusServiceUnavailable.
Proof.
  unfold extractScanIDsForAuthorization, scanIDsFromOwnerPoliciesGETQuery. intros H.
  walk_refusal H.
Qed.

Lemma refused_once p d e : dc_code d = ae_Code e -> dc_outcome d <> "allowed" ->
  (dc_outcome d = authOutcomeUnavailable <-> ae_Status e = StatusServiceUnavailable) ->
  ae_Code e <> authCodeScanForbidden -> refused_trail p e [Decided d].
Proof. intros. by exists 0, d, []. Qed.

Lemma scan_trail_spec r p ids cfg rid :
  match authorize_scans p ids cfg rid with
  | Ok _ => scan_trail r p ids cfg rid = (repeat (scan_allowed_entry p) (length ids), true)
  | Err e => exists l, scan_trail r p ids cfg rid = (l, false) /\ refused_trail p e l
  end.
Proof.
  induction ids as [|id ids IH]; [done|]. cbn [authorize_scans scan_trail].
  destruct (authorizeScanAccess p id cfg rid) as [[]|e]; cbn [mbind res_bind].
  - destruct (authorize_scans p ids cfg rid) as [[]|e].
    + by rewrite IH.
    + destruct IH as (l & -> & n & d & audits & -> & H). eexists. split; [done|].
      by exists (S n), d, audits.
  - eexists. split; [done|]. exists 0. eexists _, _. split; [done|]. cbn [dc_code dc_outcome dc_userID].
    destruct (refused_outcome_spec e) as [H1 H2]. split_and!; try done.
    + intros Hne. by rewrite (proj2 (String.eqb_neq _ _) Hne).
    + intros ->. eexists. by split_and!.
Qed.

(** The answer of the middleware to a refusal. *)
Definition refusal_response (rid : string) (e : APIError) : Response :=
  writeAuthError rid (ae_Status e) (ae_Code e) (ae_Message e) (ae_Details e).

Lemma refused_case (A B : Prop) rid p e l : refused_trail p e l ->
  no_session l
  /\ (A \/ (exists p e', refusal_response rid e = refusal_response rid e' /\ refused_trail p e' l) \/ B).
Proof. intros H. split; [by eapply refused_no_session|]. right. left. by exists p, e. Qed.

(** C30: The trail tells what the middleware decided.  A request that passes leaves
    one entry for each scan it names and, last, the accepted session of the
    principal the handler sees; a public one leaves nothing.  A request that is
    refused leaves no accepted session: either it is not declared and leaves
    nothing, or the trail ends in a refusal with the code of the answer,
    "unavailable" exactly for 503, and with an audit event exactly when a scan
    may not be read; or the exploration guard refused it, which leaves the
    allowed scans only. *)
Theorem admission_trail_correct now generated cfg r :
  let rid := ensureRequestID generated r in
  let trail := admission_trail now generated cfg r in
  match admission now generated cfg r with
  | Ok r' =>
      (public_request (rq_Method r) (rq_Path r) /\ r' = r /\ trail = [])
      \/ exists p ids, r' = with_principal r p /\ extractScanIDsForAuthorization r = Ok ids
           /\ trail = repeat (scan_allowed_entry p) (length ids) ++ [session_entry p]
  | Err resp =>
      no_session trail
      /\ ((rs_Status resp = StatusNotFound /\ trail = []
           /\ ~ public_request (rq_Method r) (rq_Path r) /\ ~ business_request (rq_Method r) (rq_Path r))
          \/ (exists p e, resp = refusal_response rid e /\ refused_trail p e trail)
          \/ (exists p n g, enforceScanImmutabilityGuards r cfg rid = Err g /\ rs_Status resp = ig_status g
               /\ trail = repeat (scan_allowed_entry p) n))
  end.
Proof.
  cbn zeta. unfold admission, admission_trail. set (rid := ensureRequestID generated r).
  destruct (classify_cases (rq_Method r) (rq_Path r)) as (Hpub & _ & Hdis).
  destruct (String.eqb_spec (classifyRoute (rq_Method r) (rq_Path r)) RouteClassPublicHealth) as [E|E].
  { left. by rewrite <- Hpub. }
  destruct (String.eqb_spec (classifyRoute (rq_Method r) (rq_Path r)) RouteClassDeprecatedDisabled) as [E2|E2].
  { split; [by intros q ?%elem_of_nil|]. left. by rewrite <- Hdis. }
  destruct (authenticateBearerToken now r cfg rid) as [p|e] eqn:Ha.
  2:{ apply (refused_case _ _ rid (mkPrincipal "" "" "" None)), refused_once; cbn; try apply refused_outcome_spec; try done.
      by eapply authenticate_code. }
  destruct (extractScanIDsForAuthorization r) as [ids|e] eqn:Hi.
  2:{ apply extract_code in Hi as [H1 H2]. apply (refused_case _ _ rid p), refused_once; by cbn. }
  pose proof (scan_trail_spec r p ids cfg rid) as Hs.
  destruct (authorize_scans p ids cfg rid) as [[]|e].
  2:{ destruct Hs as (l & -> & H). by apply (refused_case _ _ rid p). }
  rewrite Hs. cbn [negb]. destruct (enforceScanImmutabilityGuards r cfg rid) as [[]|g] eqn:Hg.
  - right. by exists p, ids.
  - split; [apply no_session_allowed|]. right. right. by exists p, (length ids), g.
Qed.

End TrailSpec.

(** The id of a deletion reaches the log as it was sent, line breaks included. *)
Example forged_line :
  delete_reason_line (mkRequest MethodDelete Policies "cpm.local" []
    [("id", "x" +:+ String (ascii_of_nat 10) "forged"); ("reason", "r")] NoBody
    (Some (mkPrincipal "user-1" "user-1" EmptyString None)))
  = ["cpm: policy delete reason policy_id=x" +:+ String (ascii_of_nat 10) "forged user_id=user-1 reason=" +:+ Quote "r"].
Proof. vm_compute. reflexivity. Qed.
