(* ===== verification/Config.v ===== *)
(** * Configuration and the choice of the store

    [internal/config], [internal/version] and the choice of the policy store of
    [internal/app]: what the service reads from its environment, and what it
    makes of it.  [int] and [time.Duration] are 64 bits wide. *)

From stdpp Require Import base gmap sets list strings.
From Stdlib Require Import Ascii ZArith NArith.
From S2P Require Import Prelude GoStrings GoUnicode Errors GoAny GoTime WalletTarget OwnerStore Http Upstream Auth RemoteStore.
Local Open Scope string_scope.
Local Open Scope list_scope.
Local Open Scope Z_scope.

(** ** The environment *)

(** The variables of the process ([os.LookupEnv]). *)
Definition environ := gmap string string.

Definition getEnv (e : environ) (key fallback : string) : string :=
  match e !! key with
  | Some value => if negb (is_empty value) then value else fallback
  | None => fallback
  end.

Definition true_words : list string := ["1"; "true"; "TRUE"; "True"; "yes"; "YES"; "on"; "ON"].
Definition false_words : list string := ["0"; "false"; "FALSE"; "False"; "no"; "NO"; "off"; "OFF"].

Definition getEnvBool (e : environ) (key : string) (fallback : bool) : bool :=
  match e !! key with
  | Some value =>
      if is_empty value then fallback
      else if bool_decide (value ∈ true_words) then true
      else if bool_decide (value ∈ false_words) then false
      else fallback
  | None => fallback
  end.

(** [strconv.Atoi] reads what [strconv.ParseInt] reads in base 10 and 64 bits. *)
Definition getEnvInt (e : environ) (key : string) (fallback : Z) : Z :=
  match e !! key with
  | Some value => if is_empty value then fallback else default fallback (ParseInt value)
  | None => fallback
  end.

(** ** The configuration *)

Definition defaultHTTPAddr : string := ":8082".
Definition defaultLogLevel : string := "info".
Definition defaultService : string := "cafe-cpm".
Definition defaultAuthRequired : bool := true.
Definition defaultAuthClockSkewSec : Z := 30.
Definition defaultDiscoveryHTTPTimeoutSec : Z := 5.
Definition defaultSessionValidationTimeoutSec : Z := 3.
Definition defaultScanAuthorizationTimeoutSec : Z := 3.
Definition defaultCatalogueDir : string := "/app/policy".
Definition defaultCPMStore : string := "persistence".
Definition defaultPersistenceTimeoutSec : Z := 15.

Record Config := mkConfig {
  cf_ServiceName : string;
  cf_HTTPAddr : string;
  cf_LogLevel : string;
  cf_AuthRequired : bool;
  cf_SessionValidationURL : string;
  cf_SessionValidationTimeoutSec : Z;
  cf_SessionValidationServiceToken : string;
  cf_ScanAuthorizationURL : string;
  cf_ScanAuthorizationTimeoutSec : Z;
  cf_ScanAuthorizationServiceToken : string;
  cf_AuthClockSkewSec : Z;
  cf_DiscoveryHTTPBaseURL : string;
  cf_DiscoveryHTTPTimeoutSec : Z;
  cf_NATSURL : string;
  cf_CatalogueDir : string;
  cf_WalletAuthDomain : string;
  cf_Store : string;
  cf_PersistenceURL : string;
  cf_PersistenceTimeoutSec : Z;
  cf_PersistenceServiceToken : string
}.

Definition LoadFromEnv (e : environ) : Config := {|
  cf_ServiceName := getEnv e "CPM_SERVICE_NAME" defaultService;
  cf_HTTPAddr := getEnv e "CPM_HTTP_ADDR" defaultHTTPAddr;
  cf_LogLevel := getEnv e "CPM_LOG_LEVEL" defaultLogLevel;
  cf_AuthRequired := getEnvBool e "CPM_AUTH_REQUIRED" defaultAuthRequired;
  cf_SessionValidationURL := getEnv e "CAFE_SESSION_JWT_VALIDATION_URL" "";
  cf_SessionValidationTimeoutSec :=
    getEnvInt e "CAFE_SESSION_JWT_VALIDATION_TIMEOUT_SEC" defaultSessionValidationTimeoutSec;
  cf_SessionValidationServiceToken := getEnv e "CAFE_SESSION_JWT_VALIDATION_SERVICE_TOKEN" "";
  cf_ScanAuthorizationURL := getEnv e "CAFE_SCAN_AUTHORIZATION_URL" "";
  cf_ScanAuthorizationTimeoutSec :=
    getEnvInt e "CAFE_SCAN_AUTHORIZATION_TIMEOUT_SEC" defaultScanAuthorizationTimeoutSec;
  cf_ScanAuthorizationServiceToken := getEnv e "CAFE_SCAN_AUTHORIZATION_SERVICE_TOKEN" "";
  cf_AuthClockSkewSec := getEnvInt e "CPM_AUTH_CLOCK_SKEW_SEC" defaultAuthClockSkewSec;
  cf_DiscoveryHTTPBaseURL := getEnv e "CAFE_DISCOVERY_HTTP_BASE" "";
  cf_DiscoveryHTTPTimeoutSec := getEnvInt e "CAFE_DISCOVERY_HTTP_TIMEOUT_SEC" defaultDiscoveryHTTPTimeoutSec;
  cf_NATSURL := getEnv e "CPM_NATS_URL" "";
  cf_CatalogueDir := TrimSpace (getEnv e "CPM_CATALOGUE_DIR" defaultCatalogueDir);
  cf_WalletAuthDomain := getEnv e "CPM_WALLET_AUTH_DOMAIN" "";
  cf_Store := getEnv e "CPM_STORE" defaultCPMStore;
  cf_PersistenceURL := getEnv e "CPM_PERSISTENCE_URL" "";
  cf_PersistenceTimeoutSec := getEnvInt e "CPM_PERSISTENCE_TIMEOUT_SEC" defaultPersistenceTimeoutSec;
  cf_PersistenceServiceToken := getEnv e "CAFE_PERSISTENCE_SERVICE_TOKEN" ""
|}.

(** ** The version *)

Definition defaultVersion : string := "dev".

(** [linked] is the variable a build may set; [APP_VERSION] overrides it. *)
Definition version_Current (e : environ) (linked : string) : string :=
  let v := default EmptyString (e !! "APP_VERSION") in
  if negb (is_empty v) then v else linked.

Definition version_Payload (e : environ) (linked : string) : any :=
  AMap [("version", AString (version_Current e linked))].

(** ** The store *)

(** The [dev] build tag. *)
Inductive build := BuildDev | BuildProd.

(** What a configuration yields: the in-memory store, or a client of the
    persistence service and the timeout of its requests in nanoseconds. *)
Inductive chosen_store :=
| MemoryStore
| PersistenceStore (c : Client) (timeout : Z).

Definition storeMemory : string := "memory".
Definition storePersistence : string := "persistence".

Section Choice.
Context `{U : Unicode}.

(** [None]: the mode is not handled here. *)
Definition newDevPolicyStore (b : build) (mode : string) : option (gores chosen_store) :=
  if negb (String.eqb mode storeMemory) then None
  else Some match b with
            | BuildDev => Ok MemoryStore
            | BuildProd => Err (errors_New
                "CPM_STORE=memory is not available in production builds (rebuild with -tags dev for local)")
            end.

Definition persistence_timeout (sec : Z) : Z :=
  let timeout := wrap64 (sec * second_ns) in
  if timeout <=? 0 then 15 * second_ns else timeout.

Definition newPersistencePolicyStore (cfg : Config) : gores chosen_store :=
  fail_if is_empty (TrimSpace (cf_PersistenceURL cfg))
    with errors_New "CPM_PERSISTENCE_URL is required when CPM_STORE=persistence" ;;
  fail_if is_empty (TrimSpace (cf_PersistenceServiceToken cfg))
    with errors_New "CAFE_PERSISTENCE_SERVICE_TOKEN is required when CPM_STORE=persistence" ;;
  Ok (PersistenceStore (NewClient (cf_PersistenceURL cfg) (cf_PersistenceServiceToken cfg))
        (persistence_timeout (cf_PersistenceTimeoutSec cfg))).

Definition newPolicyStore (b : build) (cfg : Config) : gores chosen_store :=
  let mode := ToLower (TrimSpace (cf_Store cfg)) in
  let mode := if is_empty mode then storePersistence else mode in
  match newDevPolicyStore b mode with
  | Some answer => answer
  | None =>
      if String.eqb mode storePersistence then newPersistencePolicyStore cfg
      else Err (errors_New ("unsupported CPM_STORE " +:+ Quote (cf_Store cfg) +:+ " (want persistence)"))
  end.

End Choice.

(** ** What the configuration can be *)

Lemma wrap64_id z : int64_min <= z <= int64_max -> wrap64 z = z.
Proof. unfold wrap64, int64_min, int64_max. intros. rewrite Z.mod_small; lia. Qed.

Lemma wrap64_range z : int64_min <= wrap64 z <= int64_max.
Proof. unfold wrap64, int64_min, int64_max. pose proof (Z.mod_pos_bound (z - - 2 ^ 63) (2 ^ 64)). lia. Qed.

Lemma getEnvInt_range e key d : int64_min <= d <= int64_max ->
  int64_min <= getEnvInt e key d <= int64_max.
Proof.
  intros Hd. unfold getEnvInt. destruct (e !! key) as [v|]; [|done].
  destruct (is_empty v); [done|]. destruct (ParseInt v) eqn:E; [|done]. by apply ParseInt_range in E.
Qed.

Lemma getEnv_spec e key d :
  getEnv e key d = match e !! key with Some (String c v) => String c v | _ => d end.
Proof. unfold getEnv. by destruct (e !! key) as [[]|]. Qed.

Lemma getEnvBool_default_true e key :
  getEnvBool e key true = false <-> exists v, e !! key = Some v /\ v ∈ false_words.
Proof.
  unfold getEnvBool. destruct (e !! key) as [v|]; [|naive_solver].
  split.
  - destruct (is_empty v); [done|]. repeat case_bool_decide; try done. naive_solver.
  - intros (? & [= <-] & Hv). unfold false_words in Hv. set_unfold in Hv.
    by destruct_or!; subst.
Qed.

(** The integers of a configuration are machine integers. *)
Definition config_wf (c : Config) : Prop :=
  Forall (fun z => int64_min <= z <= int64_max)
    [cf_SessionValidationTimeoutSec c; cf_ScanAuthorizationTimeoutSec c; cf_AuthClockSkewSec c;
     cf_DiscoveryHTTPTimeoutSec c; cf_PersistenceTimeoutSec c]
  /\ trimmed (cf_CatalogueDir c)
  /\ Forall (fun s => s <> EmptyString) [cf_ServiceName c; cf_HTTPAddr c; cf_LogLevel c; cf_Store c].

Lemma getEnv_nonempty e key d : d <> EmptyString -> getEnv e key d <> EmptyString.
Proof. rewrite getEnv_spec. by destruct (e !! key) as [[]|]. Qed.

(** What is read from an environment is well formed: machine integers, a trimmed
    directory and no empty name, address, level or store mode; and
    authentication is required unless the environment turns it off in so many
    words. *)
Theorem LoadFromEnv_wf e :
  config_wf (LoadFromEnv e)
  /\ (cf_AuthRequired (LoadFromEnv e) = false
      <-> exists v, e !! "CPM_AUTH_REQUIRED" = Some v /\ v ∈ false_words).
Proof.
  split; [|apply getEnvBool_default_true].
  split_and!.
  - repeat constructor; apply getEnvInt_range; done.
  - apply TrimSpace_trimmed.
  - repeat constructor; by apply getEnv_nonempty.
Qed.

Lemma persistence_timeout_range sec : 0 < persistence_timeout sec <= int64_max.
Proof.
  unfold persistence_timeout, second_ns. pose proof (wrap64_range (sec * 1000000000)).
  destruct (Z.leb_spec (wrap64 (sec * 1000000000)) 0); unfold int64_max in *; lia.
Qed.

(** The seconds are what was asked for as long as they fit a duration. *)
Lemma persistence_timeout_exact sec : 0 < sec -> sec * second_ns <= int64_max ->
  persistence_timeout sec = sec * second_ns.
Proof.
  intros Hs Hm. unfold persistence_timeout.
  rewrite wrap64_id by (unfold int64_min, second_ns in *; lia).
  destruct (Z.leb_spec (sec * second_ns) 0); unfold second_ns in *; lia.
Qed.

Section Stores.
Context `{U : Unicode}.

(** The store mode of a configuration. *)
Definition store_mode (cfg : Config) : string := ToLower (TrimSpace (cf_Store cfg)).

Definition nonblank (s : string) : Prop := TrimSpace s <> EmptyString.

Lemma newPersistencePolicyStore_spec cfg st :
  newPersistencePolicyStore cfg = Ok st
  <-> nonblank (cf_PersistenceURL cfg) /\ nonblank (cf_PersistenceServiceToken cfg)
      /\ st = PersistenceStore (NewClient (cf_PersistenceURL cfg) (cf_PersistenceServiceToken cfg))
                (persistence_timeout (cf_PersistenceTimeoutSec cfg)).
Proof.
  unfold newPersistencePolicyStore, nonblank. rewrite <- !is_empty_false.
  repeat destruct (is_empty _); naive_solver.
Qed.

Lemma newPolicyStore_cases b cfg st : newPolicyStore b cfg = Ok st <->
  (b = BuildDev /\ store_mode cfg = storeMemory /\ st = MemoryStore)
  \/ ((store_mode cfg = EmptyString \/ store_mode cfg = storePersistence) /\ newPersistencePolicyStore cfg = Ok st).
Proof.
  unfold newPolicyStore. fold (store_mode cfg). unfold newDevPolicyStore.
  destruct (is_empty (store_mode cfg)) eqn:He.
  - apply is_empty_spec in He. rewrite He. cbn. naive_solver.
  - apply is_empty_false in He.
    destruct (String.eqb_spec (store_mode cfg) storeMemory) as [->|]; cbn [negb].
    + destruct b; naive_solver.
    + destruct (String.eqb_spec (store_mode cfg) storePersistence); naive_solver.
Qed.

Lemma persistence_client b cfg c t : newPolicyStore b cfg = Ok (PersistenceStore c t) ->
  cl_token c <> EmptyString /\ t = persistence_timeout (cf_PersistenceTimeoutSec cfg).
Proof.
  intros [(_ & _ & [=])|(_ & H)]%newPolicyStore_cases.
  by apply newPersistencePolicyStore_spec in H as (_ & Ht & [= -> ->]).
Qed.

(** C31: A configuration yields the in-memory store exactly in a development build
    that asks for it, and a client of the persistence service exactly when the
    mode is blank or "persistence" and an address and a token are given; a
    production build therefore never keeps policies in memory.  The client
    always carries a token, and the timeout of its requests is positive. *)
Theorem newPolicyStore_correct b cfg :
  (forall st, newPolicyStore b cfg = Ok st <->
     (b = BuildDev /\ store_mode cfg = storeMemory /\ st = MemoryStore)
     \/ ((store_mode cfg = EmptyString \/ store_mode cfg = storePersistence)
        /\ nonblank (cf_PersistenceURL cfg) /\ nonblank (cf_PersistenceServiceToken cfg)
        /\ st = PersistenceStore (NewClient (cf_PersistenceURL cfg) (cf_PersistenceServiceToken cfg))
                  (persistence_timeout (cf_PersistenceTimeoutSec cfg))))
  /\ forall c t, newPolicyStore b cfg = Ok (PersistenceStore c t) ->
       cl_token c <> EmptyString /\ 0 < t <= int64_max
       /\ (0 < cf_PersistenceTimeoutSec cfg -> cf_PersistenceTimeoutSec cfg * second_ns <= int64_max ->
           t = cf_PersistenceTimeoutSec cfg * second_ns).
Proof.
  split.
  - intros st. by rewrite newPolicyStore_cases, newPersistencePolicyStore_spec.
  - intros c t H. destruct (persistence_client _ _ _ _ H) as (Ht & ->).
    split_and!; [done|apply persistence_timeout_range..|apply persistence_timeout_exact].
Qed.

End Stores.

(** Seconds beyond a duration's range wrap: a shorter timeout, or the default. *)
Example timeout_wraps : persistence_timeout 18446744074 = 290448384
  /\ persistence_timeout 9223372037 = 15 * second_ns /\ persistence_timeout 0 = 15 * second_ns.
Proof. by vm_compute. Qed.
