(* ===== verification/Service.v ===== *)
(** * The service

    [internal/app/app.go]: the routes registered on the mux, the authentication
    in front of it, and the state the process shares between requests: the
    policy store, the bus, the counters and the log.  A request is served as one
    step; what it takes from outside (clock, fresh ids, random bytes, whether the
    bus takes a message) is its [moment].

    The mux is that of [net/http]: patterns of a method and a path whose
    segments may be placeholders, matched against the segments of the escaped
    path, each decoded. *)

From stdpp Require Import base gmap sets list strings.
From Stdlib Require Import Ascii ZArith NArith.
From S2P Require Import Prelude GoStrings GoUnicode Url Errors GoTime Manifest Registry GoAny PayloadHash PersistGate WalletTarget WalletAuth OwnerStore Routes Http Metrics ReadStore Upstream Auth ExploreContext ReadApi ExploreRoute Assessment Handlers Observability Config.
Local Open Scope string_scope.
Local Open Scope list_scope.

(** ** Paths *)

(** The segments of an escaped path that starts with a slash. *)
Definition raw_segments (escaped : string) : list string := Split (drop_bytes 1 escaped) slash.
Definition path_segments (escaped : string) : list string := PathUnescape <$> raw_segments escaped.

(** [r.URL.Path] of such a path. *)
Definition url_path (escaped : string) : string := "/" +:+ Join (path_segments escaped) "/".

Definition plain_segment (s : string) : bool := negb (String.eqb s "." || String.eqb s "..").

Fixpoint clean_segments (l : list string) : bool :=
  match l with
  | [] => true
  | [s] => plain_segment s
  | s :: l' => negb (is_empty s) && plain_segment s && clean_segments l'
  end.

(** [cleanPath(path) == path]. *)
Definition is_clean (escaped : string) : bool :=
  HasPrefix escaped "/" && clean_segments (raw_segments escaped).

(** ** The mux *)

Inductive endpoint :=
| EHealthz | EVersion | EMetrics
| ECryptoPolicies | ECryptoPolicyByID | EProviders | EProviderByID
| EExplore | ESnapshots | EAssessment
| EOwnerList | EOwnerDelete | EWalletTarget | EChallenge | EPersist.

(** A pattern on the mux: its method, where none means every method, its path and
    what it leads to. *)
Notation registration := (option string * string * endpoint)%type (only parsing).

Definition registerCatalogRoutes : list registration :=
  [(Some MethodGet, CryptoPolicies, ECryptoPolicies); (Some MethodGet, CryptoPolicyByID, ECryptoPolicyByID);
   (Some MethodGet, Providers, EProviders); (Some MethodGet, ProviderByID, EProviderByID)].

Definition RegisterReadRoutes : list registration :=
  registerCatalogRoutes
  ++ [(Some MethodPost, PoliciesDecisionsExplore, EExplore)]
  ++ [(Some MethodPost, AcceptedProviderSnapshots, ESnapshots)].

Definition registerPoliciesAssessmentRequestRoute : list registration :=
  [(Some MethodPost, PoliciesAssessmentRequest, EAssessment)].

Definition registerOwnerWalletTargetContextRoute (base : string) : list registration :=
  [(Some MethodGet, base +:+ "/wallet-target-context", EWalletTarget)].

Definition ownerPoliciesPath : string := "/policies".

Definition registerOwnerScopedRoutesForPrefix (base : string) : list registration :=
  registerOwnerWalletTargetContextRoute base
  ++ [(Some MethodGet, base +:+ ownerPoliciesPath, EOwnerList);
      (Some MethodDelete, base +:+ ownerPoliciesPath, EOwnerDelete)].

Definition registerOwnerScopedRoutes : list registration := registerOwnerScopedRoutesForPrefix V1Base.

Definition registerWalletChallengeRoutes : list registration := [(Some MethodPost, WalletChallenges, EChallenge)].

Definition registerPolicyPersistRoute : list registration := [(Some MethodPost, Policies, EPersist)].

(** The mux of the service, in the order of registration. *)
Definition mux_patterns : list registration :=
  [(None, Healthz, EHealthz); (None, Version, EVersion); (None, Metrics, EMetrics)]
  ++ RegisterReadRoutes ++ registerPoliciesAssessmentRequestRoute ++ registerOwnerScopedRoutes
  ++ registerWalletChallengeRoutes ++ registerPolicyPersistRoute.

Definition MethodHead : string := "HEAD".
Definition MethodConnect : string := "CONNECT".

(** A GET pattern takes HEAD requests too. *)
Definition method_matches (pat : option string) (method : string) : bool :=
  match pat with
  | None => true
  | Some m => String.eqb m method || (String.eqb m MethodGet && String.eqb method MethodHead)
  end.

Definition pattern_matches (pattern : string) (segments : list string) : bool :=
  let pats := Split (drop_bytes 1 pattern) slash in
  Nat.eqb (length pats) (length segments) && segments_match pats segments.

Inductive mux_answer :=
| Hit (e : endpoint)
| Redirect            (** 301 to the cleaned path *)
| MethodNotAllowed
| NoRoute.

Definition mux_find (method escaped : string) : mux_answer :=
  if negb (String.eqb method MethodConnect) && negb (is_clean escaped) then Redirect
  else
    let on_path := base.filter (fun '(_, pattern, _) => pattern_matches pattern (path_segments escaped) = true) mux_patterns in
    match base.filter (fun '(m, _, _) => method_matches m method = true) on_path with
    | (_, _, e) :: _ => Hit e
    | [] => match on_path with [] => NoRoute | _ => MethodNotAllowed end
    end.

(** The value of the placeholder, which is always the last segment. *)
Definition path_value (escaped : string) : string := default EmptyString (last (path_segments escaped)).

(** ** Requests and answers *)

Inductive reply :=
| Json (resp : Response)
| Text (status : Z) (text : string)
| Exposition (m : MetricsRegistry)   (** the counters in the exposition format *)
| Moved.

Definition StatusMethodNotAllowed : Z := 405.

Record moment := mkMoment {
  mo_unix : Z;                  (** the clock of the token check, in seconds *)
  mo_env : HandlerEnv;
  mo_around : surroundings
}.

Record World (S : Type) := mkWorld {
  w_store : S;
  w_bus : bus;
  w_seen : observed
}.
Arguments mkWorld {S} _ _ _.
Arguments w_store {S} _.
Arguments w_bus {S} _.
Arguments w_seen {S} _.

Section Service.
Context `{U : Unicode, F : GoFloat, GS : GoSort, GR : GoRange, JE : JsonErrors, C : WalletContract,
          D : Discovery, AC : AssessmentContract, TE : TransportErrors,
          JT : JCS, GJ : GoJson, E : EthCrypto, ET : EthText}.
Context {S : Type} `{PS : PolicyStore S}.

(** What the process is made of: its name, environment and linked version, the
    catalogue, and the configuration of the authentication. *)
Record process := mkProcess {
  pc_serviceName : string;
  pc_environ : environ;
  pc_version : string;
  pc_store : ReadStore;
  pc_auth : authConfig
}.

(** Lines and decisions go to the log; the audit sink of the service drops its
    events. *)
Definition log_lines (lines : list string) (w : World S) : World S :=
  mkWorld (w_store w) (w_bus w) (mkObserved (ob_Metrics (w_seen w)) (ob_Log (w_seen w) ++ lines)).

Definition log_trail (r : Request) (requestID : string) (trail : list trail_entry) : World S -> World S :=
  log_lines (omap (fun t => match t with
                            | Decided d => Some (recordDecision r requestID d)
                            | Audited _ => None
                            end) trail).

Definition serve_endpoint (pc : process) (e : endpoint) (m : moment) (escaped : string) (r : Request) (w : World S)
    : reply * World S :=
  let read resp := (Json resp, w) in
  let requestID := ensureRequestID (he_generated (mo_env m)) r in
  let stored w '(s, resp) := (Json resp, mkWorld s (w_bus w) (w_seen w)) in
  let asked := log_trail r requestID (principal_trail r) w in
  match e with
  | EHealthz => (Text StatusOK (pc_serviceName pc +:+ " ok"), w)
  | EVersion => read (writeJSON StatusOK (version_Payload (pc_environ pc) (pc_version pc)))
  | EMetrics => (Exposition (ob_Metrics (w_seen w)), w)
  | ECryptoPolicies => read (handleGETCryptoPolicies (pc_store pc))
  | ECryptoPolicyByID => read (handleGETCryptoPolicyByID (pc_store pc) (path_value escaped))
  | EProviders => read (handleGETProviders (pc_store pc))
  | EProviderByID => read (handleGETProviderByID (pc_store pc) (path_value escaped))
  | EExplore =>
      let '(resp, seen) := handlePOSTExplore (pc_store pc) r (w_seen w) in
      (Json resp, mkWorld (w_store w) (w_bus w) seen)
  | ESnapshots => read (handlePOSTAcceptedProviderSnapshots (pc_store pc) r)
  | EAssessment =>
      let '(resp, sent) := handlePoliciesAssessmentRequest (he_generated (mo_env m)) (pc_auth pc) (mo_around m) r (w_bus w) in
      (Json resp, mkWorld (w_store w) sent (w_seen asked))
  | EOwnerList =>
      stored (log_trail r requestID (owner_get_trail requestID r (w_store w)) w)
        (handleOwnerGETPolicies (mo_env m) r (w_store w))
  | EOwnerDelete =>
      stored (log_trail r requestID (owner_delete_trail r (w_store w)) (log_lines (delete_reason_line r) w))
        (handleOwnerDELETEPolicies (mo_env m) r (w_store w))
  | EWalletTarget => stored asked (handleOwnerGETWalletTargetContext (mo_env m) r (w_store w))
  | EChallenge => (Json (handleWalletChallenge (mo_env m) r (pc_auth pc)), asked)
  | EPersist =>
      let '(s, resp) := handlePolicyPersist (mo_env m) r (pc_auth pc) (w_store w) in
      (Json resp, mkWorld s (w_bus w) (persist_observed (mo_env m) r (pc_auth pc) (w_seen asked)))
  end.

Definition mux_serve (pc : process) (r : Request) (m : moment) (escaped : string) (w : World S) : reply * World S :=
  match mux_find (rq_Method r) escaped with
  | Hit e => serve_endpoint pc e m escaped r w
  | Redirect => (Moved, w)
  | MethodNotAllowed => (Text StatusMethodNotAllowed "Method Not Allowed", w)
  | NoRoute => (Text StatusNotFound "404 page not found", w)
  end.

Definition handlerWithOwnerStore (pc : process) : gores (moment -> string -> Request -> World S -> reply * World S) :=
  let cfg := pc_auth pc in
  match withAuthentication (fun resp m escaped w => (Json resp, w)) (mux_serve pc) cfg with
  | Err err => Err (wrap_prefix "wire auth middleware" err)
  | Ok inner =>
      Ok (fun m escaped r w =>
            let generated := he_generated (mo_env m) in
            let r1 := with_request_id (ensureRequestID generated r) r in
            let w := if ac_Required cfg
                     then log_trail r1 (ensureRequestID generated r) (admission_trail (mo_unix m) generated cfg r1) w
                     else w in
            inner (mo_unix m) generated r m escaped w)
  end.

End Service.

(** ** What the mux hits *)

Definition public_endpoint (e : endpoint) : bool :=
  match e with EHealthz | EVersion | EMetrics => true | _ => false end.

Lemma mux_find_hit method escaped e : mux_find method escaped = Hit e ->
  exists pm pattern, (pm, pattern, e) ∈ mux_patterns /\ method_matches pm method = true
    /\ pattern_matches pattern (path_segments escaped) = true.
Proof.
  unfold mux_find. destruct (_ && _); [done|].
  destruct (base.filter _ (base.filter _ _)) as [|[[pm pattern] e'] l] eqn:H; [by case_match|].
  intros [= <-]. exists pm, pattern.
  assert ((pm, pattern, e') ∈ (pm, pattern, e') :: l) as Hin by (by apply elem_of_cons; left).
  rewrite <- H in Hin. apply list_elem_of_filter in Hin as [Hm Hin].
  by apply list_elem_of_filter in Hin as [Hp Hin].
Qed.

(** Every other endpoint lives below "/api". *)
Lemma protected_patterns :
  Forall (fun '(_, pattern, e) => public_endpoint e = false -> head (Split (drop_bytes 1 pattern) slash) = Some "api")
    mux_patterns.
Proof. repeat constructor; by intros. Qed.

Lemma pattern_matches_head pattern segments :
  pattern_matches pattern segments = true -> head (Split (drop_bytes 1 pattern) slash) = Some "api" ->
  exists rest, segments = "api" :: rest.
Proof.
  unfold pattern_matches. destruct (Split (drop_bytes 1 pattern) slash) as [|p pats]; [done|].
  intros H [= ->]. apply andb_true_iff in H as [Hl H]. destruct segments as [|s segments]; [done|].
  cbn [segments_match] in H. apply andb_true_iff in H as [H _].
  exists segments. by apply (String.eqb_eq "api" s) in H as <-.
Qed.

Lemma protected_path method escaped e : mux_find method escaped = Hit e -> public_endpoint e = false ->
  HasPrefix (url_path escaped) "/api" = true.
Proof.
  intros (pm & pattern & Hin & _ & Hp)%mux_find_hit He.
  pose proof protected_patterns as HF. rewrite Forall_forall in HF. specialize (HF _ Hin He).
  destruct (pattern_matches_head _ _ Hp HF) as (rest & Hs). unfold url_path. rewrite Hs. by destruct rest.
Qed.

(** A request that needs no session never reaches another endpoint. *)
Lemma public_hit method escaped e : public_request method (url_path escaped) ->
  mux_find method escaped = Hit e -> public_endpoint e = true.
Proof.
  intros [_ Hp] Hf. destruct (public_endpoint e) eqn:He; [done|]. exfalso.
  pose proof (protected_path _ _ _ Hf He) as H. revert H. by destruct Hp as [->|[->| ->]].
Qed.

(** ** The mux and the route inventory *)

(** A segment that a client writes without escapes. *)
Definition plain_text_segment (s : string) : Prop := s <> EmptyString /\ has_byte slash s = false.

Lemma Join_first l : Forall plain_text_segment l -> l <> [] ->
  exists a x, String.list_ascii_of_string (Join l "/") = a :: x /\ a <> slash.
Proof.
  destruct l as [|[|a s] l]; [done|by intros [[] _]%Forall_cons|]. intros [[_ Hs] _]%Forall_cons _.
  exists a. assert (a <> slash) by (intros ->; discriminate Hs).
  destruct l; cbn; eauto.
Qed.

Lemma segment_last s : plain_text_segment s ->
  exists y b, String.list_ascii_of_string s = y ++ [b] /\ b <> slash.
Proof.
  intros [Hne Hs]. destruct (exists_last (l := String.list_ascii_of_string s)) as (y & b & E).
  { by destruct s. }
  exists y, b. split; [done|]. intros ->.
  assert (s = String.string_of_list_ascii y +:+ String slash EmptyString) as ->.
  { apply (f_equal String.string_of_list_ascii) in E. rewrite String.string_of_list_ascii_of_string in E.
    rewrite E. clear. induction y as [|a y IH]; [done|]. exact (f_equal (String a) IH). }
  rewrite has_byte_app in Hs. cbn in Hs. by rewrite orb_comm in Hs.
Qed.

Lemma Join_last l : Forall plain_text_segment l -> l <> [] ->
  exists y b, String.list_ascii_of_string (Join l "/") = y ++ [b] /\ b <> slash.
Proof.
  induction l as [|s [|s' l] IH]; [done|intros [H _]%Forall_cons _; by apply segment_last|].
  intros [_ H]%Forall_cons _. destruct (IH H) as (y & b & E & Hb); [done|].
  exists (String.list_ascii_of_string s ++ slash :: y), b. split; [|done].
  change (Join (s :: s' :: l) "/") with (s +:+ "/" +:+ Join (s' :: l) "/").
  rewrite !list_ascii_of_string_app, E. by rewrite <- app_assoc.
Qed.

(** A path written without escapes, from its segments. *)
Lemma trim_slashes_path l : Forall plain_text_segment l -> l <> [] ->
  trim_slashes ("/" +:+ Join l "/") = Join l "/".
Proof.
  intros H Hl. destruct (Join_first l H Hl) as (a & x & Ea & Ha). destruct (Join_last l H Hl) as (y & b & Eb & Hb).
  unfold trim_slashes.
  change (String.list_ascii_of_string ("/" +:+ Join l "/")) with (slash :: String.list_ascii_of_string (Join l "/")).
  assert (drop_slashes (slash :: String.list_ascii_of_string (Join l "/")) = String.list_ascii_of_string (Join l "/")) as Hd.
  { rewrite Ea. cbn [drop_slashes]. rewrite Ascii.eqb_refl. by destruct (Ascii.eqb_spec a slash). }
  rewrite Hd, Eb, rev_app_distr. cbn [rev app drop_slashes].
  destruct (Ascii.eqb_spec b slash); [done|]. cbn [rev]. rewrite rev_involutive, <- Eb.
  apply String.string_of_list_ascii_of_string.
Qed.

Lemma Split_path l : Forall plain_text_segment l -> l <> [] -> Split (Join l "/") slash = l.
Proof.
  intros H Hl. apply Split_Join; [done|]. eapply Forall_impl; [exact H|]. by intros s [_ ?].
Qed.

Lemma segments_match_refl l : Forall plain_text_segment l -> segments_match l l = true.
Proof.
  induction 1 as [|s l [Hs _] _ IH]; [done|]. cbn [segments_match]. rewrite IH, andb_true_r. unfold segment_matches.
  apply is_empty_false in Hs. destruct (_ && _); [by rewrite Hs|apply String.eqb_refl].
Qed.

(** A pattern is written without escapes, and has a placeholder for a segment
    or no brace at all. *)
Definition pattern_ok (pattern : string) : bool :=
  let pats := Split (drop_bytes 1 pattern) slash in
  String.eqb pattern ("/" +:+ Join pats "/") && negb (Nat.eqb (length pats) 0)
  && forallb (fun s => negb (is_empty s) && negb (has_byte slash s)) pats
  && (Contains pattern "{" || forallb (fun s => negb (HasPrefix s "{")) pats).

Lemma literal_match pats segs : forallb (fun s => negb (HasPrefix s "{")) pats = true ->
  length pats = length segs -> segments_match pats segs = true -> pats = segs.
Proof.
  revert segs. induction pats as [|p pats IH]; intros [|s segs] Hp Hl Hm; try done.
  cbn [forallb segments_match] in *. apply andb_true_iff in Hp as [Hp1 Hp2], Hm as [Hm1 Hm2].
  apply negb_true_iff in Hp1. unfold segment_matches in Hm1. rewrite Hp1 in Hm1. cbn [andb] in Hm1.
  apply String.eqb_eq in Hm1 as ->. f_equal. apply IH; [done| |done]. by injection Hl.
Qed.

(** On paths without escapes the inventory and the mux match the same. *)
Lemma PathMatches_pattern pattern segs : pattern_ok pattern = true ->
  Forall plain_text_segment segs -> segs <> [] ->
  PathMatches pattern ("/" +:+ Join segs "/") = pattern_matches pattern segs.
Proof.
  unfold pattern_ok. set (pats := Split (drop_bytes 1 pattern) slash). intros Hok Hs Hne.
  rewrite !andb_true_iff in Hok. destruct Hok as [[[Hp Hn] Hf] Hb].
  apply String.eqb_eq in Hp. apply negb_true_iff, length_zero_false in Hn.
  assert (Forall plain_text_segment pats) as Hpf.
  { apply Forall_forall. intros s Hin. rewrite forallb_forall in Hf.
    apply list_elem_of_In, Hf, andb_true_iff in Hin as [H1 H2].
    split; [by apply is_empty_false, negb_true_iff|by apply negb_true_iff]. }
  unfold PathMatches, pattern_matches. fold pats.
  assert (trim_slashes pattern = Join pats "/") as -> by (rewrite Hp at 1; by apply trim_slashes_path).
  rewrite trim_slashes_path, !Split_path by done.
  destruct (String.eqb_spec pattern ("/" +:+ Join segs "/")) as [E|E].
  - assert (pats = segs) as ->.
    { rewrite <- (Split_path pats), <- (Split_path segs) by done. f_equal. rewrite Hp in E. by injection E. }
    rewrite Nat.eqb_refl. by rewrite segments_match_refl.
  - destruct (Contains pattern "{") eqn:Hc; cbn [negb].
    + by destruct (Nat.eqb (length pats) (length segs)).
    + destruct (Nat.eqb_spec (length pats) (length segs)) as [Hl|]; [|done]. cbn [andb orb] in Hb |- *.
      destruct (segments_match pats segs) eqn:Hm; [|done]. exfalso. apply E. rewrite Hp. f_equal.
      by rewrite (literal_match pats segs Hb Hl Hm).
Qed.

Ltac find_in := apply elem_of_cons; first [left; reflexivity | right; find_in].

(** The protected patterns are the declared routes. *)
Lemma patterns_declared :
  Forall (fun '(pm, pattern, e) => public_endpoint e = false ->
      exists m, pm = Some m /\ mkAuthRoute m pattern ∈ AuthenticatedRoutes /\ pattern_ok pattern = true) mux_patterns
  /\ Forall (fun ar => pattern_ok (ar_Path ar) = true
      /\ exists e, (Some (ar_Method ar), ar_Path ar, e) ∈ mux_patterns /\ public_endpoint e = false) AuthenticatedRoutes.
Proof.
  split; repeat constructor; try done;
    try (intros _; eexists; split_and!; [reflexivity|find_in|reflexivity]);
    eexists; (split; [find_in|reflexivity]).
Qed.

Lemma public_not_api rest pm pattern e : (pm, pattern, e) ∈ mux_patterns -> public_endpoint e = true ->
  pattern_matches pattern ("api" :: rest) = false.
Proof.
  cbv [mux_patterns RegisterReadRoutes registerCatalogRoutes registerPoliciesAssessmentRequestRoute registerOwnerScopedRoutes
    registerOwnerScopedRoutesForPrefix registerOwnerWalletTargetContextRoute registerWalletChallengeRoutes
    registerPolicyPersistRoute app]. rewrite !elem_of_cons, elem_of_nil. intros H He.
  destruct_or!; simplify_eq; try done; by destruct rest.
Qed.

Lemma mux_find_some method escaped pm pattern e : is_clean escaped = true ->
  (pm, pattern, e) ∈ mux_patterns -> method_matches pm method = true ->
  pattern_matches pattern (path_segments escaped) = true -> exists e', mux_find method escaped = Hit e'.
Proof.
  intros Hc Hin Hm Hp. unfold mux_find. rewrite Hc, andb_false_r. cbn [negb andb].
  destruct (base.filter _ (base.filter _ mux_patterns)) as [|[[pm' pattern'] e'] l] eqn:E; [|by exists e'].
  exfalso. assert ((pm, pattern, e) ∈ (@nil (option string * string * endpoint))) as H; [|by apply elem_of_nil in H].
  rewrite <- E. apply list_elem_of_filter. split; [done|]. apply list_elem_of_filter. by split.
Qed.

(** The routes on the mux are those of the inventory: for a path written without
    escapes and a method other than HEAD, a request is a declared business
    request exactly when the mux hands it to a protected endpoint. *)
Theorem routes_registered method escaped :
  is_clean escaped = true -> Forall plain_text_segment (path_segments escaped) -> method <> MethodHead ->
  business_request method (url_path escaped)
  <-> exists e, mux_find method escaped = Hit e /\ public_endpoint e = false.
Proof.
  intros Hc Hs Hh. destruct patterns_declared as [Hd Hr]. rewrite Forall_forall in Hd. rewrite Forall_forall in Hr.
  assert (path_segments escaped <> []) as Hne.
  { unfold path_segments, raw_segments. intros H%fmap_nil_inv. revert H. generalize (drop_bytes 1 escaped).
    intros s. induction s; cbn; repeat case_match; done. }
  unfold business_request, url_path. split.
  - intros (ar & Hin & <- & Hp). destruct (Hr ar Hin) as (Hok & e & He & Hpub).
    rewrite PathMatches_pattern in Hp by done.
    destruct (mux_find_some (ar_Method ar) escaped _ _ _ Hc He) as (e' & Hf); [cbn; by rewrite String.eqb_refl|done|].
    exists e'. split; [done|]. destruct (public_endpoint e') eqn:He'; [|done]. exfalso.
    pose proof (protected_patterns) as Hpp. rewrite Forall_forall in Hpp. specialize (Hpp _ He Hpub).
    destruct (pattern_matches_head _ _ Hp Hpp) as (rest & Erest).
    apply mux_find_hit in Hf as (pm & pat & Hin' & _ & Hm'). rewrite Erest in Hm'.
    rewrite (public_not_api rest pm pat e') in Hm'; done.
  - intros (e & Hf & He). apply mux_find_hit in Hf as (pm & pat & Hin & Hm & Hp).
    destruct (Hd _ Hin He) as (m & -> & Har & Hok). exists (mkAuthRoute m pat). split; [done|]. cbn [ar_Method ar_Path].
    split; [|by rewrite PathMatches_pattern]. cbn in Hm. apply orb_true_iff in Hm as [Hm|Hm].
    + by apply String.eqb_eq in Hm.
    + apply andb_true_iff in Hm as [_ Hm]. by apply String.eqb_eq in Hm.
Qed.

(** ** What a request can change *)

Section ServiceSpec.
Context `{U : Unicode, F : GoFloat, GS : GoSort, GR : GoRange, JE : JsonErrors, C : WalletContract,
          D : Discovery, AC : AssessmentContract, TE : TransportErrors,
          JT : JCS, GJ : GoJson, E : EthCrypto, ET : EthText}.

Abbreviation world := (World OwnerScopedStore).

(** A policy id that the store would give is not in use. *)
Definition fresh_id (m : moment) (w : world) : Prop :=
  forall id, he_policyID (mo_env m) = Ok id -> w_store w !! id = None.

(** What a handler does to the store, in the name of whom. *)
Inductive acts_as (m : moment) (r : Request) (s : OwnerScopedStore) : OwnerScopedStore -> Prop :=
| acts_not : acts_as m r s s
| acts_create p i : rq_Principal r = Some p ->
    acts_as m r s (fst (CreatePolicy (mkEnv (he_later (mo_env m)) (he_policyID (mo_env m))) p i s))
| acts_delete p id : rq_Principal r = Some p -> acts_as m r s (fst (DeletePolicy p id s)).

Lemma persist_acts m r cfg s : acts_as m r s (fst (handlePolicyPersist (mo_env m) r cfg s)).
Proof.
  unfold handlePolicyPersist. destruct (persist_checks _ r cfg) as [[p i]|] eqn:Hc; [|apply acts_not].
  apply persist_checks_ok in Hc as (? & ? & ? & ? & ? & ? & [Hp] & ->).
  pose proof (acts_create m r s p (persist_create_input (mo_env m) x x4 x0 x1 x2 x3) Hp) as H.
  cbn [st_CreatePolicy OwnerScopedStore_PolicyStore]. by destruct (CreatePolicy _ _ _ _).
Qed.

Lemma delete_acts m r s : acts_as m r s (fst (handleOwnerDELETEPolicies (mo_env m) r s)).
Proof.
  unfold handleOwnerDELETEPolicies. destruct (rq_Principal r) as [p|] eqn:Hp; [|apply acts_not].
  destruct (is_empty _); [apply acts_not|].
  pose proof (acts_delete m r s p (TrimSpace (Query_Get r "id")) Hp) as H.
  cbn [st_DeletePolicy OwnerScopedStore_PolicyStore]. by destruct (DeletePolicy _ _ _).
Qed.

Lemma list_keeps env r s : fst (handleOwnerGETPolicies env r s) = s.
Proof.
  unfold handleOwnerGETPolicies. cbn [st_GetPolicy st_ListPersistedPoliciesForScan OwnerScopedStore_PolicyStore].
  repeat (case_match; simplify_eq); done.
Qed.

Lemma wallet_target_keeps env r s : fst (handleOwnerGETWalletTargetContext env r s) = s.
Proof.
  unfold handleOwnerGETWalletTargetContext. cbn [st_CountActiveWalletCPMContext OwnerScopedStore_PolicyStore].
  repeat (case_match; simplify_eq); done.
Qed.

Lemma endpoint_acts pc e m escaped r (w : world) :
  acts_as m r (w_store w) (w_store (snd (serve_endpoint pc e m escaped r w))).
Proof.
  destruct e; cbn [serve_endpoint snd w_store]; try apply acts_not.
  - destruct (handlePOSTExplore _ _ _). apply acts_not.
  - destruct (handlePoliciesAssessmentRequest _ _ _ _ _). apply acts_not.
  - pose proof (list_keeps (mo_env m) r (w_store w)) as H. destruct (handleOwnerGETPolicies _ _ _).
    cbn in H |- *. rewrite H. apply acts_not.
  - pose proof (delete_acts m r (w_store w)) as H. by destruct (handleOwnerDELETEPolicies _ _ _).
  - pose proof (wallet_target_keeps (mo_env m) r (w_store w)) as H. destruct (handleOwnerGETWalletTargetContext _ _ _).
    cbn in H |- *. rewrite H. apply acts_not.
  - pose proof (persist_acts m r (pc_auth pc) (w_store w)) as H. by destruct (handlePolicyPersist _ _ _ _).
Qed.

Lemma mux_acts pc m escaped r (w : world) :
  acts_as m r (w_store w) (w_store (snd (mux_serve pc r m escaped w))).
Proof. unfold mux_serve. destruct (mux_find _ _); [apply endpoint_acts|apply acts_not..]. Qed.

Lemma acts_ok m r s s' : (forall id, he_policyID (mo_env m) = Ok id -> s !! id = None) ->
  acts_as m r s s' -> rtc route_step s s'.
Proof. intros Hf [|p i _|p id _]; [done|by apply rtc_once, step_create|by apply rtc_once, step_delete]. Qed.

(** Without a principal nothing is stored; with one, records of other owners stay. *)
Lemma acts_isolated m r s s' j rec : (forall id, he_policyID (mo_env m) = Ok id -> s !! id = None) ->
  acts_as m r s s' -> s !! j = Some rec ->
  s' !! j = Some rec \/ exists p, rq_Principal r = Some p /\ owns p rec = true.
Proof.
  intros Hf [|p i Hp|p id Hp] Hj; [by left|left; by apply CreatePolicy_others|].
  destruct (owns p rec) eqn:Ho; [right; by exists p|left; by apply DeletePolicy_others].
Qed.

(** The request has a session of [p], whose scans [p] may read. *)
Definition admitted (m : moment) (cfg : authConfig) (r : Request) (p : Principal) : Prop :=
  let rid := ensureRequestID (he_generated (mo_env m)) r in
  business_request (rq_Method r) (rq_Path r) /\ session (mo_unix m) r cfg rid p
  /\ exists ids, extractScanIDsForAuthorization r = Ok ids /\ Forall (scan_allowed cfg p rid) ids.

Lemma handler_required pc h m escaped r (w : world) :
  handlerWithOwnerStore pc = Ok h -> ac_Required (pc_auth pc) = true ->
  let generated := he_generated (mo_env m) in
  let r1 := with_request_id (ensureRequestID generated r) r in
  let w1 := log_trail r1 (ensureRequestID generated r) (admission_trail (mo_unix m) generated (pc_auth pc) r1) w in
  h m escaped r w = match admission (mo_unix m) generated (pc_auth pc) r1 with
                    | Err resp => (Json resp, w1)
                    | Ok r' => mux_serve pc r' m escaped w1
                    end.
Proof.
  unfold handlerWithOwnerStore, withAuthentication. intros H Hr. rewrite Hr in H. cbn [negb] in H.
  destruct (validateRouteInventory routeInventory); [|done]. cbn [mbind res_bind] in H.
  destruct (is_empty _); [done|]. cbn in H. injection H as <-. cbn zeta.
  by destruct (admission _ _ _ _).
Qed.

Lemma handler_open pc h m escaped r (w : world) :
  handlerWithOwnerStore pc = Ok h -> ac_Required (pc_auth pc) = false -> h m escaped r w = mux_serve pc r m escaped w.
Proof.
  unfold handlerWithOwnerStore, withAuthentication. intros H Hr. rewrite Hr in H. cbn [negb] in H.
  destruct (validateRouteInventory routeInventory); [|done]. cbn in H. by injection H as <-.
Qed.

Lemma session_request_id now r cfg rid id p : session now (with_request_id id r) cfg rid p <-> session now r cfg rid p.
Proof. unfold session, with_request_id. by rewrite Header_Get_Set. Qed.

(** What the middleware lets through to the mux. *)
Lemma handler_admits pc h m escaped r (w : world) :
  handlerWithOwnerStore pc = Ok h -> ac_Required (pc_auth pc) = true -> trimmed (he_generated (mo_env m)) ->
  exists w1, w_store w1 = w_store w /\ w_bus w1 = w_bus w /\ ob_Metrics (w_seen w1) = ob_Metrics (w_seen w)
  /\ ((exists resp, h m escaped r w = (Json resp, w1) /\ (400 <= rs_Status resp)%Z)
      \/ exists r', h m escaped r w = mux_serve pc r' m escaped w1 /\ rq_Method r' = rq_Method r
           /\ (public_request (rq_Method r) (rq_Path r) /\ rq_Principal r' = rq_Principal r
               \/ exists p, admitted m (pc_auth pc) r p /\ rq_Principal r' = Some p)).
Proof.
  intros Hh Hr Hg. pose proof (handler_required pc h m escaped r w Hh Hr) as Hh'. cbn zeta in Hh'.
  revert Hh'. set (rid := ensureRequestID (he_generated (mo_env m)) r). set (r1 := with_request_id rid r).
  set (w1 := log_trail _ _ _ _). intros ->. exists w1. split_and!; [done..|].
  destruct (admission (mo_unix m) (he_generated (mo_env m)) (pc_auth pc) r1) as [r'|resp] eqn:Ha.
  2:{ left. exists resp. split; [done|]. by eapply admission_refusal. }
  right. exists r'. split; [done|]. apply admission_passes in Ha as [[Hp ->]|(Hb & p & ids & Hs & Hi & Hf & _ & ->)].
  - split; [done|]. by left.
  - split; [done|]. right. exists p. split; [|done]. unfold r1 in Hs, Hf.
    rewrite session_request_id in Hs. unfold rid in Hs, Hf. rewrite ensureRequestID_again in Hs, Hf by done.
    split_and!; [done|done|]. by exists ids.
Qed.

(** The answers that need no session: health, version, counters, and those of the
    mux itself. *)
Definition public_reply (pc : process) (w : world) (rep : reply) : Prop :=
  rep = Text StatusOK (pc_serviceName pc +:+ " ok")
  \/ rep = Json (writeJSON StatusOK (version_Payload (pc_environ pc) (pc_version pc)))
  \/ rep = Exposition (ob_Metrics (w_seen w))
  \/ rep = Moved \/ exists status text, rep = Text status text /\ (400 <= status)%Z.

Lemma public_serves pc r m escaped (w : world) : public_request (rq_Method r) (url_path escaped) ->
  public_reply pc w (fst (mux_serve pc r m escaped w)) /\ snd (mux_serve pc r m escaped w) = w.
Proof.
  intros Hp. unfold mux_serve, public_reply. destruct (mux_find (rq_Method r) escaped) eqn:Hf; cbn [fst snd].
  - apply public_hit in Hf; [|done]. destruct e; try done; cbn [serve_endpoint fst snd]; eauto 10.
  - eauto 10.
  - split; [|done]. do 4 right. by eexists _, _.
  - split; [|done]. do 4 right. by eexists _, _.
Qed.

(** C2: With authentication required, a request either has an accepted session whose
    user may read every scan it names, or it changes neither the store nor the
    bus nor a counter, and is answered with an error, or, when it is one of the
    three public requests, with the health text, the version, the counters or an
    answer of the mux. *)
Theorem service_protected pc h m escaped r (w : world) :
  handlerWithOwnerStore pc = Ok h -> ac_Required (pc_auth pc) = true ->
  rq_Path r = url_path escaped -> trimmed (he_generated (mo_env m)) ->
  let '(rep, w') := h m escaped r w in
  (exists p, admitted m (pc_auth pc) r p)
  \/ (w_store w' = w_store w /\ w_bus w' = w_bus w /\ ob_Metrics (w_seen w') = ob_Metrics (w_seen w)
     /\ ((exists resp, rep = Json resp /\ (400 <= rs_Status resp)%Z)
         \/ public_request (rq_Method r) (rq_Path r) /\ public_reply pc w rep)).
Proof.
  intros Hh Hr Hp Hg.
  destruct (handler_admits pc h m escaped r w Hh Hr Hg) as (w1 & Hst & Hb & Hm & [(resp & -> & Hs)|(r' & -> & Hme & H)]).
  { right. split_and!; try done. left. by exists resp. }
  destruct H as [[Hpub _]|(p & Ha & _)]; [|destruct (mux_serve _ _ _ _ _); left; by exists p].
  rewrite Hp in Hpub. pose proof Hpub as Hpub'. rewrite <- Hme in Hpub'.
  destruct (public_serves pc r' m escaped w1 Hpub') as [Hrep Hw].
  destruct (mux_serve pc r' m escaped w1) as [rep w']. cbn [fst snd] in Hrep, Hw. subst w'.
  right. split_and!; try done. right. rewrite Hp. split; [done|]. unfold public_reply in *. by rewrite <- Hm.
Qed.

(** One request served, with a policy id that is not in use. *)
Inductive served (h : moment -> string -> Request -> world -> reply * world) (w : world) : world -> Prop :=
| served_one m escaped r : fresh_id m w -> served h w (snd (h m escaped r w)).

Lemma handler_acts pc h m escaped r (w : world) : handlerWithOwnerStore pc = Ok h ->
  exists r', acts_as m r' (w_store w) (w_store (snd (h m escaped r w))).
Proof.
  intros Hh. destruct (ac_Required (pc_auth pc)) eqn:Hr.
  - rewrite (handler_required pc h m escaped r w Hh Hr). cbn zeta.
    destruct (admission _ _ _ _) as [r'|]; [|exists r; apply acts_not]. exists r'. apply (mux_acts pc m escaped r' (log_trail _ _ _ w)).
  - rewrite (handler_open pc h m escaped r w Hh Hr). exists r. apply mux_acts.
Qed.

(** C6: Whatever requests the service serves, in any order, the store stays one in
    which every owner has at most one policy per wallet and every record is
    complete: each request performs at most the creation or deletion of the
    abstract store. *)
Theorem service_refines_store pc h w w' :
  handlerWithOwnerStore pc = Ok h -> rtc (served h) w w' ->
  rtc route_step (w_store w) (w_store w') /\ (store_ok (w_store w) -> store_ok (w_store w')).
Proof.
  intros Hh H. assert (rtc route_step (w_store w) (w_store w')) as Hs.
  { induction H as [|w w1 w2 [m escaped r Hf] _ IH]; [done|]. etrans; [|exact IH].
    destruct (handler_acts pc h m escaped r w Hh) as (r' & Ha). by eapply acts_ok. }
  split; [done|]. intros Hok. by eapply route_steps_ok.
Qed.

(** C3: A stored policy is changed or removed only by a request with an accepted
    session of its owner. *)
Theorem service_isolation pc h m escaped r (w : world) j rec :
  handlerWithOwnerStore pc = Ok h -> ac_Required (pc_auth pc) = true ->
  trimmed (he_generated (mo_env m)) -> rq_Principal r = None -> fresh_id m w ->
  w_store w !! j = Some rec ->
  w_store (snd (h m escaped r w)) !! j = Some rec
  \/ exists p, admitted m (pc_auth pc) r p /\ owns p rec = true.
Proof.
  intros Hh Hr Hg Hn Hf Hj.
  destruct (handler_admits pc h m escaped r w Hh Hr Hg) as (w1 & Hst & _ & _ & [(resp & -> & Hs)|(r' & -> & _ & H)]).
  { left. cbn [snd]. by rewrite Hst. }
  pose proof (mux_acts pc m escaped r' w1) as Ha. rewrite Hst in Ha.
  destruct (acts_isolated _ _ _ _ j rec Hf Ha Hj) as [?|(p & Hp & Ho)]; [by left|right].
  destruct H as [[_ Hpr]|(q & Hq & Hpr)].
  - rewrite Hpr, Hn in Hp. discriminate Hp.
  - rewrite Hpr in Hp. injection Hp as ->. by exists p.
Qed.

(** C36: With authentication switched off the service stores and publishes nothing. *)
Theorem open_service_reads_only pc h m escaped r (w : world) :
  handlerWithOwnerStore pc = Ok h -> ac_Required (pc_auth pc) = false -> rq_Principal r = None ->
  w_store (snd (h m escaped r w)) = w_store w /\ w_bus (snd (h m escaped r w)) = w_bus w.
Proof.
  intros Hh Hr Hn. rewrite (handler_open pc h m escaped r w Hh Hr). split.
  - pose proof (mux_acts pc m escaped r w) as Ha. inversion Ha; congruence.
  - unfold mux_serve. destruct (mux_find _ _) as [e| | |]; [|done..].
    destruct e; cbn [serve_endpoint snd w_bus]; try done.
    + by destruct (handlePOSTExplore _ _ _).
    + unfold handlePoliciesAssessmentRequest. by rewrite Hn.
    + by destruct (handleOwnerGETPolicies _ _ _).
    + by destruct (handleOwnerDELETEPolicies _ _ _).
    + by destruct (handleOwnerGETWalletTargetContext _ _ _).
    + by destruct (handlePolicyPersist _ _ _ _).
Qed.

End ServiceSpec.

(** ** A service *)

#[local] Existing Instances plain_float identity_JCS sample_eth sample_assessment_contract sample_transport.
#[local] Instance no_text : EthText := {| text_hash_hex := fun _ => EmptyString |}.
#[local] Instance open_discovery : Discovery := sample_discovery EmptyBody.

Definition sample_process (cfg : authConfig) : process :=
  mkProcess "cafe-cpm" {[ "APP_VERSION" := "1.2.3" ]} defaultVersion (mkReadStore [] ∅ NewRegistry) cfg.

(** The handler of a process; a process that cannot be built answers 500. *)
Definition built (pc : process) : moment -> string -> Request -> World OwnerScopedStore -> reply * World OwnerScopedStore :=
  match handlerWithOwnerStore pc with Ok h => h | Err _ => fun _ _ _ w => (Text 500 EmptyString, w) end.

Definition user_1 : Principal := mkPrincipal "user-1" "user-1" EmptyString None.
Definition user_store : OwnerScopedStore := fst (CreatePolicy (sample_env "id-1") user_1 sample_create ∅).

Definition sample_moment (id : string) : moment :=
  mkMoment 999 (mkHandlerEnv "req-9" sample_now sample_now (Ok id)) assessment_env.

Definition sample_world : World OwnerScopedStore := mkWorld user_store [] (mkObserved NewMetrics []).

Definition delete_with (header : list (string * string)) : Request :=
  mkRequest MethodDelete Policies "cpm.local" header [("id", "id-1")] NoBody None.

Lemma built_ok : handlerWithOwnerStore (sample_process sample_config) = Ok (built (sample_process sample_config)).
Proof. reflexivity. Qed.

(** A deletion without a token is refused. *)
Lemma service_protected_witness :
  let '(rep, w') := built (sample_process sample_config) (sample_moment "id-2") Policies (delete_with []) sample_world in
  w_store w' = user_store /\ w_bus w' = [] /\ exists resp, rep = Json resp /\ (400 <= rs_Status resp)%Z.
Proof.
  pose proof (service_protected (sample_process sample_config) _ (sample_moment "id-2") Policies (delete_with [])
    sample_world built_ok eq_refl ltac:(vm_compute; reflexivity) ltac:(vm_compute; reflexivity)) as H.
  destruct (built (sample_process sample_config) (sample_moment "id-2") Policies (delete_with []) sample_world) as [rep w'].
  destruct H as [(p & _ & (token & own & accepted & Hb & _) & _)|(Hs & Hb & _ & [H|[[H _] _]])].
  - vm_compute in Hb. discriminate Hb.
  - split; [exact Hs|]. split; [exact Hb|exact H].
  - vm_compute in H. discriminate H.
Defined.

Definition token_header : list (string * string) := [("Authorization", "Bearer " +:+ sample_token)].

Lemma user_store_ok : store_ok user_store.
Proof. apply CreatePolicy_state; [exact new_store_ok|]. intros id _. apply lookup_empty. Qed.

Lemma fresh_sample id : user_store !! id = None -> fresh_id (sample_moment id) sample_world.
Proof. intros H id' [= <-]. exact H. Qed.

(** The owner's deletion goes through, in the owner's name. *)
Lemma service_isolation_witness :
  w_store (snd (built (sample_process sample_config) (sample_moment "id-2") Policies (delete_with token_header) sample_world))
    !! "id-1" = None
  /\ exists p, admitted (sample_moment "id-2") sample_config (delete_with token_header) p /\ pr_UserID p = "user-1".
Proof.
  assert (w_store (snd (built (sample_process sample_config) (sample_moment "id-2") Policies (delete_with token_header)
    sample_world)) !! "id-1" = None) as Hgone by (vm_compute; reflexivity).
  split; [exact Hgone|].
  assert (exists rec, user_store !! "id-1" = Some rec /\ rec_OwnerUserID rec = "user-1") as (rec & Hrec & Ho)
    by (eexists; split; vm_compute; reflexivity).
  destruct (service_isolation (sample_process sample_config) _ (sample_moment "id-2") Policies (delete_with token_header)
    sample_world "id-1" rec built_ok eq_refl ltac:(vm_compute; reflexivity) eq_refl
    (fresh_sample "id-2" ltac:(vm_compute; reflexivity)) Hrec) as [H|(p & Hp & Hown)].
  - rewrite Hgone in H. discriminate H.
  - exists p. split; [exact Hp|]. apply owns_spec in Hown. destruct Hown as [Hown _]. by rewrite <- Hown, Ho.
Defined.

Lemma service_refines_store_witness :
  store_ok (w_store (snd (built (sample_process sample_config) (sample_moment "id-2") Policies
                            (delete_with token_header) sample_world))).
Proof.
  destruct (service_refines_store (sample_process sample_config) _ sample_world _ built_ok
    (rtc_once _ _ (served_one _ _ (sample_moment "id-2") Policies (delete_with token_header)
       (fresh_sample "id-2" ltac:(vm_compute; reflexivity))))) as [_ H].
  exact (H user_store_ok).
Defined.

Definition open_config : authConfig := mkAuthConfig false "" 0 "" "" 0 "" 0 "" 0 "".

Lemma open_service_reads_only_witness :
  w_store (snd (built (sample_process open_config) (sample_moment "id-2") Policies (delete_with token_header) sample_world))
  = user_store.
Proof.
  destruct (open_service_reads_only (sample_process open_config) (built (sample_process open_config)) (sample_moment "id-2")
    Policies (delete_with token_header) sample_world eq_refl eq_refl eq_refl) as [H _]. exact H.
Defined.

(** Health needs no token; the version is the environment's. *)
Example health_example :
  fst (built (sample_process sample_config) (sample_moment "id-2") "/%68ealthz"
    (mkRequest MethodGet "/healthz" "cpm.local" [] [] NoBody None) sample_world) = Text StatusOK "cafe-cpm ok".
Proof. vm_compute. reflexivity. Qed.

(** A policy by id, on the mux and in the inventory. *)
Definition by_id_path : string := "/api/cpm/v1/crypto-policies/pq-hybrid".

Lemma by_id_segments : Forall plain_text_segment (path_segments by_id_path).
Proof. vm_compute. repeat constructor; done. Qed.

Lemma by_id_hit : mux_find MethodGet by_id_path = Hit ECryptoPolicyByID.
Proof. vm_compute. reflexivity. Qed.

Lemma routes_registered_witness : business_request MethodGet (url_path by_id_path).
Proof.
  apply (routes_registered MethodGet by_id_path ltac:(vm_compute; reflexivity) by_id_segments ltac:(discriminate)).
  exists ECryptoPolicyByID. exact (conj by_id_hit eq_refl).
Defined.
