(* ===== verification/Startup.v ===== *)
(** * Start-up

    [Run] of [internal/app/app.go] up to the point where the server listens, and
    [internal/integration/nats/connect.go]: the catalogue is loaded, the policy
    store chosen, the bus connected and the handler built, each from the
    configuration and each able to stop the start. *)

From stdpp Require Import base gmap sets list strings.
From Stdlib Require Import Ascii ZArith NArith.
From S2P Require Import Prelude GoStrings GoUnicode Errors GoTime Manifest Registry GoAny PayloadHash PersistGate WalletTarget WalletAuth OwnerStore Routes Http Metrics ReadStore Upstream Auth ExploreContext ReadApi ExploreRoute Assessment RemoteStore Handlers Observability Config Service.
Local Open Scope string_scope.
Local Open Scope list_scope.

(** A connection to the bus: what publishing a message says. *)
Definition publisher : Type := string -> string -> option string.

(** [nats.Connect] of the client library: a connection, or the text of an error. *)
Class Bus := { bus_connect : string -> res string publisher }.

Section Startup.
Context `{U : Unicode, F : GoFloat, GS : GoSort, GR : GoRange, JE : JsonErrors, C : WalletContract,
          D : Discovery, AC : AssessmentContract, TE : TransportErrors,
          JT : JCS, GJ : GoJson, E : EthCrypto, ET : EthText, B : Bus}.

Definition ConnectPublisher (rawURL : string) : gores publisher :=
  let u := TrimSpace rawURL in
  fail_if is_empty u with errors_New "nats: url is required" ;;
  match bus_connect u with
  | Err text => Err (errors_New ("nats connect: " +:+ text))
  | Ok publish => Ok publish
  end.

(** The part of the configuration that authentication uses. *)
Definition auth_config (cfg : Config) : authConfig := {|
  ac_Required := cf_AuthRequired cfg;
  ac_SessionValidationTimeoutSec := cf_SessionValidationTimeoutSec cfg;
  ac_ScanAuthorizationTimeoutSec := cf_ScanAuthorizationTimeoutSec cfg;
  ac_SessionValidationURL := cf_SessionValidationURL cfg;
  ac_SessionValidationServiceToken := cf_SessionValidationServiceToken cfg;
  ac_ScanAuthorizationURL := cf_ScanAuthorizationURL cfg;
  ac_ScanAuthorizationServiceToken := cf_ScanAuthorizationServiceToken cfg;
  ac_ClockSkewSec := cf_AuthClockSkewSec cfg;
  ac_DiscoveryHTTPBaseURL := cf_DiscoveryHTTPBaseURL cfg;
  ac_DiscoveryHTTPTimeoutSec := cf_DiscoveryHTTPTimeoutSec cfg;
  ac_WalletAuthDomain := cf_WalletAuthDomain cfg
|}.

(** What a service that listens is made of; its handler serves the chosen
    store, whatever the type of its state. *)
Record started := mkStarted {
  sd_process : process;
  sd_policies : chosen_store;
  sd_publish : option publisher;
  sd_addr : string
}.

Definition assessment_publisher (cfg : Config) : gores (option publisher) :=
  let u := TrimSpace (cf_NATSURL cfg) in
  if negb (is_empty u) then publish ← ConnectPublisher u; Ok (Some publish) else Ok None.

Definition catalogue_options (cfg : Config) : ReadStoreOptions := mkOptions (cf_CatalogueDir cfg) [] [].

Definition Run (S : Type) `{PS : PolicyStore S} (b : build) (fs : FileSystem) (e : environ) (linked : string)
    (cfg : Config) : gores started :=
  match LoadReadStore fs (catalogue_options cfg) NewMetrics with
  | (_, _, Err err) => Err (wrap_prefix "load read store" err)
  | (_, _, Ok store) =>
      match newPolicyStore b cfg with
      | Err err => Err (wrap_prefix "policy store" err)
      | Ok ownerStore =>
          publish ← assessment_publisher cfg;
          let pc := mkProcess (cf_ServiceName cfg) e linked store (auth_config cfg) in
          _ ← handlerWithOwnerStore (S := S) pc;
          Ok (mkStarted pc ownerStore publish (cf_HTTPAddr cfg))
      end
  end.

End Startup.

(** ** What is running *)

Section StartupSpec.
Context `{U : Unicode, F : GoFloat, GS : GoSort, GR : GoRange, JE : JsonErrors, C : WalletContract,
          D : Discovery, AC : AssessmentContract, TE : TransportErrors,
          JT : JCS, GJ : GoJson, E : EthCrypto, ET : EthText, B : Bus}.
Context (S : Type) `{PS : PolicyStore S}.

Lemma handler_built pc : is_ok (handlerWithOwnerStore (S := S) pc) = true
  <-> (ac_Required (pc_auth pc) = true -> nonblank (ac_SessionValidationURL (pc_auth pc))).
Proof.
  assert (validateRouteInventory routeInventory = Ok tt) as Hv by (vm_compute; reflexivity).
  unfold handlerWithOwnerStore, withAuthentication, nonblank. rewrite Hv, <- is_empty_false. cbn [mbind res_bind].
  destruct (ac_Required (pc_auth pc)); cbn [negb]; [|done].
  destruct (is_empty _); cbn; naive_solver.
Qed.

Lemma publisher_ok cfg : is_ok (assessment_publisher cfg) = true
  <-> (nonblank (cf_NATSURL cfg) -> is_ok (bus_connect (TrimSpace (cf_NATSURL cfg))) = true).
Proof.
  unfold assessment_publisher, ConnectPublisher, nonblank. rewrite <- is_empty_false, TrimSpace_idem.
  destruct (is_empty (TrimSpace (cf_NATSURL cfg))); cbn; [naive_solver|].
  by destruct (bus_connect _); cbn; naive_solver.
Qed.

Lemma publisher_some cfg o : assessment_publisher cfg = Ok o -> (exists publish, o = Some publish) <-> nonblank (cf_NATSURL cfg).
Proof.
  unfold assessment_publisher, nonblank. rewrite <- is_empty_false.
  destruct (is_empty (TrimSpace (cf_NATSURL cfg))); cbn; [naive_solver|].
  destruct (ConnectPublisher _); cbn; naive_solver.
Qed.

(** C20: A production service starts from its environment exactly when the catalogue
    loads, the store mode is blank or "persistence" with an address and a token,
    the bus answers if one is named, and a session service is named unless
    authentication is turned off.  What then runs has a well-formed catalogue, a
    client of the persistence service with a token and a positive timeout, and
    authentication unless the environment turns it off in so many words. *)
Theorem production_start fs e linked :
  let cfg := LoadFromEnv e in
  (is_ok (Run S BuildProd fs e linked cfg) = true <->
     is_ok (snd (LoadReadStore fs (catalogue_options cfg) NewMetrics)) = true
     /\ (store_mode cfg = EmptyString \/ store_mode cfg = storePersistence)
     /\ nonblank (cf_PersistenceURL cfg) /\ nonblank (cf_PersistenceServiceToken cfg)
     /\ (nonblank (cf_NATSURL cfg) -> is_ok (bus_connect (TrimSpace (cf_NATSURL cfg))) = true)
     /\ (cf_AuthRequired cfg = true -> nonblank (cf_SessionValidationURL cfg)))
  /\ forall st, (forall paths, no_nul_ids fs paths) -> Run S BuildProd fs e linked cfg = Ok st ->
       store_wf (pc_store (sd_process st))
       /\ (exists c t, sd_policies st = PersistenceStore c t /\ cl_token c <> EmptyString /\ (0 < t <= int64_max)%Z)
       /\ (ac_Required (pc_auth (sd_process st)) = false
           <-> exists v, e !! "CPM_AUTH_REQUIRED" = Some v /\ v ∈ false_words)
       /\ ((exists publish, sd_publish st = Some publish) <-> nonblank (cf_NATSURL cfg)).
Proof.
  cbn zeta. set (cfg := LoadFromEnv e). unfold Run.
  destruct (LoadReadStore fs (catalogue_options cfg) NewMetrics) as [[log mt] [store|err]] eqn:Hl; cbn [snd is_ok];
    [|split; [naive_solver|done]].
  pose proof (fun ost => newPolicyStore_cases BuildProd cfg ost) as Hc. pose proof (newPersistencePolicyStore_spec cfg) as Hn.
  destruct (newPolicyStore BuildProd cfg) as [ost|err] eqn:Ho; cbn [is_ok].
  2:{ split; [|done]. split; [done|]. intros (_ & Hm & Hu & Ht & _).
      pose proof (proj2 (Hc _) (or_intror (conj Hm (proj2 (Hn _) (conj Hu (conj Ht eq_refl)))))) as [=]. }
  assert ((store_mode cfg = EmptyString \/ store_mode cfg = storePersistence)
          /\ nonblank (cf_PersistenceURL cfg) /\ nonblank (cf_PersistenceServiceToken cfg)) as (Hm & Hu & Ht).
  { destruct (proj1 (Hc ost) eq_refl) as [(? & _)|(? & (? & ? & _)%Hn)]; done. }
  pose proof (publisher_ok cfg) as Hp. pose proof (publisher_some cfg) as Hps.
  destruct (assessment_publisher cfg) as [publish|err]; cbn [mbind res_bind is_ok] in *; [|split; [naive_solver|done]].
  set (pc := mkProcess _ _ _ _ _). pose proof (handler_built pc) as Hh.
  destruct (handlerWithOwnerStore pc) as [h|err]; cbn [mbind res_bind is_ok] in *.
  2:{ split; [|done]. split; [done|]. naive_solver. }
  split; [naive_solver|]. intros st Hnul [= <-]. cbn [sd_process sd_policies sd_publish pc_store pc_auth].
  split_and!.
  - unfold LoadReadStore, catalogue_options in Hl. cbn [op_CatalogueDir] in Hl.
    destruct (negb _); [by eapply load_dir_wf|done].
  - destruct (proj1 (Hc ost) eq_refl) as [(? & _)|(_ & H)]; [done|].
    apply Hn in H as (_ & _ & ->). eexists _, _. split; [done|]. split; [done|apply persistence_timeout_range].
  - apply getEnvBool_default_true.
  - by apply Hps.
Qed.

End StartupSpec.

(** ** A start *)

#[local] Existing Instances plain_float identity_JCS sample_eth sample_assessment_contract sample_transport.
#[local] Instance no_text_hash : EthText := {| text_hash_hex := fun _ => EmptyString |}.
#[local] Instance quiet_discovery : Discovery := sample_discovery EmptyBody.
#[local] Instance local_bus : Bus :=
  {| bus_connect := fun u => if String.eqb u "nats://bus:4222" then Ok (fun _ _ => None) else Err "no servers available" |}.

Definition sample_environ : environ :=
  {[ "CPM_CATALOGUE_DIR" := " catalogue "; "CPM_PERSISTENCE_URL" := "http://cafe-persistence:8082";
     "CAFE_PERSISTENCE_SERVICE_TOKEN" := "token"; "CPM_NATS_URL" := "nats://bus:4222 ";
     "CAFE_SESSION_JWT_VALIDATION_URL" := "http://discovery/validate" ]}.

Definition starts (e : environ) : bool :=
  is_ok (Run OwnerScopedStore BuildProd sample_fs e defaultVersion (LoadFromEnv e)).

Example start_example : starts sample_environ = true
  /\ starts (delete "CAFE_SESSION_JWT_VALIDATION_URL" sample_environ) = false
  /\ starts (<["CPM_AUTH_REQUIRED" := "off"]> (delete "CAFE_SESSION_JWT_VALIDATION_URL" sample_environ)) = true
  /\ starts (<["CPM_STORE" := "Memory"]> sample_environ) = false
  /\ starts (<["CPM_NATS_URL" := "nats://elsewhere"]> sample_environ) = false.
Proof. vm_compute. by split_and!. Qed.
